(* ===== verification/_CoqProject ===== *)
-Q . S2P
Prelude.v
CLib.v
Flags.v
Zend.v
GFmt.v
LibMemcached.v
World.v
Toy.v
Keys.v
CasToken.v
DoubleBounds.v
FastLZ.v
FastLZSpec.v
FastLZProofs.v
FastLZRoundTrip.v
FastLZSafety.v
Payload.v
PayloadProofs.v
Store.v
StoreProofs.v
Fetch.v
FetchProofs.v
FetchResults.v
Options.v
OptionsProofs.v
Servers.v
ServersProofs.v
Session.v
SessionProofs.v
SessionLocks.v
SessionSpec.v
SessionStore.v
SessionSteps.v
Lifecycle.v
LifecycleProofs.v
SessionHandles.v
SessionHandlesProofs.v
SessionMemory.v
SessionConfig.v
Results.v
Ini.v
IniProofs.v
ProtoServer.v
ProtoLoop.v
ProtoServerProofs.v
ServerCallbacks.v
ServerLoop.v
ServerScript.v
ServerObject.v
ArgInfo.v
LegacyArgInfo.v
Methods.v
MethodTypes.v
MethodArgs.v
Constants.v
KeyMemory.v
CounterText.v
CacheServer.v
CacheMap.v
SessionLiveness.v
Registration.v
RegistrationProofs.v
