(* ===== verification/Prelude.v ===== *)
(** * A verification of php-memcached

    php-memcached is a PHP extension in C: the class [Memcached], a client of
    memcached servers on top of libmemcached; a session handler; the class
    [MemcachedServer], a protocol server whose commands PHP callbacks answer; and a
    bundled copy of the FastLZ compressor. This library translates its sources to
    Rocq and proves what makes them correct. File and function names below are
    those of src/.

    ** How the program is modelled

    Every C function with an effect is a function of a state monad, [M W A] below:
    from a world [W] it returns a value, stops the request as an [E_ERROR] does
    ([Bailout]), does something C leaves undefined ([Undef]), or runs out of fuel
    ([NoFuel]). [wp m Q w] says that [m] does neither of the last two from [w] and
    that [Q] holds if it returns. Names are the C names where there is one.

    - What is not in the repository is a type class: the Zend engine
      ([ZendRuntime], [ZendIni]; Zend, Ini), libmemcached over an abstract type of
      handles (LibMemcached), the script's callables ([UserFunctions]; ProtoServer),
      the choices of config.m4 ([BuildConfig], [OptionalMethods],
      [LibraryConstants]). A law class beside each ([ZendLaws], [FetchLaws] and the
      like) states the documented behaviour a theorem relies on. Toy gives concrete
      instances, on which every theorem with a hypothesis is applied (the lemmas
      whose names end in _witness). CLib has what is used of the C library, as
      definitions.
    - Machine integers are [Z] with their wrap-around written out ([u32], [s64]),
      on a platform with 32-bit [int] and 64-bit [long]. Where the C code
      overflows a signed integer (the waits of the session lock, with settings beyond
      2^62), the model wraps around; the theorems ask for settings below that.
    - Doubles are [SpecFloat] values of the binary64 format.
    - Pointers to blocks that are allocated and freed (handles, session handles,
      callables, clients, servers) are numbers of cells in a [gmap]; a use of a cell
      that is not there is [Undef].
    - A payload is the string of its bytes. FastLZ runs on bounded memory: a read or
      write out of bounds is a failure of the model.

    ** The parts, and where they are

    - php_memcached.c, by its sections. Flags: the flag word. CasToken: CAS tokens and
      PHP values. World: the object, its user data and result codes. Keys: key
      checks and key lists; KeyMemory: the memory of these lists. Payload: values to payloads and back, with FastLZ (fastlz/fastlz.c) and
      GFmt (g_fmt.c) below it. Store: every command that writes. Fetch: every command
      that reads. Options: options and buckets. Servers: the server list, statistics,
      maintenance. Results: credentials, encoding key, last result. Lifecycle:
      construction, persistent handles, destruction. Ini: settings and module globals.
      Methods: the methods as a script calls them, which compose the operations above.
      Constants: the class constants. Registration: the start of the module (MINIT,
      with the classes, the settings, the session handler), its end, its phpinfo.
    - php_memcached_arginfo.h and php_memcached_legacy_arginfo.h: ArgInfo and
      LegacyArgInfo; MethodArgs has the parameters each method parses.
    - php_memcached_session.c: Session (locks, reading, writing, on an open handle),
      SessionHandles (opening, configuring and closing handles) and SessionMemory (the
      allocators of a handle).
    - php_memcached_server.c: ProtoServer (handlers and callbacks), ProtoLoop (sockets,
      clients, the event loop), ServerObject (creation and destruction).
    - php_libmemcached_compat.c is in Store and Session, where it is called;
      php_memcached_private.h in Payload, Session, Ini and ProtoServer.

    A method runs on one world: the PHP object, its handle, the user data attached to
    the handle and the globals. Lifecycle gives each object its world out of a heap of
    handles, SessionHandles each session function its world out of another. The
    methods meet in Payload (what Store writes Fetch reads back), in the result codes
    of World, and in the user data, which Options and Ini fill and Store, Fetch and
    Payload read.

    ** What is proved

    - What is stored comes back: PayloadProofs (any value, serializer and
      compression), FastLZProofs and FastLZRoundTrip (the compressor against the
      token format of FastLZSpec), CasToken, FetchResults ([set] then [get], also with
      the CAS token and the user flags of the extended form),
      SessionProofs (a session that was written), OptionsProofs (options).
    - The client as a whole refines a finite map: CacheServer has the operations of the
      map and what is asked of a server, CacheMap a forward simulation over any sequence
      of set, add, replace, get, delete, touch, increment, decrement, setMulti, getMulti
      and deleteMulti (CounterText: how a server writes a counter).
    - Memory is used while it is allocated: LifecycleProofs, SessionHandlesProofs,
      ServerCallbacks, ServerLoop and ServerScript, ServerObject (invariants over any
      sequence of operations; the script of LifecycleProofs has constructor callbacks
      that are scripts themselves); FastLZSafety, DoubleBounds and PayloadProofs
      (buffers); KeyMemory and SessionMemory (what is taken is given back).
    - Sessions as a whole: SessionSpec is an abstract store of sessions and locks, in
      which sessions and locks may expire and which, like the code, lets anybody write
      and destroy. SessionStore shows that any interleaving of the commands of many
      processes, with failing commands and other traffic, refines it, and that no update
      of a session is lost under the conditions it names: everybody who writes has the
      lock, and no lock expires. SessionSteps shows that the session functions are
      sequences of these commands.
    - Session locks: SessionLocks (mutual exclusion between processes while the item of
      the lock stays, and for any server, settings and states how it breaks after the
      item is gone), SessionProofs (bounded waiting), SessionLiveness (a lock that is
      freed is taken).
    - What each command does on each branch, errors included: StoreProofs,
      FetchProofs, FetchResults, ServersProofs, Keys, SessionConfig,
      ProtoServerProofs.
    - The module starts: RegistrationProofs.
    - Declarations and code agree: MethodTypes (return types), MethodArgs (arguments
      and defaults), Constants, IniProofs (settings), OptionsProofs.
    - Where the code does not do what it means to, a theorem says what it does: among
      them the retry of a by-key write ([set_by_key_retry_drops_the_server_key]),
      callbacks of the protocol server after [run] ([run_leaves_freed_callbacks]),
      nested construction ([nested_persistent_construction_dangles]), a prefix that is
      refused ([refused_prefix_is_reported_as_set]), reads past the
      input of FastLZ ([fastlz_decompress_overreads], [fastlz2_reads_past_the_input]).

    ** Loops and fuel

    Recursion is structural where the C code walks a list. The other loops have fuel:
    - FastLZ: the length of the input (plus one in the decompressor), what is left of
      it, or the length to encode; every turn advances or subtracts at least 255.
      FastLZRoundTrip and FastLZSafety prove that it never runs out.
    - [result_loop] and [drain] (Fetch) fetch from a library that may not end: fuel
      is one more than the number of results the handle has pending, and
      [php_memc_result_apply_terminates] shows that it is enough.
    - [lock_loop] (Session): one more than the retries, which every turn counts down;
      the other retry loops recurse on their retry count.
    - [serve], [run_events], [fill_keys] and the like recurse on what they are given.
    - [dec_aux] (CLib): the binary logarithm of the number plus one.

    ** Not modelled

    - The lines left are prototypes, includes, conditional compilation and macros that
      only build table entries.
    - Freeing of strings and arrays within a function, key lists and session handles
      apart, and reference counts of values (callables of the protocol server apart).
    - The engine's argument parser; a method is a function of its parsed arguments.
    - Text of warnings with its arguments filled in: a warning is its format.
    - fastlz.h is declarations; tests, build files and documentation are no part of
      the program.

    ** What could follow

    The parts of the sources that have logic are modelled. Stronger results would be
    the refinement of CacheMap with expiration, CAS tokens and server keys, and
    retrieval on several servers with replicas. *)

From Stdlib Require Export ZArith Lia Ascii String.
From stdpp Require Export base numbers strings gmap list.

Declare Scope memc_scope.
Delimit Scope memc_scope with memc.
#[local] Open Scope Z_scope.

(** ** Machine integers

    The model is the LP64 build: [int] and [uint32_t] have 32 bits, [long],
    [zend_long], [size_t] and [uint64_t] have 64. *)
Definition u8 (z : Z) : Z := z mod 2 ^ 8.
Definition u16 (z : Z) : Z := z mod 2 ^ 16.
Definition u32 (z : Z) : Z := z mod 2 ^ 32.
Definition u64 (z : Z) : Z := z mod 2 ^ 64.

(** The two's complement value of the low [w] bits. *)
Definition signed (w z : Z) : Z := (z + 2 ^ (w - 1)) mod 2 ^ w - 2 ^ (w - 1).
Definition s32 (z : Z) : Z := signed 32 z.
Definition s64 (z : Z) : Z := signed 64 z.

Definition LONG_MAX : Z := 2 ^ 63 - 1.
Definition LONG_MIN : Z := - 2 ^ 63.
Definition UINT64_MAX : Z := 2 ^ 64 - 1.

Definition is_u8 (z : Z) : Prop := 0 <= z < 2 ^ 8.
Definition is_u32 (z : Z) : Prop := 0 <= z < 2 ^ 32.
Definition is_u64 (z : Z) : Prop := 0 <= z < 2 ^ 64.
Definition is_long (z : Z) : Prop := LONG_MIN <= z <= LONG_MAX.

Create HintDb memc.
Create Rewrite HintDb memc_rw.

Lemma u8_range z : is_u8 (u8 z).
Proof. unfold is_u8, u8. by apply Z.mod_pos_bound. Qed.

Lemma u32_range z : is_u32 (u32 z).
Proof. unfold is_u32, u32. by apply Z.mod_pos_bound. Qed.

Lemma u64_range z : is_u64 (u64 z).
Proof. unfold is_u64, u64. by apply Z.mod_pos_bound. Qed.

Lemma u8_id z : is_u8 z → u8 z = z.
Proof. unfold is_u8, u8. intros. by apply Z.mod_small. Qed.

Lemma u32_id z : is_u32 z → u32 z = z.
Proof. unfold is_u32, u32. intros. by apply Z.mod_small. Qed.

Lemma u64_id z : is_u64 z → u64 z = z.
Proof. unfold is_u64, u64. intros. by apply Z.mod_small. Qed.

Lemma s64_range z : is_long (s64 z).
Proof.
  unfold is_long, s64, signed, LONG_MIN, LONG_MAX.
  pose proof (Z.mod_pos_bound (z + 2 ^ (64 - 1)) (2 ^ 64)). lia.
Qed.

Lemma s64_id z : is_long z → s64 z = z.
Proof.
  unfold is_long, s64, signed, LONG_MIN, LONG_MAX. intros.
  rewrite Z.mod_small; lia.
Qed.

#[export] Hint Resolve u8_range u32_range u64_range s64_range : memc.

(** ** Outcomes of a C function

    A function of the extension runs on a world [W].  It returns a value, or it
    stops the request through an [E_ERROR] (Zend's bailout), or it does
    something the C standard leaves undefined; [NoFuel] is the model's own way
    to stop a loop whose bound was not enough. *)
Inductive outcome (W A : Type) : Type :=
| Ret (a : A) (w : W)
| Bailout (w : W)
| Undef
| NoFuel.
Arguments Ret {W A} a w.
Arguments Bailout {W A} w.
Arguments Undef {W A}.
Arguments NoFuel {W A}.

Definition M (W A : Type) : Type := W → outcome W A.

#[export] Instance M_ret W : MRet (M W) := λ A a w, Ret a w.
#[export] Instance M_bind W : MBind (M W) := λ A B k m w,
  match m w with
  | Ret a w' => k a w'
  | Bailout w' => Bailout w'
  | Undef => Undef
  | NoFuel => NoFuel
  end.

Definition get {W} : M W W := λ w, Ret w w.
Definition gets {W A} (f : W → A) : M W A := λ w, Ret (f w) w.
Definition modify {W} (f : W → W) : M W unit := λ w, Ret tt (f w).
Definition fatal {W A} : M W A := λ w, Bailout w.
Definition undef {W A} : M W A := λ _, Undef.
Definition no_fuel {W A} : M W A := λ _, NoFuel.
Definition when {W} (b : bool) (m : M W unit) : M W unit :=
  if b then m else mret tt.

Section OutcomeLaws.
Context {W : Type}.

Lemma bind_Ret {A B} (m : M W A) (k : A → M W B) w a w' :
  m w = Ret a w' → (m ≫= k) w = k a w'.
Proof. unfold mbind, M_bind. by intros ->. Qed.

Lemma bind_inv {A B} (m : M W A) (k : A → M W B) w b w'' :
  (m ≫= k) w = Ret b w'' → ∃ a w', m w = Ret a w' ∧ k a w' = Ret b w''.
Proof. unfold mbind, M_bind. destruct (m w); naive_solver. Qed.

Lemma bind_assoc {A B C} (m : M W A) (k : A → M W B) (h : B → M W C) w :
  ((m ≫= k) ≫= h) w = (m ≫= (λ a, k a ≫= h)) w.
Proof. unfold mbind, M_bind. by destruct (m w). Qed.

Lemma ret_bind {A B} (a : A) (k : A → M W B) w : (mret a ≫= k) w = k a w.
Proof. done. Qed.
End OutcomeLaws.

(** The primitive operations, one step each. *)
Section Steps.
Context {W : Type}.

Lemma get_bind {B} (k : W → M W B) w : (get ≫= k) w = k w w.
Proof. done. Qed.

Lemma gets_bind {A B} (f : W → A) (k : A → M W B) w : (gets f ≫= k) w = k (f w) w.
Proof. done. Qed.

Lemma modify_bind {B} f (k : unit → M W B) w : (modify f ≫= k) w = k tt (f w).
Proof. done. Qed.

Lemma fatal_bind {A B} (k : A → M W B) w : (fatal ≫= k) w = Bailout w.
Proof. done. Qed.

Lemma undef_bind {A B} (k : A → M W B) w : (undef ≫= k) w = Undef.
Proof. done. Qed.

Lemma when_bind {B} b m (k : unit → M W B) w :
  (when b m ≫= k) w = if b then (m ≫= k) w else k tt w.
Proof. by destruct b. Qed.
End Steps.
#[export] Hint Rewrite @ret_bind @get_bind @gets_bind @modify_bind @fatal_bind @undef_bind
  @bind_assoc : memc_rw.

(** Runs the monadic plumbing of a goal: [mrun] computes, [mstep] takes the steps
    the rewrite database knows. *)
Ltac mrun :=
  cbv beta iota delta [mret mbind M_ret M_bind get gets modify fatal undef no_fuel when fst snd].
Ltac mstep := repeat (autorewrite with memc_rw; cbv beta).

(** Takes every [bind] of a successful run apart. *)
Ltac minv :=
  repeat match goal with
  | H : (_ ≫= _) _ = Ret _ _ |- _ =>
      apply bind_inv in H; destruct H as (? & ? & ? & H)
  | H : mret _ _ = Ret _ _ |- _ => unfold mret, M_ret in H
  | H : Ret _ _ = Ret _ _ |- _ => injection H as; subst
  end; simplify_eq.

(** Linear arithmetic with quotients and remainders. *)
Ltac dlia := Z.to_euclidean_division_equations; lia.

(** ** What an operation leaves alone

    [preserves f m]: whenever [m] returns, [f] of the world is what it was. *)
Definition preserves {W A B} (f : W → B) (m : M W A) : Prop :=
  ∀ w a w', m w = Ret a w' → f w' = f w.

Section Preserves.
Context {W B : Type} (f : W → B).

Lemma preserves_ret {A} (a : A) : preserves f (mret a : M W A).
Proof. intros w a' w' [= _ <-]. done. Qed.

Lemma preserves_gets {A} (g : W → A) : preserves f (gets g).
Proof. intros w a' w' [= _ <-]. done. Qed.

Lemma preserves_fatal {A} : preserves f (fatal : M W A).
Proof. done. Qed.

Lemma preserves_undef {A} : preserves f (undef : M W A).
Proof. done. Qed.

Lemma preserves_no_fuel {A} : preserves f (no_fuel : M W A).
Proof. done. Qed.

Lemma preserves_modify g : (∀ w, f (g w) = f w) → preserves f (modify g).
Proof. intros Hg w a' w' [= _ <-]. apply Hg. Qed.

Lemma preserves_bind {A C} (m : M W A) (k : A → M W C) :
  preserves f m → (∀ a, preserves f (k a)) → preserves f (m ≫= k).
Proof.
  intros Hm Hk w c w' R. apply bind_inv in R as (a & w1 & R1 & R2).
  by rewrite (Hk _ _ _ _ R2), (Hm _ _ _ R1).
Qed.

Lemma preserves_when b m : preserves f m → preserves f (when b m).
Proof. intros Hm. destruct b; [done|apply preserves_ret]. Qed.
End Preserves.
#[export] Hint Resolve preserves_ret preserves_gets preserves_fatal preserves_undef
  preserves_no_fuel preserves_modify preserves_when : memc.

(** Proves [preserves] of a composition: binds and case distinctions, then the
    lemmas in the database. *)
Ltac preserve :=
  repeat (simpl; first
    [ apply preserves_bind; [|intros ?]
    | solve [auto with memc]
    | case_match ]).

(** ** Operations that always return and keep an invariant

    [keeps P m]: from a world in [P], [m] returns, into a world in [P]. *)
Definition keeps {W A} (P : W → Prop) (m : M W A) : Prop :=
  ∀ w, P w → ∃ a w', m w = Ret a w' ∧ P w'.

Section Keeps.
Context {W : Type} (P : W → Prop).

Lemma keeps_ret {A} (a : A) : keeps P (mret a : M W A).
Proof. intros w Hw. by exists a, w. Qed.

Lemma keeps_gets {A} (g : W → A) : keeps P (gets g).
Proof. intros w Hw. by exists (g w), w. Qed.

Lemma keeps_modify g : (∀ w, P w → P (g w)) → keeps P (modify g).
Proof. intros Hg w Hw. exists tt, (g w). auto. Qed.

Lemma keeps_bind {A C} (m : M W A) (k : A → M W C) :
  keeps P m → (∀ a, keeps P (k a)) → keeps P (m ≫= k).
Proof.
  intros Hm Hk w Hw. destruct (Hm w Hw) as (a & w1 & E & Hw1).
  destruct (Hk a w1 Hw1) as (c & w2 & E2 & Hw2). exists c, w2.
  by rewrite (bind_Ret _ _ _ _ _ E).
Qed.

Lemma keeps_when b m : keeps P m → keeps P (when b m).
Proof. intros Hm. destruct b; [done|apply keeps_ret]. Qed.
End Keeps.
#[export] Hint Resolve keeps_ret keeps_gets keeps_when : memc.

(** Proves [keeps] of a composition, as [preserve] does. *)
Ltac keep :=
  repeat (first
    [ solve [auto with memc]
    | apply keeps_bind; [|intros ?]
    | apply keeps_when
    | case_match ]).

(** ** Weakest preconditions

    [wp m Q w]: from [w], [m] does nothing undefined and does not run out of
    fuel, and if it returns, the result and the world satisfy [Q]. *)
Definition wp {W A} (m : M W A) (Q : A → W → Prop) (w : W) : Prop :=
  match m w with
  | Ret a w' => Q a w'
  | Bailout _ => True
  | Undef | NoFuel => False
  end.

Section Wp.
Context {W : Type}.

Lemma wp_mono {A} (m : M W A) (Q Q' : A → W → Prop) w :
  wp m Q w → (∀ a w', Q a w' → Q' a w') → wp m Q' w.
Proof. unfold wp. destruct (m w); auto. Qed.

Lemma wp_bind {A B} (m : M W A) (k : A → M W B) Q w :
  wp m (λ a w', wp (k a) Q w') w → wp (m ≫= k) Q w.
Proof. unfold wp, mbind, M_bind. by destruct (m w). Qed.

Lemma wp_ret {A} (a : A) (Q : A → W → Prop) w : Q a w → wp (mret a) Q w.
Proof. done. Qed.

Lemma wp_get (Q : W → W → Prop) w : Q w w → wp get Q w.
Proof. done. Qed.

Lemma wp_gets {A} (f : W → A) (Q : A → W → Prop) w : Q (f w) w → wp (gets f) Q w.
Proof. done. Qed.

Lemma wp_modify f (Q : unit → W → Prop) w : Q tt (f w) → wp (modify f) Q w.
Proof. done. Qed.

Lemma wp_when b m (Q : unit → W → Prop) w :
  (b = true → wp m Q w) → (b = false → Q tt w) → wp (when b m) Q w.
Proof. intros Ht Hf. destruct b; [by apply Ht|by apply Hf]. Qed.

Lemma wp_fatal {A} (Q : A → W → Prop) w : wp fatal Q w.
Proof. done. Qed.
End Wp.
#[export] Hint Resolve wp_ret wp_get wp_gets wp_modify wp_fatal : memc.
