(* ===== verification/CLib.v ===== *)
(** * The part of the C library the extension calls

    Strings are [string]s of 8-bit characters; a [zend_string] carries its length
    and may hold NUL bytes, and the functions below that take a [char *] see it
    only up to its first NUL ([c_str]).  The [ctype.h] classes are those of the
    "C" locale, which is the one PHP runs in. *)

From S2P Require Import Prelude.
#[local] Open Scope Z_scope.

(** ** Characters *)

Definition code (c : ascii) : Z := Z.of_N (N_of_ascii c).
Definition chr (z : Z) : ascii := ascii_of_N (Z.to_N z).

Lemma code_range c : is_u8 (code c).
Proof.
  unfold is_u8, code. pose proof (N_ascii_bounded c). lia.
Qed.

Lemma code_chr z : is_u8 z → code (chr z) = z.
Proof.
  unfold is_u8, code, chr. intros. rewrite N_ascii_embedding by lia. lia.
Qed.

Lemma chr_code c : chr (code c) = c.
Proof. unfold chr, code. by rewrite N2Z.id, ascii_N_embedding. Qed.

#[global] Instance code_inj : Inj (=) (=) code.
Proof. intros a b E. rewrite <- (chr_code a), <- (chr_code b). congruence. Qed.

Definition isspace (c : ascii) : bool :=
  (code c =? 32) || ((9 <=? code c) && (code c <=? 13)).

Definition isgraph (c : ascii) : bool := (33 <=? code c) && (code c <=? 126).

(** ** Strings and bytes *)

Definition bytes_of_string (s : string) : list Z := code <$> list_ascii_of_string s.
Definition string_of_bytes (l : list Z) : string := string_of_list_ascii (chr <$> l).

Lemma string_of_bytes_of_string s : string_of_bytes (bytes_of_string s) = s.
Proof.
  unfold string_of_bytes, bytes_of_string.
  rewrite <- list_fmap_compose.
  rewrite <- (string_of_list_ascii_of_string s) at 2. f_equal.
  rewrite <- (list_fmap_id (list_ascii_of_string s)) at 2.
  apply list_fmap_ext. intros _ c _. apply chr_code.
Qed.

Lemma bytes_of_string_of_bytes l :
  Forall is_u8 l → bytes_of_string (string_of_bytes l) = l.
Proof.
  intros Hl. unfold string_of_bytes, bytes_of_string.
  rewrite list_ascii_of_string_of_list_ascii, <- list_fmap_compose.
  rewrite <- (list_fmap_id l) at 2. apply list_fmap_ext.
  intros i z Hz. apply code_chr. by apply (Forall_lookup_1 _ _ _ _ Hl Hz).
Qed.

Lemma bytes_of_string_u8 s : Forall is_u8 (bytes_of_string s).
Proof.
  unfold bytes_of_string. apply Forall_fmap, Forall_true. intros c. apply code_range.
Qed.

Lemma length_bytes_of_string s : length (bytes_of_string s) = String.length s.
Proof.
  unfold bytes_of_string. rewrite length_fmap.
  induction s as [|c s IH]; [done|]. simpl. by rewrite IH.
Qed.

Lemma bytes_of_string_app s t :
  bytes_of_string (s ++ t) = bytes_of_string s ++ bytes_of_string t.
Proof. induction s; [done|]. unfold bytes_of_string in *. simpl. by f_equal. Qed.

#[export] Hint Rewrite string_of_bytes_of_string length_bytes_of_string
  bytes_of_string_app : memc_rw.
#[export] Hint Resolve bytes_of_string_u8 code_range : memc.

Lemma string_length_app s t :
  String.length (s ++ t) = (String.length s + String.length t)%nat.
Proof. induction s as [|c s IH]; [done|]. cbn. by rewrite <- IH. Qed.

(** The [char *] view of a string: everything before the first NUL. *)
Fixpoint c_str (s : string) : string :=
  match s with
  | EmptyString => EmptyString
  | String c s' => if code c =? 0 then EmptyString else String c (c_str s')
  end.

Definition strlen (s : string) : Z := Z.of_nat (String.length (c_str s)).

(** [ZSTR_LEN]. *)
Definition zstr_len (s : string) : Z := Z.of_nat (String.length s).

(** [memchr(s, c, len) != NULL] over the whole of [s]. *)
Fixpoint memchr (s : string) (c : ascii) : bool :=
  match s with
  | EmptyString => false
  | String d s' => if Ascii.eqb d c then true else memchr s' c
  end.

(** Does [p] hold of every character? The loops over [ZSTR_VAL] are of this form. *)
Fixpoint string_forallb (p : ascii → bool) (s : string) : bool :=
  match s with
  | EmptyString => true
  | String c s' => p c && string_forallb p s'
  end.

Lemma string_forallb_spec p s :
  string_forallb p s = true ↔ Forall (λ c, p c = true) (list_ascii_of_string s).
Proof.
  induction s as [|c s IH]; simpl; [split; auto|].
  rewrite andb_true_iff, Forall_cons_iff, IH. done.
Qed.

Lemma memchr_spec s c :
  memchr s c = false ↔ Forall (λ d, d ≠ c) (list_ascii_of_string s).
Proof.
  induction s as [|d s IH]; simpl; [split; auto|].
  rewrite Forall_cons_iff, <- IH. destruct (Ascii.eqb_spec d c); intuition congruence.
Qed.

Lemma c_str_prefix s : ∃ t, s = (c_str s ++ t)%string.
Proof.
  induction s as [|c s [t IH]]; [by exists ""|]. simpl.
  case_match; [by eexists|]. exists t. by rewrite IH at 1.
Qed.

Lemma c_str_idemp s : c_str (c_str s) = c_str s.
Proof.
  induction s as [|c s IH]; [done|]. simpl. destruct (code c =? 0) eqn:E; [done|]. simpl. by rewrite E, IH.
Qed.

Lemma strlen_le s : 0 <= strlen s <= zstr_len s.
Proof.
  unfold strlen, zstr_len. destruct (c_str_prefix s) as [t Ht].
  assert (String.length s = String.length (c_str s) + String.length t)%nat
    by (rewrite <- string_length_app; by f_equal).
  lia.
Qed.

Lemma string_app_nil_r (s : string) : (s ++ "")%string = s.
Proof. induction s as [|c s IH]; [done|]. exact (f_equal (String c) IH). Qed.

Lemma string_app_assoc (s t u : string) : ((s ++ t) ++ u)%string = (s ++ (t ++ u))%string.
Proof. induction s as [|c s IH]; [done|]. exact (f_equal (String c) IH). Qed.

Lemma zstr_len_app s t : zstr_len (s ++ t) = zstr_len s + zstr_len t.
Proof. unfold zstr_len. rewrite string_length_app. lia. Qed.


(** ** Decimal output: ["%ld"], ["%llu"] and [smart_str_append_long] *)

Definition digit_char (d : Z) : ascii := chr (48 + d).

Fixpoint dec_aux (fuel : nat) (n : Z) (acc : string) : string :=
  let acc' := String (digit_char (n mod 10)) acc in
  match fuel with
  | O => acc'
  | S f => if n <? 10 then acc' else dec_aux f (n / 10) acc'
  end.

Definition udec (n : Z) : string := dec_aux (Z.to_nat (Z.log2 n)) n "".
Definition ldec (n : Z) : string :=
  if n <? 0 then String "-" (udec (- n)) else udec n.

(** ** Decimal and radix input: [strtol] and [strtoull] *)

Definition digit_value (c : ascii) : option Z :=
  let z := code c in
  if (48 <=? z) && (z <=? 57) then Some (z - 48)
  else if (97 <=? z) && (z <=? 122) then Some (z - 87)
  else if (65 <=? z) && (z <=? 90) then Some (z - 55)
  else None.

Definition base_digit (base : Z) (c : ascii) : option Z :=
  match digit_value c with
  | Some d => if d <? base then Some d else None
  | None => None
  end.

Fixpoint scan_digits (base acc : Z) (s : string) : Z * string :=
  match s with
  | EmptyString => (acc, s)
  | String c s' =>
      match base_digit base c with
      | Some d => scan_digits base (acc * base + d) s'
      | None => (acc, s)
      end
  end.

Fixpoint skip_spaces (s : string) : string :=
  match s with
  | String c s' => if isspace c then skip_spaces s' else s
  | EmptyString => s
  end.

Definition scan_sign (s : string) : bool * string :=
  match s with
  | String "-" s' => (true, s')
  | String "+" s' => (false, s')
  | _ => (false, s)
  end.

(** The base a subject sequence selects when the caller passes base 0. *)
Definition detect_base (s : string) : Z * string :=
  match s with
  | String "0" (String x (String d r)) =>
      if (Ascii.eqb x "x" || Ascii.eqb x "X") && bool_decide (is_Some (base_digit 16 d))
      then (16, String d r) else (8, s)
  | String "0" _ => (8, s)
  | _ => (10, s)
  end.

Definition starts_with_digit (base : Z) (s : string) : bool :=
  match s with
  | String c _ => bool_decide (is_Some (base_digit base c))
  | EmptyString => false
  end.

(** The magnitude, the sign, the unread rest and whether a number was read at
    all; [base = 0] asks for detection. *)
Definition strto_scan (base : Z) (s : string) : option (bool * Z * string) :=
  let '(neg, s1) := scan_sign (skip_spaces s) in
  let '(b, s2) := if base =? 0 then detect_base s1 else (base, s1) in
  if starts_with_digit b s2
  then let '(v, rest) := scan_digits b 0 s2 in Some (neg, v, rest)
  else None.

(** [strtoull(nptr, &end, base)]: value, what [end] points at, [errno == ERANGE]. *)
Definition strtoull (base : Z) (nptr : string) : Z * string * bool :=
  let s := c_str nptr in
  match strto_scan base s with
  | None => (0, s, false)
  | Some (neg, v, rest) =>
      if UINT64_MAX <? v then (UINT64_MAX, rest, true)
      else ((if neg then u64 (- v) else v), rest, false)
  end.

(** [strtol(nptr, &end, base)]; the last component says [end == nptr]. *)
Definition strtol (base : Z) (nptr : string) : Z * string * bool * bool :=
  let s := c_str nptr in
  match strto_scan base s with
  | None => (0, s, false, true)
  | Some (neg, v, rest) =>
      let z := if neg then - v else v in
      if LONG_MAX <? z then (LONG_MAX, rest, true, false)
      else if z <? LONG_MIN then (LONG_MIN, rest, true, false)
      else (z, rest, false, false)
  end.

(** ** Printing then reading gives the number back *)

Lemma digit_char_value d : 0 <= d < 10 → digit_value (digit_char d) = Some d.
Proof.
  intros Hd. unfold digit_value, digit_char.
  rewrite code_chr by (unfold is_u8; lia).
  replace (48 <=? 48 + d) with true by lia.
  replace (48 + d <=? 57) with true by lia. simpl. f_equal. lia.
Qed.

Lemma digit_char_base b d : 0 <= d < 10 → d < b → base_digit b (digit_char d) = Some d.
Proof.
  intros Hd Hb. unfold base_digit. rewrite digit_char_value by done.
  by replace (d <? b) with true by lia.
Qed.

Lemma scan_digits_step acc d s :
  0 <= d < 10 →
  scan_digits 10 acc (String (digit_char d) s) = scan_digits 10 (acc * 10 + d) s.
Proof. intros Hd. cbn [scan_digits]. by rewrite digit_char_base by lia. Qed.

Lemma scan_dec_aux fuel n acc :
  0 <= n < 10 ^ Z.of_nat (S fuel) →
  scan_digits 10 0 (dec_aux fuel n acc) = scan_digits 10 n acc.
Proof.
  revert n acc. induction fuel as [|f IH]; intros n acc Hn; cbn [dec_aux].
  - rewrite Z.mod_small by lia. by rewrite scan_digits_step by lia.
  - destruct (Z.ltb_spec n 10).
    + rewrite Z.mod_small by lia. by rewrite scan_digits_step by lia.
    + rewrite IH.
      * rewrite scan_digits_step by (pose proof (Z.mod_pos_bound n 10); lia).
        f_equal. pose proof (Z.div_mod n 10). lia.
      * rewrite Nat2Z.inj_succ, Z.pow_succ_r in Hn by lia.
        split; [apply Z.div_pos; lia|]. apply Z.div_lt_upper_bound; lia.
Qed.

Lemma log2_fuel n : 0 <= n → n < 10 ^ Z.of_nat (S (Z.to_nat (Z.log2 n))).
Proof.
  intros Hn. rewrite Nat2Z.inj_succ, Z2Nat.id by apply Z.log2_nonneg.
  destruct (Z.eq_dec n 0) as [->|]; [done|].
  pose proof (Z.log2_spec n) as [_ H]; [lia|].
  eapply Z.lt_le_trans; [exact H|]. apply Z.pow_le_mono_l. lia.
Qed.

Lemma scan_udec n : 0 <= n → scan_digits 10 0 (udec n) = (n, EmptyString).
Proof.
  intros Hn. unfold udec. rewrite scan_dec_aux; [done|].
  split; [done|]. by apply log2_fuel.
Qed.

(** The first character of the numeral of a positive number is a nonzero digit. *)
Lemma dec_aux_head fuel n acc :
  0 <= n < 10 ^ Z.of_nat (S fuel) →
  ∃ d s, dec_aux fuel n acc = String (digit_char d) s ∧ 0 <= d < 10 ∧ (0 < n → 0 < d).
Proof.
  revert n acc. induction fuel as [|f IH]; intros n acc Hn; cbn [dec_aux].
  - rewrite Z.mod_small by lia. eexists _, _. split; [done|]. lia.
  - destruct (Z.ltb_spec n 10).
    + rewrite Z.mod_small by lia. eexists _, _. split; [done|]. lia.
    + destruct (IH (n / 10) (String (digit_char (n mod 10)) acc)) as (d & s & E & Hd & Hp).
      * rewrite Nat2Z.inj_succ, Z.pow_succ_r in Hn by lia.
        split; [apply Z.div_pos; lia|]. apply Z.div_lt_upper_bound; lia.
      * exists d, s. repeat split; try done; try lia. intros _. apply Hp.
        apply Z.div_str_pos. lia.
Qed.

Lemma udec_head n :
  0 <= n → ∃ d s, udec n = String (digit_char d) s ∧ 0 <= d < 10 ∧ (0 < n → 0 < d).
Proof. intros. apply dec_aux_head. split; [done|]. by apply log2_fuel. Qed.

Lemma c_str_dec_aux fuel n acc :
  0 <= n → c_str acc = acc → c_str (dec_aux fuel n acc) = dec_aux fuel n acc.
Proof.
  revert n acc. induction fuel as [|f IH]; intros n acc Hn Hacc; cbn [dec_aux].
  all: assert (c_str (String (digit_char (n mod 10)) acc)
                = String (digit_char (n mod 10)) acc) as Hd.
  1, 3: cbn [c_str]; unfold digit_char; rewrite code_chr
          by (unfold is_u8; pose proof (Z.mod_pos_bound n 10); lia);
        replace (48 + n mod 10 =? 0) with false
          by (pose proof (Z.mod_pos_bound n 10); lia); congruence.
  - done.
  - case_match; [done|]. apply IH; [apply Z.div_pos; lia|done].
Qed.

Lemma c_str_udec n : 0 <= n → c_str (udec n) = udec n.
Proof. intros. by apply c_str_dec_aux. Qed.

Lemma digit_char_cases d :
  0 <= d < 10 → In (d, digit_char d)
    [(0, "0"); (1, "1"); (2, "2"); (3, "3"); (4, "4"); (5, "5"); (6, "6"); (7, "7");
     (8, "8"); (9, "9")]%char.
Proof.
  intros. assert (d ∈ [0;1;2;3;4;5;6;7;8;9]) as Hd by (rewrite !elem_of_cons; lia).
  rewrite !elem_of_cons, elem_of_nil in Hd.
  repeat destruct Hd as [-> | Hd]; simpl; tauto.
Qed.

(** A positive numeral is read in base 10 when base 0 asks for detection, and
    nothing of it is skipped or taken for a sign. *)
Lemma strto_scan_udec base n :
  0 <= n → base = 10 ∨ (base = 0 ∧ 0 < n) →
  strto_scan base (udec n) = Some (false, n, EmptyString).
Proof.
  intros Hn Hb. destruct (udec_head n Hn) as (d & s & E & Hd & Hp).
  pose proof (scan_udec n Hn) as Hscan.
  unfold strto_scan. rewrite E in *.
  assert (skip_spaces (String (digit_char d) s) = String (digit_char d) s) as ->.
  { pose proof (digit_char_cases d Hd) as Hc. simpl in Hc.
    repeat destruct Hc as [[= <- <-] | Hc]; done. }
  assert (scan_sign (String (digit_char d) s) = (false, String (digit_char d) s)) as ->.
  { pose proof (digit_char_cases d Hd) as Hc. simpl in Hc.
    repeat destruct Hc as [[= <- <-] | Hc]; done. }
  assert ((if base =? 0 then detect_base (String (digit_char d) s)
           else (base, String (digit_char d) s)) = (10, String (digit_char d) s)) as ->.
  { destruct Hb as [-> | [-> Hpos]]; [done|]. specialize (Hp Hpos). cbn [Z.eqb].
    pose proof (digit_char_cases d Hd) as Hc. simpl in Hc.
    repeat destruct Hc as [[= <- <-] | Hc]; done || lia. }
  cbn [starts_with_digit]. rewrite digit_char_base by lia.
  rewrite bool_decide_eq_true_2 by done. by rewrite Hscan.
Qed.

Lemma strtoull_udec n :
  0 < n <= UINT64_MAX → strtoull 0 (udec n) = (n, EmptyString, false).
Proof.
  intros Hn. unfold strtoull. rewrite c_str_udec by lia.
  rewrite strto_scan_udec by lia. by replace (UINT64_MAX <? n) with false by lia.
Qed.

Lemma c_str_ldec z : c_str (ldec z) = ldec z.
Proof.
  unfold ldec. destruct (Z.ltb_spec z 0).
  - cbn [c_str]. by rewrite c_str_udec by lia.
  - apply c_str_udec. lia.
Qed.

Lemma strtol_ldec z : is_long z → strtol 10 (ldec z) = (z, EmptyString, false, false).
Proof.
  unfold is_long. intros Hz. unfold strtol. rewrite c_str_ldec.
  assert (strto_scan 10 (ldec z) = Some (z <? 0, Z.abs z, EmptyString)) as ->.
  { unfold ldec. destruct (Z.ltb_spec z 0).
    - pose proof (strto_scan_udec 10 (- z)) as Hs.
      rewrite Z.abs_neq by lia. unfold strto_scan in *. simpl in *.
      destruct (udec_head (- z)) as (d & s & E & Hd & Hp); [lia|].
      rewrite E in *. cbn [starts_with_digit] in *.
      rewrite digit_char_base in * by lia.
      rewrite bool_decide_eq_true_2 by done.
      pose proof (scan_udec (- z)) as Hscan. rewrite E in Hscan. by rewrite Hscan by lia.
    - rewrite Z.abs_eq by lia. apply strto_scan_udec; lia. }
  destruct (Z.ltb_spec z 0).
  - replace (- Z.abs z) with z by lia.
    replace (LONG_MAX <? z) with false by (unfold LONG_MAX; lia).
    by replace (z <? LONG_MIN) with false by lia.
  - rewrite Z.abs_eq by lia.
    replace (LONG_MAX <? z) with false by lia.
    by replace (z <? LONG_MIN) with false by (unfold LONG_MIN; lia).
Qed.

Lemma ldec_inj z1 z2 : is_long z1 → is_long z2 → ldec z1 = ldec z2 → z1 = z2.
Proof.
  intros H1 H2 E. pose proof (strtol_ldec z1 H1) as P1.
  rewrite E, (strtol_ldec z2 H2) in P1. congruence.
Qed.
