(* ===== verification/Flags.v ===== *)
(** * The payload flag word

    Every item is stored with a 32-bit word of client flags, which
    php_memcached.c divides into a type (4 bits), internal flags (12 bits) and
    user flags (16 bits) with the [MEMC_*] macros of its head. *)

From S2P Require Import Prelude.
#[local] Open Scope Z_scope.

Definition MEMC_CREATE_MASK (start n_bits : Z) : Z :=
  u32 (Z.shiftl (u32 (Z.shiftl 1 n_bits - 1)) start).

Definition MEMC_MASK_TYPE : Z := MEMC_CREATE_MASK 0 4.
Definition MEMC_MASK_INTERNAL : Z := MEMC_CREATE_MASK 4 12.
Definition MEMC_MASK_USER : Z := MEMC_CREATE_MASK 16 16.

Definition MEMC_VAL_GET_TYPE (flags : Z) : Z := Z.land flags MEMC_MASK_TYPE.
Definition MEMC_VAL_SET_TYPE (flags type : Z) : Z :=
  Z.lor flags (Z.land type MEMC_MASK_TYPE).

Definition MEMC_VAL_IS_STRING : Z := 0.
Definition MEMC_VAL_IS_LONG : Z := 1.
Definition MEMC_VAL_IS_DOUBLE : Z := 2.
Definition MEMC_VAL_IS_BOOL : Z := 3.
Definition MEMC_VAL_IS_SERIALIZED : Z := 4.
Definition MEMC_VAL_IS_IGBINARY : Z := 5.
Definition MEMC_VAL_IS_JSON : Z := 6.
Definition MEMC_VAL_IS_MSGPACK : Z := 7.

Definition MEMC_VAL_COMPRESSED : Z := Z.shiftl 1 0.
Definition MEMC_VAL_COMPRESSION_ZLIB : Z := Z.shiftl 1 1.
Definition MEMC_VAL_COMPRESSION_FASTLZ : Z := Z.shiftl 1 2.
Definition MEMC_VAL_COMPRESSION_ZSTD : Z := Z.shiftl 1 3.

Definition MEMC_VAL_GET_FLAGS (internal_flags : Z) : Z :=
  Z.shiftr (Z.land internal_flags MEMC_MASK_INTERNAL) 4.
Definition MEMC_VAL_SET_FLAG (internal_flags internal_flag : Z) : Z :=
  Z.lor internal_flags (Z.land (Z.shiftl internal_flag 4) MEMC_MASK_INTERNAL).
Definition MEMC_VAL_HAS_FLAG (internal_flags internal_flag : Z) : bool :=
  Z.land (MEMC_VAL_GET_FLAGS internal_flags) internal_flag =? internal_flag.
Definition MEMC_VAL_DEL_FLAG (internal_flags internal_flag : Z) : Z :=
  Z.land internal_flags
    (u32 (Z.lnot (Z.land (Z.shiftl internal_flag 4) MEMC_MASK_INTERNAL))).

Definition MEMC_VAL_GET_USER_FLAGS (flags : Z) : Z :=
  Z.shiftr (Z.land flags MEMC_MASK_USER) 16.
Definition MEMC_VAL_SET_USER_FLAGS (flags udf_flags : Z) : Z :=
  Z.lor flags (Z.land (Z.shiftl udf_flags 16) MEMC_MASK_USER).
Definition MEMC_VAL_USER_FLAGS_MAX : Z := Z.shiftl 1 16 - 1.

(** ** The three fields *)

Lemma mask_type_eq : MEMC_MASK_TYPE = Z.ones 4. Proof. reflexivity. Qed.
Lemma mask_internal_eq : MEMC_MASK_INTERNAL = Z.shiftl (Z.ones 12) 4.
Proof. reflexivity. Qed.
Lemma mask_user_eq : MEMC_MASK_USER = Z.shiftl (Z.ones 16) 16.
Proof. reflexivity. Qed.

(** What each setter stores, read through each getter. *)
Lemma get_type_lor a b :
  MEMC_VAL_GET_TYPE (Z.lor a b) = Z.lor (MEMC_VAL_GET_TYPE a) (MEMC_VAL_GET_TYPE b).
Proof. apply Z.land_lor_distr_l. Qed.

Lemma get_flags_lor a b :
  MEMC_VAL_GET_FLAGS (Z.lor a b) = Z.lor (MEMC_VAL_GET_FLAGS a) (MEMC_VAL_GET_FLAGS b).
Proof. unfold MEMC_VAL_GET_FLAGS. by rewrite Z.land_lor_distr_l, Z.shiftr_lor. Qed.

Lemma get_user_lor a b :
  MEMC_VAL_GET_USER_FLAGS (Z.lor a b)
  = Z.lor (MEMC_VAL_GET_USER_FLAGS a) (MEMC_VAL_GET_USER_FLAGS b).
Proof. unfold MEMC_VAL_GET_USER_FLAGS. by rewrite Z.land_lor_distr_l, Z.shiftr_lor. Qed.

(** A field read back through its own mask, and through a disjoint one. *)
Lemma field_same x n w :
  0 <= n → 0 <= w →
  Z.shiftr (Z.land (Z.land (Z.shiftl x n) (Z.shiftl (Z.ones w) n)) (Z.shiftl (Z.ones w) n)) n
  = Z.land x (Z.ones w).
Proof.
  intros. rewrite <- Z.land_assoc, Z.land_diag, Z.shiftr_land.
  rewrite !Z.shiftr_shiftl_l by lia. by rewrite !Z.sub_diag, !Z.shiftl_0_r.
Qed.

Lemma field_disjoint x m m' : Z.land m m' = 0 → Z.land (Z.land x m) m' = 0.
Proof. intros E. by rewrite <- Z.land_assoc, E, Z.land_0_r. Qed.

Lemma get_type_type t : MEMC_VAL_GET_TYPE (Z.land t MEMC_MASK_TYPE) = t mod 2 ^ 4.
Proof.
  unfold MEMC_VAL_GET_TYPE.
  by rewrite <- Z.land_assoc, Z.land_diag, mask_type_eq, Z.land_ones by lia.
Qed.

Lemma get_flags_flag f :
  MEMC_VAL_GET_FLAGS (Z.land (Z.shiftl f 4) MEMC_MASK_INTERNAL) = f mod 2 ^ 12.
Proof.
  unfold MEMC_VAL_GET_FLAGS. rewrite mask_internal_eq, field_same by lia.
  by rewrite Z.land_ones by lia.
Qed.

Lemma get_user_user u :
  MEMC_VAL_GET_USER_FLAGS (Z.land (Z.shiftl u 16) MEMC_MASK_USER) = u mod 2 ^ 16.
Proof.
  unfold MEMC_VAL_GET_USER_FLAGS. rewrite mask_user_eq, field_same by lia.
  by rewrite Z.land_ones by lia.
Qed.

Lemma get_type_set_type w t :
  MEMC_VAL_GET_TYPE (MEMC_VAL_SET_TYPE w t) = Z.lor (MEMC_VAL_GET_TYPE w) (t mod 2 ^ 4).
Proof. unfold MEMC_VAL_SET_TYPE. by rewrite get_type_lor, get_type_type. Qed.

Lemma get_type_set_flag w f :
  MEMC_VAL_GET_TYPE (MEMC_VAL_SET_FLAG w f) = MEMC_VAL_GET_TYPE w.
Proof.
  unfold MEMC_VAL_SET_FLAG. rewrite get_type_lor.
  unfold MEMC_VAL_GET_TYPE at 2. rewrite field_disjoint by done. apply Z.lor_0_r.
Qed.

Lemma get_type_set_user w u :
  MEMC_VAL_GET_TYPE (MEMC_VAL_SET_USER_FLAGS w u) = MEMC_VAL_GET_TYPE w.
Proof.
  unfold MEMC_VAL_SET_USER_FLAGS. rewrite get_type_lor.
  unfold MEMC_VAL_GET_TYPE at 2. rewrite field_disjoint by done. apply Z.lor_0_r.
Qed.

Lemma get_flags_set_type w t :
  MEMC_VAL_GET_FLAGS (MEMC_VAL_SET_TYPE w t) = MEMC_VAL_GET_FLAGS w.
Proof.
  unfold MEMC_VAL_SET_TYPE. rewrite get_flags_lor.
  unfold MEMC_VAL_GET_FLAGS at 2. rewrite field_disjoint by done. apply Z.lor_0_r.
Qed.

Lemma get_flags_set_flag w f :
  MEMC_VAL_GET_FLAGS (MEMC_VAL_SET_FLAG w f) = Z.lor (MEMC_VAL_GET_FLAGS w) (f mod 2 ^ 12).
Proof. unfold MEMC_VAL_SET_FLAG. by rewrite get_flags_lor, get_flags_flag. Qed.

Lemma get_flags_set_user w u :
  MEMC_VAL_GET_FLAGS (MEMC_VAL_SET_USER_FLAGS w u) = MEMC_VAL_GET_FLAGS w.
Proof.
  unfold MEMC_VAL_SET_USER_FLAGS. rewrite get_flags_lor.
  unfold MEMC_VAL_GET_FLAGS at 2. rewrite field_disjoint by done. apply Z.lor_0_r.
Qed.

Lemma get_user_set_type w t :
  MEMC_VAL_GET_USER_FLAGS (MEMC_VAL_SET_TYPE w t) = MEMC_VAL_GET_USER_FLAGS w.
Proof.
  unfold MEMC_VAL_SET_TYPE. rewrite get_user_lor.
  unfold MEMC_VAL_GET_USER_FLAGS at 2. rewrite field_disjoint by done. apply Z.lor_0_r.
Qed.

Lemma get_user_set_flag w f :
  MEMC_VAL_GET_USER_FLAGS (MEMC_VAL_SET_FLAG w f) = MEMC_VAL_GET_USER_FLAGS w.
Proof.
  unfold MEMC_VAL_SET_FLAG. rewrite get_user_lor.
  unfold MEMC_VAL_GET_USER_FLAGS at 2. rewrite field_disjoint by done. apply Z.lor_0_r.
Qed.

Lemma get_user_set_user w u :
  MEMC_VAL_GET_USER_FLAGS (MEMC_VAL_SET_USER_FLAGS w u)
  = Z.lor (MEMC_VAL_GET_USER_FLAGS w) (u mod 2 ^ 16).
Proof. unfold MEMC_VAL_SET_USER_FLAGS. by rewrite get_user_lor, get_user_user. Qed.

#[export] Hint Rewrite get_type_set_type get_type_set_flag get_type_set_user
  get_flags_set_type get_flags_set_flag get_flags_set_user
  get_user_set_type get_user_set_flag get_user_set_user : memc_rw.

(** Deleting an internal flag clears exactly its bits. *)
Lemma get_flags_del_flag w f :
  is_u32 w →
  MEMC_VAL_GET_FLAGS (MEMC_VAL_DEL_FLAG w f) = Z.ldiff (MEMC_VAL_GET_FLAGS w) f.
Proof.
  intros Hw. unfold MEMC_VAL_GET_FLAGS, MEMC_VAL_DEL_FLAG, u32.
  rewrite <- (Z.land_ones _ 32), mask_internal_eq by lia.
  apply Z.bits_inj'. intros i Hi.
  rewrite Z.ldiff_spec, !Z.shiftr_spec, !Z.land_spec, Z.lnot_spec, Z.land_spec,
    !Z.shiftl_spec by lia.
  replace (i + 4 - 4) with i by lia. rewrite !Z.testbit_ones_nonneg by lia.
  destruct (Z.ltb_spec i 12), (Z.ltb_spec (i + 4) 32); try lia;
    rewrite ?andb_false_r, ?andb_true_r; done.
Qed.

(** ** The word is a lossless packing of its fields *)

Definition pack_flags (type internal user : Z) : Z :=
  MEMC_VAL_SET_USER_FLAGS (MEMC_VAL_SET_FLAG (MEMC_VAL_SET_TYPE 0 type) internal) user.

Lemma lor_u32 a b : is_u32 a → is_u32 b → is_u32 (Z.lor a b).
Proof.
  unfold is_u32. intros Ha Hb. split; [apply Z.lor_nonneg; lia|].
  destruct (Z.eq_dec (Z.lor a b) 0) as [->|]; [lia|].
  apply Z.log2_lt_pow2; [pose proof (Z.lor_nonneg a b); lia|].
  rewrite Z.log2_lor by lia.
  apply Z.max_lub_lt.
  - destruct (Z.eq_dec a 0) as [->|]; [simpl; lia|]. apply Z.log2_lt_pow2; lia.
  - destruct (Z.eq_dec b 0) as [->|]; [simpl; lia|]. apply Z.log2_lt_pow2; lia.
Qed.

Lemma land_mask_u32 x m : is_u32 m → is_u32 (Z.land x m).
Proof.
  unfold is_u32. intros Hm. split; [apply Z.land_nonneg; lia|].
  assert (Z.land x m = Z.land (Z.land x m) (Z.ones 32)) as ->.
  { rewrite <- Z.land_assoc. f_equal. by rewrite Z.land_ones, Z.mod_small by lia. }
  rewrite Z.land_ones by lia. by apply Z.mod_pos_bound.
Qed.

Lemma set_type_u32 w t : is_u32 w → is_u32 (MEMC_VAL_SET_TYPE w t).
Proof. intros. by apply lor_u32; [|apply land_mask_u32]. Qed.
Lemma set_flag_u32 w f : is_u32 w → is_u32 (MEMC_VAL_SET_FLAG w f).
Proof. intros. by apply lor_u32; [|apply land_mask_u32]. Qed.
Lemma set_user_u32 w u : is_u32 w → is_u32 (MEMC_VAL_SET_USER_FLAGS w u).
Proof. intros. by apply lor_u32; [|apply land_mask_u32]. Qed.
#[export] Hint Resolve set_type_u32 set_flag_u32 set_user_u32 : memc.

Lemma get_flags_testbit w i :
  0 <= i → Z.testbit (MEMC_VAL_GET_FLAGS w) i = (i <? 12) && Z.testbit w (i + 4).
Proof.
  intros Hi. unfold MEMC_VAL_GET_FLAGS. rewrite mask_internal_eq.
  rewrite Z.shiftr_spec, Z.land_spec, Z.shiftl_spec, Z.testbit_ones_nonneg by lia.
  rewrite andb_comm. f_equal. destruct (Z.ltb_spec i 12), (Z.ltb_spec (i + 4 - 4) 12); lia.
Qed.

Lemma get_user_testbit w i :
  0 <= i → Z.testbit (MEMC_VAL_GET_USER_FLAGS w) i = (i <? 16) && Z.testbit w (i + 16).
Proof.
  intros Hi. unfold MEMC_VAL_GET_USER_FLAGS. rewrite mask_user_eq.
  rewrite Z.shiftr_spec, Z.land_spec, Z.shiftl_spec, Z.testbit_ones_nonneg by lia.
  rewrite andb_comm. f_equal. destruct (Z.ltb_spec i 16), (Z.ltb_spec (i + 16 - 16) 16); lia.
Qed.

Lemma pack_flags_get w :
  is_u32 w →
  pack_flags (MEMC_VAL_GET_TYPE w) (MEMC_VAL_GET_FLAGS w) (MEMC_VAL_GET_USER_FLAGS w) = w.
Proof.
  intros Hw. rewrite <- (u32_id w Hw) at 4. unfold u32. rewrite <- Z.land_ones by lia.
  apply Z.bits_inj'. intros i Hi.
  unfold pack_flags, MEMC_VAL_SET_USER_FLAGS, MEMC_VAL_SET_FLAG, MEMC_VAL_SET_TYPE.
  unfold MEMC_VAL_GET_TYPE. rewrite Z.lor_0_l, mask_type_eq, mask_internal_eq, mask_user_eq.
  rewrite !Z.lor_spec, !Z.land_spec, !Z.shiftl_spec by lia.
  rewrite (Z.testbit_ones_nonneg 4), (Z.testbit_ones_nonneg 32) by lia.
  assert (∀ n k, 0 <= k → Z.testbit (Z.ones k) (i - n) = (n <=? i) && (i - n <? k)) as Hones.
  { intros n k Hk. destruct (Z.leb_spec n i); simpl.
    - by apply Z.testbit_ones_nonneg; lia.
    - by apply Z.testbit_neg_r; lia. }
  rewrite !Hones by lia.
  destruct (Z.leb_spec 4 i), (Z.leb_spec 16 i); try lia; simpl;
    rewrite ?andb_false_r, ?orb_false_r.
  - rewrite (get_user_testbit w (i - 16)) by lia.
    replace (i - 16 + 16) with i by lia.
    destruct (Z.ltb_spec i 4), (Z.ltb_spec (i - 4) 12), (Z.ltb_spec (i - 16) 16),
      (Z.ltb_spec i 32); try lia; rewrite ?andb_false_r, ?andb_true_r; simpl; done.
  - rewrite get_flags_testbit by lia.
    replace (i - 4 + 4) with i by lia.
    destruct (Z.ltb_spec i 4), (Z.ltb_spec (i - 4) 12), (Z.ltb_spec i 32); try lia;
      rewrite ?andb_false_r, ?andb_true_r; simpl; done.
  - destruct (Z.ltb_spec i 4), (Z.ltb_spec i 32); try lia;
      rewrite ?andb_true_r; done.
Qed.

Lemma pack_flags_fields t f u :
  MEMC_VAL_GET_TYPE (pack_flags t f u) = t mod 2 ^ 4 ∧
  MEMC_VAL_GET_FLAGS (pack_flags t f u) = f mod 2 ^ 12 ∧
  MEMC_VAL_GET_USER_FLAGS (pack_flags t f u) = u mod 2 ^ 16.
Proof. unfold pack_flags. autorewrite with memc_rw. repeat split; apply Z.lor_0_l. Qed.

(** The flag word is its three fields.  Setting the type, the internal flags and
    the user flags puts each into its own bits, cut to 4, 12 and 16 bits, and
    disturbs no other; and a 32-bit word is rebuilt exactly from what the getters
    read. *)
Theorem flag_word_fields :
  (∀ t f u,
     MEMC_VAL_GET_TYPE (pack_flags t f u) = t mod 2 ^ 4 ∧
     MEMC_VAL_GET_FLAGS (pack_flags t f u) = f mod 2 ^ 12 ∧
     MEMC_VAL_GET_USER_FLAGS (pack_flags t f u) = u mod 2 ^ 16)
  ∧ ∀ w, is_u32 w →
      pack_flags (MEMC_VAL_GET_TYPE w) (MEMC_VAL_GET_FLAGS w) (MEMC_VAL_GET_USER_FLAGS w) = w.
Proof. split; [exact pack_flags_fields|exact pack_flags_get]. Qed.

Lemma flag_word_fields_witness :
  pack_flags (MEMC_VAL_GET_TYPE 458836) (MEMC_VAL_GET_FLAGS 458836) (MEMC_VAL_GET_USER_FLAGS 458836)
  = 458836 ∧ MEMC_VAL_GET_USER_FLAGS 458836 = 7.
Proof. split; [|reflexivity]. apply flag_word_fields. unfold is_u32. lia. Defined.
