(* ===== verification/Zend.v ===== *)
(** * What the extension sees of the Zend engine

    The values a script passes in ([zval]) with the array operations the
    extension performs on them, and, as a type class, the engine's own
    conversions, serializers and number formatting.  The engine is not part of
    the repository: [ZendRuntime] has no definition here, only the laws of
    [ZendLaws], each of which is documented behaviour of PHP. *)

From Stdlib Require Import Floats.SpecFloat.
From S2P Require Import Prelude CLib.
#[local] Set Warnings "-register-all".
#[local] Open Scope Z_scope.

(** A C [double], as a binary64 value. *)
Abbreviation double := spec_float.
Definition prec : Z := 53.
Definition emax : Z := 1024.
Definition double_of_Z (z : Z) : double := binary_normalize prec emax z 0 false.
Definition dmul (x y : double) : double := SFmul prec emax x y.
Definition dadd (x y : double) : double := SFadd prec emax x y.

(** A PHP array key: an integer or a string that is not a decimal integer. *)
Inductive zkey : Type :=
| KInt (z : Z)
| KStr (s : string).

#[global] Instance zkey_eq_dec : EqDecision zkey.
Proof. solve_decision. Defined.

(** The values of a script.  Resources, references and the like never reach the
    operations modelled here; an object is a handle whose content only the
    engine's functions look at. *)
Inductive zval : Type :=
| ZNull
| ZFalse
| ZTrue
| ZLong (l : Z)
| ZDouble (d : double)
| ZStr (s : string)
| ZArr (a : list (zkey * zval))
| ZObj (handle : Z).

Definition ZBool (b : bool) : zval := if b then ZTrue else ZFalse.

Abbreviation zarray := (list (zkey * zval)).

(** [zend_hash_find] and [zend_hash_update]: an update in place keeps the
    element's position, a new key goes to the end. *)
Fixpoint arr_find (a : zarray) (k : zkey) : option zval :=
  match a with
  | [] => None
  | (k', v) :: a' => if decide (k' = k) then Some v else arr_find a' k
  end.

Fixpoint arr_update (a : zarray) (k : zkey) (v : zval) : zarray :=
  match a with
  | [] => [(k, v)]
  | (k', v') :: a' =>
      if decide (k' = k) then (k', v) :: a' else (k', v') :: arr_update a' k v
  end.

(** [nNextFreeElement], for arrays filled by appending. *)
Fixpoint next_index (a : zarray) : Z :=
  match a with
  | [] => 0
  | (KInt z, _) :: a' => Z.max (z + 1) (next_index a')
  | (KStr _, _) :: a' => next_index a'
  end.

Definition add_next_index (a : zarray) (v : zval) : zarray :=
  a ++ [(KInt (next_index a), v)].

Definition arr_keys (a : zarray) : list zkey := a.*1.
Definition arr_vals (a : zarray) : list zval := a.*2.

Lemma arr_find_update a k v k' :
  arr_find (arr_update a k v) k' = if decide (k = k') then Some v else arr_find a k'.
Proof.
  induction a as [|[k0 v0] a IH]; simpl; [by repeat case_decide|].
  repeat (case_decide; simplify_eq; simpl); try done.
Qed.

Lemma arr_keys_update_in a k v :
  k ∈ arr_keys a → arr_keys (arr_update a k v) = arr_keys a.
Proof.
  unfold arr_keys. induction a as [|[k0 v0] a IH]; simpl; [by intros ?%elem_of_nil|].
  intros [->|Hin]%elem_of_cons; [by rewrite decide_True|].
  destruct (decide (k0 = k)); [done|]. simpl. f_equal. by apply IH.
Qed.

Lemma arr_keys_update_new a k v :
  k ∉ arr_keys a → arr_keys (arr_update a k v) = arr_keys a ++ [k].
Proof.
  unfold arr_keys. induction a as [|[k0 v0] a IH]; simpl; [done|].
  intros [Hne Hin]%not_elem_of_cons. rewrite decide_False by done.
  simpl. f_equal. by apply IH.
Qed.

Lemma arr_find_keys a k : is_Some (arr_find a k) ↔ k ∈ arr_keys a.
Proof.
  induction a as [|[k0 v0] a IH]; simpl.
  - rewrite elem_of_nil. split; [by intros [? ?]|done].
  - rewrite elem_of_cons. case_decide; subst.
    + split; [by left|by eexists].
    + rewrite IH. split; [by right|by intros [->|?]].
Qed.

Lemma arr_keys_update_subset a k v : ∀ k', k' ∈ arr_keys a → k' ∈ arr_keys (arr_update a k v).
Proof.
  intros k' Hk'. destruct (decide (k ∈ arr_keys a)).
  - by rewrite arr_keys_update_in.
  - rewrite arr_keys_update_new by done. apply elem_of_app. by left.
Qed.

Lemma NoDup_arr_update a k v : NoDup (arr_keys a) → NoDup (arr_keys (arr_update a k v)).
Proof.
  intros Hnd. destruct (decide (k ∈ arr_keys a)).
  - by rewrite arr_keys_update_in.
  - rewrite arr_keys_update_new by done. apply NoDup_app. repeat split; [done| |].
    + intros x Hx ->%list_elem_of_singleton. done.
    + apply NoDup_singleton.
Qed.

#[export] Hint Rewrite arr_find_update : memc_rw.
#[export] Hint Resolve NoDup_arr_update : memc.

(** ** The engine's own functions

    [zend_dtoa(x, 0, 0, ...)] returns the digits, the decimal point position and
    the sign of a double; for an infinity or a NaN the position is 9999 and the
    digits are the name. *)
Record dtoa_result : Type := mkDtoa { dtoa_digits : string; dtoa_decpt : Z; dtoa_sign : bool }.

(** A serializer's effect: [smart_str.s] afterwards (NULL when nothing was
    written), and whether user code it ran left an exception. *)
Record ser_result : Type := mkSer { ser_buf : option string; ser_exception : bool }.

(** An unserializer's effect: the value when it succeeded, and the exception flag. *)
Record unser_result : Type := mkUnser { unser_value : option zval; unser_exception : bool }.

(** The compression libraries: [None] is their error result.
    [ZSTD_getFrameContentSize] also answers [Some None], the size is unknown.
    [zend_strtod] sees its argument up to the first NUL.  [fresh_bytes n] is what a new buffer of [n] bytes holds. *)
Class ZendRuntime : Type := {
  zval_get_string : zval → string;
  zval_get_long : zval → Z;
  zval_get_double : zval → double;
  zend_is_true : zval → bool;
  symtable_key : string → zkey;
  zend_dtoa : double → dtoa_result;
  zend_strtod : string → double;
  double_to_u64 : double → Z;
  php_var_serialize : zval → ser_result;
  php_var_unserialize : string → unser_result;
  igbinary_serialize : zval → ser_result;
  igbinary_unserialize : string → unser_result;
  php_json_encode : zval → ser_result;
  php_json_decode : bool → string → unser_result;
  php_msgpack_serialize : zval → ser_result;
  php_msgpack_unserialize : string → unser_result;
  compress2 : Z → string → Z → option string;
  uncompress : string → Z → option string;
  ZSTD_compress : Z → string → Z → option string;
  ZSTD_getFrameContentSize : string → option (option Z);
  ZSTD_decompress : string → Z → option string;
  fresh_bytes : Z → string
}.

(** A string that PHP may take for an integer key starts with a digit or a minus. *)
Definition key_like_number (s : string) : bool :=
  match s with
  | String c _ => Ascii.eqb c "-" || ((48 <=? code c) && (code c <=? 57))
  | EmptyString => false
  end.

Class ZendLaws `{ZendRuntime} : Prop := {
  zval_get_string_str s : zval_get_string (ZStr s) = s;
  zval_get_long_long l : is_long l → zval_get_long (ZLong l) = l;
  zval_get_long_range v : is_long (zval_get_long v);
  symtable_key_inj : Inj (=) (=) symtable_key;
  symtable_key_str s : key_like_number s = false → symtable_key s = KStr s;
  fresh_bytes_length n : 0 <= n → zstr_len (fresh_bytes n) = n
}.
#[export] Existing Instance symtable_key_inj.

(** ** The configuration [config.m4] leaves to the build *)
Class BuildConfig : Type := {
  HAVE_ZSTD_H : bool;
  HAVE_MEMCACHED_IGBINARY : bool;
  HAVE_JSON_API : bool;
  HAVE_MEMCACHED_MSGPACK : bool;
  HAVE_MEMCACHED_SASL : bool;
  HAVE_MEMCACHED_EXIST : bool;
  LIBMEMCACHED_VERSION_HEX : Z
}.
