(* ===== verification/GFmt.v ===== *)
(** * Formatting doubles: g_fmt.c

    [php_memcached_g_fmt] lays out the shortest decimal digits [zend_dtoa]
    returns.  The model takes that result as its argument and builds the
    characters the C function stores in its buffer. *)

From S2P Require Import Prelude CLib Zend.
#[local] Open Scope Z_scope.
#[local] Arguments String.append !_ _ / : simpl nomatch.

Fixpoint zeros (n : nat) : string :=
  match n with O => EmptyString | S n' => String "0" (zeros n') end.

(** [for(j = 2, k = 10; 10*k <= decpt; j++, k *= 10);] *)
Fixpoint exp_width (fuel : nat) (j k decpt : Z) : Z * Z :=
  match fuel with
  | O => (j, k)
  | S f => if 10 * k <=? decpt then exp_width f (j + 1) (k * 10) decpt else (j, k)
  end.

(** The [for(;;)] loop that writes the exponent digits. *)
Fixpoint exp_digits (j : nat) (k decpt : Z) : string :=
  let i := decpt / k in
  String (digit_char i)
    match j with
    | O | S O => EmptyString
    | S j' => exp_digits j' k ((decpt - i * k) * 10)
    end.

Definition exp_suffix (decpt0 : Z) : string :=
  let d := decpt0 - 1 in
  let '(sign, decpt) := if d <? 0 then ("-"%char, - d) else ("+"%char, d) in
  let '(j, k) := exp_width (Z.to_nat decpt) 2 10 decpt in
  String "e" (String sign (exp_digits (Z.to_nat j) k decpt)).

(** The last branch: the digits are copied one by one, a point follows the one
    that brings [decpt] to zero unless it is the last, and zeros pad what is left
    of [decpt]. *)
Fixpoint place_point (s : string) (decpt : Z) : string :=
  match s with
  | EmptyString => zeros (Z.to_nat decpt)
  | String c s' =>
      let decpt' := decpt - 1 in
      String c
        (if (decpt' =? 0) && negb (String.eqb s' EmptyString)
         then String "." (place_point s' decpt') else place_point s' decpt')
  end.

Definition g_fmt_magnitude (s : string) (decpt : Z) : string :=
  let n := zstr_len s in
  if (decpt <=? -4) || (n + 5 <? decpt) then
    match s with
    | EmptyString => EmptyString
    | String c EmptyString => String c (exp_suffix decpt)
    | String c s' => String c (String "." (s' ++ exp_suffix decpt))
    end
  else if decpt <=? 0 then String "." (zeros (Z.to_nat (- decpt)) ++ s)
  else place_point s decpt.

Definition php_memcached_g_fmt (r : dtoa_result) : string :=
  let body :=
    if dtoa_decpt r =? 9999 then dtoa_digits r
    else g_fmt_magnitude (dtoa_digits r) (dtoa_decpt r) in
  if dtoa_sign r then String "-" body else body.

(** ** The number a numeral denotes

    [read_decimal] reads [-ddd.ddde+dd], the syntax [strtod] accepts (an
    optional sign, digits with an optional point, an optional exponent), as a
    sign, an integer mantissa and a power of ten. *)

Definition digit_of (c : ascii) : option Z :=
  if (48 <=? code c) && (code c <=? 57) then Some (code c - 48) else None.

Fixpoint read_frac (acc places : Z) (s : string) : Z * Z * string :=
  match s with
  | String c s' =>
      match digit_of c with
      | Some d => read_frac (acc * 10 + d) (places + 1) s'
      | None => (acc, places, s)
      end
  | EmptyString => (acc, places, s)
  end.

Fixpoint read_int (acc : Z) (s : string) : Z * string :=
  match s with
  | String c s' =>
      match digit_of c with Some d => read_int (acc * 10 + d) s' | None => (acc, s) end
  | EmptyString => (acc, s)
  end.

Definition read_exp (s : string) : option Z :=
  match s with
  | EmptyString => Some 0
  | String "e" (String "-" s') =>
      match read_int 0 s' with (e, EmptyString) => Some (- e) | _ => None end
  | String "e" (String "+" s') =>
      match read_int 0 s' with (e, EmptyString) => Some e | _ => None end
  | _ => None
  end.

Definition read_unsigned (s : string) : option (Z * Z) :=
  let '(i, s1) := read_int 0 s in
  let '(m, places, s2) :=
    match s1 with String "." s1' => read_frac i 0 s1' | _ => (i, 0, s1) end in
  match read_exp s2 with Some e => Some (m, e - places) | None => None end.

Definition read_decimal (s : string) : option (bool * Z * Z) :=
  match s with
  | String "-" s' => match read_unsigned s' with Some (m, e) => Some (true, m, e) | None => None end
  | _ => match read_unsigned s with Some (m, e) => Some (false, m, e) | None => None end
  end.

(** [m1 * 10^e1 = m2 * 10^e2], without leaving the integers. *)
Definition same_decimal (m1 e1 m2 e2 : Z) : Prop :=
  m1 * 10 ^ (e1 - Z.min e1 e2) = m2 * 10 ^ (e2 - Z.min e1 e2).

(** A digit string, and the integer it spells. *)
Definition all_digits (s : string) : Prop :=
  Forall (λ c, is_Some (digit_of c)) (list_ascii_of_string s).
Definition digits_value (s : string) : Z := (read_int 0 s).1.

(** ** Reading back what was written *)

Lemma digit_of_char d : 0 <= d < 10 → digit_of (digit_char d) = Some d.
Proof.
  intros Hd. unfold digit_of, digit_char. rewrite code_chr by (unfold is_u8; lia).
  replace (48 <=? 48 + d) with true by lia.
  replace (48 + d <=? 57) with true by lia. simpl. f_equal. lia.
Qed.

Lemma all_digits_cons c s :
  all_digits (String c s) ↔ is_Some (digit_of c) ∧ all_digits s.
Proof. unfold all_digits. simpl. apply Forall_cons_iff. Qed.

Lemma read_int_app acc s t :
  all_digits s → read_int acc (s ++ t) = read_int (read_int acc s).1 t.
Proof.
  revert acc. induction s as [|c s IH]; intros acc; [done|].
  rewrite all_digits_cons. intros [[d Hd] Hs]. simpl. rewrite Hd. by apply IH.
Qed.

Lemma read_int_all acc s :
  all_digits s → read_int acc s = (acc * 10 ^ zstr_len s + digits_value s, EmptyString).
Proof.
  unfold digits_value, zstr_len. revert acc.
  induction s as [|c s IH]; intros acc; [cbn; intros; f_equal; lia|].
  rewrite all_digits_cons. intros [[d Hd] Hs]. cbn [read_int String.length]. rewrite Hd.
  rewrite (IH _ Hs), (IH (0 * 10 + d) Hs). cbn. f_equal.
  rewrite Nat2Z.inj_succ, Z.pow_succ_r by lia. lia.
Qed.

Lemma read_frac_all acc p s t :
  all_digits s → (∀ c t', t = String c t' → digit_of c = None) →
  read_frac acc p (s ++ t)
  = (acc * 10 ^ zstr_len s + digits_value s, p + zstr_len s, t).
Proof.
  unfold digits_value, zstr_len. revert acc p.
  induction s as [|c s IH]; intros acc p Hs Ht.
  - cbn [String.append String.length read_int fst].
    rewrite Z.pow_0_r, Z.mul_1_r, !Z.add_0_r.
    destruct t as [|c t']; [done|]. simpl. by rewrite (Ht c t').
  - apply all_digits_cons in Hs as [[d Hd] Hs].
    simpl. rewrite Hd, IH by done.
    rewrite (read_int_all (0 * 10 + d) s Hs). cbn. unfold zstr_len, digits_value.
    rewrite Nat2Z.inj_succ, Z.pow_succ_r by lia. do 2 f_equal; lia.
Qed.

Lemma read_int_stop acc s c t :
  all_digits s → digit_of c = None →
  read_int acc (s ++ String c t) = (acc * 10 ^ zstr_len s + digits_value s, String c t).
Proof.
  intros Hs Hc. rewrite read_int_app, (read_int_all acc s) by done.
  simpl. by rewrite Hc.
Qed.

Lemma zeros_digits n : all_digits (zeros n).
Proof.
  induction n as [|n IH]; [by constructor|]. apply all_digits_cons. split; [|done].
  exists 0. reflexivity.
Qed.

Lemma zeros_value n : digits_value (zeros n) = 0.
Proof.
  unfold digits_value. induction n as [|n IH]; [done|]. cbn [zeros read_int].
  change (digit_of "0") with (Some 0). cbn. apply IH.
Qed.

Lemma zstr_len_zeros n : zstr_len (zeros n) = Z.of_nat n.
Proof.
  unfold zstr_len. induction n as [|n IH]; [done|].
  cbn [zeros String.length]. lia.
Qed.

Lemma zstr_len_cons c s : zstr_len (String c s) = 1 + zstr_len s.
Proof. unfold zstr_len. cbn [String.length]. lia. Qed.

Lemma all_digits_app s t : all_digits s → all_digits t → all_digits (s ++ t).
Proof.
  intros Hs Ht. induction s as [|c s IH]; [done|].
  apply all_digits_cons in Hs as [Hc Hs]. simpl. apply all_digits_cons. auto.
Qed.

Lemma digits_value_cons c d s :
  digit_of c = Some d → all_digits s →
  digits_value (String c s) = d * 10 ^ zstr_len s + digits_value s.
Proof.
  intros Hd Hs. unfold digits_value at 1. simpl. rewrite Hd.
  rewrite read_int_all by done. simpl. lia.
Qed.

Lemma digits_value_app s t :
  all_digits s → all_digits t →
  digits_value (s ++ t) = digits_value s * 10 ^ zstr_len t + digits_value t.
Proof.
  intros Hs Ht. unfold digits_value at 1. rewrite read_int_app by done.
  by rewrite (read_int_all _ t).
Qed.

(** ** The exponent suffix *)

(** The width search stops at the power of ten just below [decpt]. *)
Lemma exp_width_spec fuel j k decpt :
  0 < k → k = 10 ^ (j - 1) → 2 <= j → (j = 2 ∨ k <= decpt) → decpt < k * 10 ^ (1 + Z.of_nat fuel) →
  ∃ j', exp_width fuel j k decpt = (j', 10 ^ (j' - 1)) ∧ 2 <= j' ∧ decpt < 10 ^ j'
        ∧ (j' = 2 ∨ 10 ^ (j' - 1) <= decpt).
Proof.
  revert j k. induction fuel as [|f IH]; intros j k Hk Hkj Hj Hle Hlt; cbn [exp_width].
  - exists j. split; [by rewrite Hkj|]. split; [done|]. split; [|by rewrite <- Hkj].
    replace (10 ^ j) with (10 ^ (j - 1) * 10 ^ 1)
      by (rewrite <- Z.pow_add_r by lia; f_equal; lia).
    rewrite <- Hkj. exact Hlt.
  - destruct (Z.leb_spec (10 * k) decpt).
    + apply IH; [lia| |lia|lia|].
      * subst k. replace (j + 1 - 1) with (Z.succ (j - 1)) by lia.
        rewrite Z.pow_succ_r by lia. lia.
      * rewrite Nat2Z.inj_succ in Hlt.
        replace (1 + Z.succ (Z.of_nat f)) with (Z.succ (1 + Z.of_nat f)) in Hlt by lia.
        rewrite Z.pow_succ_r in Hlt by lia. lia.
    + exists j. split; [by rewrite Hkj|]. split; [done|]. split; [|by rewrite <- Hkj].
      replace j with (Z.succ (j - 1)) at 1 by lia. rewrite Z.pow_succ_r by lia. lia.
Qed.

(** The exponent loop prints [decpt] on [j] digits.  The dividend is scaled by
    ten at each turn while the divisor stays, so the statement is about a
    dividend [q * 10^m] and a divisor [10^(j-1) * 10^m]. *)
Lemma exp_digits_spec j m q :
  (0 < j)%nat → 0 <= m → 0 <= q < 10 ^ Z.of_nat j →
  let s := exp_digits j (10 ^ (Z.of_nat j - 1) * 10 ^ m) (q * 10 ^ m) in
  all_digits s ∧ zstr_len s = Z.of_nat j ∧ digits_value s = q.
Proof.
  revert m q. induction j as [|j IH]; [lia|]. intros m q _ Hm Hq.
  assert (0 < 10 ^ m) by (apply Z.pow_pos_nonneg; lia).
  replace (Z.of_nat (S j) - 1) with (Z.of_nat j) by lia.
  rewrite Nat2Z.inj_succ, Z.pow_succ_r in Hq by lia.
  assert (0 < 10 ^ Z.of_nat j) by (apply Z.pow_pos_nonneg; lia).
  cbn [exp_digits]. rewrite Z.div_mul_cancel_r by lia.
  set (i := q / 10 ^ Z.of_nat j).
  assert (0 <= i < 10).
  { unfold i. split; [apply Z.div_pos; lia|]. apply Z.div_lt_upper_bound; lia. }
  pose proof (digit_of_char i) as Hi.
  pose proof (Z.mod_pos_bound q (10 ^ Z.of_nat j)) as Hr.
  pose proof (Z.div_mod q (10 ^ Z.of_nat j)) as Hdm. fold i in Hdm.
  destruct j as [|j'].
  - split; [|split; [done|]].
    + apply all_digits_cons. split; [by rewrite Hi|by constructor].
    + rewrite (digits_value_cons _ i) by (auto || by constructor).
      change (zstr_len "") with 0. change (digits_value "") with 0. unfold i.
      change (Z.of_nat 0) with 0. rewrite Z.pow_0_r, Z.div_1_r. lia.
  - replace ((q * 10 ^ m - i * (10 ^ Z.of_nat (S j') * 10 ^ m)) * 10)
      with (q mod 10 ^ Z.of_nat (S j') * 10 ^ (m + 1))
      by (rewrite Z.pow_add_r by lia; nia).
    replace (10 ^ Z.of_nat (S j') * 10 ^ m)
      with (10 ^ (Z.of_nat (S j') - 1) * 10 ^ (m + 1))
      by (rewrite Z.pow_add_r, (Nat2Z.inj_succ j') by lia;
          replace (Z.succ (Z.of_nat j')) with (Z.of_nat j' + 1) by lia;
          rewrite (Z.pow_add_r 10 (Z.of_nat j') 1) by lia;
          replace (Z.of_nat j' + 1 - 1) with (Z.of_nat j') by lia; lia).
    destruct (IH (m + 1) (q mod 10 ^ Z.of_nat (S j'))) as (Ha & Hl & Hv); [lia..|].
    split; [by apply all_digits_cons; rewrite Hi|].
    split; [rewrite zstr_len_cons, Hl; lia|].
    rewrite (digits_value_cons _ i) by auto. rewrite Hl, Hv. lia.
Qed.

Lemma read_int_digits s : all_digits s → read_int 0 s = (digits_value s, EmptyString).
Proof. intros Hs. rewrite read_int_all by done. done. Qed.

Lemma exp_suffix_digits decpt :
  ∃ (ds : string) (sgn : bool),
    exp_suffix decpt = String "e" (String (if sgn then "-" else "+")%char ds) ∧
    all_digits ds ∧ digits_value ds = Z.abs (decpt - 1) ∧
    (if sgn then decpt - 1 < 0 else 0 <= decpt - 1) ∧
    ((zstr_len ds = 2) ∨ 10 ^ (zstr_len ds - 1) <= Z.abs (decpt - 1)).
Proof.
  unfold exp_suffix. set (d := decpt - 1).
  set (a := Z.abs d).
  assert (∃ sgn : bool, (if d <? 0 then ("-"%char, - d) else ("+"%char, d))
            = ((if sgn then "-" else "+")%char, a) ∧ (if sgn then d < 0 else 0 <= d))
    as (sgn & -> & Hs).
  { unfold a. destruct (Z.ltb_spec d 0); [exists true|exists false]; split; try lia;
      f_equal; lia. }
  destruct (exp_width_spec (Z.to_nat a) 2 10 a) as (j & -> & Hj & Hlt & Hge);
    [lia|done|lia|by left| |].
  { rewrite Z2Nat.id by lia. pose proof (Z.pow_gt_lin_r 10 (1 + a)). lia. }
  destruct (exp_digits_spec (Z.to_nat j) 0 a) as (Ha & Hl & Hv);
    [lia|lia|rewrite Z2Nat.id by lia; unfold a in *; lia|].
  rewrite Z2Nat.id, Z.pow_0_r, !Z.mul_1_r in * by lia.
  eexists _, sgn. split; [done|]. repeat split; try done. rewrite Hl.
  destruct Hge as [->|]; auto.
Qed.

Lemma read_exp_suffix decpt : read_exp (exp_suffix decpt) = Some (decpt - 1).
Proof.
  destruct (exp_suffix_digits decpt) as (ds & sgn & -> & Ha & Hv & Hs & _).
  destruct sgn; cbn; rewrite read_int_digits, Hv by done; f_equal; lia.
Qed.

Lemma place_point_done s d : d <= 0 → place_point s d = s.
Proof.
  revert d. induction s as [|c s IH]; intros d Hd; cbn.
  - by replace (Z.to_nat d) with 0%nat by lia.
  - replace (d - 1 =? 0) with false by lia. cbn. f_equal. apply IH. lia.
Qed.

Lemma place_point_pad s d :
  zstr_len s <= d → place_point s d = (s ++ zeros (Z.to_nat (d - zstr_len s)))%string.
Proof.
  revert d. induction s as [|c s IH]; intros d Hd; cbn [place_point].
  - change (zstr_len "") with 0. by rewrite Z.sub_0_r.
  - rewrite zstr_len_cons in *. cbn. f_equal.
    replace ((d - 1 =? 0) && negb (String.eqb s "")) with false.
    + rewrite IH by lia. do 2 f_equal. lia.
    + destruct s as [|c' s']; [by rewrite andb_false_r|].
      rewrite zstr_len_cons in Hd. assert (0 <= zstr_len s') by (unfold zstr_len; lia).
      by replace (d - 1 =? 0) with false by lia.
Qed.

Lemma place_point_split s d :
  0 < d < zstr_len s →
  ∃ a b, s = (a ++ b)%string ∧ zstr_len a = d ∧ place_point s d = (a ++ String "." b)%string.
Proof.
  revert d. induction s as [|c s IH]; intros d Hd.
  { change (zstr_len "") with 0 in Hd. lia. }
  rewrite zstr_len_cons in Hd. cbn [place_point].
  destruct (Z.eqb_spec (d - 1) 0).
  - exists (String c ""), s. repeat split; [rewrite zstr_len_cons; change (zstr_len "") with 0; lia|].
    destruct s as [|c' s']; [change (zstr_len "") with 0 in Hd; lia|].
    change (true && negb (String.eqb (String c' s') "")) with true. cbv iota.
    by rewrite place_point_done by lia.
  - destruct (IH (d - 1)) as (a & b & -> & Hl & E); [lia|].
    exists (String c a), b. repeat split; [rewrite zstr_len_cons; lia|].
    cbn. by rewrite E.
Qed.

(** Two shapes a magnitude can take, and the number each denotes. *)
Lemma read_unsigned_point a b t e :
  all_digits a → all_digits b → read_exp t = Some e →
  (∀ c t', t = String c t' → digit_of c = None) →
  read_unsigned (a ++ String "." (b ++ t))
  = Some (digits_value (a ++ b), e - zstr_len b).
Proof.
  intros Ha Hb Ht Hstop. unfold read_unsigned.
  rewrite read_int_stop by done. rewrite read_frac_all by done.
  rewrite Ht, digits_value_app by done. do 2 f_equal; lia.
Qed.

Lemma read_unsigned_int a t e :
  all_digits a → read_exp t = Some e → t = "" ∨ (∃ t', t = String "e" t') →
  read_unsigned (a ++ t) = Some (digits_value a, e).
Proof.
  intros Ha Ht Hstop. unfold read_unsigned.
  assert (read_int 0 (a ++ t) = (digits_value a, t)) as ->.
  { destruct Hstop as [-> | [t' ->]].
    - rewrite string_app_nil_r. by apply read_int_digits.
    - by rewrite read_int_stop by done. }
  assert (match t with String "." s1' => read_frac (digits_value a) 0 s1'
          | _ => (digits_value a, 0, t) end = (digits_value a, 0, t)) as ->
    by (by destruct Hstop as [-> | [t' ->]]).
  rewrite Ht. do 2 f_equal; lia.
Qed.

Lemma same_decimal_refl m e : same_decimal m e m e.
Proof. done. Qed.

(** The magnitude the formatter writes denotes [0.ddd * 10^decpt]. *)
Lemma g_fmt_magnitude_value s decpt :
  all_digits s → s ≠ "" →
  ∃ m e, read_unsigned (g_fmt_magnitude s decpt) = Some (m, e)
         ∧ same_decimal m e (digits_value s) (decpt - zstr_len s).
Proof.
  intros Hs Hne. unfold g_fmt_magnitude. destruct ((decpt <=? -4) || (zstr_len s + 5 <? decpt)).
  - assert (∃ t, exp_suffix decpt = String "e" t) as [t Ht]
      by (destruct (exp_suffix_digits decpt) as (? & ? & ? & _); by eexists).
    pose proof (read_exp_suffix decpt) as Hexp.
    destruct s as [|c [|c' s']]; [done| |].
    + exists (digits_value (String c "")), (decpt - 1).
      split; [|by replace (zstr_len (String c "")) with 1 by done].
      apply (read_unsigned_int (String c "")); [done|done|right; by eexists].
    + apply all_digits_cons in Hs as [Hc Hs].
      eexists _, _. split.
      * apply (read_unsigned_point (String c "") (String c' s')); [|done|exact Hexp|].
        -- apply all_digits_cons. split; [done|by constructor].
        -- intros c0 t' E. rewrite Ht in E. by injection E as <- _.
      * rewrite (zstr_len_cons c). replace (decpt - (1 + zstr_len (String c' s')))
          with (decpt - 1 - zstr_len (String c' s')) by lia. apply same_decimal_refl.
  - destruct (Z.leb_spec decpt 0).
    + eexists _, _. split.
      * rewrite <- (string_app_nil_r (zeros _ ++ s)).
        apply (read_unsigned_point "" (zeros (Z.to_nat (- decpt)) ++ s) "" 0);
          [by constructor|apply all_digits_app; [apply zeros_digits|done]|done|done].
      * simpl. rewrite digits_value_app, zeros_value, zstr_len_app, zstr_len_zeros
          by (done || apply zeros_digits).
        rewrite Z2Nat.id by lia.
        replace (0 - (- decpt + zstr_len s)) with (decpt - zstr_len s) by lia. done.
    + destruct (Z.le_gt_cases (zstr_len s) decpt).
      * rewrite place_point_pad by done. eexists _, _. split.
        -- rewrite <- (string_app_nil_r (s ++ _)).
           apply (read_unsigned_int _ "" 0); [|done|by left].
           apply all_digits_app; [done|apply zeros_digits].
        -- rewrite digits_value_app, zeros_value, zstr_len_zeros
             by (done || apply zeros_digits).
           unfold same_decimal. rewrite Z2Nat.id by lia.
           replace (Z.min 0 (decpt - zstr_len s)) with 0 by lia.
           rewrite !Z.sub_0_r. simpl. lia.
      * destruct (place_point_split s decpt) as (a & b & -> & Hl & ->); [lia|].
        assert (all_digits a ∧ all_digits b) as [Ha Hb].
        { clear -Hs. induction a as [|c a IH]; [split; [by constructor|done]|].
          simpl in Hs. apply all_digits_cons in Hs as [Hc Hs].
          destruct (IH Hs) as [Ha Hb]. split; [by apply all_digits_cons|done]. }
        eexists _, _. split.
        -- rewrite <- (string_app_nil_r b) at 1.
           by apply (read_unsigned_point a b "" 0).
        -- rewrite zstr_len_app.
           replace (decpt - (zstr_len a + zstr_len b)) with (0 - zstr_len b) by lia. done.
Qed.

Lemma g_fmt_magnitude_head s decpt :
  all_digits s → s ≠ "" →
  ∃ c t, g_fmt_magnitude s decpt = String c t ∧ c ≠ "-"%char.
Proof.
  intros Hs Hne. destruct s as [|c s]; [done|].
  apply all_digits_cons in Hs as [Hc _].
  assert (c ≠ "-"%char) by (intros ->; by destruct Hc).
  unfold g_fmt_magnitude. destruct (_ || _); [destruct s; by eexists _, _|].
  destruct (decpt <=? 0); by eexists _, _.
Qed.

(** C36: what [php_memcached_g_fmt] writes for a finite double is a numeral of the
    grammar [strtod] reads, with the double's sign, and the number it denotes is
    exactly the one [zend_dtoa]'s digits and decimal point position stand for,
    whichever of the three layouts is chosen. *)
Theorem g_fmt_denotes_dtoa (ds : string) (decpt : Z) (sgn : bool) :
  all_digits ds → ds ≠ "" → decpt ≠ 9999 →
  ∃ m e, read_decimal (php_memcached_g_fmt (mkDtoa ds decpt sgn)) = Some (sgn, m, e)
         ∧ same_decimal m e (digits_value ds) (decpt - zstr_len ds).
Proof.
  intros Hs Hne Hd. unfold php_memcached_g_fmt. cbn [dtoa_decpt dtoa_digits dtoa_sign].
  replace (decpt =? 9999) with false by lia.
  destruct (g_fmt_magnitude_value ds decpt Hs Hne) as (m & e & Hr & Hv).
  exists m, e. split; [|done]. destruct sgn; [cbn; by rewrite Hr|].
  destruct (g_fmt_magnitude_head ds decpt Hs Hne) as (c & t & E & Hc).
  rewrite E in *. unfold read_decimal.
  destruct c as [[] [] [] [] [] [] [] []]; rewrite ?Hr; done.
Qed.

Lemma g_fmt_denotes_dtoa_witness :
  ∃ m e, read_decimal (php_memcached_g_fmt (mkDtoa "12345" (-7) true)) = Some (true, m, e)
         ∧ same_decimal m e 12345 (-12).
Proof.
  apply (g_fmt_denotes_dtoa "12345" (-7) true);
    [repeat (constructor; [by eexists|]); constructor|done|done].
Defined.

Lemma exp_suffix_length decpt : -998 <= decpt <= 1000 → zstr_len (exp_suffix decpt) <= 5.
Proof.
  intros Hd. destruct (exp_suffix_digits decpt) as (ds & sgn & -> & _ & _ & _ & Hl).
  rewrite !zstr_len_cons.
  destruct (Z.le_gt_cases (zstr_len ds) 3); [lia|].
  assert (10 ^ 3 <= 10 ^ (zstr_len ds - 1)) by (apply Z.pow_le_mono_r; lia). lia.
Qed.

Lemma g_fmt_magnitude_length s decpt :
  1 <= zstr_len s <= 17 → -998 <= decpt <= 1000 → zstr_len (g_fmt_magnitude s decpt) <= 23.
Proof.
  intros Hl Hd. unfold g_fmt_magnitude. pose proof (exp_suffix_length decpt Hd).
  destruct ((decpt <=? -4) || (zstr_len s + 5 <? decpt)) eqn:E.
  - destruct s as [|c [|c' s']]; rewrite ?zstr_len_cons in *; [lia..|].
    rewrite zstr_len_app, zstr_len_cons. lia.
  - apply orb_false_iff in E as [E1%Z.leb_gt E2%Z.ltb_ge].
    destruct (Z.leb_spec decpt 0).
    + rewrite zstr_len_cons, zstr_len_app, zstr_len_zeros. lia.
    + destruct (Z.le_gt_cases (zstr_len s) decpt).
      * rewrite place_point_pad, zstr_len_app, zstr_len_zeros by done. lia.
      * destruct (place_point_split s decpt) as (a & b & -> & Hla & ->); [lia|].
        rewrite zstr_len_app, zstr_len_cons in *. lia.
Qed.

(** The formatter fits its buffer: a double has at most 17 significant digits
    and a decimal point within three digits of exponent, and then the text with
    its terminating NUL takes at most 25 bytes, less than the 32 g_fmt.c asks for
    and the 40 of [s_zval_to_payload]. *)
Theorem g_fmt_fits_buffer (ds : string) (decpt : Z) (sgn : bool) :
  1 <= zstr_len ds <= 17 → -998 <= decpt <= 1000 ∨ decpt = 9999 →
  zstr_len (php_memcached_g_fmt (mkDtoa ds decpt sgn)) + 1 <= 25.
Proof.
  intros Hl Hd. unfold php_memcached_g_fmt. cbn [dtoa_decpt dtoa_digits dtoa_sign].
  assert (zstr_len (if decpt =? 9999 then ds else g_fmt_magnitude ds decpt) <= 23).
  { destruct (Z.eqb_spec decpt 9999); [lia|].
    destruct Hd as [Hd | ->]; [|done]. by apply g_fmt_magnitude_length. }
  destruct sgn; rewrite ?zstr_len_cons; lia.
Qed.

Lemma g_fmt_fits_buffer_witness :
  zstr_len (php_memcached_g_fmt (mkDtoa "17976931348623157" 309 true)) + 1 <= 25.
Proof. apply g_fmt_fits_buffer; [by vm_compute|left; lia]. Defined.
