(* ===== verification/LibMemcached.v ===== *)
(** * The libmemcached client library, as the extension uses it

    libmemcached is not part of the repository.  Its return codes and behavior
    names appear here as constructors, one for each that the sources mention;
    its functions are the fields of type classes over an abstract type [MC] of
    [memcached_st] handles, and what the development relies on is stated in the
    law classes beside them. *)

From S2P Require Import Prelude CLib.
#[local] Open Scope Z_scope.

(** [memcached_return], with the extension's own [MEMC_RES_PAYLOAD_FAILURE],
    which the code stores in variables of the same type. *)
Inductive memcached_return : Type :=
| MEMCACHED_SUCCESS | MEMCACHED_FAILURE | MEMCACHED_HOST_LOOKUP_FAILURE
| MEMCACHED_CONNECTION_FAILURE | MEMCACHED_CONNECTION_BIND_FAILURE
| MEMCACHED_WRITE_FAILURE | MEMCACHED_READ_FAILURE | MEMCACHED_UNKNOWN_READ_FAILURE
| MEMCACHED_PROTOCOL_ERROR | MEMCACHED_CLIENT_ERROR | MEMCACHED_SERVER_ERROR
| MEMCACHED_DATA_EXISTS | MEMCACHED_DATA_DOES_NOT_EXIST | MEMCACHED_NOTSTORED
| MEMCACHED_STORED | MEMCACHED_NOTFOUND | MEMCACHED_PARTIAL_READ
| MEMCACHED_SOME_ERRORS | MEMCACHED_NO_SERVERS | MEMCACHED_END | MEMCACHED_DELETED
| MEMCACHED_VALUE | MEMCACHED_STAT | MEMCACHED_ITEM | MEMCACHED_ERRNO
| MEMCACHED_FAIL_UNIX_SOCKET | MEMCACHED_NOT_SUPPORTED | MEMCACHED_NO_KEY_PROVIDED
| MEMCACHED_FETCH_NOTFINISHED | MEMCACHED_TIMEOUT | MEMCACHED_BUFFERED
| MEMCACHED_BAD_KEY_PROVIDED | MEMCACHED_INVALID_HOST_PROTOCOL
| MEMCACHED_SERVER_MARKED_DEAD | MEMCACHED_UNKNOWN_STAT_KEY
| MEMCACHED_INVALID_ARGUMENTS | MEMCACHED_PARSE_ERROR | MEMCACHED_PARSE_USER_ERROR
| MEMCACHED_DEPRECATED | MEMCACHED_IN_PROGRESS | MEMCACHED_MAXIMUM_RETURN
| MEMCACHED_MEMORY_ALLOCATION_FAILURE | MEMCACHED_CONNECTION_SOCKET_CREATE_FAILURE
| MEMCACHED_E2BIG | MEMCACHED_KEY_TOO_BIG | MEMCACHED_SERVER_TEMPORARILY_DISABLED
| MEMCACHED_SERVER_MEMORY_ALLOCATION_FAILURE
| MEMCACHED_AUTH_PROBLEM | MEMCACHED_AUTH_FAILURE | MEMCACHED_AUTH_CONTINUE
| MEMC_RES_PAYLOAD_FAILURE.

#[global] Instance memcached_return_eq_dec : EqDecision memcached_return.
Proof. solve_decision. Defined.

(** The behaviors the sources name. *)
Inductive memcached_behavior : Type :=
| BEHAVIOR_HASH | BEHAVIOR_DISTRIBUTION | BEHAVIOR_KETAMA | BEHAVIOR_KETAMA_WEIGHTED
| BEHAVIOR_KETAMA_HASH | BEHAVIOR_TCP_KEEPALIVE | BEHAVIOR_BUFFER_REQUESTS
| BEHAVIOR_BINARY_PROTOCOL | BEHAVIOR_NO_BLOCK | BEHAVIOR_TCP_NODELAY
| BEHAVIOR_SOCKET_SEND_SIZE | BEHAVIOR_SOCKET_RECV_SIZE | BEHAVIOR_CONNECT_TIMEOUT
| BEHAVIOR_RETRY_TIMEOUT | BEHAVIOR_DEAD_TIMEOUT | BEHAVIOR_SND_TIMEOUT
| BEHAVIOR_RCV_TIMEOUT | BEHAVIOR_POLL_TIMEOUT | BEHAVIOR_CACHE_LOOKUPS
| BEHAVIOR_SERVER_FAILURE_LIMIT | BEHAVIOR_AUTO_EJECT_HOSTS
| BEHAVIOR_HASH_WITH_PREFIX_KEY | BEHAVIOR_NOREPLY | BEHAVIOR_SORT_HOSTS
| BEHAVIOR_VERIFY_KEY | BEHAVIOR_USE_UDP | BEHAVIOR_NUMBER_OF_REPLICAS
| BEHAVIOR_RANDOMIZE_REPLICA_READ | BEHAVIOR_REMOVE_FAILED_SERVERS
| BEHAVIOR_SERVER_TIMEOUT_LIMIT | BEHAVIOR_SUPPORT_CAS.

#[global] Instance memcached_behavior_eq_dec : EqDecision memcached_behavior.
Proof. solve_decision. Defined.

(** The numbers libmemcached's headers give to them.  The extension passes
    numbers from scripts straight through, so both views are needed. *)
Class MemcachedNumbers : Type := {
  behavior_num : memcached_behavior → Z;
  MEMCACHED_BEHAVIOR_MAX : Z;
  MEMCACHED_MAX_KEY : Z;
  return_num : memcached_return → Z;
  MEMCACHED_HASH_DEFAULT : Z;
  MEMCACHED_DISTRIBUTION_MODULA : Z;
  MEMCACHED_DISTRIBUTION_CONSISTENT : Z
}.

Class MemcachedNumbersLaws `{MemcachedNumbers} : Prop := {
  behavior_num_inj : Inj (=) (=) behavior_num;
  behavior_num_range b : 0 <= behavior_num b < MEMCACHED_BEHAVIOR_MAX;
  behavior_max_range : MEMCACHED_BEHAVIOR_MAX <= LONG_MAX;
  max_key_251 : MEMCACHED_MAX_KEY = 251
}.
#[export] Existing Instance behavior_num_inj.

(** ** Behaviors, callbacks, errors *)
Class MemcachedControl (MC : Type) : Type := {
  memcached_behavior_get : MC → Z → Z;
  memcached_behavior_set : MC → Z → Z → memcached_return * MC;
  memcached_behavior_set_key_hash : MC → Z → MC;
  memcached_behavior_set_distribution_hash : MC → Z → MC;
  memcached_behavior_set_distribution : MC → Z → MC;
  memcached_prefix_get : MC → option string * memcached_return;
  memcached_prefix_set : MC → option string → memcached_return * MC;
  memcached_last_error_errno : MC → Z;
  memcached_quit : MC → MC;
  memcached_server_count : MC → Z
}.

(** ** Storage commands

    [expiration] is the [time_t] argument, [flags] the 32-bit flag word. *)
Class MemcachedStorage (MC : Type) : Type := {
  memcached_set : MC → string → string → Z → Z → memcached_return * MC;
  memcached_add : MC → string → string → Z → Z → memcached_return * MC;
  memcached_replace : MC → string → string → Z → Z → memcached_return * MC;
  memcached_append : MC → string → string → Z → Z → memcached_return * MC;
  memcached_prepend : MC → string → string → Z → Z → memcached_return * MC;
  memcached_set_by_key : MC → string → string → string → Z → Z → memcached_return * MC;
  memcached_add_by_key : MC → string → string → string → Z → Z → memcached_return * MC;
  memcached_replace_by_key : MC → string → string → string → Z → Z → memcached_return * MC;
  memcached_append_by_key : MC → string → string → string → Z → Z → memcached_return * MC;
  memcached_prepend_by_key : MC → string → string → string → Z → Z → memcached_return * MC;
  memcached_touch : MC → string → Z → memcached_return * MC;
  memcached_touch_by_key : MC → string → string → Z → memcached_return * MC;
  memcached_cas : MC → string → string → Z → Z → Z → memcached_return * MC;
  memcached_cas_by_key : MC → string → string → string → Z → Z → Z → memcached_return * MC;
  memcached_delete : MC → string → Z → memcached_return * MC;
  memcached_delete_by_key : MC → string → string → Z → memcached_return * MC
}.

(** ** Counters: the new value comes back through the [value] pointer, which
    stays as it was ([None]) when the command does not produce one. *)
Class MemcachedCounters (MC : Type) : Type := {
  memcached_increment_by_key : MC → string → string → Z → memcached_return * option Z * MC;
  memcached_decrement_by_key : MC → string → string → Z → memcached_return * option Z * MC;
  memcached_increment_with_initial :
    MC → string → Z → Z → Z → memcached_return * option Z * MC;
  memcached_decrement_with_initial :
    MC → string → Z → Z → Z → memcached_return * option Z * MC;
  memcached_increment_with_initial_by_key :
    MC → string → string → Z → Z → Z → memcached_return * option Z * MC;
  memcached_decrement_with_initial_by_key :
    MC → string → string → Z → Z → Z → memcached_return * option Z * MC
}.

(** ** Virtual buckets: host map, forward map, number of buckets, replicas. *)
Class MemcachedBuckets (MC : Type) : Type := {
  memcached_bucket_set : MC → list Z → option (list Z) → Z → Z → memcached_return * MC
}.

(** ** The server list

    An instance is what [memcached_server_instance_st] gives access to.
    [memcached_server_cursor] calls its callback for every host in order, and
    the callbacks of this extension always succeed, so its model returns the
    hosts; [memcached_stat_execute] and [memcached_dump] likewise return the
    sequence of calls they make.  A NULL [memcached_server_st] list is [None]. *)
Record server_instance : Type := mkInstance {
  server_name : string;
  server_port : Z;
  server_type : string;
  server_version : Z * Z * Z
}.

Class MemcachedServers (MC : Type) : Type := {
  memcached_server_st : Type;
  memcached_server_add_with_weight : MC → string → Z → Z → memcached_return * MC;
  memcached_server_list_append_with_weight :
    option memcached_server_st → string → Z → Z → option memcached_server_st * memcached_return;
  memcached_server_push : MC → option memcached_server_st → memcached_return * MC;
  memcached_server_cursor : MC → memcached_return * list server_instance;
  memcached_server_by_key : MC → string → (server_instance + memcached_return) * MC;
  memcached_servers_reset : MC → MC;
  memcached_server_get_last_disconnect : MC → option server_instance;
  memcached_flush_buffers : MC → memcached_return * MC;
  memcached_stat_execute :
    MC → option string → memcached_return * list (server_instance * string * string) * MC;
  memcached_version : MC → memcached_return * MC;
  memcached_dump : MC → memcached_return * list string * MC;
  memcached_flush : MC → Z → memcached_return * MC
}.

(** ** Error texts *)
Class MemcachedErrors (MC : Type) : Type := {
  memcached_strerror : MC → memcached_return → string;
  memcached_last_error_message : MC → string;
  memcached_last_error : MC → memcached_return;
  strerror : Z → string
}.

(** ** Single values: [memcached_get] answers the value (NULL when there is none),
    its flags and the status. *)
Class MemcachedGet (MC : Type) : Type := {
  memcached_get : MC → string → option string * Z * memcached_return * MC;
  memcached_exist : MC → string → memcached_return * MC
}.

(** ** Credentials; [sasl_client_init] says SASL_OK. *)
Class MemcachedAuth (MC : Type) : Type := {
  sasl_client_init : bool;
  memcached_set_sasl_auth_data : MC → string → string → memcached_return * MC;
  memcached_set_encoding_key : MC → string → memcached_return * MC
}.

(** ** New handles: [memcached(config, length)], [memcached_create(buffer)], and
    the servers of a configuration string (NULL when it cannot be parsed). *)
Class MemcachedCreate (MC : Type) `{MemcachedServers MC} : Type := {
  memcached : option string → option MC;
  memcached_create : option MC;
  memcached_servers_parse : string → option memcached_server_st
}.

(** ** Retrieval: a request with [memcached_mget], then one result per call.
    [memcached_pending] bounds the results a handle still has to deliver; the
    models of the loops that fetch until there are none take their fuel from it. *)
Inductive result_payload : Type :=
| Bytes (s : string)           (* memcached_result_value and its length *)
| NullValue (length : Z).      (* a NULL value, whatever its length says *)

Record memcached_result : Type := mkResult {
  result_key : string;
  result_value : result_payload;
  result_flags : Z;
  result_cas : Z
}.

Class MemcachedRetrieval (MC : Type) : Type := {
  memcached_mget : MC → list string → memcached_return * MC;
  memcached_mget_by_key : MC → string → list string → memcached_return * MC;
  memcached_fetch_result : MC → option memcached_result * memcached_return * MC;
  memcached_pending : MC → nat
}.

(** ** A command sent several times in a row

    The answer to the [k]-th command, from 0, and the handle after it. *)
Fixpoint nth_answer {MC} (call : MC → memcached_return * MC) (k : nat) (m : MC)
    : memcached_return * MC :=
  match k with
  | O => call m
  | S k' => nth_answer call k' (call m).2
  end.

(** The last of a row of answers is an answer to the command. *)
Lemma nth_answer_call {MC} (call : MC → memcached_return * MC) k m :
  ∃ m0, nth_answer call k m = call m0.
Proof. revert m. induction k as [|k IH]; intros m; [by eexists|]. apply IH. Qed.
