(* ===== verification/World.v ===== *)
(** * The state of one Memcached object and its result codes

    A method runs on the PHP object ([php_memc_object_t]), the libmemcached
    handle behind it, the [php_memc_user_data_t] attached to the handle, the
    module globals, the list of warnings raised so far and the engine's
    exception flag.  The second half is the "Handling error codes" part of
    php_memcached.c. *)

From Stdlib Require Import Floats.SpecFloat.
From S2P Require Import Prelude CLib Zend LibMemcached.
#[local] Open Scope Z_scope.

(** [php_memc_object_t], less the handle and the [zend_object]. *)
Record php_memc_object_t : Type := mkObject {
  rescode : memcached_return;
  memc_errno : Z;
  is_pristine : bool
}.

(** [php_memc_user_data_t]. *)
Record php_memc_user_data_t : Type := mkUserData {
  is_persistent : bool;
  compression_enabled : bool;
  encoding_enabled : bool;
  serializer : Z;
  compression_type : Z;
  compression_level : Z;
  store_retry_count : Z;
  set_udf_flags : Z;
  item_size_limit : Z;
  has_sasl_data : bool
}.

(** The [memc] part of the module globals that the operations read. *)
Record memc_globals : Type := mkGlobals {
  g_compression_threshold : Z;
  g_compression_factor : double;
  g_compression_level : Z;
  g_compression_type : Z;
  g_serializer_type : Z;
  g_store_retry_count : Z;
  g_item_size_limit : Z;
  g_consistent_hash_enabled : bool;
  g_binary_protocol_enabled : bool;
  g_connect_timeout : Z
}.

Record world (MC : Type) : Type := mkWorld {
  w_obj : php_memc_object_t;
  w_memc : MC;
  w_ud : php_memc_user_data_t;
  w_globals : memc_globals;
  w_warnings : list string;
  w_exception : bool
}.
Arguments mkWorld {MC} _ _ _ _ _ _.
Arguments w_obj {MC} _.
Arguments w_memc {MC} _.
Arguments w_ud {MC} _.
Arguments w_globals {MC} _.
Arguments w_warnings {MC} _.
Arguments w_exception {MC} _.

Section Updates.
Context {MC : Type}.
Implicit Types w : world MC.

Definition with_obj (o : php_memc_object_t) w : world MC :=
  mkWorld o (w_memc w) (w_ud w) (w_globals w) (w_warnings w) (w_exception w).
Definition with_memc (m : MC) w : world MC :=
  mkWorld (w_obj w) m (w_ud w) (w_globals w) (w_warnings w) (w_exception w).
Definition with_ud (u : php_memc_user_data_t) w : world MC :=
  mkWorld (w_obj w) (w_memc w) u (w_globals w) (w_warnings w) (w_exception w).
Definition with_warning (s : string) w : world MC :=
  mkWorld (w_obj w) (w_memc w) (w_ud w) (w_globals w) (w_warnings w ++ [s]) (w_exception w).
Definition with_exception (b : bool) w : world MC :=
  mkWorld (w_obj w) (w_memc w) (w_ud w) (w_globals w) (w_warnings w) b.

(** [php_error_docref(NULL, E_WARNING, ...)]: the format is what is recorded. *)
Definition warn (s : string) : M (world MC) unit := modify (with_warning s).

(** A serializer may leave an exception behind; it never clears one. *)
Definition raise_if (b : bool) : M (world MC) unit :=
  modify (λ w, with_exception (w_exception w || b) w).

(** Calls into libmemcached: the handle is threaded through. *)
Definition memc_call {A} (f : MC → A * MC) : M (world MC) A :=
  λ w, let '(a, m) := f (w_memc w) in Ret a (with_memc m w).
Definition memc_do (f : MC → MC) : M (world MC) unit :=
  modify (λ w, with_memc (f (w_memc w)) w).
End Updates.

(** ** Handling error codes *)

Definition s_memcached_return_is_error (status : memcached_return) (strict : bool) : bool :=
  match status with
  | MEMCACHED_SUCCESS | MEMCACHED_STORED | MEMCACHED_DELETED
  | MEMCACHED_STAT | MEMCACHED_END | MEMCACHED_BUFFERED => false
  | MEMCACHED_SOME_ERRORS => strict
  | _ => true
  end.

Section Status.
Context {MC : Type} `{MemcachedControl MC}.
Implicit Types w : world MC.

Definition set_rescode (status : memcached_return) : M (world MC) unit :=
  modify (λ w, with_obj (mkObject status (memc_errno (w_obj w)) (is_pristine (w_obj w))) w).

Definition s_memc_set_status (status : memcached_return) (errno : Z) : M (world MC) unit :=
  modify (λ w, with_obj (mkObject status errno (is_pristine (w_obj w))) w).

(** SUCCESS is [true], FAILURE is [false]. *)
Definition s_memc_status_handle_result_code (status : memcached_return) : M (world MC) bool :=
  modify (λ w, with_obj (mkObject status 0 (is_pristine (w_obj w))) w);;
  if s_memcached_return_is_error status true then
    modify (λ w, with_obj (mkObject (rescode (w_obj w))
                             (memcached_last_error_errno (w_memc w))
                             (is_pristine (w_obj w))) w);;
    mret false
  else mret true.

Definition s_memc_status_has_error : M (world MC) bool :=
  gets (λ w, s_memcached_return_is_error (rescode (w_obj w)) true).

Definition s_memc_status_has_result_code (status : memcached_return) : M (world MC) bool :=
  gets (λ w, bool_decide (rescode (w_obj w) = status)).

(** The object after [s_memc_status_handle_result_code]. *)
Definition result_obj (status : memcached_return) (m : MC) (o : php_memc_object_t)
    : php_memc_object_t :=
  mkObject status
    (if s_memcached_return_is_error status true then memcached_last_error_errno m else 0)
    (is_pristine o).

Lemma handle_result_code_run status w :
  s_memc_status_handle_result_code status w
  = Ret (negb (s_memcached_return_is_error status true))
      (with_obj (result_obj status (w_memc w) (w_obj w)) w).
Proof.
  unfold s_memc_status_handle_result_code, result_obj. mrun.
  by destruct (s_memcached_return_is_error status true).
Qed.

Lemma set_status_run status errno w :
  s_memc_set_status status errno w
  = Ret tt (with_obj (mkObject status errno (is_pristine (w_obj w))) w).
Proof. done. Qed.
End Status.

(** [php_memc_init_sasl_if_needed].  [sasl_initialised] is set to 0 when the module
    starts and to nothing else, so its test never succeeds; both failures are
    [E_ERROR]s, which [error] reports. *)
Definition php_memc_init_sasl_if_needed (MC : Type) `{BuildConfig} `{MemcachedAuth MC} {W}
    (error : string → M W unit) : M W bool :=
  if HAVE_MEMCACHED_SASL then
    if sasl_client_init then mret true
    else error "Failed to initialize SASL library";; fatal
  else error "Memcached not built with sasl support";; fatal.

#[export] Hint Rewrite @handle_result_code_run @set_status_run : memc_rw.

(** ** Operations that stay on their side of the world *)
Section Sides.
Context {MC : Type} `{MemcachedControl MC}.
Implicit Types w : world MC.

Lemma preserves_warn {B} (f : world MC → B) s :
  (∀ w, f (with_warning s w) = f w) → preserves f (warn s).
Proof. apply preserves_modify. Qed.

Lemma preserves_memc_call {A B} (f : world MC → B) (g : MC → A * MC) :
  (∀ w, f (with_memc (g (w_memc w)).2 w) = f w) → preserves f (memc_call g).
Proof.
  intros Hg w a w' R. unfold memc_call in R. specialize (Hg w).
  destruct (g (w_memc w)) as [a' m]. injection R as _ <-. exact Hg.
Qed.

Lemma preserves_handle_result_code {B} (f : world MC → B) status :
  (∀ o w, f (with_obj o w) = f w) → preserves f (s_memc_status_handle_result_code status).
Proof. intros Hf w a w'. rewrite handle_result_code_run. intros [= _ <-]. apply Hf. Qed.

Lemma preserves_set_status {B} (f : world MC → B) status errno :
  (∀ o w, f (with_obj o w) = f w) → preserves f (s_memc_set_status status errno).
Proof. intros Hf w a w'. rewrite set_status_run. intros [= _ <-]. apply Hf. Qed.

Lemma preserves_set_rescode {B} (f : world MC → B) status :
  (∀ o w, f (with_obj o w) = f w) → preserves f (set_rescode status).
Proof. intros Hf. apply preserves_modify. intros w. apply Hf. Qed.
End Sides.
#[export] Hint Resolve preserves_warn preserves_memc_call preserves_handle_result_code
  preserves_set_status preserves_set_rescode : memc.

(** An invariant of the user data is out of reach of everything but [with_ud]. *)
Section KeepUserData.
Context {MC : Type} `{MemcachedControl MC} (P : php_memc_user_data_t → Prop).

Definition ud_in (w : world MC) : Prop := P (w_ud w).

Lemma keeps_warn s : keeps ud_in (warn s).
Proof. by apply keeps_modify. Qed.

Lemma keeps_set_rescode rc : keeps ud_in (set_rescode rc).
Proof. by apply keeps_modify. Qed.

Lemma keeps_set_status rc e : keeps ud_in (s_memc_set_status rc e).
Proof. by apply keeps_modify. Qed.

Lemma keeps_handle_result_code rc : keeps ud_in (s_memc_status_handle_result_code rc).
Proof. intros w Hw. rewrite handle_result_code_run. eauto. Qed.

Lemma keeps_memc_call {A} (g : MC → A * MC) : keeps ud_in (memc_call g).
Proof. intros w Hw. unfold memc_call. destruct (g (w_memc w)) as [a m]. eauto. Qed.

Lemma keeps_memc_do g : keeps ud_in (memc_do g).
Proof. by apply keeps_modify. Qed.
End KeepUserData.
#[export] Hint Resolve keeps_warn keeps_set_rescode keeps_set_status keeps_handle_result_code
  keeps_memc_call keeps_memc_do : memc.
