(* ===== verification/Toy.v ===== *)
(** * A small concrete engine and client library

    Everything the development leaves abstract, given once as executable
    functions, so that the witnesses run: a Zend runtime whose conversions are
    the obvious ones, libmemcached's real behavior numbers, and a handle [toy]
    that keeps items in a map, answers from a script when it has one, and logs
    the commands it is given.  No theorem about the extension depends on it. *)

From Stdlib Require Import Floats.SpecFloat.
From S2P Require Import Prelude CLib Zend GFmt LibMemcached World.
#[local] Open Scope Z_scope.

(** ** The engine *)

Definition toy_symtable_key (s : string) : zkey :=
  let z := (strtol 10 s).1.1.1 in
  if String.eqb (ldec z) s && (LONG_MIN <=? z) && (z <=? LONG_MAX) then KInt z else KStr s.

Fixpoint repeat_nul (n : nat) : string :=
  match n with O => EmptyString | S n' => String Ascii.zero (repeat_nul n') end.

Definition toy_get_string (v : zval) : string :=
  match v with
  | ZStr s => s
  | ZLong l => ldec l
  | ZTrue => "1"
  | ZArr _ => "Array"
  | _ => ""
  end.

Definition toy_get_long (v : zval) : Z :=
  match v with
  | ZLong l => s64 l
  | ZTrue => 1
  | ZStr s => s64 (strtol 10 s).1.1.1
  | _ => 0
  end.

Definition toy_serialize (v : zval) : ser_result :=
  match v with
  | ZArr [] => mkSer (Some "a:0:{}"%string) false
  | ZObj _ => mkSer None true
  | _ => mkSer (Some "N;"%string) false
  end.

Definition toy_unserialize (s : string) : unser_result :=
  if String.eqb s "a:0:{}" then mkUnser (Some (ZArr [])) false
  else if String.eqb s "N;" then mkUnser (Some ZNull) false
  else mkUnser None false.

(** Doubles that are integers are printed and read exactly. *)
Definition toy_dtoa (d : double) : dtoa_result :=
  match d with
  | S754_zero s => mkDtoa "0" 1 s
  | S754_infinity s => mkDtoa "Infinity" 9999 s
  | S754_nan => mkDtoa "NaN" 9999 false
  | S754_finite s m e =>
      let t := udec (if 0 <=? e then Z.pos m * 2 ^ e else Z.pos m / 2 ^ (- e)) in
      mkDtoa t (zstr_len t) s
  end.

Definition toy_strtod (s : string) : double :=
  match read_decimal s with
  | Some (sgn, m, e) =>
      let z := if 0 <=? e then m * 10 ^ e else m / 10 ^ (- e) in
      match double_of_Z z with
      | S754_finite _ m' e' => S754_finite sgn m' e'
      | _ => S754_zero sgn
      end
  | None => S754_zero false
  end.

(** A compressor for runs of one character. *)
Definition toy_compress (s : string) (room : Z) : option string :=
  match s with
  | String c _ =>
      let r := String c (udec (zstr_len s)) in
      if string_forallb (Ascii.eqb c) s && (zstr_len s <=? UINT64_MAX) && (zstr_len r <=? room)
      then Some r else None
  | EmptyString => None
  end.

Fixpoint repeat_char (c : ascii) (n : nat) : string :=
  match n with O => EmptyString | S n' => String c (repeat_char c n') end.

Definition toy_expand (s : string) (room : Z) : option string :=
  match s with
  | String c d =>
      let n := (strtoull 0 d).1.1 in
      if n <=? room then Some (repeat_char c (Z.to_nat n)) else None
  | EmptyString => None
  end.

Lemma toy_expand_compress s room c n :
  toy_compress s room = Some c → zstr_len s <= n → toy_expand c n = Some s.
Proof.
  destruct s as [|x s]; [done|]. unfold toy_compress. set (t := String x s).
  destruct (string_forallb _ t) eqn:Hall; [|done]. cbn [andb].
  destruct (Z.leb_spec (zstr_len t) UINT64_MAX); [|done]. cbn [andb].
  destruct (_ <=? room); [|done]. intros [= <-] Hn. unfold toy_expand.
  rewrite strtoull_udec by (split; [unfold zstr_len, t; simpl; lia|done]).
  cbn [fst]. replace (zstr_len t <=? n) with true by lia. f_equal.
  unfold zstr_len. rewrite Nat2Z.id. clear -Hall.
  induction t as [|y t IH]; [done|]. simpl in Hall. apply andb_true_iff in Hall as [Hy Ht].
  apply Ascii.eqb_eq in Hy as <-. simpl. f_equal. by apply IH.
Qed.

#[export] Instance ToyZend : ZendRuntime := {|
  zval_get_string := toy_get_string;
  zval_get_long := toy_get_long;
  zval_get_double v := match v with ZDouble d => d | ZLong l => double_of_Z l | _ => S754_zero false end;
  zend_is_true v :=
    match v with
    | ZNull | ZFalse => false
    | ZLong l => negb (l =? 0)
    | ZStr s => negb (String.eqb s "" || String.eqb s "0")
    | ZArr a => match a with [] => false | _ => true end
    | _ => true
    end;
  symtable_key := toy_symtable_key;
  zend_dtoa := toy_dtoa;
  zend_strtod := toy_strtod;
  double_to_u64 d := match d with S754_finite false m e => u64 (Z.shiftl (Z.pos m) e) | _ => 0 end;
  php_var_serialize := toy_serialize;
  php_var_unserialize := toy_unserialize;
  igbinary_serialize := toy_serialize;
  igbinary_unserialize := toy_unserialize;
  php_json_encode := toy_serialize;
  php_json_decode _ := toy_unserialize;
  php_msgpack_serialize := toy_serialize;
  php_msgpack_unserialize := toy_unserialize;
  compress2 _ := toy_compress;
  uncompress := toy_expand;
  ZSTD_compress _ _ _ := None;
  ZSTD_getFrameContentSize _ := None;
  ZSTD_decompress _ _ := None;
  fresh_bytes n := repeat_nul (Z.to_nat n)
|}.

Lemma toy_symtable_key_inj : Inj (=) (=) toy_symtable_key.
Proof.
  intros s t. unfold toy_symtable_key.
  destruct (String.eqb_spec (ldec (strtol 10 s).1.1.1) s) as [Es|];
    destruct (String.eqb_spec (ldec (strtol 10 t).1.1.1) t) as [Et|];
    repeat case_match; intros [= E]; simpl in *; try done; congruence.
Qed.

Lemma repeat_nul_length n : String.length (repeat_nul n) = n.
Proof. induction n; simpl; congruence. Qed.

Lemma ldec_like_number z : key_like_number (ldec z) = true.
Proof.
  unfold ldec. destruct (z <? 0) eqn:E; [done|].
  destruct (udec_head z) as (d & t & -> & Hd & _); [lia|].
  simpl. unfold digit_char. rewrite code_chr by (unfold is_u8; lia).
  apply orb_true_iff. right. lia.
Qed.

#[export] Instance ToyZendLaws : ZendLaws.
Proof.
  constructor; simpl; try done.
  - intros l Hl. by apply s64_id.
  - intros v. destruct v; simpl; try apply s64_range; unfold is_long; by vm_compute.
  - exact toy_symtable_key_inj.
  - intros s Hs. unfold toy_symtable_key.
    destruct (String.eqb_spec (ldec (strtol 10 s).1.1.1) s) as [E|]; [|done].
    rewrite <- E, ldec_like_number in Hs. done.
  - intros n Hn. unfold zstr_len. rewrite repeat_nul_length. lia.
Qed.

Definition toy_config : BuildConfig := {|
  HAVE_ZSTD_H := false; HAVE_MEMCACHED_IGBINARY := false; HAVE_JSON_API := true;
  HAVE_MEMCACHED_MSGPACK := false; HAVE_MEMCACHED_SASL := true;
  HAVE_MEMCACHED_EXIST := true; LIBMEMCACHED_VERSION_HEX := 16777240
|}.
#[export] Existing Instance toy_config.

(** ** libmemcached's headers *)

Definition toy_behavior_num (b : memcached_behavior) : Z :=
  match b with
  | BEHAVIOR_NO_BLOCK => 0 | BEHAVIOR_TCP_NODELAY => 1 | BEHAVIOR_HASH => 2
  | BEHAVIOR_KETAMA => 3 | BEHAVIOR_SOCKET_SEND_SIZE => 4 | BEHAVIOR_SOCKET_RECV_SIZE => 5
  | BEHAVIOR_CACHE_LOOKUPS => 6 | BEHAVIOR_SUPPORT_CAS => 7 | BEHAVIOR_POLL_TIMEOUT => 8
  | BEHAVIOR_DISTRIBUTION => 9 | BEHAVIOR_BUFFER_REQUESTS => 10 | BEHAVIOR_SORT_HOSTS => 12
  | BEHAVIOR_VERIFY_KEY => 13 | BEHAVIOR_CONNECT_TIMEOUT => 14 | BEHAVIOR_RETRY_TIMEOUT => 15
  | BEHAVIOR_KETAMA_WEIGHTED => 16 | BEHAVIOR_KETAMA_HASH => 17
  | BEHAVIOR_BINARY_PROTOCOL => 18 | BEHAVIOR_SND_TIMEOUT => 19 | BEHAVIOR_RCV_TIMEOUT => 20
  | BEHAVIOR_SERVER_FAILURE_LIMIT => 21 | BEHAVIOR_HASH_WITH_PREFIX_KEY => 25
  | BEHAVIOR_NOREPLY => 26 | BEHAVIOR_USE_UDP => 27 | BEHAVIOR_AUTO_EJECT_HOSTS => 28
  | BEHAVIOR_NUMBER_OF_REPLICAS => 29 | BEHAVIOR_RANDOMIZE_REPLICA_READ => 30
  | BEHAVIOR_TCP_KEEPALIVE => 32 | BEHAVIOR_REMOVE_FAILED_SERVERS => 35
  | BEHAVIOR_DEAD_TIMEOUT => 36 | BEHAVIOR_SERVER_TIMEOUT_LIMIT => 37
  end.

#[export] Instance ToyNumbers : MemcachedNumbers := {|
  behavior_num := toy_behavior_num;
  MEMCACHED_BEHAVIOR_MAX := 38;
  MEMCACHED_MAX_KEY := 251;
  return_num rc := if decide (rc = MEMC_RES_PAYLOAD_FAILURE) then -1001 else 0;
  MEMCACHED_HASH_DEFAULT := 0;
  MEMCACHED_DISTRIBUTION_MODULA := 0;
  MEMCACHED_DISTRIBUTION_CONSISTENT := 1
|}.

#[export] Instance ToyNumbersLaws : MemcachedNumbersLaws.
Proof.
  constructor; simpl.
  - intros a b. destruct a, b; simpl; congruence.
  - intros b. destruct b; simpl; lia.
  - by vm_compute.
  - done.
Qed.

(** ** The handle *)

Record toy_item : Type := mkItem { it_value : string; it_flags : Z; it_cas : Z; it_exp : Z }.

(** A logged command: its name, the server key and key, the value, the numbers. *)
Record toy_call : Type := mkCall {
  tc_name : string; tc_skey : option string; tc_key : string; tc_value : string; tc_nums : list Z
}.

Record toy : Type := mkToy {
  t_behaviors : gmap Z Z;
  t_prefix : option string;
  t_items : gmap (string * string) toy_item;
  t_next_cas : Z;
  t_script : list memcached_return;
  t_pending : list (option memcached_result * memcached_return);
  t_log : list toy_call
}.

Definition toy_new : toy := mkToy ∅ None ∅ 1 [] [] [].

Definition t_set_behaviors b m :=
  mkToy b (t_prefix m) (t_items m) (t_next_cas m) (t_script m) (t_pending m) (t_log m).
Definition t_set_prefix p m :=
  mkToy (t_behaviors m) p (t_items m) (t_next_cas m) (t_script m) (t_pending m) (t_log m).
Definition t_set_item k it m :=
  mkToy (t_behaviors m) (t_prefix m) (<[k := it]> (t_items m)) (t_next_cas m + 1)
    (t_script m) (t_pending m) (t_log m).
Definition t_del_item k m :=
  mkToy (t_behaviors m) (t_prefix m) (delete k (t_items m)) (t_next_cas m)
    (t_script m) (t_pending m) (t_log m).
Definition t_set_script s m :=
  mkToy (t_behaviors m) (t_prefix m) (t_items m) (t_next_cas m) s (t_pending m) (t_log m).
Definition t_set_pending p m :=
  mkToy (t_behaviors m) (t_prefix m) (t_items m) (t_next_cas m) (t_script m) p (t_log m).
Definition t_add_log c m :=
  mkToy (t_behaviors m) (t_prefix m) (t_items m) (t_next_cas m) (t_script m) (t_pending m)
    (t_log m ++ [c]).

#[export] Instance ToyControl : MemcachedControl toy := {|
  memcached_behavior_get m b := default 0 (t_behaviors m !! b);
  memcached_behavior_set m b v := (MEMCACHED_SUCCESS, t_set_behaviors (<[b := v]> (t_behaviors m)) m);
  memcached_behavior_set_key_hash m h := t_set_behaviors (<[2 := h]> (t_behaviors m)) m;
  memcached_behavior_set_distribution_hash m h := t_set_behaviors (<[17 := h]> (t_behaviors m)) m;
  memcached_behavior_set_distribution m d := t_set_behaviors (<[9 := d]> (t_behaviors m)) m;
  memcached_prefix_get m := (t_prefix m, MEMCACHED_SUCCESS);
  memcached_prefix_set m p :=
    if match p with Some s => 128 <=? zstr_len s | None => false end
    then (MEMCACHED_KEY_TOO_BIG, m) else (MEMCACHED_SUCCESS, t_set_prefix p m);
  memcached_last_error_errno m := 11;
  memcached_quit m := t_set_pending [] m;
  memcached_server_count m := 1
|}.

(** A command is logged; an error that the script has next is the answer,
    otherwise the items give it. *)
Definition toy_cmd (c : toy_call) (run : toy → memcached_return * toy) (m : toy)
    : memcached_return * toy :=
  let m := t_add_log c m in
  match t_script m with
  | rc :: s =>
      if s_memcached_return_is_error rc true then (rc, t_set_script s m)
      else run (t_set_script s m)
  | [] => run m
  end.

Definition toy_write (skey key v : string) (fl ex : Z) (m : toy) : toy :=
  t_set_item (skey, key) (mkItem v fl (t_next_cas m) ex) m.

Definition toy_store (name : string) (skey : option string) (key v : string) (ex fl : Z) (m : toy)
    : memcached_return * toy :=
  let sk := default key skey in
  toy_cmd (mkCall name skey key v [ex; fl]) (λ m,
    let old := t_items m !! (sk, key) in
    if String.eqb name "set" then (MEMCACHED_SUCCESS, toy_write sk key v fl ex m)
    else match old with
    | None => if String.eqb name "add" then (MEMCACHED_SUCCESS, toy_write sk key v fl ex m)
              else (MEMCACHED_NOTSTORED, m)
    | Some it =>
        if String.eqb name "add" then (MEMCACHED_NOTSTORED, m)
        else if String.eqb name "replace" then (MEMCACHED_SUCCESS, toy_write sk key v fl ex m)
        else if String.eqb name "append"
        then (MEMCACHED_SUCCESS, toy_write sk key (it_value it ++ v) (it_flags it) ex m)
        else (MEMCACHED_SUCCESS, toy_write sk key (v ++ it_value it) (it_flags it) ex m)
    end) m.

Definition toy_touch (skey : option string) (key : string) (ex : Z) (m : toy) :=
  let sk := default key skey in
  toy_cmd (mkCall "touch" skey key "" [ex]) (λ m,
    match t_items m !! (sk, key) with
    | None => (MEMCACHED_NOTFOUND, m)
    | Some it => (MEMCACHED_SUCCESS, toy_write sk key (it_value it) (it_flags it) ex m)
    end) m.

Definition toy_cas (skey : option string) (key v : string) (ex fl cas : Z) (m : toy) :=
  let sk := default key skey in
  toy_cmd (mkCall "cas" skey key v [ex; fl; cas]) (λ m,
    match t_items m !! (sk, key) with
    | None => (MEMCACHED_NOTFOUND, m)
    | Some it =>
        if it_cas it =? cas then (MEMCACHED_SUCCESS, toy_write sk key v fl ex m)
        else (MEMCACHED_DATA_EXISTS, m)
    end) m.

Definition toy_delete (skey : option string) (key : string) (ex : Z) (m : toy) :=
  let sk := default key skey in
  toy_cmd (mkCall "delete" skey key "" [ex]) (λ m,
    match t_items m !! (sk, key) with
    | None => (MEMCACHED_NOTFOUND, m)
    | Some _ => (MEMCACHED_SUCCESS, t_del_item (sk, key) m)
    end) m.

#[export] Instance ToyStorage : MemcachedStorage toy := {|
  memcached_set m k v e f := toy_store "set" None k v e f m;
  memcached_add m k v e f := toy_store "add" None k v e f m;
  memcached_replace m k v e f := toy_store "replace" None k v e f m;
  memcached_append m k v e f := toy_store "append" None k v e f m;
  memcached_prepend m k v e f := toy_store "prepend" None k v e f m;
  memcached_set_by_key m s k v e f := toy_store "set" (Some s) k v e f m;
  memcached_add_by_key m s k v e f := toy_store "add" (Some s) k v e f m;
  memcached_replace_by_key m s k v e f := toy_store "replace" (Some s) k v e f m;
  memcached_append_by_key m s k v e f := toy_store "append" (Some s) k v e f m;
  memcached_prepend_by_key m s k v e f := toy_store "prepend" (Some s) k v e f m;
  memcached_touch m k e := toy_touch None k e m;
  memcached_touch_by_key m s k e := toy_touch (Some s) k e m;
  memcached_cas m k v e f c := toy_cas None k v e f c m;
  memcached_cas_by_key m s k v e f c := toy_cas (Some s) k v e f c m;
  memcached_delete m k e := toy_delete None k e m;
  memcached_delete_by_key m s k e := toy_delete (Some s) k e m
|}.

(** Counters are the decimal values of items. *)
Definition toy_count (name : string) (skey : option string) (key : string) (offset : Z)
    (sign : Z) (initial : option (Z * Z)) (m : toy) : memcached_return * option Z * toy :=
  let sk := default key skey in
  let m := t_add_log (mkCall name skey key "" [offset]) m in
  match t_script m with
  | rc :: s => (rc, None, t_set_script s m)
  | [] =>
      match t_items m !! (sk, key) with
      | Some it =>
          let z := u64 (Z.max 0 ((strtol 10 (it_value it)).1.1.1 + sign * offset)) in
          (MEMCACHED_SUCCESS, Some z, toy_write sk key (udec z) (it_flags it) (it_exp it) m)
      | None =>
          match initial with
          | Some (i, ex) => (MEMCACHED_SUCCESS, Some i, toy_write sk key (udec i) 0 ex m)
          | None => (MEMCACHED_NOTFOUND, None, m)
          end
      end
  end.

#[export] Instance ToyCounters : MemcachedCounters toy := {|
  memcached_increment_by_key m s k o := toy_count "incr" (Some s) k o 1 None m;
  memcached_decrement_by_key m s k o := toy_count "decr" (Some s) k o (-1) None m;
  memcached_increment_with_initial m k o i e := toy_count "incr" None k o 1 (Some (i, e)) m;
  memcached_decrement_with_initial m k o i e := toy_count "decr" None k o (-1) (Some (i, e)) m;
  memcached_increment_with_initial_by_key m s k o i e :=
    toy_count "incr" (Some s) k o 1 (Some (i, e)) m;
  memcached_decrement_with_initial_by_key m s k o i e :=
    toy_count "decr" (Some s) k o (-1) (Some (i, e)) m
|}.

#[export] Instance ToyBuckets : MemcachedBuckets toy := {|
  memcached_bucket_set m hosts fwd buckets replicas :=
    (MEMCACHED_SUCCESS,
     t_add_log (mkCall "bucket" None "" "" (hosts ++ default [] fwd ++ [buckets; replicas])) m)
|}.

Definition toy_results (skey : option string) (keys : list string) (m : toy)
    : list (option memcached_result * memcached_return) :=
  let found := omap (λ k,
    it ← t_items m !! (default k skey, k);
    mret (Some (mkResult k (Bytes (it_value it)) (it_flags it) (it_cas it)), MEMCACHED_SUCCESS)) keys in
  found ++ [(None, match found with [] => MEMCACHED_NOTFOUND | _ => MEMCACHED_END end)].

Definition toy_mget (skey : option string) (keys : list string) (m : toy) :=
  toy_cmd (mkCall "mget" skey (String.concat "," keys) "" []) (λ m,
    (MEMCACHED_SUCCESS, t_set_pending (toy_results skey keys m) m)) m.

#[export] Instance ToyRetrieval : MemcachedRetrieval toy := {|
  memcached_mget m keys := toy_mget None keys m;
  memcached_mget_by_key m s keys := toy_mget (Some s) keys m;
  memcached_fetch_result m :=
    match t_pending m with
    | (r, rc) :: p => (r, rc, t_set_pending p m)
    | [] => (None, MEMCACHED_NOTFOUND, m)
    end;
  memcached_pending m := length (t_pending m)
|}.

#[export] Instance ToyGet : MemcachedGet toy := {|
  memcached_get m key :=
    match t_items m !! (key, key) with
    | Some it => (Some (it_value it), it_flags it, MEMCACHED_SUCCESS, m)
    | None => (None, 0, MEMCACHED_NOTFOUND, m)
    end;
  memcached_exist m key :=
    (match t_items m !! (key, key) with
     | Some _ => MEMCACHED_SUCCESS | None => MEMCACHED_NOTFOUND end, m)
|}.

#[export] Instance ToyAuth : MemcachedAuth toy := {|
  sasl_client_init := true;
  memcached_set_sasl_auth_data m user pass := (MEMCACHED_SUCCESS, t_add_log (mkCall "sasl" None user pass []) m);
  memcached_set_encoding_key m key := (MEMCACHED_SUCCESS, t_add_log (mkCall "encode" None key "" []) m)
|}.

(** ** A world to start from: the defaults of the INI file *)
Definition toy_globals : memc_globals :=
  mkGlobals 2000 (SFdiv prec emax (double_of_Z 13) (double_of_Z 10)) 3 2 1 0 0 true true 0.

Definition toy_ud : php_memc_user_data_t :=
  mkUserData false true false 1 2 3 0 (-1) 0 false.

Definition toy_world (m : toy) : world toy :=
  mkWorld (mkObject MEMCACHED_SUCCESS 0 true) m toy_ud toy_globals [] false.
