(* ===== verification/Keys.v ===== *)
(** * Key validation and key lists

    [MEMC_CHECK_KEY] guards every single-key operation; [s_hash_to_keys] makes
    the key list of the multi-get operations, where keys of a wrong length are
    dropped instead. *)

From S2P Require Import Prelude CLib Zend LibMemcached World Toy.
#[local] Open Scope Z_scope.

Definition MEMC_OBJECT_KEY_MAX_LENGTH : Z := 250.

Definition LF : ascii := chr 10.

Definition s_memc_valid_key_binary (key : string) : bool := negb (memchr key LF).

Definition s_memc_valid_key_ascii (key : string) (verify_key : Z) : bool :=
  if negb (verify_key =? 0)
  then string_forallb (λ c, negb (negb (isgraph c) || isspace c)) key
  else string_forallb (λ c, negb (isspace c)) key.

Section Check.
Context {MC : Type} `{MemcachedControl MC} `{MemcachedNumbers}.

Definition behavior_get (m : MC) (b : memcached_behavior) : Z :=
  memcached_behavior_get m (behavior_num b).

(** [uint32_t]: the prefix is subtracted as a [size_t]. *)
Definition s_memc_object_key_max_length (m : MC) : Z :=
  match memcached_prefix_get m with
  | (Some result, MEMCACHED_SUCCESS) => u32 (MEMC_OBJECT_KEY_MAX_LENGTH - strlen result)
  | _ => MEMC_OBJECT_KEY_MAX_LENGTH
  end.

(** The condition of [MEMC_CHECK_KEY], negated: the key passes. *)
Definition memc_key_ok (m : MC) (key : string) : bool :=
  negb ((zstr_len key =? 0)
        || (zstr_len key >? s_memc_object_key_max_length m)
        || (if negb (behavior_get m BEHAVIOR_BINARY_PROTOCOL =? 0)
            then negb (s_memc_valid_key_binary key)
            else negb (s_memc_valid_key_ascii key (behavior_get m BEHAVIOR_VERIFY_KEY)))).

(** [MEMC_CHECK_KEY(intern, key)]; on [false] the method returns FALSE. *)
Definition MEMC_CHECK_KEY (key : string) : M (world MC) bool :=
  m ← gets w_memc;
  if memc_key_ok m key then mret true
  else set_rescode MEMCACHED_BAD_KEY_PROVIDED;; mret false.

Definition Memcached_checkKey (key : string) : M (world MC) zval :=
  s_memc_set_status MEMCACHED_SUCCESS 0;;
  ok ← MEMC_CHECK_KEY key;
  mret (if ok : bool then ZTrue else ZFalse).

Lemma check_key_run key w :
  MEMC_CHECK_KEY key w
  = if memc_key_ok (w_memc w) key then Ret true w
    else Ret false (with_obj (mkObject MEMCACHED_BAD_KEY_PROVIDED (memc_errno (w_obj w))
                                (is_pristine (w_obj w))) w).
Proof. unfold MEMC_CHECK_KEY. mrun. by destruct (memc_key_ok (w_memc w) key). Qed.
End Check.

#[export] Hint Rewrite @check_key_run : memc_rw.

(** ** Key lists *)
Section KeyLists.
Context `{ZendRuntime} `{MemcachedNumbers}.

(** [0 < ZSTR_LEN(key) < MEMCACHED_MAX_KEY]. *)
Definition key_length_ok (key : string) : bool :=
  (zstr_len key >? 0) && (zstr_len key <? MEMCACHED_MAX_KEY).

(** [s_hash_to_keys]: the keys kept, and the array [return_value] points to,
    if it is given and the order is to be preserved. *)
Fixpoint hash_to_keys (vals : list zval) (preserve_order : bool)
    (return_value : option zarray) : list string * option zarray :=
  match vals with
  | [] => ([], return_value)
  | zv :: vals' =>
      let key := zval_get_string zv in
      let return_value :=
        match return_value with
        | Some a => Some (if preserve_order then arr_update a (symtable_key key) ZNull else a)
        | None => None
        end in
      let '(keys, r) := hash_to_keys vals' preserve_order return_value in
      (if key_length_ok key then key :: keys else keys, r)
  end.

Definition s_hash_to_keys (hash_in : zarray) (preserve_order : bool)
    (return_value : option zarray) : list string * option zarray :=
  hash_to_keys (arr_vals hash_in) preserve_order return_value.

Definition s_key_to_keys (key : string) : list string :=
  (s_hash_to_keys (add_next_index [] (ZStr key)) false None).1.

Lemma hash_to_keys_keys vals p r :
  (hash_to_keys vals p r).1 = filter (λ k, key_length_ok k = true) (zval_get_string <$> vals).
Proof.
  revert r. induction vals as [|v vals IH]; intros r; [done|]. cbn [hash_to_keys].
  destruct (hash_to_keys vals p _) as [ks r'] eqn:E. simpl.
  specialize (IH (match r with
    | Some a => Some (if p then arr_update a (symtable_key (zval_get_string v)) ZNull else a)
    | None => None end)).
  rewrite E in IH. simpl in IH. subst ks. rewrite filter_cons.
  destruct (key_length_ok _) eqn:Ek; [by rewrite decide_True|by rewrite decide_False by congruence].
Qed.

Lemma s_hash_to_keys_keys hash_in p r :
  (s_hash_to_keys hash_in p r).1
  = filter (λ k, 0 < zstr_len k < MEMCACHED_MAX_KEY) (zval_get_string <$> arr_vals hash_in).
Proof.
  unfold s_hash_to_keys. rewrite hash_to_keys_keys.
  apply list_filter_iff. intros k. unfold key_length_ok. rewrite andb_true_iff. lia.
Qed.

Lemma hash_to_keys_unordered vals a : (hash_to_keys vals false (Some a)).2 = Some a.
Proof.
  induction vals as [|v vals IH]; [done|]. cbn [hash_to_keys].
  by destruct (hash_to_keys vals false (Some a)).
Qed.

Lemma hash_to_keys_array vals a :
  (hash_to_keys vals true (Some a)).2
  = Some (foldl (λ a k, arr_update a (symtable_key k) ZNull) a (zval_get_string <$> vals)).
Proof.
  revert a. induction vals as [|v vals IH]; intros a; [done|]. cbn [hash_to_keys].
  destruct (hash_to_keys vals true _) as [ks r'] eqn:E. simpl.
  specialize (IH (arr_update a (symtable_key (zval_get_string v)) ZNull)).
  rewrite E in IH. exact IH.
Qed.

(** The array before any result: every key with NULL, or nothing. *)
Lemma s_hash_to_keys_array hash_in (p : bool) :
  ∃ a, (s_hash_to_keys hash_in p (Some [])).2 = Some a ∧
    a = (if p then foldl (λ a k, arr_update a (symtable_key k) ZNull) []
                    (zval_get_string <$> arr_vals hash_in) else []).
Proof.
  unfold s_hash_to_keys.
  destruct p; [rewrite hash_to_keys_array|rewrite hash_to_keys_unordered]; by eexists.
Qed.

Lemma foldl_null_keys ks a :
  arr_keys (foldl (λ a k, arr_update a (symtable_key k) ZNull) a ks)
  = foldl (λ l k, if decide (k ∈ l) then l else l ++ [k]) (arr_keys a) (symtable_key <$> ks).
Proof.
  revert a. induction ks as [|k ks IH]; intros a; [done|]. simpl. rewrite IH. f_equal.
  case_decide; [by apply arr_keys_update_in|by apply arr_keys_update_new].
Qed.

Lemma foldl_null_vals ks a :
  Forall (λ kv, kv.2 = ZNull) a →
  Forall (λ kv, kv.2 = ZNull) (foldl (λ a k, arr_update a (symtable_key k) ZNull) a ks).
Proof.
  revert a. induction ks as [|k ks IH]; intros a Ha; [done|]. simpl. apply IH.
  clear IH. induction Ha as [|[k' v'] a Hv Ha IHa]; simpl.
  - by apply Forall_singleton.
  - case_decide; by apply List.Forall_cons.
Qed.
End KeyLists.

(** C15: what the key check accepts.  It accepts a key exactly when its length is
    between 1 and 250 less the prefix, and its characters are harmless in the
    protocol spoken: no newline in the binary one, no white space in the text one,
    and printable characters only under VERIFY_KEY.  It changes the object only
    when it rejects, and then only the result code. *)
Theorem MEMC_CHECK_KEY_spec {MC} `{MemcachedControl MC} `{MemcachedNumbers} key (w : world MC) :
  let m := w_memc w in
  let max := match memcached_prefix_get m with
             | (Some p, MEMCACHED_SUCCESS) => 250 - strlen p
             | _ => 250
             end in
  0 <= max →
  ∃ b w', MEMC_CHECK_KEY key w = Ret b w' ∧
    (b = true ↔
       1 <= zstr_len key <= max ∧
       (behavior_get m BEHAVIOR_BINARY_PROTOCOL ≠ 0 →
          Forall (λ c, c ≠ LF) (list_ascii_of_string key)) ∧
       (behavior_get m BEHAVIOR_BINARY_PROTOCOL = 0 →
          Forall (λ c, isspace c = false) (list_ascii_of_string key) ∧
          (behavior_get m BEHAVIOR_VERIFY_KEY ≠ 0 →
             Forall (λ c, isgraph c = true) (list_ascii_of_string key)))) ∧
    w' = if b then w
         else with_obj (mkObject MEMCACHED_BAD_KEY_PROVIDED (memc_errno (w_obj w))
                          (is_pristine (w_obj w))) w.
Proof.
  intros m max Hmax. rewrite check_key_run. fold m.
  exists (memc_key_ok m key), (if memc_key_ok m key then w
    else with_obj (mkObject MEMCACHED_BAD_KEY_PROVIDED (memc_errno (w_obj w))
                     (is_pristine (w_obj w))) w).
  split; [by destruct (memc_key_ok m key)|]. split; [|done].
  assert (s_memc_object_key_max_length m = max) as Hm.
  { unfold s_memc_object_key_max_length, max in *.
    destruct (memcached_prefix_get m) as [[p|] []]; try done.
    apply u32_id. unfold is_u32, MEMC_OBJECT_KEY_MAX_LENGTH.
    pose proof (strlen_le p). lia. }
  unfold memc_key_ok. rewrite Hm, negb_true_iff, !orb_false_iff.
  assert (0 <= zstr_len key) by (unfold zstr_len; lia).
  destruct (Z.eqb_spec (behavior_get m BEHAVIOR_BINARY_PROTOCOL) 0) as [E|E];
    cbn [negb]; rewrite negb_false_iff.
  - unfold s_memc_valid_key_ascii.
    destruct (Z.eqb_spec (behavior_get m BEHAVIOR_VERIFY_KEY) 0) as [Ev|Ev];
      cbn [negb]; rewrite string_forallb_spec.
    + split.
      * intros [[? ?] Hf]. split; [lia|]. split; [done|]. intros _. split; [|done].
        eapply Forall_impl; [exact Hf|]. intros c. apply negb_true_iff.
      * intros (? & _ & Hf). destruct (Hf E) as [Hf' _]. split; [split; lia|].
        eapply Forall_impl; [exact Hf'|]. intros c. apply negb_true_iff.
    + split.
      * intros [[? ?] Hf]. split; [lia|]. split; [done|]. intros _.
        split; [|intros _]; (eapply Forall_impl; [exact Hf|]); intros c Hc; simpl in Hc;
          destruct (isgraph c), (isspace c); done.
      * intros (? & _ & Hf). destruct (Hf E) as [Hf1 Hf2]. specialize (Hf2 Ev).
        split; [split; lia|]. apply Forall_forall. intros c Hc.
        rewrite Forall_forall in Hf1, Hf2. by rewrite (Hf1 c Hc), (Hf2 c Hc).
  - unfold s_memc_valid_key_binary. rewrite negb_true_iff, memchr_spec. split.
    + intros [[? ?] Hb]. split; [lia|]. by split.
    + intros (? & Hb & _). split; [split; lia|]. by apply Hb.
Qed.

Lemma MEMC_CHECK_KEY_spec_witness :
  let w := toy_world (t_set_prefix (Some "app:"%string) toy_new) in
  MEMC_CHECK_KEY "user 1" w
  = Ret false (with_obj (mkObject MEMCACHED_BAD_KEY_PROVIDED 0 true) w)
  ∧ ∃ b w', MEMC_CHECK_KEY "user:1" w = Ret b w' ∧ b = true ∧ w' = w.
Proof.
  split; [vm_compute; reflexivity|].
  destruct (MEMC_CHECK_KEY_spec "user:1"
              (toy_world (t_set_prefix (Some "app:"%string) toy_new))) as (b & w' & E & Hb & Hw).
  { vm_compute. discriminate. }
  exists b, w'. rewrite E. assert (b = true) as ->.
  { apply Hb. split; [split; vm_compute; discriminate|]. split.
    - intros Hne. destruct Hne. vm_compute. reflexivity.
    - intros _. split.
      + repeat (apply List.Forall_cons; [reflexivity|]). apply List.Forall_nil.
      + intros _. repeat (apply List.Forall_cons; [reflexivity|]). apply List.Forall_nil. }
  auto.
Defined.

(** The distinct members of a list, in the order of their first occurrence. *)
Definition first_occurrences {A} `{EqDecision A} (l : list A) : list A :=
  foldl (λ acc k, if decide (k ∈ acc) then acc else acc ++ [k]) [] l.

Lemma foldl_occurrences {A} `{EqDecision A} (l acc : list A) :
  NoDup acc →
  let r := foldl (λ acc k, if decide (k ∈ acc) then acc else acc ++ [k]) acc l in
  NoDup r ∧ ∀ k, k ∈ r ↔ k ∈ acc ∨ k ∈ l.
Proof.
  revert acc. induction l as [|x l IH]; intros acc Hnd; simpl.
  - split; [done|]. intros k. rewrite elem_of_nil. tauto.
  - destruct (decide (x ∈ acc)) as [Hin|Hin].
    + destruct (IH acc Hnd) as [H1 H2]. split; [done|]. intros k.
      rewrite H2, elem_of_cons. split; [intuition|intros [?|[->|?]]; auto].
    + destruct (IH (acc ++ [x])) as [H1 H2].
      { apply NoDup_app. repeat split; [done| |apply NoDup_singleton].
        intros y Hy ->%list_elem_of_singleton. done. }
      split; [done|]. intros k. rewrite H2, elem_of_app, !elem_of_cons, elem_of_nil. tauto.
Qed.

(** [s_hash_to_keys] keeps, in order and with repetitions, exactly the keys of
    1 to [MEMCACHED_MAX_KEY - 1] bytes.  When the order is to be preserved it also
    puts every key, kept or not, into the result array: once each, in the order of
    first occurrence, with the value NULL. *)
Theorem s_hash_to_keys_spec `{ZendRuntime} `{MemcachedNumbers} hash_in :
  let asked := zval_get_string <$> arr_vals hash_in in
  (∀ preserve_order rv,
     (s_hash_to_keys hash_in preserve_order rv).1
     = filter (λ k, 0 < zstr_len k < MEMCACHED_MAX_KEY) asked)
  ∧ ∃ a, (s_hash_to_keys hash_in true (Some [])).2 = Some a
    ∧ arr_keys a = first_occurrences (symtable_key <$> asked)
    ∧ NoDup (arr_keys a)
    ∧ (∀ k, k ∈ arr_keys a ↔ k ∈ symtable_key <$> asked)
    ∧ Forall (λ kv, kv.2 = ZNull) a.
Proof.
  intros asked. split.
  - intros p rv. apply s_hash_to_keys_keys.
  - unfold s_hash_to_keys. rewrite hash_to_keys_array. eexists. split; [done|].
    pose proof (foldl_null_keys asked []) as E.
    change (arr_keys []) with (@nil zkey) in E. fold (first_occurrences (symtable_key <$> asked)) in E.
    destruct (foldl_occurrences (symtable_key <$> asked) [] (NoDup_nil_2)) as [Hnd Hin].
    fold asked. rewrite E. split; [done|]. split; [done|]. split.
    + intros k. unfold first_occurrences. rewrite Hin, elem_of_nil. tauto.
    + by apply foldl_null_vals.
Qed.
