(* ===== verification/CasToken.v ===== *)
(** * CAS tokens: [s_uint64_to_zval] and [s_zval_to_uint64]

    A 64-bit token becomes a PHP integer when it fits and a decimal string
    otherwise; the way back reads either. *)

From Stdlib Require Import Floats.SpecFloat.
From S2P Require Import Prelude CLib Zend World Toy.
#[local] Open Scope Z_scope.

Definition s_uint64_to_zval (value : Z) : zval :=
  if value >=? LONG_MAX then ZStr (udec value) else ZLong (s64 value).

Section Unmarshal.
Context {MC : Type} `{ZendRuntime}.

(** [*end || (errno == ERANGE && val == UINT64_MAX) || (errno != 0 && val == 0)]:
    [strtoull] only sets ERANGE (glibc leaves errno alone when it reads
    nothing), with [val == UINT64_MAX]. *)
Definition s_zval_to_uint64 (cas : zval) : M (world MC) Z :=
  match cas with
  | ZLong _ => mret (u64 (zval_get_long cas))
  | ZDouble d =>
      if SFltb d (S754_zero false) then mret 0 else mret (double_to_u64 (zval_get_double cas))
  | ZStr s =>
      let '(val, end_, erange) := strtoull 0 s in
      if negb (String.eqb end_ "") || (erange && (val =? UINT64_MAX)) || (erange && (val =? 0))
      then warn "Failed to unmarshall cas token";; fatal
      else mret val
  | _ => mret 0
  end.

(** What a token is read back as; [None] stops the request. *)
Definition cas_token_value (cas : zval) : option Z :=
  match cas with
  | ZLong _ => Some (u64 (zval_get_long cas))
  | ZDouble d =>
      Some (if SFltb d (S754_zero false) then 0 else double_to_u64 (zval_get_double cas))
  | ZStr s =>
      let '(val, end_, erange) := strtoull 0 s in
      if negb (String.eqb end_ "") || erange then None else Some val
  | _ => Some 0
  end.

Lemma strtoull_erange base s v e : strtoull base s = (v, e, true) → v = UINT64_MAX.
Proof.
  unfold strtoull. destruct (strto_scan base _) as [[[neg v'] r]|]; [|done].
  destruct (UINT64_MAX <? v'); intros [= <- _]; done.
Qed.

Lemma zval_to_uint64_run cas w :
  s_zval_to_uint64 cas w
  = match cas_token_value cas with
    | Some v => Ret v w
    | None => Bailout (with_warning "Failed to unmarshall cas token" w)
    end.
Proof.
  destruct cas; try done; cbn [s_zval_to_uint64 cas_token_value].
  - by destruct (SFltb d (S754_zero false)).
  - destruct (strtoull 0 s) as [[v e] []] eqn:E.
    + apply strtoull_erange in E as ->.
      destruct (String.eqb e ""); done.
    + rewrite !andb_false_l, !orb_false_r. destruct (negb (String.eqb e "")); done.
Qed.
End Unmarshal.

Lemma cas_token_round_trip' {MC} `{ZendLaws} (token : Z) (w : world MC) :
  is_u64 token → s_zval_to_uint64 (s_uint64_to_zval token) w = Ret token w.
Proof.
  intros Ht. unfold is_u64 in Ht. rewrite zval_to_uint64_run. unfold s_uint64_to_zval.
  destruct (Z.geb_spec token LONG_MAX) as [Hge|Hlt].
  - unfold cas_token_value. rewrite strtoull_udec; [done|]. unfold UINT64_MAX, LONG_MAX in *. lia.
  - unfold cas_token_value.
    assert (is_long token) by (unfold is_long, LONG_MIN in *; lia).
    rewrite s64_id by done. rewrite zval_get_long_long by done.
    by rewrite u64_id.
Qed.

(** C19: every 64-bit CAS token survives the trip through a PHP value: the value
    [get] hands out with the extended flag is read back by [cas] as the same
    token, and reading it changes nothing. *)
Theorem cas_token_round_trip {MC} `{ZendLaws} (token : Z) (w : world MC) :
  is_u64 token → s_zval_to_uint64 (s_uint64_to_zval token) w = Ret token w.
Proof. apply cas_token_round_trip'. Qed.

Lemma cas_token_round_trip_witness :
  s_zval_to_uint64 (s_uint64_to_zval UINT64_MAX) (toy_world toy_new) = Ret UINT64_MAX (toy_world toy_new)
  ∧ s_uint64_to_zval UINT64_MAX = ZStr "18446744073709551615".
Proof.
  split; [|reflexivity].
  apply cas_token_round_trip. unfold is_u64, UINT64_MAX. lia.
Defined.
