(* ===== verification/DoubleBounds.v ===== *)
(** * Bounds on double arithmetic

    [s_compress_value] computes its buffer's size in doubles.  What the proof
    that the buffer is large enough needs: rounding to nearest never goes below
    truncation to 53 bits, so a product or sum of positive doubles loses less
    than one part in 2^52. *)

From Stdlib Require Import Floats.SpecFloat.
From S2P Require Import Prelude Zend.
#[local] Open Scope Z_scope.

(** ** Shifting right *)
Lemma shr_1_m r : 0 <= shr_m r → shr_m (shr_1 r) = shr_m r / 2.
Proof.
  destruct r as [m r s]. simpl. intros Hm. destruct m as [|p|p]; [done| |lia].
  destruct p as [p|p|]; simpl; [|by rewrite <- (Z.div_mul (Z.pos p) 2) by lia; f_equal; lia|done].
  change (Z.pos p~1) with (2 * Z.pos p + 1). dlia.
Qed.

Lemma shr_iter_m p r :
  0 <= shr_m r → shr_m (SpecFloat.iter_pos shr_1 p r) = shr_m r / 2 ^ Z.pos p.
Proof.
  assert (∀ p r, 0 <= shr_m r → 0 <= shr_m (SpecFloat.iter_pos shr_1 p r)
    ∧ shr_m (SpecFloat.iter_pos shr_1 p r) = shr_m r / 2 ^ Z.pos p) as H.
  { clear. induction p as [p IH|p IH|]; intros r Hr; cbn [SpecFloat.iter_pos].
    - assert (0 <= shr_m (shr_1 r)) as H1 by (rewrite shr_1_m by done; dlia).
      destruct (IH (shr_1 r) H1) as [H2 E2]. destruct (IH _ H2) as [H3 E3].
      split; [done|]. rewrite E3, E2, shr_1_m by done.
      rewrite !Z.div_div by lia. f_equal.
      replace (Z.pos p~1) with (1 + (Z.pos p + Z.pos p)) by lia.
      rewrite !Z.pow_add_r by lia. lia.
    - destruct (IH r Hr) as [H2 E2]. destruct (IH _ H2) as [H3 E3].
      split; [done|]. rewrite E3, E2, !Z.div_div by lia. f_equal.
      rewrite Pos2Z.inj_xO, <- Z.pow_add_r by lia. f_equal. lia.
    - rewrite shr_1_m by done. split; [dlia|done]. }
  intros. by apply H.
Qed.

Lemma Zdigits2_bounds p : 2 ^ (Zdigits2 (Z.pos p) - 1) <= Z.pos p < 2 ^ Zdigits2 (Z.pos p).
Proof.
  cbn [Zdigits2]. induction p as [p IH|p IH|]; cbn [digits2_pos]; [| |by vm_compute].
  - rewrite Pos2Z.inj_succ. replace (Z.succ (Z.pos (digits2_pos p)) - 1)
      with (Z.succ (Z.pos (digits2_pos p) - 1)) by lia.
    rewrite !Z.pow_succ_r by lia. lia.
  - rewrite Pos2Z.inj_succ. replace (Z.succ (Z.pos (digits2_pos p)) - 1)
      with (Z.succ (Z.pos (digits2_pos p) - 1)) by lia.
    rewrite !Z.pow_succ_r by lia. lia.
Qed.

Lemma Zdigits2_unique z d : 1 <= d → 2 ^ (d - 1) <= z < 2 ^ d → Zdigits2 z = d.
Proof.
  intros Hd Hz. assert (0 < 2 ^ (d - 1)) by (apply Z.pow_pos_nonneg; lia).
  destruct z as [|p|p]; [lia| |lia]. pose proof (Zdigits2_bounds p) as Hp.
  set (k := Zdigits2 (Z.pos p)) in *.
  assert (1 <= k) by (subst k; simpl; lia).
  destruct (Z.lt_total k d) as [Hlt|[Heq|Hgt]]; [|done|].
  - assert (2 ^ k <= 2 ^ (d - 1)) by (apply Z.pow_le_mono_r; lia). lia.
  - assert (2 ^ d <= 2 ^ (k - 1)) by (apply Z.pow_le_mono_r; lia). lia.
Qed.

Lemma shr_fexp_m m e l :
  0 < m → 53 <= Zdigits2 m → -1000 <= e →
  shr_m (shr_fexp prec emax m e l).1 = m / 2 ^ (Zdigits2 m - 53)
  ∧ (shr_fexp prec emax m e l).2 = e + (Zdigits2 m - 53).
Proof.
  intros Hm Hd He. unfold shr_fexp, fexp, emin, prec, emax.
  rewrite Z.max_l by lia. replace (Zdigits2 m + e - 53 - e) with (Zdigits2 m - 53) by lia.
  assert (shr_m (shr_record_of_loc m l) = m) as Hr by (by destruct l as [|[]]).
  unfold shr. destruct (Zdigits2 m - 53) as [|p|p] eqn:E; [| |lia]; simpl.
  - rewrite Hr, Z.div_1_r. split; [done|lia].
  - rewrite shr_iter_m by (rewrite Hr; lia). by rewrite Hr.
Qed.

Lemma round_nearest_even_ge m l : m <= round_nearest_even m l <= m + 1.
Proof. unfold round_nearest_even. destruct l as [|[]]; repeat case_match; lia. Qed.

(** The rounded result is a normal number, not below the truncated one. *)
Lemma round_aux_lower m e :
  53 <= Zdigits2 m → 0 < m → -1000 <= e → Zdigits2 m + e <= 1000 →
  ∃ m' e', binary_round_aux prec emax false m e loc_Exact = S754_finite false m' e'
    ∧ Zdigits2 (Z.pos m') = 53
    ∧ e + (Zdigits2 m - 53) <= e' <= e + (Zdigits2 m - 53) + 1
    ∧ m / 2 ^ (Zdigits2 m - 53) * 2 ^ (Zdigits2 m - 53) <= Z.pos m' * 2 ^ (e' - e).
Proof.
  intros Hd Hm He Hmax. unfold binary_round_aux.
  pose proof (shr_fexp_m m e loc_Exact Hm Hd He) as [Hm0 He0].
  destruct (shr_fexp prec emax m e loc_Exact) as [r0 e0]. cbn [fst snd] in *. subst e0.
  set (s := Zdigits2 m - 53) in *.
  assert (2 ^ 52 <= shr_m r0 < 2 ^ 53) as Hr0.
  { rewrite Hm0. destruct m as [|p|p]; [lia| |lia]. pose proof (Zdigits2_bounds p) as Hp.
    assert (0 < 2 ^ s) by (apply Z.pow_pos_nonneg; lia).
    replace (Zdigits2 (Z.pos p)) with (53 + s) in Hp by lia.
    replace (53 + s - 1) with (52 + s) in Hp by lia. rewrite !Z.pow_add_r in Hp by lia.
    split; [apply Z.div_le_lower_bound|apply Z.div_lt_upper_bound]; lia. }
  pose proof (round_nearest_even_ge (shr_m r0) (loc_of_shr_record r0)) as Hr.
  set (m1 := round_nearest_even _ _) in *.
  destruct (Z.eq_dec m1 (2 ^ 53)) as [E|E].
  - assert (Zdigits2 m1 = 54) as Hd1 by (rewrite E; reflexivity).
    pose proof (shr_fexp_m m1 (e + s) loc_Exact ltac:(lia) ltac:(lia) ltac:(lia)) as [H1 H2].
    destruct (shr_fexp prec emax m1 (e + s) loc_Exact) as [r1 e1]. cbn [fst snd] in *.
    rewrite Hd1 in *. rewrite E in H1. change (2 ^ 53 / 2 ^ (54 - 53)) with (Z.pos (2 ^ 52)) in H1.
    rewrite H1. subst e1. replace (Z.leb _ _) with true by (unfold emax, prec; lia).
    eexists _, _. split; [done|]. split; [done|]. split; [lia|].
    replace (e + s + (54 - 53) - e) with (s + 1) by lia. rewrite Z.pow_add_r by lia.
    rewrite <- Hm0. assert (0 < 2 ^ s) by (apply Z.pow_pos_nonneg; lia).
    change (Z.pos (2 ^ 52)) with (2 ^ 52). nia.
  - assert (Zdigits2 m1 = 53) as Hd1 by (apply Zdigits2_unique; lia).
    pose proof (shr_fexp_m m1 (e + s) loc_Exact ltac:(lia) ltac:(lia) ltac:(lia)) as [H1 H2].
    destruct (shr_fexp prec emax m1 (e + s) loc_Exact) as [r1 e1]. cbn [fst snd] in *.
    rewrite Hd1 in *. change (2 ^ (53 - 53)) with 1 in H1. rewrite Z.div_1_r in H1.
    destruct m1 as [|p1|p1]; [lia| |lia]. rewrite H1. subst e1.
    replace (Z.leb _ _) with true by (unfold emax, prec; lia).
    eexists _, _. split; [done|]. split; [done|]. split; [lia|].
    replace (e + s + (53 - 53) - e) with s by lia. rewrite <- Hm0.
    apply Z.mul_le_mono_nonneg_r; [apply Z.pow_nonneg; lia|lia].
Qed.

(** ** The operations *)

(** A positive normal double with its exponent in a range, and its value in units
    of 2^-200. *)
Definition normal (lo hi : Z) (x : double) : Prop :=
  match x with
  | S754_finite false m e => Zdigits2 (Z.pos m) = 53 ∧ lo <= e <= hi
  | _ => False
  end.

Definition scaled (x : double) : Z :=
  match x with S754_finite false m e => Z.pos m * 2 ^ (e + 200) | _ => 0 end.

Lemma normal_mono lo hi lo' hi' x :
  lo' <= lo → hi <= hi' → normal lo hi x → normal lo' hi' x.
Proof. destruct x as [| | |[] m e]; simpl; try done. intros ? ? [? ?]. split; [done|lia]. Qed.

Lemma round_aux_scaled m e :
  53 <= Zdigits2 m → 0 < m → -150 <= e → Zdigits2 m + e <= 1000 →
  let x := binary_round_aux prec emax false m e loc_Exact in
  normal (e + (Zdigits2 m - 53)) (e + (Zdigits2 m - 53) + 1) x
  ∧ m * 2 ^ (e + 200) * (2 ^ 52 - 1) <= scaled x * 2 ^ 52.
Proof.
  intros Hd Hm He Hmax.
  destruct (round_aux_lower m e) as (m' & e' & -> & Hd' & He' & Hb); [lia..|].
  split; [by simpl|]. cbn [scaled].
  replace (e' + 200) with ((e' - e) + (e + 200)) by lia.
  rewrite (Z.pow_add_r 2 (e' - e) (e + 200)) by lia.
  set (s := Zdigits2 m - 53) in *.
  assert (m * (2 ^ 52 - 1) <= m / 2 ^ s * 2 ^ s * 2 ^ 52) as Ht.
  { destruct m as [|p|p]; [lia| |lia]. pose proof (Zdigits2_bounds p) as Hp.
    replace (Zdigits2 (Z.pos p)) with (53 + s) in Hp by lia.
    replace (53 + s - 1) with (52 + s) in Hp by lia. rewrite !Z.pow_add_r in Hp by lia.
    assert (0 < 2 ^ s) by (apply Z.pow_pos_nonneg; lia).
    pose proof (Z.div_mod (Z.pos p) (2 ^ s)). pose proof (Z.mod_pos_bound (Z.pos p) (2 ^ s)).
    lia. }
  assert (0 < 2 ^ (e + 200)) by (apply Z.pow_pos_nonneg; lia).
  nia.
Qed.

(** [shl_align] only changes the representation. *)
Lemma shl_align_value mx ex ex' :
  let '(m, e) := shl_align mx ex ex' in
  e = Z.min ex ex' ∧ Z.pos m = Z.pos mx * 2 ^ (ex - e).
Proof.
  unfold shl_align. destruct (ex' - ex) as [|d|d] eqn:E.
  - split; [lia|]. rewrite Z.sub_diag. lia.
  - split; [lia|]. rewrite Z.sub_diag. lia.
  - change (Pos.iter xO mx d) with (shift_pos d mx).
    split; [lia|]. rewrite shift_pos_correct. replace (ex - ex') with (Z.pos d) by lia.
    rewrite Z.mul_comm. done.
Qed.

Lemma Zdigits2_shift p k : 0 <= k → Zdigits2 (Z.pos p * 2 ^ k) = Zdigits2 (Z.pos p) + k.
Proof.
  intros Hk. pose proof (Zdigits2_bounds p) as Hp.
  assert (1 <= Zdigits2 (Z.pos p)) by (simpl; lia).
  assert (0 < 2 ^ k) by (apply Z.pow_pos_nonneg; lia).
  apply Zdigits2_unique; [lia|].
  replace (Zdigits2 (Z.pos p) + k - 1) with (Zdigits2 (Z.pos p) - 1 + k) by lia.
  rewrite !Z.pow_add_r by lia. nia.
Qed.

Lemma binary_round_scaled m e :
  -100 <= e → Zdigits2 (Z.pos m) + e <= 900 → -90 <= Zdigits2 (Z.pos m) + e →
  let x := binary_round prec emax false m e in
  normal (Zdigits2 (Z.pos m) + e - 53) (Zdigits2 (Z.pos m) + e) x
  ∧ Z.pos m * 2 ^ (e + 200) * (2 ^ 52 - 1) <= scaled x * 2 ^ 52.
Proof.
  intros He Hmax Hmin. unfold binary_round.
  assert (fexp prec emax (Z.pos (digits2_pos m) + e) = Zdigits2 (Z.pos m) + e - 53) as ->
    by (unfold fexp, emin, prec, emax; simpl; lia).
  pose proof (shl_align_value m e (Zdigits2 (Z.pos m) + e - 53)) as Hs.
  destruct (shl_align _ _ _) as [mz ez]. destruct Hs as [Hez Hmz].
  assert (Zdigits2 (Z.pos mz) = Zdigits2 (Z.pos m) + (e - ez)) as Hdz
    by (rewrite Hmz; apply Zdigits2_shift; lia).
  destruct (round_aux_scaled (Z.pos mz) ez) as [Hn Hb]; [lia..|].
  split.
  - eapply normal_mono; [| |exact Hn]; lia.
  - set (x := scaled _) in *. rewrite Hmz in Hb. replace (e + 200) with ((e - ez) + (ez + 200)) by lia.
    rewrite (Z.pow_add_r 2 (e - ez) (ez + 200)) by lia. lia.
Qed.

Lemma double_of_Z_scaled n :
  0 < n < 2 ^ 52 →
  normal (-53) 52 (double_of_Z n) ∧ n * 2 ^ 200 * (2 ^ 52 - 1) <= scaled (double_of_Z n) * 2 ^ 52.
Proof.
  intros Hn. unfold double_of_Z, binary_normalize. destruct n as [|p|p]; [lia| |lia].
  pose proof (Zdigits2_bounds p) as Hp.
  assert (1 <= Zdigits2 (Z.pos p)) by (simpl; lia).
  assert (Zdigits2 (Z.pos p) <= 52).
  { destruct (Z.le_gt_cases (Zdigits2 (Z.pos p)) 52) as [|Hgt]; [done|].
    assert (2 ^ 52 <= 2 ^ (Zdigits2 (Z.pos p) - 1)) by (apply Z.pow_le_mono_r; lia). lia. }
  destruct (binary_round_scaled p 0) as [H1 H2]; [lia..|]. split; [|exact H2].
  eapply normal_mono; [| |exact H1]; lia.
Qed.

Lemma dmul_scaled lx hx ly hy x y :
  normal lx hx x → normal ly hy y → -150 <= lx + ly → hx + hy <= 800 →
  -200 <= lx → -200 <= ly →
  normal (lx + ly + 52) (hx + hy + 54) (dmul x y)
  ∧ scaled x * scaled y * (2 ^ 52 - 1) <= scaled (dmul x y) * 2 ^ 252.
Proof.
  destruct x as [| | |[] mx ex]; try done. destruct y as [| | |[] my ey]; try done.
  intros [Hdx Hx] [Hdy Hy] Hlo Hhi Hlx Hly. unfold dmul, SFmul. cbn [xorb].
  pose proof (Zdigits2_bounds mx) as Hmx. pose proof (Zdigits2_bounds my) as Hmy.
  rewrite Hdx in Hmx. rewrite Hdy in Hmy.
  assert (105 <= Zdigits2 (Z.pos (mx * my)) <= 106) as Hd.
  { rewrite Pos2Z.inj_mul. destruct (Z.lt_ge_cases (Z.pos mx * Z.pos my) (2 ^ 105)).
    - rewrite (Zdigits2_unique _ 105); [lia|lia|nia].
    - rewrite (Zdigits2_unique _ 106); [lia|lia|nia]. }
  destruct (round_aux_scaled (Z.pos (mx * my)) (ex + ey)) as [Hn Hb]; [lia..|].
  split; [eapply normal_mono; [| |exact Hn]; lia|].
  cbn [scaled] in *. set (z := scaled _) in *. rewrite Pos2Z.inj_mul in Hb.
  assert (2 ^ (ex + 200) * 2 ^ (ey + 200) = 2 ^ (ex + ey + 200) * 2 ^ 200) as E
    by (rewrite <- !Z.pow_add_r by lia; f_equal; lia).
  change (2 ^ 252) with (2 ^ 52 * 2 ^ 200).
  replace (Z.pos mx * 2 ^ (ex + 200) * (Z.pos my * 2 ^ (ey + 200)) * (2 ^ 52 - 1))
    with (Z.pos mx * Z.pos my * (2 ^ (ex + 200) * 2 ^ (ey + 200)) * (2 ^ 52 - 1)) by ring.
  rewrite E. lia.
Qed.

Lemma dadd_scaled x y :
  normal (-100) 400 x → normal (-100) 400 y →
  normal (-150) 800 (dadd x y)
  ∧ (scaled x + scaled y) * (2 ^ 52 - 1) <= scaled (dadd x y) * 2 ^ 52.
Proof.
  destruct x as [| | |[] mx ex]; try done. destruct y as [| | |[] my ey]; try done.
  intros [Hdx Hx] [Hdy Hy]. unfold dadd, SFadd. cbn [cond_Zopp].
  pose proof (shl_align_value mx ex (Z.min ex ey)) as H1.
  destruct (shl_align mx ex _) as [m1 e1]. destruct H1 as [He1 Hm1].
  pose proof (shl_align_value my ey (Z.min ex ey)) as H2.
  destruct (shl_align my ey _) as [m2 e2]. destruct H2 as [He2 Hm2].
  cbn [fst]. set (e := Z.min ex ey) in *.
  assert (e1 = e) as -> by lia. assert (e2 = e) as -> by lia.
  cbn [Z.add binary_normalize].
  pose proof (Zdigits2_shift mx (ex - e) ltac:(lia)) as Hd1. rewrite <- Hm1, Hdx in Hd1.
  pose proof (Zdigits2_shift my (ey - e) ltac:(lia)) as Hd2. rewrite <- Hm2, Hdy in Hd2.
  pose proof (Zdigits2_bounds m1) as Hb1. pose proof (Zdigits2_bounds m2) as Hb2.
  pose proof (Zdigits2_bounds (m1 + m2)) as Hb.
  set (k1 := Zdigits2 (Z.pos m1)) in *. set (k2 := Zdigits2 (Z.pos m2)) in *.
  set (k := Zdigits2 (Z.pos (m1 + m2))) in *.
  assert (k1 <= k).
  { destruct (Z.le_gt_cases k1 k) as [|Hgt]; [done|].
    assert (2 ^ k <= 2 ^ (k1 - 1)) by (apply Z.pow_le_mono_r; lia). lia. }
  assert (k <= Z.max k1 k2 + 1).
  { destruct (Z.le_gt_cases k (Z.max k1 k2 + 1)) as [|Hgt]; [done|].
    assert (2 ^ (Z.max k1 k2 + 1) <= 2 ^ (k - 1)) by (apply Z.pow_le_mono_r; lia).
    assert (2 ^ k1 <= 2 ^ Z.max k1 k2) by (apply Z.pow_le_mono_r; lia).
    assert (2 ^ k2 <= 2 ^ Z.max k1 k2) by (apply Z.pow_le_mono_r; lia).
    rewrite Z.pow_add_r in * by lia. lia. }
  clear Hb Hb1 Hb2.
  destruct (binary_round_scaled (m1 + m2) e) as [Hn Hs]; [lia|fold k; lia|fold k; lia|].
  fold k in Hn. split.
  - eapply normal_mono; [| |exact Hn]; lia.
  - cbn [scaled]. set (z := scaled _) in *. rewrite Pos2Z.inj_add, Hm1, Hm2 in Hs.
    replace (ex + 200) with ((ex - e) + (e + 200)) by lia.
    replace (ey + 200) with ((ey - e) + (e + 200)) by lia.
    rewrite (Z.pow_add_r 2 (ex - e)), (Z.pow_add_r 2 (ey - e)) by lia. lia.
Qed.

(** ** Exact conversions: an integer of at most 53 bits is a double *)
Lemma Zdigits2_pos p : 1 <= Zdigits2 (Z.pos p).
Proof. simpl. lia. Qed.

Lemma round_aux_exact m e :
  Zdigits2 (Z.pos m) = 53 → -1000 <= e <= 900 →
  binary_round_aux prec emax false (Z.pos m) e loc_Exact = S754_finite false m e.
Proof.
  intros Hd He. assert (fexp prec emax (Zdigits2 (Z.pos m) + e) - e = 0) as Hf.
  { rewrite Hd. unfold fexp, emin, prec, emax. lia. }
  unfold binary_round_aux, shr_fexp. rewrite Hf. cbn [shr shr_record_of_loc loc_of_shr_record].
  cbn [shr_m round_nearest_even]. rewrite Hf. cbn [shr shr_record_of_loc shr_m].
  replace (e <=? emax - prec) with true; [done|]. symmetry. apply Z.leb_le. unfold emax, prec. lia.
Qed.

Lemma double_of_Z_exact n :
  0 < n < 2 ^ 53 → ∃ m e, double_of_Z n = S754_finite false m e ∧ e <= 0 ∧ Z.pos m = n * 2 ^ (- e).
Proof.
  intros Hn. unfold double_of_Z, binary_normalize. destruct n as [|p|p]; [lia| |lia].
  pose proof (Zdigits2_bounds p) as Hp. pose proof (Zdigits2_pos p) as Hd1.
  assert (Zdigits2 (Z.pos p) <= 53) as Hd.
  { destruct (Z.le_gt_cases (Zdigits2 (Z.pos p)) 53) as [|Hgt]; [done|].
    assert (2 ^ 53 <= 2 ^ (Zdigits2 (Z.pos p) - 1)) by (apply Z.pow_le_mono_r; lia). lia. }
  set (d := Zdigits2 (Z.pos p)) in *.
  unfold binary_round.
  assert (fexp prec emax (Z.pos (digits2_pos p) + 0) = d - 53) as ->.
  { change (Z.pos (digits2_pos p)) with d. unfold fexp, emin, prec, emax. lia. }
  pose proof (shl_align_value p 0 (d - 53)) as Hv.
  destruct (shl_align p 0 (d - 53)) as [m e]. destruct Hv as [-> Hm].
  replace (Z.min 0 (d - 53)) with (d - 53) in * by lia.
  exists m, (d - 53). split; [|split; [lia|rewrite Hm; f_equal; f_equal; lia]].
  apply round_aux_exact; [|lia]. rewrite Hm, Zdigits2_shift by lia. fold d. lia.
Qed.

(** So they are told apart. *)
Lemma double_of_Z_inj a b :
  0 <= a < 2 ^ 53 → 0 <= b < 2 ^ 53 → double_of_Z a = double_of_Z b → a = b.
Proof.
  intros Ha Hb E. destruct (Z.eq_dec a 0) as [->|Ha0]; destruct (Z.eq_dec b 0) as [->|Hb0]; [done| | |].
  - destruct (double_of_Z_exact b) as (m & e & Eb & _); [lia|]. by rewrite Eb in E.
  - destruct (double_of_Z_exact a) as (m & e & Ea & _); [lia|]. by rewrite Ea in E.
  - destruct (double_of_Z_exact a) as (m & e & Ea & He & Hm); [lia|].
    destruct (double_of_Z_exact b) as (m' & e' & Eb & He' & Hm'); [lia|].
    rewrite Ea, Eb in E. injection E as -> ->. apply (Z.mul_reg_r _ _ (2 ^ (- e'))); [|lia].
    pose proof (Z.pow_pos_nonneg 2 (- e')). lia.
Qed.
