(* ===== verification/FastLZ.v ===== *)
(** * The bundled FastLZ compressor: fastlz/fastlz.c

    The file compiles itself twice, for levels 1 and 2; the model takes the level
    as an argument.  It is the strictly aligned build (every target but 32-bit
    x86).  [inp] is the readable memory behind the input pointer and [length] the
    C argument, which may be smaller.  A position in the input is an index; the
    output written so far is a list, newest byte first, so that [op[-k-1]] is its
    element [k].  Reads outside the memory and writes outside the output buffer are
    failures of the model, not default values. *)

From S2P Require Import Prelude CLib.
#[local] Open Scope Z_scope.

Definition MAX_COPY : Z := 32.
Definition MAX_LEN : Z := 264.
Definition MAX_DISTANCE (level : Z) : Z := if level =? 1 then 8192 else 8191.
Definition MAX_FARDISTANCE (level : Z) : Z := 65535 + MAX_DISTANCE level - 1.

Definition HASH_LOG : Z := 13.
Definition HASH_MASK : Z := Z.shiftl 1 HASH_LOG - 1.

(** [FASTLZ_READU16(p)] and [HASH_FUNCTION(v,p)]. *)
Definition FASTLZ_READU16 (inp : list Z) (p : nat) : option Z :=
  a ← inp !! p; b ← inp !! S p; mret (Z.lor a (Z.shiftl b 8)).

Definition HASH_FUNCTION (inp : list Z) (p : nat) : option Z :=
  v ← FASTLZ_READU16 inp p;
  v' ← FASTLZ_READU16 inp (S p);
  mret (Z.land (Z.lxor v (Z.lxor v' (Z.shiftr v (16 - HASH_LOG)))) HASH_MASK).

(** ** The output buffer: what is written, and how much room is left *)
Record outbuf : Type := mkOut { cells : list Z; room : nat }.

(** [*op++ = b], [op--] and [*(op-i-1) = b]. *)
Definition push (b : Z) (o : outbuf) : option outbuf :=
  match room o with O => None | S r => Some (mkOut (u8 b :: cells o) r) end.

Definition pop (o : outbuf) : option outbuf :=
  match cells o with [] => None | _ :: c => Some (mkOut c (S (room o))) end.

Definition patch (i : nat) (b : Z) (o : outbuf) : option outbuf :=
  if (i <? length (cells o))%nat then Some (mkOut (<[i := u8 b]> (cells o)) (room o)) else None.

(** ** Compressor *)

Record cstate : Type := mkC { c_ip : nat; c_out : outbuf; c_htab : gmap Z nat; c_copy : nat }.

(** Every slot of [htab] initially points at the start of the input. *)
Definition htab_get (h : gmap Z nat) (v : Z) : nat := default O (h !! v).

(** [n] tests [*ref++ != *ip++] in a row: did all match, and where [ref] and [ip]
    stand after the last one made. *)
Fixpoint cmp_bytes (inp : list Z) (n ref ip : nat) : option (bool * nat * nat) :=
  match n with
  | O => Some (true, ref, ip)
  | S n' =>
      a ← inp !! ref; b ← inp !! ip;
      if a =? b then cmp_bytes inp n' (S ref) (S ip) else Some (false, S ref, S ip)
  end.

(** [while(ip < ip_bound) if( *ref++ != x) break; else ip++;] *)
Fixpoint run_extend (inp : list Z) (x : Z) (ip_bound fuel ref ip : nat) : option nat :=
  match fuel with
  | O => Some ip
  | S f =>
      if (ip <? ip_bound)%nat then
        a ← inp !! ref;
        if a =? x then run_extend inp x ip_bound f (S ref) (S ip) else Some ip
      else Some ip
  end.

(** [while(ip < ip_bound) if( *ref++ != *ip++) break;] *)
Fixpoint cmp_extend (inp : list Z) (ip_bound fuel ref ip : nat) : option nat :=
  match fuel with
  | O => Some ip
  | S f =>
      if (ip <? ip_bound)%nat then
        a ← inp !! ref; b ← inp !! ip;
        if a =? b then cmp_extend inp ip_bound f (S ref) (S ip) else Some (S ip)
      else Some ip
  end.

(** How far the match goes: the run loop for distance one, otherwise eight
    unrolled tests and the bounded loop.  [distance] is already biased. *)
Definition extend_match (inp : list Z) (ip_bound ref ip : nat) (distance : Z) : option nat :=
  if distance =? 0 then
    x ← inp !! (ip - 1)%nat; run_extend inp x ip_bound (ip_bound - ip) ref ip
  else
    r ← cmp_bytes inp 8 ref ip;
    match r with
    | (true, ref', ip') => cmp_extend inp ip_bound (ip_bound - ip') ref' ip'
    | (false, _, ip') => Some ip'
    end.

(** [while(len > MAX_LEN-2) { ... }] of level 1. *)
Fixpoint emit_long (fuel : nat) (len distance : Z) (o : outbuf) : option (Z * outbuf) :=
  if len >? MAX_LEN - 2 then
    match fuel with
    | O => None
    | S f =>
        o ← push (Z.shiftl 7 5 + Z.shiftr distance 8) o;
        o ← push (MAX_LEN - 2 - 7 - 2) o;
        o ← push (Z.land distance 255) o;
        emit_long f (len - (MAX_LEN - 2)) distance o
    end
  else Some (len, o).

Definition emit_short (len distance : Z) (o : outbuf) : option outbuf :=
  if len <? 7 then
    o ← push (Z.shiftl len 5 + Z.shiftr distance 8) o;
    push (Z.land distance 255) o
  else
    o ← push (Z.shiftl 7 5 + Z.shiftr distance 8) o;
    o ← push (len - 7) o;
    push (Z.land distance 255) o.

Definition emit_level1 (len distance : Z) (o : outbuf) : option outbuf :=
  r ← emit_long (Z.to_nat len) len distance o; emit_short r.1 distance r.2.

(** [for(len-=7; len >= 255; len-= 255) *op++ = 255; *op++ = len;] *)
Fixpoint emit_extra (fuel : nat) (len : Z) (o : outbuf) : option outbuf :=
  if len >=? 255 then
    match fuel with
    | O => None
    | S f => o ← push 255 o; emit_extra f (len - 255) o
    end
  else push len o.

Definition emit_level2 (len distance : Z) (o : outbuf) : option outbuf :=
  if distance <? MAX_DISTANCE 2 then
    if len <? 7 then
      o ← push (Z.shiftl len 5 + Z.shiftr distance 8) o;
      push (Z.land distance 255) o
    else
      o ← push (Z.shiftl 7 5 + Z.shiftr distance 8) o;
      o ← emit_extra (Z.to_nat len) (len - 7) o;
      push (Z.land distance 255) o
  else
    let far := distance - MAX_DISTANCE 2 in
    o ← (if len <? 7 then push (Z.shiftl len 5 + 31) o
         else o ← push (Z.shiftl 7 5 + 31) o; emit_extra (Z.to_nat len) (len - 7) o);
    o ← push 255 o;
    o ← push (Z.shiftr far 8) o;
    push (Z.land far 255) o.

Definition emit_match (level len distance : Z) (o : outbuf) : option outbuf :=
  if level =? 1 then emit_level1 len distance o else emit_level2 len distance o.

(** "if we have copied something, adjust the copy count, else back". *)
Definition close_literals (copy : nat) (o : outbuf) : option outbuf :=
  match copy with O => pop o | S n => patch copy (Z.of_nat n) o end.

(** From the label [match:] to [continue]. *)
Definition take_match (level : Z) (inp : list Z) (ip_bound : nat)
    (anchor : nat) (len ref : nat) (distance : Z) (h : gmap Z nat)
    (copy : nat) (o : outbuf) : option cstate :=
  let distance := distance - 1 in
  ip ← extend_match inp ip_bound ref (anchor + len) distance;
  o ← close_literals copy o;
  let ip := (ip - 3)%nat in
  o ← emit_match level (Z.of_nat ip - Z.of_nat anchor) distance o;
  v ← HASH_FUNCTION inp ip;
  let h := <[v := ip]> h in
  v' ← HASH_FUNCTION inp (S ip);
  let h := <[v' := S ip]> h in
  o ← push (MAX_COPY - 1) o;
  mret (mkC (S (S ip)) o h O).

(** [*op++ = b; copy++; if(copy == MAX_COPY) { copy = 0; *op++ = MAX_COPY-1; }],
    as at [literal:] and in the final loop. *)
Definition put_literal (b : Z) (copy : nat) (o : outbuf) : option (nat * outbuf) :=
  o ← push b o;
  if Z.of_nat (S copy) =? MAX_COPY then o ← push (MAX_COPY - 1) o; mret (O, o)
  else mret (S copy, o).

(** The label [literal:]. *)
Definition take_literal (inp : list Z) (anchor : nat) (h : gmap Z nat)
    (copy : nat) (o : outbuf) : option cstate :=
  b ← inp !! anchor;
  r ← put_literal b copy o;
  mret (mkC (S anchor) r.2 h r.1).

(** The level 2 test "check for a run". *)
Definition is_run (inp : list Z) (ip : nat) : option bool :=
  a ← inp !! ip; b ← inp !! (ip - 1)%nat;
  if a =? b then
    u ← FASTLZ_READU16 inp (ip - 1)%nat; v ← FASTLZ_READU16 inp (ip + 1)%nat;
    mret (u =? v)
  else mret false.

(** One turn of the main loop that does not start with a run. *)
Definition compress_probe (level : Z) (inp : list Z) (ip_bound : nat) (st : cstate)
    : option cstate :=
  let anchor := c_ip st in
  hval ← HASH_FUNCTION inp anchor;
  let ref := htab_get (c_htab st) hval in
  let distance := u32 (Z.of_nat anchor - Z.of_nat ref) in
  let h := <[hval := anchor]> (c_htab st) in
  let literal := take_literal inp anchor h (c_copy st) (c_out st) in
  if (distance =? 0)
     || (distance >=? (if level =? 1 then MAX_DISTANCE level else MAX_FARDISTANCE level))
  then literal
  else
    r ← cmp_bytes inp 3 ref anchor;
    match r with
    | (false, _, _) => literal
    | (true, ref', ip') =>
        if negb (level =? 1) && (distance >=? MAX_DISTANCE level) then
          r2 ← cmp_bytes inp 2 ref' ip';
          match r2 with
          | (false, _, _) => literal
          | (true, ref'', _) =>
              take_match level inp ip_bound anchor 5 ref'' distance h (c_copy st) (c_out st)
          end
        else take_match level inp ip_bound anchor 3 ref' distance h (c_copy st) (c_out st)
    end.

Definition compress_step (level : Z) (inp : list Z) (ip_bound : nat) (st : cstate)
    : option cstate :=
  run ← (if level =? 1 then mret false else is_run inp (c_ip st));
  if run : bool
  then take_match level inp ip_bound (c_ip st) 3 (c_ip st - 1 + 3) 1
         (c_htab st) (c_copy st) (c_out st)
  else compress_probe level inp ip_bound st.

(** [while(ip < ip_limit)]; each turn advances [ip], so the input's length bounds
    the number of turns. *)
Fixpoint compress_loop (level : Z) (inp : list Z) (ip_bound ip_limit : nat)
    (fuel : nat) (st : cstate) : option cstate :=
  if (c_ip st <? ip_limit)%nat then
    match fuel with
    | O => None
    | S f =>
        st' ← compress_step level inp ip_bound st;
        compress_loop level inp ip_bound ip_limit f st'
    end
  else Some st.

(** "left-over as literal copy". *)
Fixpoint copy_rest (inp : list Z) (fuel ip copy : nat) (o : outbuf) : option (nat * outbuf) :=
  match fuel with
  | O => Some (copy, o)
  | S f =>
      b ← inp !! ip;
      r ← put_literal b copy o;
      copy_rest inp f (S ip) r.1 r.2
  end.

(** [while(ip <= ip_bound) *op++ = *ip++;] *)
Fixpoint copy_all (inp : list Z) (n ip : nat) (o : outbuf) : option outbuf :=
  match n with
  | O => Some o
  | S n' => b ← inp !! ip; o ← push b o; copy_all inp n' (S ip) o
  end.

(** The marker of level 2 is set in the first byte written. *)
Definition set_marker (level : Z) (out : list Z) : list Z :=
  match out with
  | b :: out' => (if level =? 1 then b else Z.lor b (Z.shiftl 1 5)) :: out'
  | [] => []
  end.

(** [fastlz1_compress] and [fastlz2_compress] into a buffer of [size] bytes: the
    bytes written, whose number is the C function's result. *)
Definition FASTLZ_COMPRESSOR (level : Z) (inp : list Z) (length size : nat)
    : option (list Z) :=
  if (length <? 4)%nat then
    if (length =? 0)%nat then Some []
    else
      o ← push (Z.of_nat length - 1) (mkOut [] size);
      o ← copy_all inp length 0 o;
      mret (rev (cells o))
  else
    let ip_bound := (length - 2)%nat in
    let ip_limit := (length - 12)%nat in
    o ← push (MAX_COPY - 1) (mkOut [] size);
    b0 ← inp !! 0%nat; o ← push b0 o;
    b1 ← inp !! 1%nat; o ← push b1 o;
    st ← compress_loop level inp ip_bound ip_limit length (mkC 2 o ∅ 2);
    r ← copy_rest inp (length - c_ip st) (c_ip st) (c_copy st) (c_out st);
    let '(copy, o) := (r : nat * outbuf) in
    o ← close_literals copy o;
    mret (set_marker level (rev (cells o))).

(** ** Decompressor *)

Inductive dec_result : Type :=
| Decoded (out : list Z)    (* the bytes written; their number is returned *)
| Rejected                  (* 0 is returned *)
| OutOfBounds               (* a byte outside the input was read *)
| FuelOut.                  (* the model's bound on the loop was not enough *)

(** [for(; len; --len) *op++ = *ref++] with [ref - 1] at distance [dist + 1]. *)
Fixpoint copy_back (n dist : nat) (out : list Z) : option (list Z) :=
  match n with
  | O => Some out
  | S n' => b ← out !! dist; copy_back n' dist (b :: out)
  end.

(** [*op++ = *ip++; for(--ctrl; ctrl; ctrl--) *op++ = *ip++;] *)
Fixpoint copy_forward (inp : list Z) (n ip : nat) (out : list Z) : option (list Z) :=
  match n with
  | O => Some out
  | S n' => b ← inp !! ip; copy_forward inp n' (S ip) (b :: out)
  end.

(** [do { code = *ip++; len += code; } while (code == 255)] *)
Fixpoint read_length (inp : list Z) (fuel ip : nat) (len : Z) : option (Z * nat) :=
  match fuel with
  | O => None
  | S f =>
      code ← inp !! ip;
      if code =? 255 then read_length inp f (S ip) (u32 (len + code))
      else Some (u32 (len + code), S ip)
  end.

(** What a match opcode says: length, distance and the next input position. *)
Definition read_match (level : Z) (inp : list Z) (ctrl : Z) (ip : nat) : option (Z * Z * nat) :=
  let len := Z.shiftr ctrl 5 - 1 in
  let ofs := Z.shiftl (Z.land ctrl 31) 8 in
  if level =? 1 then
    r ← (if len =? 7 - 1 then c ← inp !! ip; mret (len + c, S ip) else mret (len, ip));
    let '(len, ip) := (r : Z * nat) in
    c ← inp !! ip; mret (len, ofs + c, S ip)
  else
    r ← (if len =? 7 - 1 then read_length inp (S (length inp)) ip len else mret (len, ip));
    let '(len, ip) := (r : Z * nat) in
    code ← inp !! ip;
    let ip := S ip in
    if (code =? 255) && (ofs =? Z.shiftl 31 8) then
      hi ← inp !! ip; lo ← inp !! S ip;
      mret (len, Z.shiftl hi 8 + lo + MAX_DISTANCE level, S (S ip))
    else mret (len, ofs + code, ip).

(** [do { ... } while(loop)]: one turn per control byte. *)
Fixpoint decompress_loop (level : Z) (inp : list Z) (length : nat) (maxout : Z)
    (fuel : nat) (ctrl : Z) (ip : nat) (out : list Z) : dec_result :=
  match fuel with
  | O => FuelOut
  | S f =>
      let continue (ip : nat) (out : list Z) :=
        if (ip <? length)%nat then
          match inp !! ip with
          | Some ctrl' => decompress_loop level inp length maxout f ctrl' (S ip) out
          | None => OutOfBounds
          end
        else Decoded (rev out) in
      if ctrl >=? 32 then
        match read_match level inp ctrl ip with
        | None => OutOfBounds
        | Some (len, dist, ip') =>
            if Z.of_nat (List.length out) + len + 3 >? maxout then Rejected
            else if Z.of_nat (List.length out) - dist - 1 <? 0 then Rejected
            else
              match copy_back (Z.to_nat (len + 3)) (Z.to_nat dist) out with
              | Some out' => continue ip' out'
              | None => OutOfBounds
              end
        end
      else
        let n := Z.to_nat (ctrl + 1) in
        if Z.of_nat (List.length out) + (ctrl + 1) >? maxout then Rejected
        else if (length <? ip + n)%nat then Rejected
        else
          match copy_forward inp n ip out with
          | Some out' => continue (ip + n)%nat out'
          | None => OutOfBounds
          end
  end.

Definition FASTLZ_DECOMPRESSOR (level : Z) (inp : list Z) (length : nat) (maxout : Z)
    : dec_result :=
  match inp !! 0%nat with
  | Some b => decompress_loop level inp length maxout (S length) (Z.land b 31) 1 []
  | None => OutOfBounds
  end.

(** ** Entry points *)

Definition fastlz_compress (inp : list Z) (length size : nat) : option (list Z) :=
  if (Z.of_nat length <? 65536) then FASTLZ_COMPRESSOR 1 inp length size
  else FASTLZ_COMPRESSOR 2 inp length size.

Definition fastlz_compress_level (level : Z) (inp : list Z) (length size : nat)
    : option (list Z) :=
  if level =? 1 then FASTLZ_COMPRESSOR 1 inp length size
  else if level =? 2 then FASTLZ_COMPRESSOR 2 inp length size
  else Some [].

Definition fastlz_decompress (inp : list Z) (length : nat) (maxout : Z) : dec_result :=
  match inp !! 0%nat with
  | None => OutOfBounds
  | Some b =>
      let level := Z.shiftr b 5 + 1 in
      if level =? 1 then FASTLZ_DECOMPRESSOR 1 inp length maxout
      else if level =? 2 then FASTLZ_DECOMPRESSOR 2 inp length maxout
      else Rejected
  end.
