(* ===== verification/FastLZSpec.v ===== *)
(** * FastLZ: the token format, and what the compressor and decompressor do to it

    The abstract specification: a compressed block is a sequence of tokens, a
    literal run or a copy from the bytes already produced.  [run_tokens] is their
    meaning, [enc_tokens] their encoding at each level. *)

From S2P Require Import Prelude CLib FastLZ.
#[local] Open Scope Z_scope.

(** ** Tokens *)

Inductive token : Type :=
| Lit (bs : list Z)         (* 1 to 32 literal bytes *)
| Mat (n : nat) (d : Z).    (* copy [n] bytes from distance [d + 1] *)

Definition run_token (t : token) (out : list Z) : option (list Z) :=
  match t with
  | Lit bs => Some (rev bs ++ out)
  | Mat n d => copy_back n (Z.to_nat d) out
  end.

Fixpoint run_tokens (ts : list token) (out : list Z) : option (list Z) :=
  match ts with
  | [] => Some out
  | t :: ts' => out' ← run_token t out; run_tokens ts' out'
  end.

(** The length bytes of level 2. *)
Definition enc_extra (len : Z) : list Z :=
  replicate (Z.to_nat (len / 255)) 255 ++ [len mod 255].

Definition enc_near (len d : Z) (extra : list Z) : list Z :=
  if len <? 7 then [len * 32 + d / 256; d mod 256]
  else (224 + d / 256) :: extra ++ [d mod 256].

Definition enc_token (level : Z) (t : token) : list Z :=
  match t with
  | Lit bs => (Z.of_nat (length bs) - 1) :: bs
  | Mat n d =>
      let len := Z.of_nat n - 2 in
      if level =? 1 then enc_near len d [len - 7]
      else if d <? 8191 then enc_near len d (enc_extra (len - 7))
      else
        let far := d - 8191 in
        if len <? 7 then [len * 32 + 31; 255; far / 256; far mod 256]
        else 255 :: enc_extra (len - 7) ++ [255; far / 256; far mod 256]
  end.

Definition enc_tokens (level : Z) (ts : list token) : list Z := ts ≫= enc_token level.

Definition wf_token (level : Z) (t : token) : Prop :=
  match t with
  | Lit bs => (1 <= length bs <= 32)%nat ∧ Forall is_u8 bs
  | Mat n d =>
      3 <= Z.of_nat n ∧ 0 <= d ∧
      if level =? 1 then Z.of_nat n <= 264 ∧ d < 8192
      else Z.of_nat n < 2 ^ 31 ∧ d <= 65535 + 8191
  end.

Lemma run_tokens_app ts1 ts2 out :
  run_tokens (ts1 ++ ts2) out = run_tokens ts1 out ≫= run_tokens ts2.
Proof.
  revert out. induction ts1 as [|t ts1 IH]; intros out; [done|].
  simpl. destruct (run_token t out); simpl; [apply IH|done].
Qed.

Lemma enc_tokens_app level ts1 ts2 :
  enc_tokens level (ts1 ++ ts2) = enc_tokens level ts1 ++ enc_tokens level ts2.
Proof. unfold enc_tokens. by rewrite bind_app. Qed.

Lemma copy_back_length n d out out' :
  copy_back n d out = Some out' → length out' = (n + length out)%nat.
Proof.
  revert out. induction n as [|n IH]; intros out; simpl; [by intros [= <-]|].
  destruct (out !! d); simpl; [|done]. intros H%IH. simpl in H. lia.
Qed.

Lemma run_token_length t out out' :
  run_token t out = Some out' →
  length out' = (length out + match t with Lit bs => length bs | Mat n _ => n end)%nat.
Proof.
  destruct t as [bs|n d]; simpl.
  - intros [= <-]. rewrite length_app, length_rev. lia.
  - intros H%copy_back_length. lia.
Qed.

Lemma run_tokens_mono ts out out' :
  run_tokens ts out = Some out' → (length out <= length out')%nat.
Proof.
  revert out. induction ts as [|t ts IH]; intros out; simpl; [by intros [= <-]|].
  destruct (run_token t out) as [o|] eqn:E; simpl; [|done].
  intros H%IH. apply run_token_length in E. lia.
Qed.

Lemma copy_back_add a b d out :
  copy_back (a + b) d out = copy_back a d out ≫= copy_back b d.
Proof.
  revert out. induction a as [|a IH]; intros out; [done|]. simpl.
  destruct (out !! d); simpl; [apply IH|done].
Qed.

(** A copy that succeeds only needs the source to be there at the start. *)
Lemma copy_back_total n d out : (d < length out)%nat → is_Some (copy_back n d out).
Proof.
  revert out. induction n as [|n IH]; intros out Hd; simpl; [by eexists|].
  destruct (lookup_lt_is_Some_2 out d Hd) as [b ->]. simpl. apply IH. simpl. lia.
Qed.

Lemma copy_forward_spec inp n ip out :
  (ip + n <= length inp)%nat →
  copy_forward inp n ip out = Some (rev (take n (drop ip inp)) ++ out).
Proof.
  revert ip out. induction n as [|n IH]; intros ip out Hl; simpl; [done|].
  destruct (lookup_lt_is_Some_2 inp ip) as [b Hb]; [lia|]. rewrite Hb. simpl.
  rewrite IH by lia. rewrite (drop_S inp b ip Hb). simpl. by rewrite <- app_assoc.
Qed.

(** ** Decoding one token *)

(** [drop ip inp] seen through [!!]. *)
Lemma drop_lookup (inp : list Z) ip k : inp !! (ip + k)%nat = drop ip inp !! k.
Proof. by rewrite lookup_drop. Qed.

Lemma drop_cons_inv (inp : list Z) ip b rest :
  drop ip inp = b :: rest → inp !! ip = Some b ∧ drop (S ip) inp = rest.
Proof.
  intros H. split.
  - rewrite <- (Nat.add_0_r ip), drop_lookup, H. done.
  - replace (S ip) with (ip + 1)%nat by lia. by rewrite <- drop_drop, H.
Qed.

Lemma drop_app_inv (inp : list Z) ip xs rest :
  drop ip inp = xs ++ rest → drop (ip + length xs) inp = rest.
Proof. intros H. rewrite <- drop_drop, H. apply drop_app_length. Qed.

Lemma shiftr_ctrl k r : 0 <= r < 32 → Z.shiftr (k * 32 + r) 5 = k.
Proof.
  intros. rewrite Z.shiftr_div_pow2 by lia. change (2 ^ 5) with 32.
  rewrite Z.div_add_l, Z.div_small by lia. lia.
Qed.

Lemma land_ctrl k r : 0 <= r < 32 → Z.land (k * 32 + r) 31 = r.
Proof.
  intros. change 31 with (Z.ones 5). rewrite Z.land_ones by lia. change (2 ^ 5) with 32.
  rewrite Z.add_comm, Z.mod_add, Z.mod_small by lia. lia.
Qed.

(** The extra length bytes of level 2 are read back. *)
Lemma read_length_extra inp fuel ip len0 len rest :
  drop ip inp = enc_extra len ++ rest → 0 <= len → 0 <= len0 → len0 + len < 2 ^ 32 →
  (Z.to_nat (len / 255) < fuel)%nat →
  read_length inp fuel ip len0
  = Some (len0 + len, (ip + length (enc_extra len))%nat).
Proof.
  unfold enc_extra. intros H Hlen H0 Hlt Hf.
  pose proof (Z.div_mod len 255) as Hdm. pose proof (Z.mod_pos_bound len 255) as Hr.
  rewrite length_app, length_replicate. simpl length.
  set (r := len mod 255) in *. assert (0 <= len / 255) by (apply Z.div_pos; lia).
  assert (len0 + 255 * Z.of_nat (Z.to_nat (len / 255)) + r < 2 ^ 32) as Hlt' by lia.
  replace (len0 + len) with (len0 + 255 * Z.of_nat (Z.to_nat (len / 255)) + r) by lia.
  clear Hlt. revert fuel ip len0 H H0 Hlt' Hf.
  induction (Z.to_nat (len / 255)) as [|q IH]; intros fuel ip len0 H H0 Hlt Hf;
    (destruct fuel as [|fuel]; [lia|]); simpl in H;
    apply drop_cons_inv in H as [Hb Hd]; cbn [read_length]; rewrite Hb; simpl.
  - replace (r =? 255) with false by lia. rewrite u32_id by (unfold is_u32; lia).
    do 2 f_equal; lia.
  - rewrite u32_id by (unfold is_u32; lia).
    rewrite (IH fuel (S ip) (len0 + 255)); [do 2 f_equal; lia|done|lia..].
Qed.

Lemma length_enc_extra len : length (enc_extra len) = S (Z.to_nat (len / 255)).
Proof. unfold enc_extra. rewrite length_app, length_replicate. simpl. lia. Qed.

Ltac zpow := change (2 ^ 8) with 256 in *; change (2 ^ 5) with 32 in *;
             change (2 ^ 31) with 2147483648 in *; change (2 ^ 32) with 4294967296 in *;
             change (2 ^ 16) with 65536 in *.

(** Facts about the two bytes of a distance. *)
Lemma dist_bytes d k :
  0 <= d < 256 * k → 0 <= d / 256 < k ∧ 0 <= d mod 256 < 256 ∧ d / 256 * 256 + d mod 256 = d.
Proof.
  intros Hd. pose proof (Z.mod_pos_bound d 256). pose proof (Z.div_mod d 256).
  lia.
Qed.

Ltac lookups :=
  repeat match goal with
  | H : drop ?ip ?inp = ?b :: _ |- context [?inp !! ?ip] =>
      rewrite (proj1 (drop_cons_inv _ _ _ _ H)); cbn [mbind option_bind]
  end.

Lemma read_match_near1 inp n d ctrl tl ip rest :
  wf_token 1 (Mat n d) → enc_token 1 (Mat n d) ++ rest = ctrl :: tl → drop ip inp = tl →
  ∃ ip', read_match 1 inp ctrl ip = Some (Z.of_nat n - 3, d, ip')
         ∧ drop ip' inp = rest ∧ 32 <= ctrl ∧ ip' = (ip + length (enc_token 1 (Mat n d)) - 1)%nat.
Proof.
  simpl. intros (Hn & Hd0 & Hn' & Hd) E Hdrop. unfold enc_near in *.
  destruct (dist_bytes d 32) as (Hq & Hr & Hqr); [lia|].
  unfold read_match. cbn [Z.eqb].
  destruct (Z.ltb_spec (Z.of_nat n - 2) 7); simpl in E; injection E as <- <-.
  - rewrite shiftr_ctrl, land_ctrl by lia.
    replace (Z.of_nat n - 2 - 1 =? 7 - 1) with false by lia. cbn [mbind option_bind mret option_ret].
    lookups. exists (S ip). split.
    + rewrite Z.shiftl_mul_pow2 by lia. zpow. do 3 f_equal; lia.
    + apply drop_cons_inv in Hdrop as [_ ?]. split; [done|]. simpl. lia.
  - change 224 with (7 * 32). rewrite shiftr_ctrl, land_ctrl by lia.
    cbn [Z.sub Z.eqb Z.pos_sub Pos.eqb mbind option_bind mret option_ret Z.add Z.opp Z.succ_double Z.pred_double Z.double Pos.pred_double].
    apply drop_cons_inv in Hdrop as [H0 Hdrop]. rewrite H0. simpl.
    lookups. exists (S (S ip)). split.
    + rewrite Z.shiftl_mul_pow2 by lia. zpow. simpl. do 3 f_equal; lia.
    + apply drop_cons_inv in Hdrop as [_ ?]. split; [done|]. simpl. lia.
Qed.

(** The two shapes of the length field at level 2. *)
Definition enc_len2 (len low : Z) : list Z :=
  if len <? 7 then [len * 32 + low] else (224 + low) :: enc_extra (len - 7).

Lemma enc_token2 n d :
  enc_token 2 (Mat n d) =
  if d <? 8191 then enc_len2 (Z.of_nat n - 2) (d / 256) ++ [d mod 256]
  else enc_len2 (Z.of_nat n - 2) 31 ++ [255; (d - 8191) / 256; (d - 8191) mod 256].
Proof.
  unfold enc_token, enc_len2, enc_near. cbn [Z.eqb]. simpl Z.eqb.
  destruct (d <? 8191), (Z.of_nat n - 2 <? 7); done.
Qed.

Lemma read_len2 inp len low ctrl tl ip rest :
  1 <= len < 2 ^ 31 → 0 <= low < 32 → enc_len2 len low ++ rest = ctrl :: tl →
  drop ip inp = tl →
  (if Z.shiftr ctrl 5 - 1 =? 7 - 1
   then read_length inp (S (length inp)) ip (Z.shiftr ctrl 5 - 1)
   else mret (Z.shiftr ctrl 5 - 1, ip))
  = Some (len - 1, (ip + length (enc_len2 len low) - 1)%nat)
  ∧ Z.land ctrl 31 = low ∧ drop (ip + length (enc_len2 len low) - 1) inp = rest ∧ 32 <= ctrl.
Proof.
  unfold enc_len2. intros Hlen Hlow E Hdrop. zpow.
  destruct (Z.ltb_spec len 7); simpl in E; injection E as <- <-.
  - rewrite shiftr_ctrl, land_ctrl by lia. replace (len - 1 =? 7 - 1) with false by lia.
    simpl length. replace (ip + 1 - 1)%nat with ip by lia. repeat split; [done|lia].
  - change 224 with (7 * 32). rewrite shiftr_ctrl, land_ctrl by lia.
    replace (7 - 1 =? 7 - 1) with true by done.
    assert (ip + length (enc_extra (len - 7)) <= length inp)%nat.
    { apply (f_equal (@List.length Z)) in Hdrop. rewrite length_drop, length_app in Hdrop.
      rewrite length_enc_extra in *. lia. }
    rewrite (read_length_extra _ _ _ _ (len - 7) rest); [|done|lia|lia|zpow; lia|].
    + simpl length. replace (ip + S (length (enc_extra (len - 7))) - 1)%nat
        with (ip + length (enc_extra (len - 7)))%nat by lia.
      split; [do 2 f_equal; lia|]. split; [done|]. split; [by apply drop_app_inv|lia].
    + rewrite length_enc_extra in *. lia.
Qed.

Lemma read_match_2 inp n d ctrl tl ip rest :
  wf_token 2 (Mat n d) → enc_token 2 (Mat n d) ++ rest = ctrl :: tl → drop ip inp = tl →
  ∃ ip', read_match 2 inp ctrl ip = Some (Z.of_nat n - 3, d, ip')
         ∧ drop ip' inp = rest ∧ 32 <= ctrl ∧ ip' = (ip + length (enc_token 2 (Mat n d)) - 1)%nat.
Proof.
  rewrite enc_token2. simpl wf_token. intros (Hn & Hd0 & Hn' & Hd) E Hdrop.
  unfold read_match. cbn [Z.eqb Pos.eqb].
  set (len := Z.of_nat n - 2) in *.
  destruct (Z.ltb_spec d 8191) as [Hnear|Hfar]; rewrite <- app_assoc in E.
  - destruct (dist_bytes d 32) as (Hq & Hr & Hqr); [lia|].
    destruct (read_len2 inp len (d / 256) ctrl tl ip ([d mod 256] ++ rest))
      as (-> & -> & Hd' & Hc); [unfold len; zpow; lia|lia|done|done|].
    cbn [mbind option_bind mret option_ret]. simpl app in Hd'. lookups.
    replace ((d mod 256 =? 255) && (Z.shiftl (d / 256) 8 =? Z.shiftl 31 8)) with false.
    2: { symmetry. apply andb_false_iff. rewrite !Z.shiftl_mul_pow2 by lia. zpow. lia. }
    eexists. split; [|split; [by apply drop_cons_inv in Hd' as [_ ?]|split; [done|]]].
    + rewrite Z.shiftl_mul_pow2 by lia. zpow. unfold len. do 3 f_equal; lia.
    + rewrite length_app. simpl. unfold enc_len2. case_match; simpl; lia.
  - destruct (dist_bytes (d - 8191) 256) as (Hq & Hr & Hqr); [lia|].
    destruct (read_len2 inp len 31 ctrl tl ip
      ([255; (d - 8191) / 256; (d - 8191) mod 256] ++ rest))
      as (-> & -> & Hd' & Hc); [unfold len; zpow; lia|lia|done|done|].
    cbn [mbind option_bind mret option_ret]. simpl app in Hd'.
    apply drop_cons_inv in Hd' as [H0 Hd']. rewrite H0. cbn [mbind option_bind].
    replace ((255 =? 255) && (Z.shiftl 31 8 =? Z.shiftl 31 8)) with true by done.
    apply drop_cons_inv in Hd' as [H1 Hd']. rewrite H1. cbn [mbind option_bind].
    apply drop_cons_inv in Hd' as [H2 Hd']. rewrite H2. cbn [mbind option_bind].
    eexists. split; [|split; [done|split; [done|]]].
    + rewrite Z.shiftl_mul_pow2 by lia. zpow. unfold len. cbn [MAX_DISTANCE Z.eqb Pos.eqb].
      do 3 f_equal; lia.
    + rewrite length_app. simpl. unfold enc_len2. case_match; simpl; lia.
Qed.

Definition is_level (level : Z) : Prop := level = 1 ∨ level = 2.

Lemma read_match_enc level inp n d ctrl tl ip rest :
  is_level level → wf_token level (Mat n d) →
  enc_token level (Mat n d) ++ rest = ctrl :: tl → drop ip inp = tl →
  ∃ ip', read_match level inp ctrl ip = Some (Z.of_nat n - 3, d, ip')
         ∧ drop ip' inp = rest ∧ 32 <= ctrl ∧ (ip <= ip')%nat.
Proof.
  intros [-> | ->] Hwf E Hd.
  - destruct (read_match_near1 inp n d ctrl tl ip rest Hwf E Hd) as (ip' & ? & ? & ? & ->).
    eexists. repeat split; try done.
    unfold enc_token, enc_near. simpl. case_match; simpl; lia.
  - destruct (read_match_2 inp n d ctrl tl ip rest Hwf E Hd) as (ip' & ? & ? & ? & ->).
    eexists. repeat split; try done.
    rewrite enc_token2. unfold enc_len2. repeat case_match; simpl; rewrite ?length_app; simpl; lia.
Qed.

Lemma enc_token_cons level t : is_level level → ∃ c tl, enc_token level t = c :: tl.
Proof.
  intros Hl. destruct t as [bs|n d]; simpl; [by eexists _, _|]. unfold enc_near.
  repeat case_match; by eexists _, _.
Qed.

(** What the loop does after a token: the next control byte, or the end. *)
Definition dec_continue (level : Z) (inp : list Z) (length : nat) (maxout : Z) (f : nat)
    (ip : nat) (out : list Z) : dec_result :=
  if (ip <? length)%nat then
    match inp !! ip with
    | Some ctrl => decompress_loop level inp length maxout f ctrl (S ip) out
    | None => OutOfBounds
    end
  else Decoded (rev out).

Lemma decompress_step level inp maxout f t ctrl tl ip out out' rest :
  is_level level → wf_token level t →
  enc_token level t ++ rest = ctrl :: tl → drop ip inp = tl → (ip <= length inp)%nat →
  run_token t out = Some out' → Z.of_nat (length out') <= maxout →
  ∃ ip', decompress_loop level inp (length inp) maxout (S f) ctrl ip out
         = dec_continue level inp (length inp) maxout f ip' out'
         ∧ drop ip' inp = rest ∧ (ip <= ip')%nat.
Proof.
  intros Hl Hwf E Hd Hip Hrun Hmax. destruct t as [bs|n d].
  - simpl in *. destruct Hwf as [Hlen Hbs]. injection E as <- <-. injection Hrun as <-.
    cbn [decompress_loop]. replace (Z.of_nat (length bs) - 1 >=? 32) with false by lia.
    replace (Z.to_nat (Z.of_nat (length bs) - 1 + 1)) with (length bs) by lia.
    rewrite length_app, length_rev in Hmax.
    replace (_ >? maxout) with false by lia.
    assert (length inp = ip + length (bs ++ rest))%nat as Hli
      by (rewrite <- Hd, length_drop; lia).
    rewrite length_app in Hli.
    replace (length inp <? ip + length bs)%nat with false
      by (symmetry; apply Nat.ltb_ge; lia).
    rewrite copy_forward_spec by lia. rewrite Hd, take_app_length.
    eexists. split; [done|]. split; [by apply drop_app_inv|lia].
  - destruct (read_match_enc level inp n d ctrl tl ip rest Hl Hwf E Hd)
      as (ip' & Hr & Hd' & Hc & Hle).
    cbn [decompress_loop]. replace (ctrl >=? 32) with true by lia. rewrite Hr.
    simpl in Hrun. pose proof (copy_back_length _ _ _ _ Hrun) as Hlen.
    destruct Hwf as (Hn & Hd0 & _).
    replace (Z.of_nat (length out) + (Z.of_nat n - 3) + 3 >? maxout) with false by lia.
    assert (Z.to_nat d < length out)%nat.
    { destruct n as [|n]; [lia|]. simpl in Hrun.
      destruct (out !! Z.to_nat d) eqn:El; simpl in Hrun; [|done].
      by apply lookup_lt_Some in El. }
    replace (Z.of_nat (length out) - d - 1 <? 0) with false by lia.
    replace (Z.to_nat (Z.of_nat n - 3 + 3)) with n by lia.
    rewrite Hrun. eexists. split; [done|]. done.
Qed.

(** The decompressor inverts the encoding of any well-formed token sequence. *)
Lemma decompress_tokens level inp maxout t ts ctrl tl ip out out' fuel :
  is_level level → Forall (wf_token level) (t :: ts) →
  enc_tokens level (t :: ts) = ctrl :: tl → drop ip inp = tl → (ip <= length inp)%nat →
  run_tokens (t :: ts) out = Some out' → Z.of_nat (length out') <= maxout →
  (length tl < fuel)%nat →
  decompress_loop level inp (length inp) maxout fuel ctrl ip out = Decoded (rev out').
Proof.
  intros Hl. revert t ctrl tl ip out fuel.
  induction ts as [|t2 ts IH]; intros t ctrl tl ip out fuel Hwf E Hd Hip Hrun Hmax Hf;
    (destruct fuel as [|fuel]; [lia|]); apply Forall_cons_1 in Hwf as [Hwf1 Hwf2];
    cbn [run_tokens] in Hrun; destruct (run_token t out) as [o|] eqn:Ht; simpl in Hrun; try done.
  - injection Hrun as ->. unfold enc_tokens in E. simpl in E.
    destruct (decompress_step level inp maxout fuel t ctrl tl ip out out' [])
      as (ip' & -> & Hd' & _); try done.
    unfold dec_continue.
    assert (length inp <= ip')%nat
      by (apply (f_equal (@List.length Z)) in Hd'; rewrite length_drop in Hd'; simpl in Hd'; lia).
    by replace (ip' <? length inp)%nat with false by (symmetry; apply Nat.ltb_ge; lia).
  - assert (E' : enc_token level t ++ enc_tokens level (t2 :: ts) = ctrl :: tl) by done.
    destruct (decompress_step level inp maxout fuel t ctrl tl ip out o (enc_tokens level (t2 :: ts)))
      as (ip' & -> & Hd' & Hle); try done.
    { pose proof (run_tokens_mono (t2 :: ts) o out' Hrun). lia. }
    destruct (enc_token_cons level t2 Hl) as (c2 & tl2 & E2).
    assert (enc_tokens level (t2 :: ts) = c2 :: (tl2 ++ enc_tokens level ts)) as E3
      by (unfold enc_tokens; simpl; by rewrite E2).
    rewrite E3 in Hd'. pose proof (drop_cons_inv _ _ _ _ Hd') as [Hb Hd2].
    assert (ip' < length inp)%nat by (by apply lookup_lt_Some in Hb).
    unfold dec_continue. replace (ip' <? length inp)%nat with true
      by (symmetry; by apply Nat.ltb_lt). rewrite Hb.
    eapply IH; [done|exact E3|exact Hd2|lia|exact Hrun|done|].
    apply (f_equal (@List.length Z)) in Hd2. rewrite length_drop in Hd2. rewrite <- Hd2.
    apply (f_equal (@List.length Z)) in Hd. rewrite length_drop in Hd. lia.
Qed.
