(* ===== verification/FastLZProofs.v ===== *)
(** * FastLZ: the compressor writes a token sequence that spells its input *)

From S2P Require Import Prelude CLib FastLZ FastLZSpec.
#[local] Open Scope Z_scope.

(** ** Writing several bytes *)

Fixpoint push_all (bs : list Z) (o : outbuf) : option outbuf :=
  match bs with
  | [] => Some o
  | b :: bs' => o' ← push b o; push_all bs' o'
  end.

Lemma push_all_app xs ys o : push_all (xs ++ ys) o = push_all xs o ≫= push_all ys.
Proof.
  revert o. induction xs as [|x xs IH]; intros o; [done|]. simpl.
  destruct (push x o); simpl; [apply IH|done].
Qed.

Lemma push_ok b o :
  is_u8 b → (1 <= room o)%nat →
  push b o = Some (mkOut (b :: cells o) (room o - 1)).
Proof.
  intros Hb Hr. unfold push. destruct (room o) as [|r]; [lia|].
  rewrite u8_id by done. do 2 f_equal; lia.
Qed.

Lemma push_all_ok bs o :
  Forall is_u8 bs → (length bs <= room o)%nat →
  push_all bs o = Some (mkOut (rev bs ++ cells o) (room o - length bs)).
Proof.
  intros Hbs. revert o. induction Hbs as [|b bs Hb Hbs IH]; intros o Hr.
  - destruct o as [c r]. simpl. by rewrite Nat.sub_0_r.
  - simpl length in *. cbn [push_all]. rewrite push_ok by (done || lia). simpl.
    rewrite IH by (simpl; lia). simpl. rewrite <- app_assoc. simpl. do 2 f_equal; lia.
Qed.

(** ** Comparing and extending *)

(** [k] bytes from [a] equal the [k] bytes from [r]. *)
Definition matches (inp : list Z) (a r k : nat) : Prop :=
  ∀ i, (i < k)%nat → inp !! (a + i)%nat = inp !! (r + i)%nat.

Lemma matches_le inp a r k k' : (k' <= k)%nat → matches inp a r k → matches inp a r k'.
Proof. intros Hk H i Hi. apply H. lia. Qed.

Lemma matches_snoc inp a r k :
  matches inp a r k → inp !! (a + k)%nat = inp !! (r + k)%nat → matches inp a r (S k).
Proof.
  intros H E i Hi. destruct (decide (i = k)) as [->|]; [done|]. apply H. lia.
Qed.

Lemma cmp_bytes_spec inp a r k n :
  matches inp a r k → (r <= a)%nat → (a + k + n <= length inp)%nat →
  ∃ b j, cmp_bytes inp n (r + k) (a + k) = Some (b, (r + j)%nat, (a + j)%nat) ∧
    if b : bool then j = (k + n)%nat ∧ matches inp a r j
    else (k < j <= k + n)%nat ∧ matches inp a r (j - 1).
Proof.
  revert k. induction n as [|n IH]; intros k Hm Hra Hl; cbn [cmp_bytes].
  - exists true, k. repeat split; [lia|done].
  - destruct (lookup_lt_is_Some_2 inp (r + k)) as [x Hx]; [lia|].
    destruct (lookup_lt_is_Some_2 inp (a + k)) as [y Hy]; [lia|].
    rewrite Hx, Hy. simpl. destruct (Z.eqb_spec x y) as [->|Hne].
    + destruct (IH (S k)) as (b & j & E & Hj); [|done|lia|].
      { apply matches_snoc; [done|congruence]. }
      exists b, j. rewrite !Nat.add_succ_r in E. split; [done|].
      destruct b; destruct Hj as [? ?]; split; try done; lia.
    + exists false, (S k). rewrite !Nat.add_succ_r. split; [done|]. split; [lia|].
      by replace (S k - 1)%nat with k by lia.
Qed.

Lemma cmp_extend_spec inp bound a r k fuel :
  matches inp a r k → (r <= a)%nat → (bound <= length inp)%nat → (bound <= a + k + fuel)%nat →
  ∃ j, cmp_extend inp bound fuel (r + k) (a + k) = Some (a + j)%nat
       ∧ (k <= j)%nat ∧ (a + j <= bound ∨ j = k)%nat ∧ matches inp a r (j - 1).
Proof.
  revert k. induction fuel as [|fuel IH]; intros k Hm Hra Hb Hf; cbn [cmp_extend].
  - exists k. split; [done|]. split; [lia|]. split; [by right|].
    by apply (matches_le _ _ _ k); [lia|].
  - destruct (Nat.ltb_spec (a + k) bound) as [Hlt|Hge].
    2: { exists k. split; [done|]. split; [lia|]. split; [by right|].
         by apply (matches_le _ _ _ k); [lia|]. }
    destruct (lookup_lt_is_Some_2 inp (r + k)) as [x Hx]; [lia|].
    destruct (lookup_lt_is_Some_2 inp (a + k)) as [y Hy]; [lia|].
    rewrite Hx, Hy. simpl. destruct (Z.eqb_spec x y) as [->|Hne].
    + destruct (IH (S k)) as (j & E & Hkj & Hjb & Hj); [|done|done|lia|].
      { apply matches_snoc; [done|congruence]. }
      rewrite !Nat.add_succ_r in E. exists j. split; [done|]. split; [lia|].
      split; [left; destruct Hjb; lia|done].
    + exists (S k). rewrite !Nat.add_succ_r. split; [done|]. split; [lia|].
      split; [left; lia|]. by replace (S k - 1)%nat with k by lia.
Qed.

(** The run loop reads one byte behind the one it tests the bound for. *)
Lemma run_extend_spec inp bound a k x fuel :
  (1 <= a)%nat → (∀ i, (i < k)%nat → inp !! (a - 1 + i)%nat = Some x) →
  (bound <= length inp)%nat → (bound <= a + k + fuel)%nat →
  ∃ j, run_extend inp x bound fuel (a - 1 + k) (a + k) = Some (a + j)%nat
       ∧ (k <= j)%nat ∧ (a + j <= bound ∨ j = k)%nat
       ∧ (∀ i, (i < j)%nat → inp !! (a - 1 + i)%nat = Some x)
       ∧ (a + k < bound → inp !! (a - 1 + k)%nat = Some x → k < j)%nat.
Proof.
  intros Ha. revert k. induction fuel as [|fuel IH]; intros k Hx Hb Hf; cbn [run_extend].
  - exists k. repeat split; try done; lia.
  - destruct (Nat.ltb_spec (a + k) bound) as [Hlt|Hge].
    2: { exists k. repeat split; try done; lia. }
    destruct (lookup_lt_is_Some_2 inp (a - 1 + k)) as [y Hy]; [lia|].
    rewrite Hy. simpl. destruct (Z.eqb_spec y x) as [->|Hne].
    + destruct (IH (S k)) as (j & E & Hkj & Hjb & Hj & _); [|done|lia|].
      { intros i Hi. destruct (decide (i = k)) as [->|]; [done|]. apply Hx. lia. }
      rewrite !Nat.add_succ_r in E. exists j. split; [done|]. split; [lia|].
      split; [left; destruct Hjb; lia|]. split; [done|]. lia.
    + exists k. repeat split; try done; try lia. congruence.
Qed.

Lemma extend_match_spec inp bound a r k distance :
  matches inp a r k → (r < a)%nat → (3 <= k)%nat → (a + k < bound)%nat →
  (bound <= length inp)%nat → (a + k + 8 <= length inp)%nat →
  distance = Z.of_nat a - Z.of_nat r - 1 →
  ∃ j, extend_match inp bound (r + k) (a + k) distance = Some (a + j)%nat
       ∧ (k < j)%nat ∧ (a + j <= Nat.max bound (a + k + 8))%nat ∧ matches inp a r (j - 1).
Proof.
  intros Hm Hra Hk Hb Hbl Hl ->. unfold extend_match.
  destruct (Z.eqb_spec (Z.of_nat a - Z.of_nat r - 1) 0).
  - assert (r = (a - 1)%nat) as -> by lia.
    destruct (lookup_lt_is_Some_2 inp (a + k - 1)) as [x Hx]; [lia|]. rewrite Hx. simpl.
    assert (∀ i, (i <= k)%nat → inp !! (a - 1 + i)%nat = Some x) as Hall.
    { intros i Hi. assert (∃ d, i = (k - d)%nat ∧ (d <= k)%nat) as (d & -> & Hd)
        by (exists (k - i)%nat; lia).
      induction d as [|d IH]; [rewrite <- Hx; f_equal; lia|].
      rewrite <- (Hm (k - S d)%nat) by lia.
      replace (a + (k - S d))%nat with (a - 1 + (k - d))%nat by lia. apply IH; lia. }
    destruct (run_extend_spec inp bound a k x (bound - (a + k)))
      as (j & E & Hkj & Hjb & Hj & Hgt); [lia|intros; apply Hall; lia|done|lia|].
    exists j. split; [done|]. split; [apply Hgt; [lia|by apply Hall]|].
    split; [destruct Hjb; lia|]. intros i Hi.
    replace (a + i)%nat with (a - 1 + S i)%nat by lia. by rewrite !Hj by lia.
  - destruct (cmp_bytes_spec inp a r k 8) as (b & j & E & Hj); [done|lia|lia|].
    rewrite E. simpl. destruct b; destruct Hj as [Hj1 Hj2].
    + destruct (cmp_extend_spec inp bound a r j (bound - (a + j)))
        as (j' & E' & Hjj & Hjb & Hm'); [done|lia|done|lia|].
      exists j'. split; [done|]. split; [lia|]. split; [destruct Hjb; lia|done].
    + exists j. split; [done|]. split; [lia|]. split; [lia|done].
Qed.

(** ** A match is a copy from the bytes already consumed *)

Lemma lookup_rev_take (inp : list Z) a d :
  (d < a)%nat → (a <= length inp)%nat → rev (take a inp) !! d = inp !! (a - 1 - d)%nat.
Proof.
  intros Hd Ha. rewrite rev_alt. change (rev_append (take a inp) []) with (reverse (take a inp)).
  rewrite reverse_lookup by (rewrite length_take; lia).
  rewrite length_take, lookup_take_lt by lia. f_equal. lia.
Qed.

Lemma rev_take_S (inp : list Z) a b :
  inp !! a = Some b → rev (take (S a) inp) = b :: rev (take a inp).
Proof. intros Hb. rewrite (take_S_r inp a b Hb), rev_app_distr. done. Qed.

Lemma copy_back_match inp a r k :
  matches inp a r k → (r < a)%nat → (a + k <= length inp)%nat →
  copy_back k (a - r - 1) (rev (take a inp)) = Some (rev (take (a + k) inp)).
Proof.
  revert a r. induction k as [|k IH]; intros a r Hm Hra Hl; cbn [copy_back].
  - by rewrite Nat.add_0_r.
  - rewrite lookup_rev_take by lia. replace (a - 1 - (a - r - 1))%nat with r by lia.
    pose proof (Hm 0%nat ltac:(lia)) as H0. rewrite !Nat.add_0_r in H0.
    destruct (lookup_lt_is_Some_2 inp a) as [b Hb]; [lia|].
    rewrite <- H0, Hb. simpl. rewrite <- (rev_take_S inp a b Hb).
    replace (a - r - 1)%nat with (S a - S r - 1)%nat by lia.
    rewrite IH; [do 3 f_equal; lia| |lia|lia].
    intros i Hi. specialize (Hm (S i) ltac:(lia)).
    by rewrite !Nat.add_succ_r in Hm.
Qed.

(** ** The bytes of a match *)

(** Bytes of an explicit list, by arithmetic. *)
Ltac u8s := repeat first [apply List.Forall_nil | apply List.Forall_cons];
            unfold is_u8; zpow; dlia.


(** A match split over several copies of the same distance. *)
Definition mats (d : Z) (ns : list nat) : list token := (λ n, Mat n d) <$> ns.

Lemma run_mats d ns out :
  run_tokens (mats d ns) out = copy_back (sum_list ns) (Z.to_nat d) out.
Proof.
  revert out. induction ns as [|n ns IH]; intros out; [done|]. simpl.
  rewrite copy_back_add. destruct (copy_back n (Z.to_nat d) out); simpl; [apply IH|done].
Qed.

Lemma enc_mats_cons level d n ns :
  enc_tokens level (mats d (n :: ns))
  = enc_token level (Mat n d) ++ enc_tokens level (mats d ns).
Proof. done. Qed.

Lemma enc_near_u8 len d extra :
  0 <= len → 0 <= d < 8192 → Forall is_u8 extra → Forall is_u8 (enc_near len d extra).
Proof.
  intros Hl Hd He. destruct (dist_bytes d 32) as (Hq & Hr & _); [lia|].
  unfold enc_near. destruct (Z.ltb_spec len 7).
  - u8s.
  - constructor; [unfold is_u8; zpow; lia|].
    apply Forall_app. split; [done|]. u8s.
Qed.

Lemma enc_extra_u8 len : 0 <= len → Forall is_u8 (enc_extra len).
Proof.
  intros Hl. unfold enc_extra. apply Forall_app. split.
  - apply Forall_replicate. unfold is_u8. zpow. lia.
  - u8s.
Qed.

Lemma enc_token_u8 level t : is_level level → wf_token level t → Forall is_u8 (enc_token level t).
Proof.
  intros Hl Hwf. destruct t as [bs|n d].
  - destruct Hwf as [Hn Hbs]. constructor; [unfold is_u8; zpow; lia|done].
  - destruct Hl as [-> | ->]; simpl in Hwf; destruct Hwf as (Hn & Hd0 & Hn' & Hd).
    + unfold enc_token. cbn [Z.eqb Pos.eqb]. unfold enc_near.
      destruct (dist_bytes d 32) as (Hq & Hr & _); [lia|].
      destruct (Z.ltb_spec (Z.of_nat n - 2) 7); simpl;
        u8s.
    + unfold enc_token. cbn [Z.eqb Pos.eqb]. destruct (Z.ltb_spec d 8191).
      * apply enc_near_u8; [lia|lia|].
        destruct (Z.ltb_spec (Z.of_nat n - 2) 7);
          [|apply enc_extra_u8; lia].
        unfold enc_extra. replace ((Z.of_nat n - 2 - 7) / 255) with (-1) by dlia.
        u8s.
      * destruct (dist_bytes (d - 8191) 256) as (Hq & Hr & _); [lia|].
        destruct (Z.ltb_spec (Z.of_nat n - 2) 7).
        -- u8s.
        -- constructor; [unfold is_u8; zpow; lia|]. apply Forall_app.
           split; [apply enc_extra_u8; lia|]. u8s.
Qed.

Lemma enc_tokens_u8 level ts :
  is_level level → Forall (wf_token level) ts → Forall is_u8 (enc_tokens level ts).
Proof.
  intros Hl Hts. unfold enc_tokens. apply Forall_bind.
  eapply Forall_impl; [exact Hts|]. intros t. by apply enc_token_u8.
Qed.

(** The shifts of the emitter are the quotients of the specification. *)
Lemma near_first k d : 0 <= k → 0 <= d → Z.shiftl k 5 + Z.shiftr d 8 = k * 32 + d / 256.
Proof.
  intros. rewrite Z.shiftl_mul_pow2, Z.shiftr_div_pow2 by lia. by zpow.
Qed.

Lemma near_second d : Z.land d 255 = d mod 256.
Proof. change 255 with (Z.ones 8). by rewrite Z.land_ones by lia. Qed.

(** Level 1: a match longer than 264 bytes becomes several tokens. *)
Lemma emit_level1_tokens fuel len d :
  1 <= len → (Z.to_nat len <= fuel)%nat → 0 <= d < 8192 →
  ∃ ns, Forall (wf_token 1) (mats d ns) ∧ Z.of_nat (sum_list ns) = len + 2
        ∧ Z.of_nat (length (enc_tokens 1 (mats d ns))) <= len + 1
        ∧ ∀ o, (r ← emit_long fuel len d o; emit_short r.1 d r.2)
               = push_all (enc_tokens 1 (mats d ns)) o.
Proof.
  revert len. induction fuel as [|fuel IH]; intros len Hl Hf Hd; [lia|].
  cbn [emit_long]. destruct (Z.gtb_spec len (MAX_LEN - 2)) as [Hgt|Hle].
  - unfold MAX_LEN in *. destruct (IH (len - 262)) as (ns & Hwf & Hs & Hlen & E); [lia|lia|done|].
    exists (262%nat :: ns). simpl sum_list. split; [|split; [lia|split]].
    + constructor; [simpl; lia|done].
    + rewrite enc_mats_cons, length_app.
      change (length (enc_token 1 (Mat 262 d))) with 3%nat. lia.
    + intros o. rewrite enc_mats_cons, push_all_app.
      assert (enc_token 1 (Mat 262 d) = [224 + d / 256; 253; d mod 256]) as -> by done.
      cbn [push_all]. rewrite near_first, near_second by lia.
      change (7 * 32) with 224. change (264 - 2 - 7 - 2) with 253.
      destruct (push (224 + d / 256) o) as [o1|]; simpl; [|done].
      destruct (push 253 o1) as [o2|]; simpl; [|done].
      destruct (push (d mod 256) o2) as [o3|]; simpl; [|done]. apply E.
  - exists [Z.to_nat (len + 2)]. unfold MAX_LEN in *.
    assert (enc_tokens 1 (mats d [Z.to_nat (len + 2)]) = enc_near len d [len - 7]) as Henc.
    { unfold mats, enc_tokens. simpl. rewrite app_nil_r.
      by replace (Z.of_nat (Z.to_nat (len + 2)) - 2) with len by lia. }
    rewrite Henc. split; [|split; [simpl; lia|split]].
    + repeat constructor; simpl; lia.
    + unfold enc_near. destruct (Z.ltb_spec len 7); simpl; lia.
    + intros o. cbn [mbind option_bind fst snd].
      unfold emit_short, enc_near. rewrite !near_first, near_second by lia.
      change (7 * 32) with 224.
      destruct (len <? 7); simpl; repeat (destruct (push _ _); simpl; [|done]); done.
Qed.

Lemma emit_extra_tokens fuel len o :
  0 <= len → (Z.to_nat (len / 255) <= fuel)%nat →
  emit_extra fuel len o = push_all (enc_extra len) o.
Proof.
  unfold enc_extra. revert len o. induction fuel as [|fuel IH]; intros len o Hl Hf;
    cbn [emit_extra]; destruct (Z.geb_spec len 255) as [Hge|Hlt].
  - assert (1 <= len / 255) by dlia. lia.
  - rewrite Z.div_small, Z.mod_small by lia. simpl. by destruct (push len o).
  - assert (len / 255 = 1 + (len - 255) / 255) as E by dlia.
    assert (0 <= (len - 255) / 255) by dlia.
    rewrite E. replace (Z.to_nat (1 + (len - 255) / 255))
      with (S (Z.to_nat ((len - 255) / 255))) by lia. simpl.
    destruct (push 255 o) as [o1|]; simpl; [|done].
    rewrite IH by lia. by replace (len mod 255) with ((len - 255) mod 255) by dlia.
  - rewrite Z.div_small, Z.mod_small by lia. simpl. by destruct (push len o).
Qed.

Lemma emit_level2_tokens len d o :
  1 <= len → 0 <= d → emit_level2 len d o = push_all (enc_token 2 (Mat (Z.to_nat (len + 2)) d)) o.
Proof.
  intros Hl Hd. unfold emit_level2. rewrite enc_token2.
  replace (Z.of_nat (Z.to_nat (len + 2)) - 2) with len by lia.
  change (MAX_DISTANCE 2) with 8191. rewrite !near_second.
  unfold enc_len2. destruct (Z.ltb_spec d 8191), (Z.ltb_spec len 7).
  - rewrite near_first by lia. simpl. destruct (push _ o); simpl; [|done].
    by destruct (push _ _).
  - rewrite near_first by lia. change (7 * 32) with 224. simpl app. cbn [push_all].
    destruct (push _ o) as [o1|]; simpl; [|done].
    rewrite emit_extra_tokens, push_all_app by dlia.
    destruct (push_all _ o1) as [o2|]; simpl; [|done]. by destruct (push _ o2).
  - rewrite Z.shiftl_mul_pow2, Z.shiftr_div_pow2 by lia. zpow. simpl app. cbn [push_all].
    repeat (destruct (push _ _); simpl; [|done]). done.
  - rewrite Z.shiftr_div_pow2 by lia. zpow. simpl app. cbn [push_all].
    change (Z.shiftl 7 5 + 31) with (224 + 31).
    destruct (push (224 + 31) o) as [o1|]; simpl; [|done].
    rewrite emit_extra_tokens, push_all_app by dlia.
    destruct (push_all _ o1) as [o2|]; simpl; [|done].
    repeat (destruct (push _ _); simpl; [|done]). done.
Qed.

(** Whatever the level, a match of [len + 2] bytes becomes tokens that take at
    most [len + 1] bytes. *)
Lemma emit_match_tokens level len d :
  is_level level → 1 <= len < 2 ^ 31 - 2 → 0 <= d →
  (if level =? 1 then d < 8192 else d <= 65535 + 8191 ∧ (8191 <= d → 3 <= len)) →
  ∃ ns, Forall (wf_token level) (mats d ns) ∧ Z.of_nat (sum_list ns) = len + 2
        ∧ Z.of_nat (length (enc_tokens level (mats d ns))) <= len + 1
        ∧ ∀ o, emit_match level len d o = push_all (enc_tokens level (mats d ns)) o.
Proof.
  intros [-> | ->] Hl Hd; cbn [Z.eqb Pos.eqb].
  - intros Hd'. destruct (emit_level1_tokens (Z.to_nat len) len d) as (ns & ?); [lia..|].
    exists ns. done.
  - intros [Hd' Hfar]. exists [Z.to_nat (len + 2)].
    assert (enc_tokens 2 (mats d [Z.to_nat (len + 2)])
            = enc_token 2 (Mat (Z.to_nat (len + 2)) d)) as ->
      by (by rewrite enc_mats_cons; unfold mats, enc_tokens; simpl; rewrite app_nil_r).
    split; [|split; [simpl; lia|split]].
    + repeat constructor; simpl; lia.
    + rewrite enc_token2. replace (Z.of_nat (Z.to_nat (len + 2)) - 2) with len by lia.
      unfold enc_len2. destruct (Z.ltb_spec d 8191), (Z.ltb_spec len 7);
        rewrite length_app; simpl; rewrite ?length_enc_extra; dlia.
    + intros o. unfold emit_match. cbn [Z.eqb Pos.eqb]. apply emit_level2_tokens; lia.
Qed.

(** ** The output buffer between two steps

    The closed tokens, then a literal run still open: its control byte is a
    placeholder, [copy] bytes follow it.  The size bound counts one control byte
    per 32 literals, since a match never takes more room than it saves. *)
Definition stream (level : Z) (inp : list Z) (size ip copy : nat) (o : outbuf) : Prop :=
  ∃ ts lits h,
    cells o = rev lits ++ 31 :: rev (enc_tokens level ts)
    ∧ length lits = copy ∧ (copy < 32)%nat ∧ Forall is_u8 lits
    ∧ Forall (wf_token level) ts
    ∧ run_tokens ts [] = Some h ∧ rev lits ++ h = rev (take ip inp)
    ∧ (room o + length (cells o) = size)%nat
    ∧ (32 * length (enc_tokens level ts) <= 33 * length h)%nat
    ∧ match ts with [] => lits ≠ [] | t :: _ => ∃ bs, t = Lit bs end.

(** The bound on the buffer size under which no write goes past its end. *)
Definition fits (size len : nat) : Prop := (len + len / 32 + 1 <= size)%nat.

Lemma fits_le size len c : fits size len → (32 * c <= 33 * len + 32)%nat → (c <= size)%nat.
Proof.
  unfold fits. intros H1 H2. pose proof (Nat.div_mod_eq len 32).
  pose proof (Nat.mod_upper_bound len 32). lia.
Qed.

Lemma fits_mono size len len' : (len' <= len)%nat → fits size len → fits size len'.
Proof.
  unfold fits. intros H1 H2. pose proof (Nat.Div0.div_le_mono len' len 32 H1). lia.
Qed.

Lemma stream_size level inp size ip copy o :
  stream level inp size ip copy o → (ip <= length inp)%nat →
  (32 * length (cells o) <= 33 * ip + 32 - copy)%nat ∧ (copy <= ip)%nat.
Proof.
  intros (ts & lits & h & Hc & Hl & Hlt & _ & _ & _ & Hh & _ & Hb & _) Hip.
  apply (f_equal (@length Z)) in Hh.
  rewrite length_app, !length_rev, length_take in Hh.
  rewrite Hc, length_app, length_rev. simpl. rewrite length_rev. lia.
Qed.

(** One more literal. *)
Lemma stream_literal level inp size ip copy o b :
  Forall is_u8 inp → stream level inp size ip copy o →
  inp !! ip = Some b → fits size (S ip) →
  ∃ copy' o', put_literal b copy o = Some (copy', o') ∧ stream level inp size (S ip) copy' o'.
Proof.
  intros Hu8 Hst Hb Hfit.
  assert (ip < length inp)%nat as Hip by (by apply lookup_lt_Some in Hb).
  destruct (stream_size _ _ _ _ _ _ Hst ltac:(lia)) as [Hsize _].
  pose proof (Forall_lookup_1 _ _ _ _ Hu8 Hb) as Hb8.
  destruct Hst as (ts & lits & h & Hc & Hl & Hlt & Hlu & Hwf & Hrun & Hh & Hroom & Hbnd & Hhd).
  unfold put_literal.
  assert (length (cells o) + 1 <= size)%nat by (apply (fits_le size (S ip)); [done|lia]).
  rewrite push_ok by (done || lia). cbn [mbind option_bind].
  set (o1 := mkOut (b :: cells o) (room o - 1)).
  assert (cells o1 = rev (lits ++ [b]) ++ 31 :: rev (enc_tokens level ts)) as Hc1
    by (simpl; rewrite rev_app_distr, Hc; done).
  assert (rev (lits ++ [b]) ++ h = rev (take (S ip) inp)) as Hh1
    by (rewrite (rev_take_S _ _ _ Hb), <- Hh, rev_app_distr; done).
  assert (Forall is_u8 (lits ++ [b])) as Hlu1 by (apply Forall_app; auto).
  destruct (Z.eqb_spec (Z.of_nat (S copy)) MAX_COPY) as [E|E]; unfold MAX_COPY in E.
  - assert (length (cells o) + 2 <= size)%nat.
    { apply (fits_le size (S ip)); [done|].
      apply (f_equal (@length Z)) in Hh. rewrite length_app, !length_rev, length_take in Hh.
      rewrite Hc, length_app, length_rev. simpl. rewrite length_rev. lia. }
    rewrite push_ok by (simpl; lia || (unfold is_u8; zpow; unfold MAX_COPY; lia)).
    eexists _, _. split; [done|]. unfold stream.
    exists (ts ++ [Lit (lits ++ [b])]), [], (rev (lits ++ [b]) ++ h).
    rewrite enc_tokens_app, run_tokens_app, Hrun.
    change (MAX_COPY - 1) with 31. cbn [cells room].
    assert (enc_tokens level [Lit (lits ++ [b])] = 31 :: (lits ++ [b])) as ->.
    { unfold enc_tokens. simpl. rewrite app_nil_r, length_app. simpl. f_equal. lia. }
    split; [|split; [done|split; [lia|split; [by constructor|]]]].
    { rewrite Hc1. simpl rev at 2. rewrite (rev_app_distr (enc_tokens level ts)). simpl.
      by rewrite <- !app_assoc. }
    split; [apply Forall_app; split; [done|apply Forall_singleton];
            split; [rewrite length_app; simpl; lia|done]|].
    split; [done|]. split; [done|]. split; [simpl; lia|].
    split; [|destruct ts; simpl; eauto].
    rewrite !length_app, length_rev. simpl. rewrite length_app. simpl. lia.
  - eexists _, _. split; [done|].
    exists ts, (lits ++ [b]), h. rewrite length_app. simpl length.
    split; [done|]. split; [lia|]. split; [lia|]. split; [done|]. split; [done|].
    split; [done|]. split; [done|]. split; [simpl; lia|]. split; [done|].
    destruct ts; [by destruct lits|done].
Qed.

(** Closing the open run: the tokens written so far are exactly the output. *)
Lemma stream_close level inp size ip copy o :
  stream level inp size ip copy o →
  ∃ ts o', close_literals copy o = Some o'
    ∧ cells o' = rev (enc_tokens level ts) ∧ Forall (wf_token level) ts
    ∧ run_tokens ts [] = Some (rev (take ip inp))
    ∧ (room o' + length (cells o') = size)%nat
    ∧ (copy = O → 32 * length (enc_tokens level ts) <= 33 * length (take ip inp))%nat
    ∧ (32 * length (enc_tokens level ts) <= 33 * length (take ip inp) + 32 - copy)%nat
    ∧ (∃ bs ts', ts = Lit bs :: ts').
Proof.
  intros (ts & lits & h & Hc & Hl & Hlt & Hlu & Hwf & Hrun & Hh & Hroom & Hbnd & Hhd).
  assert (length lits + length h = length (take ip inp))%nat as Hlh.
  { apply (f_equal (@length Z)) in Hh. by rewrite length_app, !length_rev in Hh. }
  destruct copy as [|n].
  - apply nil_length_inv in Hl as ->. simpl in *.
    unfold pop. rewrite Hc in *. exists ts. eexists. split; [done|].
    rewrite Hrun, Hh. repeat split; try done; simpl in *; try lia.
    destruct ts as [|t ts]; [done|]. destruct Hhd as [bs ->]. by eexists _, _.
  - exists (ts ++ [Lit lits]). unfold close_literals, patch.
    assert (length (cells o) = S n + 1 + length (enc_tokens level ts))%nat as Hlen
      by (rewrite Hc, length_app; simpl; rewrite !length_rev, Hl; lia).
    replace (S n <? length (cells o))%nat with true by (symmetry; apply Nat.ltb_lt; lia).
    eexists. split; [done|]. cbn [cells room].
    rewrite enc_tokens_app, run_tokens_app, Hrun.
    assert (enc_tokens level [Lit lits] = Z.of_nat n :: lits) as ->.
    { unfold enc_tokens. simpl. rewrite app_nil_r, Hl. f_equal. lia. }
    split; [|split; [|split; [|split; [|split; [|split]]]]].
    + rewrite Hc, insert_app_r_alt by (rewrite length_rev; lia).
      rewrite length_rev, Hl, Nat.sub_diag. simpl.
      rewrite u8_id by (unfold is_u8; zpow; lia).
      rewrite rev_app_distr. simpl. by rewrite <- app_assoc.
    + apply Forall_app. split; [done|]. apply Forall_singleton. split; [lia|done].
    + simpl. by rewrite Hh.
    + rewrite length_insert. done.
    + done.
    + rewrite length_app. simpl. lia.
    + destruct ts as [|t ts]; [by eexists _, _|]. destruct Hhd as [bs ->]. by eexists _, _.
Qed.
