(* ===== verification/FastLZRoundTrip.v ===== *)
(** * FastLZ: the compressor's loop, and the round trip

    The loop keeps the output a [stream] of the input read so far.  With a
    buffer that satisfies [fits] no write is refused, every turn advances, and
    the decompressor gives the input back. *)

From S2P Require Import Prelude CLib FastLZ FastLZSpec FastLZProofs.
#[local] Open Scope Z_scope.

(** ** Reading ahead *)
Lemma READU16_total inp p :
  (p + 1 < length inp)%nat → ∃ v, FASTLZ_READU16 inp p = Some v.
Proof.
  intros Hp. unfold FASTLZ_READU16.
  destruct (lookup_lt_is_Some_2 inp p) as [x ->]; [lia|].
  destruct (lookup_lt_is_Some_2 inp (S p)) as [y ->]; [lia|]. by eexists.
Qed.

Lemma HASH_FUNCTION_total inp p :
  (p + 2 < length inp)%nat → ∃ v, HASH_FUNCTION inp p = Some v.
Proof.
  intros Hp. unfold HASH_FUNCTION.
  destruct (READU16_total inp p) as [v ->]; [lia|].
  destruct (READU16_total inp (S p)) as [v' ->]; [lia|]. by eexists.
Qed.

Lemma lor_byte_eqb a b c d :
  is_u8 a → is_u8 b → is_u8 c → is_u8 d →
  Z.lor a (Z.shiftl b 8) = Z.lor c (Z.shiftl d 8) → a = c ∧ b = d.
Proof.
  unfold is_u8. intros Ha Hb Hc Hd E.
  assert (∀ x y, 0 <= x < 2 ^ 8 → 0 <= y → Z.lor x (Z.shiftl y 8) = x + y * 256) as H.
  { intros x y Hx Hy. assert (Z.land x (Z.shiftl y 8) = 0) as H0.
    { apply Z.bits_inj'. intros n Hn. rewrite Z.land_spec, Z.bits_0.
      destruct (Z.ltb_spec n 8).
      - rewrite (Z.shiftl_spec y 8 n), (Z.testbit_neg_r y) by lia. by rewrite andb_false_r.
      - rewrite <- (Z.mod_small x (2 ^ 8)) by lia. by rewrite Z.mod_pow2_bits_high by lia. }
    rewrite <- Z.lxor_lor, <- Z.add_nocarry_lxor by done.
    rewrite Z.shiftl_mul_pow2 by lia. by zpow. }
  rewrite !H in E by lia. zpow. lia.
Qed.

(** What the level 2 run test finds out. *)
Lemma is_run_spec inp ip :
  Forall is_u8 inp → (1 <= ip)%nat → (ip + 2 < length inp)%nat →
  ∃ b, is_run inp ip = Some b ∧ (b = true → matches inp ip (ip - 1) 3).
Proof.
  intros Hu Hip Hl. unfold is_run, FASTLZ_READU16.
  destruct (lookup_lt_is_Some_2 inp (ip - 1)) as [x0 H0]; [lia|].
  destruct (lookup_lt_is_Some_2 inp ip) as [x1 H1]; [lia|].
  destruct (lookup_lt_is_Some_2 inp (ip + 1)) as [x2 H2]; [lia|].
  destruct (lookup_lt_is_Some_2 inp (ip + 2)) as [x3 H3]; [lia|].
  replace (S (ip - 1)) with ip by lia. replace (S (ip + 1)) with (ip + 2)%nat by lia.
  rewrite H0, H1, H2, H3. simpl.
  destruct (Z.eqb_spec x1 x0) as [->|]; [|by eexists].
  eexists. split; [done|]. intros E%Z.eqb_eq.
  apply lor_byte_eqb in E as [<- <-];
    [|eapply Forall_lookup_1; eassumption..].
  intros i Hi. destruct i as [|[|[|i]]]; [| | |lia].
  - by rewrite !Nat.add_0_r, H0, H1.
  - rewrite H2. by replace (ip - 1 + 1)%nat with ip by lia.
  - rewrite H3. replace (ip - 1 + 2)%nat with (ip + 1)%nat by lia. done.
Qed.

(** ** One turn of the loop *)

(** Every position in the hash table was visited before. *)
Definition htab_below (h : gmap Z nat) (ip : nat) : Prop :=
  map_Forall (λ _ p, (p < ip)%nat) h.

Lemma htab_below_insert h v p ip ip' :
  htab_below h ip → (ip <= ip')%nat → (p < ip')%nat → htab_below (<[v := p]> h) ip'.
Proof.
  intros Hh Hle Hp. apply map_Forall_insert_2; [done|].
  eapply map_Forall_impl; [exact Hh|]. simpl. lia.
Qed.

Lemma htab_get_below h ip v : htab_below h ip → (0 < ip)%nat → (htab_get h v < ip)%nat.
Proof.
  intros Hh Hip. unfold htab_get. destruct (h !! v) eqn:E; [|done]. exact (Hh _ _ E).
Qed.

Section Loop.
Context (level : Z) (inp : list Z) (size len : nat).
Context (Hlevel : is_level level) (Hu8 : Forall is_u8 inp).
(** The level 2 compressor may hash one byte behind the input. *)
Context (Hmem : (len + (if Z.eqb level 1 then 0 else 1) <= length inp)%nat).
Context (Hlen : Z.of_nat len < 2 ^ 31) (Hfits : fits size len).

Definition loop_inv (st : cstate) : Prop :=
  (2 <= c_ip st <= len)%nat
  ∧ htab_below (c_htab st) (c_ip st)
  ∧ stream level inp size (c_ip st) (c_copy st) (c_out st).

Lemma len_le_mem : (len <= length inp)%nat.
Proof. clear -Hmem. case_match; lia. Qed.

Lemma stream_open ts o h ip :
  cells o = rev (enc_tokens level ts) → Forall (wf_token level) ts →
  run_tokens ts [] = Some h → h = rev (take ip inp) → (ip <= length inp)%nat →
  (room o + length (cells o) = size)%nat → (1 <= room o)%nat →
  (32 * length (enc_tokens level ts) <= 33 * ip)%nat →
  (∃ bs ts', ts = Lit bs :: ts') →
  ∃ o', push (MAX_COPY - 1) o = Some o' ∧ stream level inp size ip 0 o'.
Proof.
  intros Hc Hwf Hrun -> Hip Hroom H1 Hb (bs & ts' & Hts).
  rewrite push_ok by (done || (unfold MAX_COPY, is_u8; zpow; lia)).
  eexists. split; [done|]. exists ts, [], (rev (take ip inp)).
  change (MAX_COPY - 1) with 31. cbn [cells room].
  rewrite Hc in *. rewrite length_rev in Hroom. cbn [length].
  rewrite !length_rev, length_take.
  split; [done|]. split; [done|]. split; [lia|]. split; [constructor|]. split; [done|].
  split; [done|]. split; [done|]. split; [lia|]. split; [lia|].
  rewrite Hts. by eexists.
Qed.

Lemma take_match_spec anchor k r h copy o :
  (k = 3%nat ∨ k = 5%nat ∧ level = 2) →
  (anchor < len - 12)%nat → (2 <= anchor)%nat → (r < anchor)%nat →
  matches inp anchor r k → htab_below h (S anchor) →
  stream level inp size anchor copy o →
  (if level =? 1 then Z.of_nat anchor - Z.of_nat r <= 8192
   else Z.of_nat anchor - Z.of_nat r - 1 <= 65535 + 8191) →
  (k = 3%nat → level = 2 → Z.of_nat anchor - Z.of_nat r <= 8191) →
  ∃ st', take_match level inp (len - 2) anchor k (r + k)
           (Z.of_nat anchor - Z.of_nat r) h copy o = Some st'
         ∧ loop_inv st' ∧ (anchor < c_ip st')%nat.
Proof.
  intros Hk Ha Ha2 Hr Hm Hh Hst Hd Hnear. pose proof len_le_mem.
  assert (3 <= k <= 5)%nat by lia.
  unfold take_match.
  destruct (extend_match_spec inp (len - 2) anchor r k (Z.of_nat anchor - Z.of_nat r - 1))
    as (j & -> & Hkj & Hjb & Hmj); [done|lia|lia|lia|lia|lia|done|].
  cbn [mbind option_bind].
  destruct (stream_close _ _ _ _ _ _ Hst)
    as (ts & o1 & -> & Hc1 & Hwf1 & Hrun1 & Hroom1 & _ & Hb1 & bs & ts' & Hts).
  cbn [mbind option_bind].
  replace (Z.of_nat (anchor + j - 3) - Z.of_nat anchor) with (Z.of_nat j - 3) by lia.
  destruct (emit_match_tokens level (Z.of_nat j - 3)
    (Z.of_nat anchor - Z.of_nat r - 1)) as (ns & Hwfn & Hsum & Hlenn & Hemit);
    [done|zpow; lia|lia| |].
  { destruct Hlevel as [-> | ->]; cbn [Z.eqb Pos.eqb] in *; [lia|]. split; [lia|].
    intros. destruct Hk as [-> | (-> & _)]; [|lia]. specialize (Hnear eq_refl eq_refl). lia. }
  set (d := Z.of_nat anchor - Z.of_nat r - 1) in *.
  assert (length (take anchor inp) = anchor) as Hta by (rewrite length_take; lia).
  rewrite Hta in Hb1.
  assert (length (enc_tokens level ts) + length (enc_tokens level (mats d ns)) + 1 <= size)%nat
    as Hsz.
  { apply (fits_le size len); [done|].
    assert (anchor + j <= len)%nat by lia. lia. }
  assert (length (cells o1) = length (enc_tokens level ts)) as Hl1
    by (by rewrite Hc1, length_rev).
  rewrite Hemit, push_all_ok by (try apply enc_tokens_u8; done || lia).
  cbn [mbind option_bind].
  destruct (HASH_FUNCTION_total inp (anchor + j - 3)) as [v1 ->]; [lia|].
  cbn [mbind option_bind].
  destruct (HASH_FUNCTION_total inp (S (anchor + j - 3))) as [v2 ->].
  { destruct Hk as [-> | (-> & Hl2)]; [|rewrite Hl2 in Hmem; simpl in Hmem]; lia. }
  cbn [mbind option_bind].
  assert (Z.of_nat (length (enc_tokens level (mats d ns))) <= Z.of_nat j - 2) by lia.
  destruct (stream_open (ts ++ mats d ns)
    (mkOut (rev (enc_tokens level (mats d ns)) ++ cells o1)
       (room o1 - length (enc_tokens level (mats d ns))))
    (rev (take (anchor + (j - 1)) inp)) (anchor + (j - 1))) as (o2 & -> & Hst2).
  - cbn [cells]. by rewrite Hc1, enc_tokens_app, rev_app_distr.
  - by apply Forall_app.
  - rewrite run_tokens_app, Hrun1. cbn [mbind option_bind]. rewrite run_mats.
    replace (sum_list ns) with (j - 1)%nat by lia.
    unfold d. replace (Z.to_nat (Z.of_nat anchor - Z.of_nat r - 1))
      with (anchor - r - 1)%nat by lia.
    apply copy_back_match; [done|done|lia].
  - done.
  - lia.
  - cbn [cells room]. rewrite length_app, length_rev. lia.
  - cbn [room]. lia.
  - rewrite enc_tokens_app, length_app. lia.
  - rewrite Hts. by eexists _, _.
  - cbn [mbind option_bind]. eexists. split; [done|]. unfold loop_inv. cbn [c_ip c_htab c_copy c_out].
    split; [split; [lia|split]|lia].
    + apply (htab_below_insert _ _ _ (S (S (anchor + j - 3)))); [|lia|lia].
      apply (htab_below_insert _ _ _ (S anchor)); [done|lia|lia].
    + by replace (S (S (anchor + j - 3))) with (anchor + (j - 1))%nat by lia.
Qed.

Lemma take_literal_spec anchor h copy o :
  (2 <= anchor < len)%nat → htab_below h (S anchor) →
  stream level inp size anchor copy o →
  ∃ st', take_literal inp anchor h copy o = Some st' ∧ loop_inv st' ∧ (anchor < c_ip st')%nat.
Proof.
  intros Ha Hh Hst. pose proof len_le_mem.
  destruct (lookup_lt_is_Some_2 inp anchor) as [b Hb]; [lia|].
  destruct (stream_literal level inp size anchor copy o b) as (c' & o' & Hp & Hst');
    [done|done|done|by apply (fits_mono _ len); [lia|]|].
  unfold take_literal. rewrite Hb. cbn [mbind option_bind]. rewrite Hp. cbn [mbind option_bind].
  eexists. split; [done|]. unfold loop_inv. cbn. repeat split; [lia|lia|done|done|lia].
Qed.

Lemma compress_probe_spec st :
  loop_inv st → (c_ip st < len - 12)%nat →
  ∃ st', compress_probe level inp (len - 2) st = Some st' ∧ loop_inv st'
         ∧ (c_ip st < c_ip st')%nat.
Proof.
  intros (Hip & Hh & Hst) Hlim. pose proof len_le_mem. unfold compress_probe.
  destruct (HASH_FUNCTION_total inp (c_ip st)) as [v ->]; [lia|]. cbn [mbind option_bind].
  set (a := c_ip st) in *. pose proof (htab_get_below _ _ v Hh ltac:(lia)) as Hr.
  set (r := htab_get (c_htab st) v) in *.
  assert (htab_below (<[v := a]> (c_htab st)) (S a)) as Hh'
    by (apply (htab_below_insert _ _ _ a); [done|lia|lia]).
  destruct (take_literal_spec a _ (c_copy st) (c_out st) ltac:(lia) Hh' Hst) as (sl & Hsl & Hil).
  rewrite u32_id by (unfold is_u32; zpow; lia).
  destruct ((Z.of_nat a - Z.of_nat r =? 0) || _) eqn:Efar; [by exists sl|].
  apply orb_false_iff in Efar as [_ Efar].
  destruct (cmp_bytes_spec inp a r 0 3) as (b & j & E & Hj); [intros i; lia|lia|lia|].
  rewrite !Nat.add_0_r in E. rewrite E. cbn [mbind option_bind].
  destruct b; [|by exists sl]. destruct Hj as [-> Hm3]. rewrite Nat.add_0_l in *.
  destruct (negb (level =? 1) && _) eqn:E5.
  - apply andb_true_iff in E5 as [El E5].
    destruct Hlevel as [Hl1|Hl2]; [by rewrite Hl1 in El|].
    destruct (cmp_bytes_spec inp a r 3 2) as (b' & j' & -> & Hj'); [done|lia|lia|].
    cbn [mbind option_bind]. destruct b'; [|by exists sl]. destruct Hj' as [-> Hm5].
    change (3 + 2)%nat with 5%nat in *.
    apply take_match_spec; try done; try lia.
    rewrite Hl2 in *. cbn in *. unfold MAX_FARDISTANCE in *. cbn in *. lia.
  - apply take_match_spec; try done; [by left|lia| |].
    + destruct Hlevel as [-> | ->]; cbn in *; lia.
    + intros _ ->. cbn in *. lia.
Qed.

Lemma take_run_spec st :
  loop_inv st → (c_ip st < len - 12)%nat → matches inp (c_ip st) (c_ip st - 1) 3 →
  ∃ st', take_match level inp (len - 2) (c_ip st) 3 (c_ip st - 1 + 3) 1
           (c_htab st) (c_copy st) (c_out st) = Some st'
         ∧ loop_inv st' ∧ (c_ip st < c_ip st')%nat.
Proof.
  intros (Hip & Hh & Hst) Hlim Hm.
  pose proof (take_match_spec (c_ip st) 3 (c_ip st - 1) (c_htab st) (c_copy st) (c_out st)) as H.
  replace (Z.of_nat (c_ip st) - Z.of_nat (c_ip st - 1)) with 1 in H by lia.
  apply H; try done; try lia.
  - eapply map_Forall_impl; [exact Hh|]. simpl. lia.
  - destruct Hlevel as [-> | ->]; cbn; lia.
Qed.

Lemma compress_step_spec st :
  loop_inv st → (c_ip st < len - 12)%nat →
  ∃ st', compress_step level inp (len - 2) st = Some st' ∧ loop_inv st'
         ∧ (c_ip st < c_ip st')%nat.
Proof.
  intros Hinv Hlim. pose proof Hinv as (Hip & _ & _). pose proof len_le_mem.
  pose proof (compress_probe_spec st Hinv Hlim) as Hprobe.
  pose proof (take_run_spec st Hinv Hlim) as Hrun.
  unfold compress_step. case_match; [done|].
  destruct (is_run_spec inp (c_ip st)) as (b & -> & Hb); [done|lia|lia|].
  cbn [mbind option_bind]. destruct b; [by apply Hrun, Hb|done].
Qed.

Lemma compress_loop_spec fuel st :
  loop_inv st → (len <= c_ip st + fuel)%nat →
  ∃ st', compress_loop level inp (len - 2) (len - 12) fuel st = Some st' ∧ loop_inv st'.
Proof.
  revert st. induction fuel as [|fuel IH]; intros st Hinv Hf; cbn [compress_loop];
    destruct (Nat.ltb_spec (c_ip st) (len - 12)); try by exists st.
  - lia.
  - destruct (compress_step_spec st) as (st' & -> & Hinv' & Hlt); [done|done|].
    cbn [mbind option_bind]. apply IH; [done|lia].
Qed.

Lemma copy_rest_spec n ip copy o :
  stream level inp size ip copy o → (ip + n = len)%nat →
  ∃ copy' o', copy_rest inp n ip copy o = Some (copy', o')
              ∧ stream level inp size len copy' o'.
Proof.
  pose proof len_le_mem. revert ip copy o.
  induction n as [|n IH]; intros ip copy o Hst Hn; cbn [copy_rest].
  - rewrite Nat.add_0_r in Hn. subst. by eexists _, _.
  - destruct (lookup_lt_is_Some_2 inp ip) as [b Hb]; [lia|].
    destruct (stream_literal level inp size ip copy o b) as (c' & o' & Hp & Hst');
      [done|done|done|by apply (fits_mono _ len); [lia|]|].
    rewrite Hb. cbn [mbind option_bind]. rewrite Hp. cbn [mbind option_bind fst snd].
    apply IH; [done|lia].
Qed.

(** The compressor's output is a token sequence for its input. *)
Lemma compressor_tokens :
  (4 <= len)%nat →
  ∃ ts, FASTLZ_COMPRESSOR level inp len size
        = Some (set_marker level (enc_tokens level ts))
    ∧ Forall (wf_token level) ts ∧ run_tokens ts [] = Some (rev (take len inp))
    ∧ (32 * length (enc_tokens level ts) <= 33 * len + 32)%nat
    ∧ ∃ bs ts', ts = Lit bs :: ts'.
Proof.
  intros H4. pose proof len_le_mem. pose proof Hfits as Hf. unfold fits in Hf.
  unfold FASTLZ_COMPRESSOR.
  replace (len <? 4)%nat with false by (symmetry; apply Nat.ltb_ge; lia).
  assert (∃ b0 b1 tl, inp = b0 :: b1 :: tl) as (b0 & b1 & tl & Hinp)
    by (destruct inp as [|? [|? ?]]; simpl in *; [lia|lia|by eexists _, _, _]).
  assert (is_u8 b0 ∧ is_u8 b1) as [Hb0 Hb1]
    by (split; eapply (Forall_lookup_1 _ inp); try done; rewrite Hinp;
        [by instantiate (1 := 0%nat)|by instantiate (1 := 1%nat)]).
  rewrite push_ok by (done || (simpl; lia)). cbn [mbind option_bind].
  replace (inp !! 0%nat) with (Some b0) by (by rewrite Hinp). cbn [mbind option_bind].
  rewrite push_ok by (done || (simpl; lia)). cbn [mbind option_bind].
  replace (inp !! 1%nat) with (Some b1) by (by rewrite Hinp). cbn [mbind option_bind].
  rewrite push_ok by (done || (simpl; lia)). cbn [mbind option_bind cells room].
  destruct (compress_loop_spec len
    (mkC 2 (mkOut [b1; b0; MAX_COPY - 1] (size - 1 - 1 - 1)) ∅ 2)) as (st & -> & Hinv).
  { split; [simpl; lia|]. split; [apply map_Forall_empty|].
    exists [], [b0; b1], []. cbn [c_out c_copy c_ip cells room]. rewrite Hinp.
    repeat split; simpl; try done; try lia. by repeat (apply List.Forall_cons || apply List.Forall_nil). }
  { simpl. lia. }
  cbn [mbind option_bind]. destruct Hinv as (Hip & _ & Hst).
  destruct (copy_rest_spec (len - c_ip st) _ _ _ Hst) as (c' & o' & -> & Hst'); [lia|].
  cbn [mbind option_bind].
  destruct (stream_close _ _ _ _ _ _ Hst')
    as (ts & o1 & -> & Hc1 & Hwf1 & Hrun1 & _ & _ & Hb' & Hhd).
  cbn [mbind option_bind]. exists ts. rewrite Hc1, rev_involutive.
  rewrite length_take in Hb'. repeat split; try done. lia.
Qed.
End Loop.

(** ** Fewer than four bytes *)
Lemma copy_all_spec inp n ip o :
  Forall is_u8 inp → (ip + n <= length inp)%nat → (n <= room o)%nat →
  copy_all inp n ip o
  = Some (mkOut (rev (take n (drop ip inp)) ++ cells o) (room o - n)).
Proof.
  intros Hu. revert ip o. induction n as [|n IH]; intros ip o Hl Hr; cbn [copy_all].
  - destruct o. simpl. by rewrite Nat.sub_0_r.
  - destruct (lookup_lt_is_Some_2 inp ip) as [b Hb]; [lia|]. rewrite Hb.
    cbn [mbind option_bind].
    rewrite push_ok by (try (eapply Forall_lookup_1; eassumption); lia).
    cbn [mbind option_bind]. rewrite IH by (simpl; lia).
    rewrite (drop_S inp b ip Hb). simpl. rewrite <- app_assoc. simpl. do 2 f_equal. lia.
Qed.

Lemma compressor_short level inp len size :
  Forall is_u8 inp → (1 <= len < 4)%nat → (len <= length inp)%nat → fits size len →
  FASTLZ_COMPRESSOR level inp len size = Some (enc_tokens 1 [Lit (take len inp)]).
Proof.
  intros Hu Hl Hle Hf. unfold fits in Hf.
  assert (len / 32 = 0)%nat as E by (apply Nat.div_small; lia). rewrite E in Hf.
  unfold FASTLZ_COMPRESSOR.
  replace (len <? 4)%nat with true by (symmetry; apply Nat.ltb_lt; lia).
  replace (len =? 0)%nat with false by (symmetry; apply Nat.eqb_neq; lia).
  rewrite push_ok by (simpl; lia || (unfold is_u8; zpow; lia)). cbn [mbind option_bind].
  rewrite copy_all_spec by (done || (simpl; lia)). cbn [mbind option_bind cells].
  rewrite drop_0. unfold enc_tokens. simpl. rewrite rev_app_distr, rev_involutive, app_nil_r.
  rewrite length_take. simpl. do 3 f_equal. lia.
Qed.

(** ** The round trip *)

(** The marker of level 2 does not disturb the first token, a literal run. *)
Lemma decompress_marked level ts bs ts' maxout out :
  is_level level → ts = Lit bs :: ts' → Forall (wf_token level) ts →
  run_tokens ts [] = Some (rev out) → Z.of_nat (length out) <= maxout →
  fastlz_decompress (set_marker level (enc_tokens level ts))
    (length (set_marker level (enc_tokens level ts))) maxout = Decoded out.
Proof.
  intros Hl -> Hwf Hrun Hmax.
  assert (enc_tokens level (Lit bs :: ts')
          = (Z.of_nat (length bs) - 1) :: (bs ++ enc_tokens level ts')) as E by done.
  assert (1 <= length bs <= 32)%nat as Hbs
    by (apply Forall_cons_1 in Hwf as [[? _] _]; done).
  set (c := Z.of_nat (length bs) - 1) in *. assert (0 <= c < 32) by lia.
  rewrite E. set (tl := bs ++ enc_tokens level ts') in *. cbn [set_marker].
  set (m := if level =? 1 then c else Z.lor c (Z.shiftl 1 5)).
  assert (Z.shiftr m 5 + 1 = level ∧ Z.land m 31 = c) as [Hm1 Hm2].
  { destruct Hl as [-> | ->]; unfold m; cbn [Z.eqb Pos.eqb].
    - replace c with (0 * 32 + c) by lia. rewrite shiftr_ctrl, land_ctrl by lia. lia.
    - assert (Z.lor c (Z.shiftl 1 5) = 1 * 32 + c) as ->.
      { assert (∀ n : nat, (n < 32)%nat → Z.lor (Z.of_nat n) (Z.shiftl 1 5) = 32 + Z.of_nat n) as Hn.
        { intros n Hn. do 32 (destruct n as [|n]; [done|]). lia. }
        replace c with (Z.of_nat (Z.to_nat c)) by lia. rewrite Hn; lia. }
      rewrite shiftr_ctrl, land_ctrl by lia. lia. }
  unfold fastlz_decompress. cbn [lookup list_lookup]. rewrite Hm1.
  assert (FASTLZ_DECOMPRESSOR level (m :: tl) (length (m :: tl)) maxout = Decoded out) as HD.
  { unfold FASTLZ_DECOMPRESSOR. cbn [lookup list_lookup]. rewrite Hm2.
    rewrite <- (rev_involutive out).
    eapply decompress_tokens; [done|exact Hwf|exact E|done|simpl; lia|exact Hrun| |simpl; lia].
    by rewrite length_rev. }
  destruct Hl as [-> | ->]; done.
Qed.

Lemma set_marker_u8 level out : Forall is_u8 out → Forall is_u8 (set_marker level out).
Proof.
  destruct 1 as [|b out Hb Hout]; [constructor|]. cbn [set_marker].
  apply List.Forall_cons; [|done]. case_match; [done|]. unfold is_u8 in *.
  assert (0 <= Z.lor b (Z.shiftl 1 5)) by (apply Z.lor_nonneg; split; [lia|done]).
  split; [done|]. apply Z.log2_lt_cancel. rewrite Z.log2_lor by (lia || done).
  change (Z.log2 (2 ^ 8)) with 8. change (Z.log2 (Z.shiftl 1 5)) with 5.
  assert (Z.log2 b < 8); [|lia].
  destruct (Z.eq_dec b 0) as [->|]; [done|]. apply Z.log2_lt_pow2; lia.
Qed.

(** What the compressor may read past [len]: level 2 hashes one byte more. *)
Definition fastlz_slack (level : Z) : nat := if level =? 1 then 0 else 1.

Lemma compressor_round_trip level inp len size :
  is_level level → Forall is_u8 inp → (1 <= len)%nat →
  (len + fastlz_slack level <= length inp)%nat → Z.of_nat len < 2 ^ 31 → fits size len →
  ∃ c, FASTLZ_COMPRESSOR level inp len size = Some c
    ∧ Forall is_u8 c ∧ (length c <= len + len / 32 + 1)%nat
    ∧ ∀ maxout, Z.of_nat len <= maxout →
        fastlz_decompress c (length c) maxout = Decoded (take len inp).
Proof.
  intros Hl Hu H1 Hmem Hlt Hf.
  assert (len <= length inp)%nat as Hle by lia.
  assert (length (take len inp) = len) as Hlen by (rewrite length_take; lia).
  assert (∀ level ts, length (set_marker level (enc_tokens level ts))
                      = length (enc_tokens level ts)) as Hsm
    by (intros ? ts; by destruct (enc_tokens _ ts)).
  destruct (Nat.lt_ge_cases len 4) as [H4|H4].
  - rewrite compressor_short by done. eexists. split; [done|].
    assert (wf_token 1 (Lit (take len inp))) as Hwf
      by (split; [lia|by apply Forall_take]).
    split; [by apply enc_tokens_u8; [left|apply Forall_singleton]|]. split.
    + unfold enc_tokens. simpl. rewrite app_nil_r, Hlen. lia.
    + intros maxout Hm. assert (∀ t, enc_tokens 1 t = set_marker 1 (enc_tokens 1 t)) as E
        by (intros t; by destruct (enc_tokens 1 t)).
      rewrite E. eapply decompress_marked; [by left|done| |simpl; by rewrite app_nil_r|lia].
      by apply Forall_singleton.
  - destruct (compressor_tokens level inp size len) as (ts & -> & Hwf & Hrun & Hb & bs & ts' & E);
      [done..|].
    eexists. split; [done|]. split; [by apply set_marker_u8, enc_tokens_u8|]. split.
    + rewrite Hsm. apply (fits_le _ len); [by unfold fits|done].
    + intros maxout Hm. eapply decompress_marked; [done|exact E|done|done|lia].
Qed.

Lemma fastlz_round_trip' inp len size :
  Forall is_u8 inp → (1 <= len)%nat → Z.of_nat len < 2 ^ 31 →
  (len + fastlz_slack (if (Z.of_nat len <? 65536)%Z then 1 else 2) <= length inp)%nat →
  (len + len / 32 + 1 <= size)%nat →
  ∃ c, fastlz_compress inp len size = Some c
    ∧ Forall is_u8 c ∧ (length c <= len + len / 32 + 1)%nat
    ∧ ∀ maxout, Z.of_nat len <= maxout →
        fastlz_decompress c (length c) maxout = Decoded (take len inp).
Proof.
  intros Hu H1 Hlt Hmem Hf. unfold fastlz_compress.
  destruct (Z.of_nat len <? 65536);
    apply compressor_round_trip; try done; [by left|by right].
Qed.

(** C6: [fastlz_compress] then [fastlz_decompress] gives the input back, at the
    level the input's size selects: for every input of 1 to 2^31 - 1 bytes and
    every output buffer with one byte of room per 32 (and one more), the
    compressor returns, writes nothing outside the buffer, produces at most that
    many bytes, and the decompressor accepts them whatever room it has beyond the
    original length. *)
Theorem fastlz_round_trip inp len size :
  Forall is_u8 inp → (1 <= len)%nat → Z.of_nat len < 2 ^ 31 →
  (len + fastlz_slack (if (Z.of_nat len <? 65536)%Z then 1 else 2) <= length inp)%nat →
  (len + len / 32 + 1 <= size)%nat →
  ∃ c, fastlz_compress inp len size = Some c
    ∧ Forall is_u8 c ∧ (length c <= len + len / 32 + 1)%nat
    ∧ ∀ maxout, Z.of_nat len <= maxout →
        fastlz_decompress c (length c) maxout = Decoded (take len inp).
Proof. apply fastlz_round_trip'. Qed.

Lemma fastlz_round_trip_witness :
  ∃ c, fastlz_compress (replicate 100 7) 100 104 = Some c
    ∧ Forall is_u8 c ∧ (length c <= 100 + 100 / 32 + 1)%nat
    ∧ ∀ maxout, 100 <= maxout →
        fastlz_decompress c (length c) maxout = Decoded (take 100 (replicate 100 7)).
Proof.
  apply (fastlz_round_trip (replicate 100 7) 100 104).
  - apply Forall_replicate. unfold is_u8. lia.
  - lia.
  - lia.
  - vm_compute. lia.
  - vm_compute. lia.
Defined.

(** At level 2 the slack is needed.  With a memory that ends with the input,
    [fastlz2_compress] reads the byte behind it: a far match that reaches the end
    makes it hash a trigram that starts two bytes before. *)
Theorem fastlz2_reads_past_the_input :
  let p := seqZ 50 13 in
  let inp := p ++ replicate (Z.to_nat 8300) 65 ++ p in
  fastlz_compress_level 2 inp (length inp) (Z.to_nat 9000) = None
  ∧ is_Some (fastlz_compress_level 2 (inp ++ [0]) (length inp) (Z.to_nat 9000))
  ∧ is_Some (fastlz_compress_level 1 inp (length inp) (Z.to_nat 9000)).
Proof.
  split; [vm_compute; reflexivity|].
  split; (vm_compute; eexists; reflexivity).
Qed.
