(* ===== verification/FastLZSafety.v ===== *)
(** * FastLZ: the decompressor on bytes it did not write

    Whatever the input, it stops and never writes more than [maxout] bytes.  It
    does read past the input's end: by two bytes at most at level 1, which is
    proved enough and needed. *)

From S2P Require Import Prelude CLib FastLZ FastLZSpec.
#[local] Open Scope Z_scope.

Lemma read_length_ip inp fuel ip len len' ip' :
  read_length inp fuel ip len = Some (len', ip') → (ip < ip')%nat.
Proof.
  revert ip len. induction fuel as [|fuel IH]; intros ip len; cbn [read_length]; [done|].
  destruct (inp !! ip) as [c|]; simpl; [|done].
  destruct (c =? 255); [intros H%IH; lia|]. intros [= _ <-]. lia.
Qed.

Lemma read_match_ip level inp ctrl ip len dist ip' :
  read_match level inp ctrl ip = Some (len, dist, ip') → (ip < ip')%nat.
Proof.
  unfold read_match. intros H.
  destruct (level =? 1); apply bind_Some in H as ([l ip1] & H1 & H);
    apply bind_Some in H as (c & _ & H).
  - assert (ip <= ip1)%nat.
    { destruct (_ =? 7 - 1); [apply bind_Some in H1 as (? & _ & H1)|]; injection H1 as <- <-; lia. }
    injection H as <- <- <-. lia.
  - assert (ip <= ip1)%nat.
    { destruct (_ =? 7 - 1); [apply read_length_ip in H1|injection H1 as <- <-]; lia. }
    case_match; [|injection H as <- <- <-; lia].
    apply bind_Some in H as (hi & _ & H). apply bind_Some in H as (lo & _ & H).
    injection H as <- <- <-. lia.
Qed.

Lemma copy_forward_length inp n ip out out' :
  copy_forward inp n ip out = Some out' → length out' = (n + length out)%nat.
Proof.
  revert ip out. induction n as [|n IH]; intros ip out; simpl; [by intros [= <-]|].
  destruct (inp !! ip); simpl; [|done]. intros H%IH. simpl in H. lia.
Qed.

(** Copies write bytes. *)
Lemma copy_forward_u8 inp n ip out out' :
  Forall is_u8 inp → Forall is_u8 out → copy_forward inp n ip out = Some out' → Forall is_u8 out'.
Proof.
  intros Hu. revert ip out. induction n as [|n IH]; intros ip out Ho; simpl; [by intros [= <-]|].
  destruct (inp !! ip) as [b|] eqn:E; simpl; [|done]. apply IH.
  apply List.Forall_cons; [by eapply (Forall_lookup_1 _ inp)|done].
Qed.

Lemma copy_back_u8 n d out out' :
  Forall is_u8 out → copy_back n d out = Some out' → Forall is_u8 out'.
Proof.
  revert out. induction n as [|n IH]; intros out Ho; simpl; [by intros [= <-]|].
  destruct (out !! d) as [b|] eqn:E; simpl; [|done]. apply IH.
  apply List.Forall_cons; [by eapply (Forall_lookup_1 _ out)|done].
Qed.

(** The ways a turn of the loop goes on. *)
Lemma decompress_turn level inp length maxout f ctrl ip out :
  Forall is_u8 inp → Forall is_u8 out → 0 <= ctrl →
  let r := decompress_loop level inp length maxout (S f) ctrl ip out in
  r = Rejected ∨ r = OutOfBounds ∨
  ∃ ip' out', r = dec_continue level inp length maxout f ip' out' ∧ (ip < ip')%nat
              ∧ Forall is_u8 out'
              ∧ Z.of_nat (List.length out') <= Z.max maxout (Z.of_nat (List.length out)).
Proof.
  intros Hu Ho Hc. cbn [decompress_loop]. destruct (ctrl >=? 32) eqn:E.
  - destruct (read_match level inp ctrl ip) as [[[len dist] ip']|] eqn:Er; [|auto].
    apply read_match_ip in Er.
    destruct (_ >? maxout) eqn:Em; [auto|]. destruct (_ <? 0) eqn:Ed; [auto|].
    destruct (copy_back _ _ _) as [out'|] eqn:Eb; [|auto].
    pose proof (copy_back_u8 _ _ _ _ Ho Eb). apply copy_back_length in Eb.
    right. right. exists ip', out'. split; [done|]. split; [done|]. split; [done|]. lia.
  - destruct (_ >? maxout) eqn:Em; [auto|]. destruct (_ <? _)%nat; [auto|].
    destruct (copy_forward _ _ _ _) as [out'|] eqn:Ef; [|auto].
    pose proof (copy_forward_u8 _ _ _ _ _ Hu Ho Ef). apply copy_forward_length in Ef.
    right. right. eexists _, out'. split; [done|]. split; [lia|]. split; [done|]. lia.
Qed.

Lemma decompress_loop_bounded level inp length maxout fuel ctrl ip out :
  Forall is_u8 inp → Forall is_u8 out → 0 <= ctrl →
  (length + 2 <= ip + fuel)%nat → (ip <= length ∨ ip = 1)%nat → (1 <= fuel)%nat →
  let r := decompress_loop level inp length maxout fuel ctrl ip out in
  r ≠ FuelOut
  ∧ ∀ bs, r = Decoded bs → Forall is_u8 bs
      ∧ Z.of_nat (List.length bs) <= Z.max maxout (Z.of_nat (List.length out)).
Proof.
  intros Hu. revert ctrl ip out. induction fuel as [|f IH]; intros ctrl ip out Ho Hc Hf Hip H1;
    [lia|]. cbv zeta.
  destruct (decompress_turn level inp length maxout f ctrl ip out)
    as [-> | [-> | (ip' & out' & -> & Hlt & Hu' & Hout')]]; [done..|].
  unfold dec_continue. destruct (Nat.ltb_spec ip' length).
  - destruct (inp !! ip') as [c|] eqn:E; [|done].
    pose proof (Forall_lookup_1 _ _ _ _ Hu E) as Hc'. unfold is_u8 in Hc'.
    destruct (IH c (S ip') out') as [IH1 IH2]; [done|lia..|]. split; [done|].
    intros bs Hbs. destruct (IH2 bs Hbs). split; [done|]. lia.
  - split; [done|]. intros bs [= <-]. rewrite length_rev. split; [by apply Forall_rev|done].
Qed.

Lemma fastlz_decompress_result inp length maxout :
  Forall is_u8 inp →
  fastlz_decompress inp length maxout ≠ FuelOut
  ∧ ∀ out, fastlz_decompress inp length maxout = Decoded out →
      Forall is_u8 out ∧ Z.of_nat (List.length out) <= Z.max maxout 0.
Proof.
  intros Hu. unfold fastlz_decompress.
  destruct (inp !! 0%nat) as [b|] eqn:E; [|done].
  pose proof (Forall_lookup_1 _ _ _ _ Hu E) as Hb. unfold is_u8 in Hb.
  assert (∀ level, FASTLZ_DECOMPRESSOR level inp length maxout ≠ FuelOut ∧
    ∀ out, FASTLZ_DECOMPRESSOR level inp length maxout = Decoded out →
      Forall is_u8 out ∧ Z.of_nat (List.length out) <= Z.max maxout 0) as H.
  { intros level. unfold FASTLZ_DECOMPRESSOR. rewrite E.
    apply (decompress_loop_bounded level inp length maxout (S length) _ 1 []);
      [done|apply List.Forall_nil|apply Z.land_nonneg; lia|lia|lia|lia]. }
  case_match; [apply H|]. case_match; [apply H|]. done.
Qed.

(** C32: whatever bytes it is given, the decompressor returns: the model's bound on
    the loop, one turn per input byte, is enough.  What it writes are bytes, and
    they fit in the [maxout] it was told. *)
Theorem fastlz_decompress_bounded inp length maxout :
  Forall is_u8 inp → 0 <= maxout →
  fastlz_decompress inp length maxout ≠ FuelOut
  ∧ ∀ out, fastlz_decompress inp length maxout = Decoded out →
      Forall is_u8 out ∧ Z.of_nat (List.length out) <= maxout.
Proof.
  intros Hu Hm. destruct (fastlz_decompress_result inp length maxout Hu) as [H1 H2].
  split; [done|]. intros out Ho. destruct (H2 out Ho). split; [done|]. lia.
Qed.

(** "ABC" and a match of three bytes, into six bytes and into five. *)
Lemma fastlz_decompress_bounded_witness :
  let inp := [2; 65; 66; 67; 32; 2] in
  fastlz_decompress inp 6 6 = Decoded [65; 66; 67; 65; 66; 67]
  ∧ (Forall is_u8 [65; 66; 67; 65; 66; 67] ∧ 6 <= 6)
  ∧ fastlz_decompress inp 6 5 = Rejected ∧ fastlz_decompress inp 6 5 ≠ FuelOut.
Proof.
  intros inp. assert (Forall is_u8 inp) as Hu.
  { repeat (apply List.Forall_cons || apply List.Forall_nil); unfold is_u8; lia. }
  assert (fastlz_decompress inp 6 6 = Decoded [65; 66; 67; 65; 66; 67]) as E by reflexivity.
  split; [exact E|]. split; [|split; [reflexivity|]].
  - apply (proj2 (fastlz_decompress_bounded inp 6 6 Hu ltac:(lia)) _ E).
  - apply (fastlz_decompress_bounded inp 6 5 Hu ltac:(lia)).
Defined.

(** ** Reads past the end of the input *)

Lemma read_match_level1_total inp ctrl ip :
  Forall is_u8 inp → 32 <= ctrl → (ip + 1 < length inp)%nat →
  ∃ len dist ip', read_match 1 inp ctrl ip = Some (len, dist, ip') ∧ 0 <= dist.
Proof.
  intros Hu Hc Hip. unfold read_match. cbn [Z.eqb Pos.eqb].
  destruct (lookup_lt_is_Some_2 inp ip) as [x Hx]; [lia|].
  destruct (lookup_lt_is_Some_2 inp (S ip)) as [y Hy]; [lia|].
  pose proof (Forall_lookup_1 _ _ _ _ Hu Hx) as Hx'. unfold is_u8 in Hx'.
  pose proof (Forall_lookup_1 _ _ _ _ Hu Hy) as Hy'. unfold is_u8 in Hy'.
  assert (0 <= Z.shiftl (Z.land ctrl 31) 8)
    by (apply Z.shiftl_nonneg, Z.land_nonneg; lia).
  destruct (_ =? 7 - 1); cbn [mbind option_bind mret option_ret]; rewrite Hx; cbn [mbind option_bind mret option_ret]; rewrite ?Hy;
    cbn [mbind option_bind mret option_ret]; eexists _, _, _; (split; [done|lia]).
Qed.

Lemma decompress_loop_level1 inp length maxout fuel ctrl ip out :
  Forall is_u8 inp → 0 <= ctrl → (length + 2 <= List.length inp)%nat → (ip <= length)%nat →
  decompress_loop 1 inp length maxout fuel ctrl ip out ≠ OutOfBounds.
Proof.
  intros Hu. revert ctrl ip out. induction fuel as [|f IH]; intros ctrl ip out Hc Hl Hip; [done|].
  assert (∀ ip' out', dec_continue 1 inp length maxout f ip' out' ≠ OutOfBounds) as Hk.
  { intros ip' out'. unfold dec_continue. destruct (Nat.ltb_spec ip' length); [|done].
    destruct (lookup_lt_is_Some_2 inp ip') as [c E]; [lia|]. rewrite E.
    pose proof (Forall_lookup_1 _ _ _ _ Hu E) as Hc'. unfold is_u8 in Hc'.
    apply IH; lia. }
  cbn [decompress_loop]. destruct (ctrl >=? 32) eqn:E.
  - destruct (read_match_level1_total inp ctrl ip) as (len & dist & ip' & -> & Hd);
      [done|lia|lia|].
    destruct (_ >? maxout); [done|]. destruct (_ <? 0) eqn:Ed; [done|].
    destruct (copy_back_total (Z.to_nat (len + 3)) (Z.to_nat dist) out) as [o ->]; [lia|].
    apply Hk.
  - destruct (_ >? maxout); [done|]. destruct (_ <? _)%nat eqn:El; [done|].
    apply Nat.ltb_ge in El. rewrite copy_forward_spec by lia. apply Hk.
Qed.

(** At level 1 the decompressor stays inside the input and the two bytes
    behind it, for every input, well formed or not. *)
Theorem fastlz1_overread_bounded inp length maxout :
  Forall is_u8 inp → (1 <= length)%nat → (length + 2 <= List.length inp)%nat →
  FASTLZ_DECOMPRESSOR 1 inp length maxout ≠ OutOfBounds.
Proof.
  intros Hu H1 Hl. unfold FASTLZ_DECOMPRESSOR.
  destruct (lookup_lt_is_Some_2 inp 0) as [b ->]; [lia|].
  apply decompress_loop_level1; [done|apply Z.land_nonneg; lia|done|lia].
Qed.

Lemma fastlz1_overread_bounded_witness :
  FASTLZ_DECOMPRESSOR 1 ([0; 65; 224] ++ [0; 0]) 3 100 ≠ OutOfBounds.
Proof.
  apply fastlz1_overread_bounded; [|lia|simpl; lia].
  repeat (apply List.Forall_cons || apply List.Forall_nil); unfold is_u8; lia.
Defined.

(** The two bytes are needed, although fastlz.h promises a decompressor that is
    memory safe: an input that ends in a match's control byte makes it read one
    byte past the end, or two when the length is extended; an empty input makes
    it read the first.  At level 2 a length of 255s is read on and on. *)
Theorem fastlz_decompress_overreads :
  fastlz_decompress [0; 65; 32] 3 100 = OutOfBounds
  ∧ fastlz_decompress ([0; 65; 32] ++ [0]) 3 100 ≠ OutOfBounds
  ∧ fastlz_decompress ([0; 65; 224] ++ [0]) 3 100 = OutOfBounds
  ∧ fastlz_decompress [] 0 100 = OutOfBounds
  ∧ fastlz_decompress ([32; 65; 224] ++ replicate 1000 255) 3 100 = OutOfBounds.
Proof.
  repeat split; try discriminate; vm_compute; reflexivity.
Qed.
