(* ===== verification/Payload.v ===== *)
(** * Values to payloads and back

    "Wrapper for setting from zval" and "Internal support code" of
    php_memcached.c: the item bytes and the 32-bit flag word of a value, the
    compression of large items, and the inverse direction.  FastLZ is the model
    of fastlz.c; zlib, zstd and the serializers are the engine's. *)

From Stdlib Require Import Floats.SpecFloat.
From S2P Require Import Prelude CLib Flags Zend GFmt LibMemcached World FastLZ.
#[local] Open Scope Z_scope.

(** [php_memc_serializer_type] and [php_memc_compression_type]. *)
Definition SERIALIZER_PHP : Z := 1.
Definition SERIALIZER_IGBINARY : Z := 2.
Definition SERIALIZER_JSON : Z := 3.
Definition SERIALIZER_JSON_ARRAY : Z := 4.
Definition SERIALIZER_MSGPACK : Z := 5.
Definition COMPRESSION_TYPE_ZLIB : Z := 1.
Definition COMPRESSION_TYPE_FASTLZ : Z := 2.
Definition COMPRESSION_TYPE_ZSTD : Z := 3.

(** A [uint32_t] in memory: the model's machine is little-endian. *)
Definition le32 (z : Z) : string :=
  string_of_bytes [u8 z; u8 (Z.shiftr z 8); u8 (Z.shiftr z 16); u8 (Z.shiftr z 24)].
Definition read_le32 (s : string) : Z :=
  match bytes_of_string s with
  | b0 :: b1 :: b2 :: b3 :: _ => b0 + 2 ^ 8 * b1 + 2 ^ 16 * b2 + 2 ^ 24 * b3
  | _ => 0
  end.

Fixpoint string_drop (n : nat) (s : string) : string :=
  match n, s with
  | S n', String _ s' => string_drop n' s'
  | _, _ => s
  end.

(** [(size_t) d] for a double that is not negative. *)
Definition double_to_size (d : double) : Z :=
  match d with
  | S754_finite false m e => if 0 <=? e then Z.pos m * 2 ^ e else Z.pos m / 2 ^ (- e)
  | _ => 0
  end.

(** The constant 1.05 is the double nearest to 105/100. *)
Definition double_1_05 : double := SFdiv prec emax (double_of_Z 105) (double_of_Z 100).

Definition compress_buffer_size (len : Z) : Z :=
  double_to_size (dadd (dmul (double_of_Z len) double_1_05) (double_of_Z 1)).

(** FastLZ takes its lengths as [int]s: payloads of 2 GiB and more are outside
    the model. *)
Definition INT_LIMIT : Z := 2 ^ 31.

Section Compress.
Context {MC : Type} `{ZendRuntime} `{BuildConfig}.
#[local] Abbreviation M := (M (world MC)).

(** [s_compress_value]: the status, the payload and the flags it leaves. *)
Definition s_compress_value (compression_type compression_level : Z) (payload : string)
    (flags : Z) : M (bool * string * Z) :=
  let buffer_size := compress_buffer_size (zstr_len payload) in
  let original_size := u32 (zstr_len payload) in
  factor ← gets (λ w, g_compression_factor (w_globals w));
  r ← (if compression_type =? COMPRESSION_TYPE_FASTLZ then
         if INT_LIMIT <=? zstr_len payload then undef
         else
           (* the zend_string's terminating NUL is readable too *)
           match fastlz_compress (bytes_of_string payload ++ [0])
                   (Z.to_nat (zstr_len payload)) (Z.to_nat buffer_size) with
           | None => undef
           | Some c => mret (negb (bool_decide (c = [])), string_of_bytes c,
                             Z.of_nat (length c), MEMC_VAL_COMPRESSION_FASTLZ)
           end
       else if HAVE_ZSTD_H && (compression_type =? COMPRESSION_TYPE_ZSTD) then
         (* the level is clamped only after the call *)
         match ZSTD_compress compression_level payload buffer_size with
         | Some c => mret (true, c, zstr_len c, MEMC_VAL_COMPRESSION_ZSTD)
         | None => mret (false, ""%string, UINT64_MAX, 0)
         end
       else if compression_type =? COMPRESSION_TYPE_ZLIB then
         let level := if compression_level <? 0 then 0
                      else if 9 <? compression_level then 9 else compression_level in
         match compress2 level payload buffer_size with
         | Some c => mret (true, c, zstr_len c, MEMC_VAL_COMPRESSION_ZLIB)
         | None => mret (false, ""%string, buffer_size, 0)
         end
       else mret (false, ""%string, 0, 0));
  let '(compress_status, buffer, compressed_size, type_flag) := (r : bool * string * Z * Z) in
  let larger := SFleb (double_of_Z (zstr_len payload))
                  (dmul (double_of_Z compressed_size) factor) in
  if compress_status && negb larger then
    mret (true, (le32 original_size ++ buffer)%string,
          MEMC_VAL_SET_FLAG flags (Z.lor MEMC_VAL_COMPRESSED type_flag))
  else mret (false, payload, flags).

(** [s_serialize_value]: [smart_str.s] when it succeeds.  The final check reads
    the buffer's length when an exception is pending. *)
Definition finish_serialize (buf : option string) (flags : Z)
    : M (option (option string * Z)) :=
  exn ← gets w_exception;
  if exn : bool then
    match buf with
    | None => undef
    | Some s => if negb (zstr_len s =? 0) then mret None else mret (Some (buf, flags))
    end
  else mret (Some (buf, flags)).

Definition s_serialize_value (serializer : Z) (value : zval) (flags : Z)
    : M (option (option string * Z)) :=
  if HAVE_MEMCACHED_IGBINARY && (serializer =? SERIALIZER_IGBINARY) then
    let r := igbinary_serialize value in
    raise_if (ser_exception r);;
    match ser_buf r with
    | None => warn "could not serialize value with igbinary";; mret None
    | Some s => finish_serialize (Some s) (MEMC_VAL_SET_TYPE flags MEMC_VAL_IS_IGBINARY)
    end
  else if HAVE_JSON_API && ((serializer =? SERIALIZER_JSON) || (serializer =? SERIALIZER_JSON_ARRAY)) then
    let r := php_json_encode value in
    raise_if (ser_exception r);;
    finish_serialize (ser_buf r) (MEMC_VAL_SET_TYPE flags MEMC_VAL_IS_JSON)
  else if HAVE_MEMCACHED_MSGPACK && (serializer =? SERIALIZER_MSGPACK) then
    let r := php_msgpack_serialize value in
    raise_if (ser_exception r);;
    match ser_buf r with
    | None => warn "could not serialize value with msgpack";; mret None
    | Some s => finish_serialize (Some s) (MEMC_VAL_SET_TYPE flags MEMC_VAL_IS_MSGPACK)
    end
  else
    let r := php_var_serialize value in
    raise_if (ser_exception r);;
    match ser_buf r with
    | None => warn "could not serialize value";; mret None
    | Some s => finish_serialize (Some s) (MEMC_VAL_SET_TYPE flags MEMC_VAL_IS_SERIALIZED)
    end.

(** The [switch] of [s_zval_to_payload]: bytes, flags and whether the type
    leaves compression on. *)
Definition zval_bytes (serializer : Z) (value : zval) (flags : Z)
    : M (option (string * Z * bool)) :=
  match value with
  | ZStr s => mret (Some (zval_get_string value, MEMC_VAL_SET_TYPE flags MEMC_VAL_IS_STRING, true))
  | ZLong l => mret (Some (ldec l, MEMC_VAL_SET_TYPE flags MEMC_VAL_IS_LONG, false))
  | ZDouble d =>
      mret (Some (php_memcached_g_fmt (zend_dtoa d), MEMC_VAL_SET_TYPE flags MEMC_VAL_IS_DOUBLE, false))
  | ZTrue => mret (Some ("1"%string, MEMC_VAL_SET_TYPE flags MEMC_VAL_IS_BOOL, false))
  | ZFalse => mret (Some (""%string, MEMC_VAL_SET_TYPE flags MEMC_VAL_IS_BOOL, false))
  | _ =>
      r ← s_serialize_value serializer value flags;
      match r with
      | None => mret None
      | Some (None, _) => undef (* ZSTR_LEN of a NULL payload *)
      | Some (Some s, flags) => mret (Some (s, flags, true))
      end
  end.

Definition s_zval_to_payload (value : zval) (flags : Z) : M (option (string * Z)) :=
  ud ← gets w_ud;
  g ← gets w_globals;
  r ← zval_bytes (serializer ud) value flags;
  match r with
  | None => mret None
  | Some (payload, flags, compressible) =>
      let should_compress :=
        compression_enabled ud && compressible
        && negb ((zstr_len payload =? 0) || (zstr_len payload <? u64 (g_compression_threshold g))) in
      r ← (if should_compress
           then s_compress_value (compression_type ud) (compression_level ud) payload flags
           else mret (false, payload, flags));
      let '(_, payload, flags) := (r : bool * string * Z) in
      mret (Some (payload,
                  if set_udf_flags ud >=? 0
                  then MEMC_VAL_SET_USER_FLAGS flags (u32 (set_udf_flags ud)) else flags))
  end.

Definition s_is_payload_too_big (payload : string) : M bool :=
  ud ← gets w_ud;
  mret (if item_size_limit ud =? 0 then false
        else zstr_len payload >? u64 (item_size_limit ud)).

(** *** The way back *)

(** The first [n] bytes of a buffer of [n] fresh bytes of which the first ones
    are overwritten. *)
Definition overlay (bytes : string) (n : Z) : string :=
  (bytes ++ string_drop (String.length bytes) (fresh_bytes n))%string.

Definition s_decompress_value (payload : string) (flags : Z) : M (option string) :=
  let is_fastlz := MEMC_VAL_HAS_FLAG flags MEMC_VAL_COMPRESSION_FASTLZ in
  let is_zstd := MEMC_VAL_HAS_FLAG flags MEMC_VAL_COMPRESSION_ZSTD in
  let is_zlib := MEMC_VAL_HAS_FLAG flags MEMC_VAL_COMPRESSION_ZLIB in
  if zstr_len payload <? 4 then mret None
  else if negb HAVE_ZSTD_H && is_zstd then
    warn "could not decompress value: value was compressed with zstd but zstd support has not been compiled in";;
    mret None
  else if negb is_fastlz && negb is_zlib && negb is_zstd then
    warn "could not decompress value: unrecognised compression type";; mret None
  else
    let stored_length := read_le32 payload in
    let payload := string_drop 4 payload in
    r ← (if HAVE_ZSTD_H && is_zstd then
           match ZSTD_getFrameContentSize payload with
           | None => mret (inr "value was not compressed by zstd"%string)
           | Some None => mret (inr "zstd streaming decompression not supported"%string)
           | Some (Some _) => mret (inl ((λ s, overlay s stored_length)
                                         <$> ZSTD_decompress payload stored_length))
           end
         else if is_fastlz then
           if INT_LIMIT <=? zstr_len payload then undef
           else
             match fastlz_decompress (bytes_of_string payload)
                     (Z.to_nat (zstr_len payload)) (s32 stored_length) with
             | Decoded [] | Rejected => mret (inl None)
             | Decoded out => mret (inl (Some (overlay (string_of_bytes out) stored_length)))
             | OutOfBounds => undef
             | FuelOut => no_fuel
             end
         else mret (inl (uncompress payload stored_length)));
    match (r : option string + string) with
    | inr msg => warn msg;; mret None
    | inl None => warn "could not decompress value";; mret None
    | inl (Some buffer) => mret (Some buffer)
    end.

(** [s_unserialize_value]: [None] is its FALSE. *)
Definition s_unserialize_value (val_type : Z) (payload : string) : M (option zval) :=
  if val_type =? MEMC_VAL_IS_SERIALIZED then
    let r := php_var_unserialize payload in
    raise_if (unser_exception r);;
    match unser_value r with
    | Some v => mret (Some v)
    | None => warn "could not unserialize value";; mret None
    end
  else if val_type =? MEMC_VAL_IS_IGBINARY then
    if HAVE_MEMCACHED_IGBINARY then
      let r := igbinary_unserialize payload in
      raise_if (unser_exception r);;
      match unser_value r with
      | Some v => mret (Some v)
      | None => warn "could not unserialize value with igbinary";; mret None
      end
    else warn "could not unserialize value, no igbinary support";; mret None
  else if val_type =? MEMC_VAL_IS_JSON then
    if HAVE_JSON_API then
      ud ← gets w_ud;
      let r := php_json_decode (serializer ud =? SERIALIZER_JSON_ARRAY) payload in
      raise_if (unser_exception r);;
      mret (Some (default ZNull (unser_value r)))
    else warn "could not unserialize value, no json support";; mret None
  else if val_type =? MEMC_VAL_IS_MSGPACK then
    if HAVE_MEMCACHED_MSGPACK then
      let r := php_msgpack_unserialize payload in
      raise_if (unser_exception r);;
      mret (Some (default ZNull (unser_value r)))
    else warn "could not unserialize value, no msgpack support";; mret None
  else undef. (* the value would stay uninitialised; no caller gets here *)

Definition double_of_payload (data : string) : double :=
  if String.eqb data "Infinity" then S754_infinity false
  else if String.eqb data "-Infinity" then S754_infinity true
  else if String.eqb data "NaN" then S754_nan
  else zend_strtod data.

Definition payload_to_zval (payload_len flags : Z) (data : string) : M (option zval) :=
  let type := MEMC_VAL_GET_TYPE flags in
  if type =? MEMC_VAL_IS_STRING then mret (Some (ZStr data))
  else if type =? MEMC_VAL_IS_LONG then mret (Some (ZLong (strtol 10 data).1.1.1))
  else if type =? MEMC_VAL_IS_DOUBLE then mret (Some (ZDouble (double_of_payload data)))
  else if type =? MEMC_VAL_IS_BOOL then
    mret (Some (ZBool ((payload_len >? 0)
                       && match data with String c _ => Ascii.eqb c "1" | EmptyString => false end)))
  else if (type =? MEMC_VAL_IS_SERIALIZED) || (type =? MEMC_VAL_IS_IGBINARY)
          || (type =? MEMC_VAL_IS_JSON) || (type =? MEMC_VAL_IS_MSGPACK)
  then s_unserialize_value type data
  else warn "unknown payload type";; mret None.

(** [s_memcached_result_to_zval]: [None] is its FALSE. *)
Definition s_memcached_result_to_zval (result : memcached_result) : M (option zval) :=
  let flags := result_flags result in
  match result_value result with
  | NullValue len =>
      if len >? 0 then warn "Could not handle non-existing value of length %zu";; mret None
      else if MEMC_VAL_HAS_FLAG flags MEMC_VAL_COMPRESSED
      then r ← s_decompress_value "" flags;
           match r with None => mret None | Some data => payload_to_zval len flags data end
      else payload_to_zval len flags ""
  | Bytes payload =>
      if MEMC_VAL_HAS_FLAG flags MEMC_VAL_COMPRESSED
      then r ← s_decompress_value payload flags;
           match r with
           | None => mret None
           | Some data => payload_to_zval (zstr_len payload) flags data
           end
      else payload_to_zval (zstr_len payload) flags payload
  end.
End Compress.
