(* ===== verification/PayloadProofs.v ===== *)
(** * Payloads: the buffer is large enough, and the round trip *)

From Stdlib Require Import Floats.SpecFloat.
From S2P Require Import Prelude CLib Flags Zend GFmt LibMemcached World Toy DoubleBounds FastLZ FastLZProofs FastLZRoundTrip Payload.
#[local] Open Scope Z_scope.
#[local] Arguments String.append !_ _ / : simpl nomatch.

(** ** The compression buffer *)

Lemma double_to_size_ge lo hi d k :
  -200 <= lo → normal lo hi d → k * 2 ^ 200 <= scaled d → k <= double_to_size d.
Proof.
  destruct d as [| | |[] m e]; try done. intros Hlo [_ He]. cbn [scaled double_to_size].
  intros Hk. destruct (Z.leb_spec 0 e).
  - replace (e + 200) with (e + 200) by lia. rewrite Z.pow_add_r in Hk by lia.
    assert (0 < 2 ^ 200) by lia. nia.
  - apply Z.div_le_lower_bound; [apply Z.pow_pos_nonneg; lia|].
    replace 200 with (- e + (e + 200)) in Hk at 1 by lia.
    rewrite Z.pow_add_r in Hk by lia.
    assert (0 < 2 ^ (e + 200)) by (apply Z.pow_pos_nonneg; lia). nia.
Qed.

Lemma compress_buffer_size_fits' len :
  0 < len < 2 ^ 32 → len + len / 32 + 1 <= compress_buffer_size len.
Proof.
  intros Hlen. unfold compress_buffer_size.
  destruct (double_of_Z_scaled len) as [Hn Hsn]; [lia|].
  assert (normal (-52) (-52) double_1_05 ∧ scaled double_1_05 = 4728779608739021 * 2 ^ 148)
    as [Hc Hsc] by (vm_compute; repeat split; discriminate).
  assert (normal (-52) (-52) (double_of_Z 1) ∧ scaled (double_of_Z 1) = 2 ^ 200)
    as [H1 Hs1] by (vm_compute; repeat split; discriminate).
  destruct (dmul_scaled _ _ _ _ _ _ Hn Hc) as [Hm Hsm]; [lia..|].
  destruct (dadd_scaled (dmul (double_of_Z len) double_1_05) (double_of_Z 1)) as [Ha Hsa];
    [eapply normal_mono; [| |exact Hm]; lia|eapply normal_mono; [| |exact H1]; lia|].
  eapply (double_to_size_ge (-150) 800); [lia|exact Ha|].
  rewrite Hs1, Hsc in *.
  pose proof (Z.mul_div_le len 32). generalize dependent (len / 32). intros q Hq.
  revert Hsa Hsm Hsn. generalize (scaled (dadd (dmul (double_of_Z len) double_1_05) (double_of_Z 1))).
  generalize (scaled (dmul (double_of_Z len) double_1_05)) (scaled (double_of_Z len)).
  clear -Hlen Hq. intros n m d. change (2 ^ 252) with (2 ^ 52 * (2 ^ 52 * 2 ^ 148)).
  change (2 ^ 200) with (2 ^ 52 * 2 ^ 148). intros. lia.
Qed.

(** fastlz.h asks for an output buffer of at least 66 bytes; below 62 bytes of
    payload the one computed here is smaller. *)
Lemma compress_buffer_size_small len : 0 < len < 62 → compress_buffer_size len < 66.
Proof.
  intros Hlen. assert (Forall (λ len, compress_buffer_size len < 66) (seqZ 1 61)) as Hall.
  { apply (bool_decide_unpack _). vm_compute. exact I. }
  rewrite Forall_forall in Hall. apply Hall, elem_of_seqZ. lia.
Qed.

(** The compressor on a payload, in the buffer made for it. *)
Lemma fastlz_in_its_buffer s :
  zstr_len s < 2 ^ 31 →
  ∃ c, fastlz_compress (bytes_of_string s ++ [0]) (Z.to_nat (zstr_len s))
         (Z.to_nat (compress_buffer_size (zstr_len s))) = Some c
    ∧ Z.of_nat (length c) <= compress_buffer_size (zstr_len s).
Proof.
  intros Hs. destruct (Z.eq_dec (zstr_len s) 0) as [E|E].
  { rewrite E. exists []. split; [reflexivity|]. vm_compute. discriminate. }
  assert (0 < zstr_len s) by (unfold zstr_len in *; lia).
  pose proof (compress_buffer_size_fits' (zstr_len s) ltac:(lia)) as Hfit.
  assert (length (bytes_of_string s) = Z.to_nat (zstr_len s)) as Hl
    by (unfold zstr_len; rewrite length_bytes_of_string; lia).
  assert (Z.of_nat (Z.to_nat (zstr_len s) / 32) = zstr_len s / 32) as Hdiv
    by (rewrite Nat2Z.inj_div; f_equal; lia).
  destruct (fastlz_round_trip' (bytes_of_string s ++ [0]) (Z.to_nat (zstr_len s))
    (Z.to_nat (compress_buffer_size (zstr_len s)))) as (c & Hc & _ & Hlc & _); [|lia|lia| |lia|].
  - apply Forall_app. split; [apply bytes_of_string_u8|].
    apply Forall_singleton. unfold is_u8. lia.
  - rewrite length_app, Hl. unfold fastlz_slack. case_match; simpl; lia.
  - exists c. split; [exact Hc|]. lia.
Qed.

(** C31: the "additional 5%" of [s_compress_value] is enough for FastLZ.  For every
    payload FastLZ takes, the compressor writes its result inside the buffer of
    the size computed in doubles, rounding included, so that [s_compress_value]
    returns.  That holds although fastlz.h asks for at least 66 bytes, which
    payloads of 1 to 61 bytes do not get. *)
Theorem compressor_fits_its_buffer {MC} `{ZendRuntime} `{BuildConfig} s level flags (w : world MC) :
  zstr_len s < 2 ^ 31 →
  (∃ c, fastlz_compress (bytes_of_string s ++ [0]) (Z.to_nat (zstr_len s))
          (Z.to_nat (compress_buffer_size (zstr_len s))) = Some c
     ∧ Z.of_nat (length c) <= compress_buffer_size (zstr_len s))
  ∧ (∃ r, s_compress_value COMPRESSION_TYPE_FASTLZ level s flags w = Ret r w)
  ∧ (0 < zstr_len s < 62 → compress_buffer_size (zstr_len s) < 66).
Proof.
  intros Hs. destruct (fastlz_in_its_buffer s Hs) as (c & Hc & Hlc).
  split; [by exists c|]. split; [|apply compress_buffer_size_small].
  unfold s_compress_value. change (COMPRESSION_TYPE_FASTLZ =? COMPRESSION_TYPE_FASTLZ) with true.
  cbv iota. replace (INT_LIMIT <=? zstr_len s) with false by (unfold INT_LIMIT; lia).
  rewrite Hc. mrun. case_match; by eexists.
Qed.

Lemma compressor_fits_its_buffer_witness :
  (∃ c, fastlz_compress (bytes_of_string "sixteen or more bytes" ++ [0]) 21 23 = Some c
        ∧ Z.of_nat (length c) <= 23)
  ∧ ∃ r, s_compress_value (MC := toy) COMPRESSION_TYPE_FASTLZ 3 "sixteen or more bytes" 0
           (toy_world toy_new) = Ret r (toy_world toy_new).
Proof.
  destruct (compressor_fits_its_buffer (MC := toy) "sixteen or more bytes" 3 0 (toy_world toy_new))
    as (Hc & Hr & _); [vm_compute; reflexivity|].
  split; [exact Hc|exact Hr].
Defined.

(** ** Little-endian length words *)

Lemma bytes_of_string_app' s t : bytes_of_string (s ++ t) = bytes_of_string s ++ bytes_of_string t.
Proof. apply bytes_of_string_app. Qed.

Lemma length_le32 z : String.length (le32 z) = 4%nat.
Proof.
  rewrite <- length_bytes_of_string. unfold le32. rewrite bytes_of_string_of_bytes; [done|].
  repeat (apply List.Forall_cons; [apply u8_range|]). apply List.Forall_nil.
Qed.

Lemma read_le32_le32 z s : is_u32 z → read_le32 (le32 z ++ s) = z.
Proof.
  unfold is_u32, read_le32. intros Hz. rewrite bytes_of_string_app. unfold le32.
  rewrite bytes_of_string_of_bytes
    by (repeat (apply List.Forall_cons; [apply u8_range|]); apply List.Forall_nil).
  simpl. unfold u8. rewrite !Z.shiftr_div_pow2 by lia.
  change (2 ^ 8) with 256. change (2 ^ 16) with 65536. change (2 ^ 24) with 16777216.
  change (2 ^ 32) with 4294967296 in Hz. dlia.
Qed.

Lemma string_drop_app s t : string_drop (String.length s) (s ++ t) = t.
Proof. induction s as [|c s IH]; [by destruct t|]. exact IH. Qed.

Lemma string_drop_all n s : (String.length s <= n)%nat → string_drop n s = EmptyString.
Proof.
  revert s. induction n as [|n IH]; intros s Hs; destruct s; simpl in *; try done; try lia.
  apply IH. lia.
Qed.

(** A buffer that is overwritten in full holds what was written. *)
Lemma overlay_full `{ZendLaws} s n : zstr_len s = n → overlay s n = s.
Proof.
  intros <-. unfold overlay. rewrite string_drop_all; [apply string_app_nil_r|].
  assert (0 <= zstr_len s) as Hs by (unfold zstr_len; lia).
  pose proof (fresh_bytes_length (zstr_len s) Hs) as Hf. unfold zstr_len in *. lia.
Qed.

(** ** What a value is stored as, and read back as *)

(** The laws of the compression libraries that [s_compress_value] relies on. *)
Class CompressionLaws `{ZendRuntime} : Prop := {
  compress2_room level s room c : compress2 level s room = Some c → zstr_len c <= room;
  uncompress_compress2 level s room c n :
    compress2 level s room = Some c → zstr_len s <= n → uncompress c n = Some s;
  ZSTD_frame_size level s room c :
    ZSTD_compress level s room = Some c → ZSTD_getFrameContentSize c = Some (Some (zstr_len s));
  ZSTD_decompress_compress level s room c n :
    ZSTD_compress level s room = Some c → zstr_len s <= n → ZSTD_decompress c n = Some s
}.

#[export] Instance ToyCompressionLaws : CompressionLaws.
Proof.
  constructor; try done.
  - intros lvl s room c. destruct s as [|x s]; [done|]. cbn [compress2 ToyZend]. unfold toy_compress.
    destruct (_ && _) eqn:E; [|done]. intros [= <-].
    apply andb_true_iff in E as [_ E]. lia.
  - intros lvl. exact toy_expand_compress.
Qed.

(** [zend_dtoa] and [zend_strtod] agree on [d]: the digits are digits, and any
    numeral for the same number is read as [d]. *)
Definition double_readable `{ZendRuntime} (d : double) : Prop :=
  match d with
  | S754_nan => zend_dtoa d = mkDtoa "NaN" 9999 false
  | S754_infinity s => zend_dtoa d = mkDtoa "Infinity" 9999 s
  | _ =>
      let r := zend_dtoa d in
      all_digits (dtoa_digits r) ∧ dtoa_digits r ≠ ""%string ∧ dtoa_decpt r ≠ 9999 ∧
      ∀ s m e, read_decimal s = Some (dtoa_sign r, m, e) →
        same_decimal m e (digits_value (dtoa_digits r)) (dtoa_decpt r - zstr_len (dtoa_digits r)) →
        zend_strtod s = d
  end.

Section RoundTrip.
Context `{ZendLaws} `{BuildConfig}.

(** The serializer a setting selects in this build, and its inverse. *)
Definition selected_serializer (ser : Z) (v : zval) : ser_result :=
  if HAVE_MEMCACHED_IGBINARY && (ser =? SERIALIZER_IGBINARY) then igbinary_serialize v
  else if HAVE_JSON_API && ((ser =? SERIALIZER_JSON) || (ser =? SERIALIZER_JSON_ARRAY))
  then php_json_encode v
  else if HAVE_MEMCACHED_MSGPACK && (ser =? SERIALIZER_MSGPACK) then php_msgpack_serialize v
  else php_var_serialize v.

Definition selected_unserializer (ser : Z) (s : string) : unser_result :=
  if HAVE_MEMCACHED_IGBINARY && (ser =? SERIALIZER_IGBINARY) then igbinary_unserialize s
  else if HAVE_JSON_API && ((ser =? SERIALIZER_JSON) || (ser =? SERIALIZER_JSON_ARRAY))
  then php_json_decode (ser =? SERIALIZER_JSON_ARRAY) s
  else if HAVE_MEMCACHED_MSGPACK && (ser =? SERIALIZER_MSGPACK) then php_msgpack_unserialize s
  else php_var_unserialize s.

Definition selected_type (ser : Z) : Z :=
  if HAVE_MEMCACHED_IGBINARY && (ser =? SERIALIZER_IGBINARY) then MEMC_VAL_IS_IGBINARY
  else if HAVE_JSON_API && ((ser =? SERIALIZER_JSON) || (ser =? SERIALIZER_JSON_ARRAY))
  then MEMC_VAL_IS_JSON
  else if HAVE_MEMCACHED_MSGPACK && (ser =? SERIALIZER_MSGPACK) then MEMC_VAL_IS_MSGPACK
  else MEMC_VAL_IS_SERIALIZED.

(** [spells ser v type bytes comp v']: the specification of the storage format.
    Under serializer [ser] the value [v] is the bytes [bytes] with the type
    [type], may be compressed if [comp], and is read back as [v']. *)
Inductive spells (ser : Z) : zval → Z → string → bool → zval → Prop :=
| spells_string s : spells ser (ZStr s) MEMC_VAL_IS_STRING s true (ZStr s)
| spells_long l : is_long l → spells ser (ZLong l) MEMC_VAL_IS_LONG (ldec l) false (ZLong l)
| spells_double d :
    double_readable d →
    spells ser (ZDouble d) MEMC_VAL_IS_DOUBLE (php_memcached_g_fmt (zend_dtoa d)) false (ZDouble d)
| spells_true : spells ser ZTrue MEMC_VAL_IS_BOOL "1" false ZTrue
| spells_false : spells ser ZFalse MEMC_VAL_IS_BOOL "" false ZFalse
| spells_other v s v' :
    match v with ZNull | ZArr _ | ZObj _ => True | _ => False end →
    selected_serializer ser v = mkSer (Some s) false →
    selected_unserializer ser s = mkUnser (Some v') false →
    spells ser v (selected_type ser) s true v'.

Lemma raise_if_false {MC} (w : world MC) : raise_if false w = Ret tt w.
Proof.
  unfold raise_if, modify, with_exception. rewrite orb_false_r. by destruct w.
Qed.

(** The bytes of a value. *)
Lemma zval_bytes_spells {MC} ser v type s comp v' (w : world MC) :
  spells ser v type s comp v' → w_exception w = false →
  zval_bytes ser v 0 w = Ret (Some (s, MEMC_VAL_SET_TYPE 0 type, comp)) w.
Proof.
  intros Hs Hx. destruct Hs as [s|l Hl|d Hd| | |v s v' Hv Hser Hun]; try done.
  - cbn [zval_bytes]. by rewrite zval_get_string_str.
  - assert (s_serialize_value ser v 0 w
            = Ret (Some (Some s, MEMC_VAL_SET_TYPE 0 (selected_type ser))) w) as E.
    { unfold s_serialize_value, selected_serializer, selected_type in *.
      destruct (HAVE_MEMCACHED_IGBINARY && _); [|destruct (HAVE_JSON_API && _);
        [|destruct (HAVE_MEMCACHED_MSGPACK && _)]];
        rewrite Hser; cbn [ser_exception ser_buf];
        unfold mbind, M_bind; rewrite raise_if_false; unfold finish_serialize; mrun;
        by rewrite Hx. }
    destruct v; try done; cbn [zval_bytes]; unfold mbind, M_bind; by rewrite E.
Qed.

Lemma strtod_g_fmt d :
  double_readable d → double_of_payload (php_memcached_g_fmt (zend_dtoa d)) = d.
Proof.
  intros Hd. destruct d as [s|s| |s m e]; cbn [double_readable] in Hd;
    try (rewrite Hd; by try destruct s).
  all: destruct Hd as (Hds & Hne & H9 & Hrd);
    destruct (zend_dtoa _) as [ds decpt sgn]; simpl in *;
    destruct (g_fmt_denotes_dtoa ds decpt sgn Hds Hne H9) as (m' & e' & Hr & Hsame);
    unfold double_of_payload;
    repeat (match goal with |- context [String.eqb ?x ?y] =>
      destruct (String.eqb_spec x y) as [E|_]; [rewrite E in Hr; done|] end);
    by eapply Hrd.
Qed.

(** Bytes and type give the value back. *)
Lemma payload_to_zval_spells {MC} ser v type s comp v' (w : world MC) flags len :
  spells ser v type s comp v' → serializer (w_ud w) = ser →
  MEMC_VAL_GET_TYPE flags = type → (zstr_len s > 0 → len > 0) →
  payload_to_zval len flags s w = Ret (Some v') w.
Proof.
  intros Hs Hser Hty Hlen. unfold payload_to_zval. rewrite Hty.
  destruct Hs as [s|l Hl|d Hd| | |v s v' Hv Hse Hun]; try done.
  - cbn. by rewrite strtol_ldec.
  - cbn. by rewrite strtod_g_fmt.
  - cbn. rewrite andb_true_r. replace (len >? 0) with true; [done|].
    symmetry. apply Z.gtb_lt. assert (zstr_len "1" > 0) by done. lia.
  - cbn. by rewrite andb_false_r.
  - unfold selected_type, selected_unserializer in *. unfold s_unserialize_value.
    destruct (HAVE_MEMCACHED_IGBINARY && _) eqn:E1; [|destruct (HAVE_JSON_API && _) eqn:E2;
      [|destruct (HAVE_MEMCACHED_MSGPACK && _) eqn:E3]];
      try (apply andb_true_iff in E1 as [-> _]); try (apply andb_true_iff in E2 as [-> _]);
      try (apply andb_true_iff in E3 as [-> _]); cbn;
      unfold mbind, M_bind, gets; cbv beta iota; rewrite ?Hser, ?Hun;
      cbn [unser_exception unser_value]; by rewrite raise_if_false.
Qed.

(** ** Compression is undone *)

(** [p] with the compression flags [fl] is [s]. *)
Definition expands_to (p : string) (fl : Z) (s : string) : Prop :=
  ∀ MC flags (w : world MC), MEMC_VAL_GET_FLAGS flags = fl →
    MEMC_VAL_HAS_FLAG flags MEMC_VAL_COMPRESSED = true
    ∧ s_decompress_value p flags w = Ret (Some s) w.

Lemma has_flag_of flags fl x :
  MEMC_VAL_GET_FLAGS flags = fl → MEMC_VAL_HAS_FLAG flags x = (Z.land fl x =? x).
Proof. intros <-. done. Qed.

Lemma expand_header s p :
  zstr_len s < 2 ^ 32 →
  (zstr_len (le32 (u32 (zstr_len s)) ++ p) <? 4) = false
  ∧ read_le32 (le32 (u32 (zstr_len s)) ++ p) = zstr_len s
  ∧ string_drop 4 (le32 (u32 (zstr_len s)) ++ p) = p.
Proof.
  intros Hs. assert (is_u32 (zstr_len s)) as Hu by (unfold is_u32, zstr_len in *; lia).
  rewrite u32_id by done. split; [|split].
  - unfold zstr_len. rewrite string_length_app, length_le32. apply Z.ltb_ge. lia.
  - by apply read_le32_le32.
  - rewrite <- (length_le32 (zstr_len s)). apply string_drop_app.
Qed.

Lemma expand_fastlz s c :
  0 < zstr_len s < 2 ^ 30 → Forall is_u8 c → Z.of_nat (length c) < 2 ^ 31 →
  fastlz_decompress c (length c) (zstr_len s) = Decoded (bytes_of_string s) →
  expands_to (le32 (u32 (zstr_len s)) ++ string_of_bytes c)
    (Z.lor MEMC_VAL_COMPRESSED MEMC_VAL_COMPRESSION_FASTLZ) s.
Proof.
  intros Hs Hc Hlc Hd MC flags w Hf. rewrite (has_flag_of _ _ MEMC_VAL_COMPRESSED Hf).
  split; [done|]. unfold s_decompress_value.
  destruct (expand_header s (string_of_bytes c)) as (-> & -> & ->); [lia|].
  rewrite !(has_flag_of _ _ _ Hf). cbn -[read_le32 fastlz_decompress s32].
  rewrite !andb_false_r. cbn [negb andb].
  assert (zstr_len (string_of_bytes c) = Z.of_nat (length c)) as Hl.
  { unfold zstr_len. rewrite <- length_bytes_of_string, bytes_of_string_of_bytes by done. done. }
  rewrite bytes_of_string_of_bytes by done. rewrite Hl, Nat2Z.id.
  assert (s32 (zstr_len s) = zstr_len s) as ->
    by (unfold s32, signed; rewrite Z.mod_small; lia).
  replace (INT_LIMIT <=? Z.of_nat (length c)) with false by (unfold INT_LIMIT; lia).
  rewrite Hd. destruct (bytes_of_string s) as [|b bs] eqn:Eb.
  { apply (f_equal length) in Eb. rewrite length_bytes_of_string in Eb.
    unfold zstr_len in Hs. simpl in Eb. lia. }
  rewrite <- Eb, string_of_bytes_of_string. rewrite overlay_full by done. done.
Qed.

Lemma compress_fastlz {MC} s level flags (w : world MC) :
  0 < zstr_len s < 2 ^ 30 →
  ∃ c, fastlz_compress (bytes_of_string s ++ [0]) (Z.to_nat (zstr_len s))
         (Z.to_nat (compress_buffer_size (zstr_len s))) = Some c
    ∧ expands_to (le32 (u32 (zstr_len s)) ++ string_of_bytes c)
        (Z.lor MEMC_VAL_COMPRESSED MEMC_VAL_COMPRESSION_FASTLZ) s
    ∧ s_compress_value COMPRESSION_TYPE_FASTLZ level s flags w
      = Ret (if negb (bool_decide (c = []))
                && negb (SFleb (double_of_Z (zstr_len s))
                           (dmul (double_of_Z (Z.of_nat (length c)))
                              (g_compression_factor (w_globals w))))
             then (true, (le32 (u32 (zstr_len s)) ++ string_of_bytes c)%string,
                   MEMC_VAL_SET_FLAG flags (Z.lor MEMC_VAL_COMPRESSED MEMC_VAL_COMPRESSION_FASTLZ))
             else (false, s, flags)) w.
Proof.
  intros Hs. pose proof (compress_buffer_size_fits' (zstr_len s)) as Hfit.
  assert (length (bytes_of_string s) = Z.to_nat (zstr_len s)) as Hl
    by (unfold zstr_len; rewrite length_bytes_of_string; lia).
  destruct (fastlz_round_trip' (bytes_of_string s ++ [0]) (Z.to_nat (zstr_len s))
    (Z.to_nat (compress_buffer_size (zstr_len s)))) as (c & Hc & Hu & Hlc & Hd).
  - apply Forall_app. split; [apply bytes_of_string_u8|].
    apply Forall_singleton. unfold is_u8. lia.
  - lia.
  - lia.
  - rewrite length_app, Hl. unfold fastlz_slack. case_match; simpl; lia.
  - specialize (Hfit ltac:(lia)).
    assert (Z.of_nat (Z.to_nat (zstr_len s) / 32) = zstr_len s / 32)
      by (rewrite Nat2Z.inj_div; f_equal; lia). lia.
  - exists c. split; [done|].
    assert (Z.of_nat (length c) < 2 ^ 31).
    { assert (Z.of_nat (Z.to_nat (zstr_len s) / 32) <= zstr_len s)
        by (rewrite Nat2Z.inj_div; rewrite Z2Nat.id by lia; dlia). lia. }
    split.
    + apply expand_fastlz; try done.
      rewrite Hd by lia. by rewrite <- Hl, take_app_length.
    + unfold s_compress_value. change (COMPRESSION_TYPE_FASTLZ =? COMPRESSION_TYPE_FASTLZ) with true.
      cbv iota. replace (INT_LIMIT <=? zstr_len s) with false by (unfold INT_LIMIT; lia).
      rewrite Hc. mrun. by case_match.
Qed.

Lemma expand_other s c fl :
  zstr_len s < 2 ^ 32 →
  fl = Z.lor MEMC_VAL_COMPRESSED MEMC_VAL_COMPRESSION_ZLIB ∧ uncompress c (zstr_len s) = Some s
  ∨ fl = Z.lor MEMC_VAL_COMPRESSED MEMC_VAL_COMPRESSION_ZSTD ∧ HAVE_ZSTD_H = true
    ∧ (∃ n, ZSTD_getFrameContentSize c = Some (Some n))
    ∧ ZSTD_decompress c (zstr_len s) = Some s →
  expands_to (le32 (u32 (zstr_len s)) ++ c) fl s.
Proof.
  intros Hs Hfl MC flags w Hf. rewrite (has_flag_of _ _ MEMC_VAL_COMPRESSED Hf).
  unfold s_decompress_value. destruct (expand_header s c Hs) as (-> & -> & ->).
  rewrite !(has_flag_of _ _ _ Hf).
  destruct Hfl as [[-> Hu] | (-> & -> & [n Hn] & Hd)]; (split; [done|]);
    cbn -[read_le32 fastlz_decompress s32]; rewrite ?andb_false_r; cbv iota; mrun.
  - by rewrite Hu.
  - rewrite Hn, Hd. simpl. by rewrite overlay_full.
Qed.

(** Whatever the compression setting, the bytes left are the payload itself or
    expand to it. *)
Lemma compress_value_spec {MC} `{!CompressionLaws} ctype level s flags (w : world MC) :
  0 < zstr_len s < 2 ^ 30 →
  ∃ st p f, s_compress_value ctype level s flags w = Ret (st, p, f) w ∧
    ((p = s ∧ f = flags)
     ∨ ∃ fl, f = MEMC_VAL_SET_FLAG flags fl ∧ fl mod 2 ^ 12 = fl ∧ expands_to p fl s).
Proof.
  intros Hs. destruct (decide (ctype = COMPRESSION_TYPE_FASTLZ)) as [->|Hf].
  { destruct (compress_fastlz s level flags w Hs) as (c & _ & Hx & ->).
    case_match; eexists _, _, _; (split; [done|]); [right|by left]. by eexists. }
  unfold s_compress_value. mrun.
  replace (ctype =? COMPRESSION_TYPE_FASTLZ) with false by (symmetry; by apply Z.eqb_neq).
  destruct (HAVE_ZSTD_H && _) eqn:Ez; [|destruct (ctype =? COMPRESSION_TYPE_ZLIB)].
  - apply andb_true_iff in Ez as [Ez _].
    destruct (ZSTD_compress level s _) as [c|] eqn:Ec; [|by eexists _, _, _; auto].
    cbv beta iota. destruct (SFleb _ _); eexists _, _, _; (split; [done|]); [by left|right].
    eexists. split; [done|]. split; [done|]. apply expand_other; [lia|]. right.
    split; [done|]. split; [done|]. split; [by eexists; eapply ZSTD_frame_size|].
    by eapply ZSTD_decompress_compress.
  - destruct (compress2 _ s _) as [c|] eqn:Ec; [|by eexists _, _, _; auto].
    cbv beta iota. destruct (SFleb _ _); eexists _, _, _; (split; [done|]); [by left|right].
    eexists. split; [done|]. split; [done|]. apply expand_other; [lia|]. left.
    split; [done|]. by eapply uncompress_compress2.
  - cbv beta iota. eexists _, _, _. split; [done|]. by left.
Qed.

(** The flag word a payload is stored with. *)
Definition stored_flags (type fl : Z) (ud : php_memc_user_data_t) : Z :=
  let f := MEMC_VAL_SET_FLAG (MEMC_VAL_SET_TYPE 0 type) fl in
  if set_udf_flags ud >=? 0 then MEMC_VAL_SET_USER_FLAGS f (u32 (set_udf_flags ud)) else f.

Lemma spells_type {ser v type s comp v'} :
  spells ser v type s comp v' → 0 <= type < 16.
Proof.
  intros []; unfold selected_type; repeat case_match; vm_compute; intuition discriminate.
Qed.

Lemma stored_flags_fields type fl ud :
  0 <= type < 16 → fl mod 2 ^ 12 = fl →
  is_u32 (stored_flags type fl ud)
  ∧ MEMC_VAL_GET_TYPE (stored_flags type fl ud) = type
  ∧ MEMC_VAL_GET_FLAGS (stored_flags type fl ud) = fl
  ∧ MEMC_VAL_GET_USER_FLAGS (stored_flags type fl ud)
    = (if set_udf_flags ud >=? 0 then set_udf_flags ud mod 2 ^ 16 else 0).
Proof.
  intros Ht Hfl. unfold stored_flags.
  assert (is_u32 (MEMC_VAL_SET_FLAG (MEMC_VAL_SET_TYPE 0 type) fl)) as Hu
    by (apply set_flag_u32, set_type_u32; unfold is_u32; lia).
  destruct (set_udf_flags ud >=? 0); autorewrite with memc_rw.
  - split; [by apply set_user_u32|]. rewrite Z.mod_small by lia.
    split; [done|]. split; [done|].
    change (Z.lor (MEMC_VAL_GET_USER_FLAGS 0) (u32 (set_udf_flags ud) mod 2 ^ 16))
      with (u32 (set_udf_flags ud) mod 2 ^ 16).
    unfold u32. dlia.
  - split; [done|]. rewrite Z.mod_small by lia. by split.
Qed.

(** What [s_zval_to_payload] leaves for a value that spells [s]. *)
Lemma zval_to_payload_spells {MC} `{!CompressionLaws} v type s comp v' (w : world MC) :
  spells (serializer (w_ud w)) v type s comp v' → zstr_len s < 2 ^ 30 →
  w_exception w = false →
  ∃ payload fl, s_zval_to_payload v 0 w = Ret (Some (payload, stored_flags type fl (w_ud w))) w
    ∧ fl mod 2 ^ 12 = fl ∧ (payload = s ∧ fl = 0 ∨ expands_to payload fl s ∧ 0 < zstr_len s).
Proof.
  intros Hs Hlen Hx. unfold s_zval_to_payload. rewrite !gets_bind.
  rewrite (bind_Ret _ _ _ _ _ (zval_bytes_spells _ _ _ _ _ _ w Hs Hx)).
  set (f0 := MEMC_VAL_SET_TYPE 0 type).
  assert (∀ ud, (if set_udf_flags ud >=? 0
                 then MEMC_VAL_SET_USER_FLAGS f0 (u32 (set_udf_flags ud)) else f0)
                = stored_flags type 0 ud) as Hsf.
  { intros ud. unfold stored_flags, MEMC_VAL_SET_FLAG. by rewrite Z.lor_0_r. }
  destruct (compression_enabled _ && comp && _) eqn:Ec.
  - apply andb_true_iff in Ec as [_ Ec]. apply negb_true_iff, orb_false_iff in Ec as [Ec _].
    assert (0 < zstr_len s) by (unfold zstr_len in *; lia).
    destruct (compress_value_spec (compression_type (w_ud w)) (compression_level (w_ud w)) s f0 w)
      as (st & p & f & E & Hp); [lia|].
    rewrite (bind_Ret _ _ _ _ _ E). destruct Hp as [[-> ->] | (fl & -> & Hfl & Hexp)].
    + exists s, 0. rewrite Hsf. auto.
    + exists p, fl. split; [done|]. auto.
  - exists s, 0. mrun. rewrite Hsf. auto.
Qed.

Lemma result_to_zval_spells {MC} v type s comp v' ud (w : world MC) payload fl key cas :
  spells (serializer ud) v type s comp v' → serializer (w_ud w) = serializer ud →
  fl mod 2 ^ 12 = fl → (payload = s ∧ fl = 0 ∨ expands_to payload fl s ∧ 0 < zstr_len s) →
  s_memcached_result_to_zval (mkResult key (Bytes payload) (stored_flags type fl ud) cas) w
  = Ret (Some v') w.
Proof.
  intros Hs Hser Hfl Hp. pose proof (spells_type Hs) as Hty.
  destruct (stored_flags_fields type fl ud Hty Hfl) as (_ & Ht & Hf & _).
  unfold s_memcached_result_to_zval. cbn [result_value result_flags].
  destruct Hp as [[-> ->] | [Hexp Hpos]].
  - rewrite (has_flag_of _ _ MEMC_VAL_COMPRESSED Hf). cbn [Z.land Z.eqb].
    by eapply payload_to_zval_spells.
  - destruct (Hexp _ _ w Hf) as [-> E]. rewrite (bind_Ret _ _ _ _ _ E).
    eapply payload_to_zval_spells; [done|done|done|]. intros _.
    destruct (Z.lt_ge_cases 3 (zstr_len payload)) as [|Hshort]; [lia|].
    unfold s_decompress_value in E. replace (zstr_len payload <? 4) with true in E by lia. done.
Qed.
End RoundTrip.

(** C2: values survive the trip through an item.  Take any value the storage
    format spells ([spells]: strings, integers, doubles the engine reads back,
    booleans, and what the configured serializer restores) of up to 1 GiB, under
    any compression setting.  [s_zval_to_payload] succeeds without a warning and
    without touching the object; the flag word is a 32-bit word with the type and
    the user flags in their fields; and any handle with the same serializer
    setting reads the item back as that value, again without a warning. *)
Theorem payload_round_trip {MC} `{ZendLaws} `{!CompressionLaws} `{BuildConfig}
    v type s comp v' (w : world MC) :
  spells (serializer (w_ud w)) v type s comp v' → zstr_len s < 2 ^ 30 → w_exception w = false →
  ∃ payload flags,
    s_zval_to_payload v 0 w = Ret (Some (payload, flags)) w
    ∧ is_u32 flags ∧ MEMC_VAL_GET_TYPE flags = type
    ∧ MEMC_VAL_GET_USER_FLAGS flags
      = (if set_udf_flags (w_ud w) >=? 0 then set_udf_flags (w_ud w) mod 2 ^ 16 else 0)
    ∧ ∀ MC' (w' : world MC') key cas,
        serializer (w_ud w') = serializer (w_ud w) →
        s_memcached_result_to_zval (mkResult key (Bytes payload) flags cas) w' = Ret (Some v') w'.
Proof.
  intros Hs Hlen Hx.
  destruct (zval_to_payload_spells v type s comp v' w Hs Hlen Hx) as (p & fl & E & Hfl & Hp).
  pose proof (spells_type Hs) as Hty.
  destruct (stored_flags_fields type fl (w_ud w) Hty Hfl) as (Hu & Ht & _ & Hus).
  exists p, (stored_flags type fl (w_ud w)). do 4 (split; [done|]).
  intros MC' w' key cas Hser. by eapply result_to_zval_spells.
Qed.

(** The toy engine reads 5.0 back. *)
Lemma toy_five_readable : double_readable (double_of_Z 5).
Proof.
  assert (zend_dtoa (double_of_Z 5) = mkDtoa "5" 1 false) as E by (vm_compute; reflexivity).
  assert (double_of_Z 5 = S754_finite false 5629499534213120 (-50)) as Ed
    by (vm_compute; reflexivity).
  rewrite Ed in E |- *. cbn [double_readable]. rewrite E. cbn [dtoa_digits dtoa_decpt dtoa_sign].
  split; [|split; [done|split; [done|]]].
  { apply List.Forall_cons; [by eexists|]. apply List.Forall_nil. }
  intros s m e Hr Hsame. cbn [zend_strtod ToyZend]. unfold toy_strtod. rewrite Hr.
  unfold same_decimal in Hsame. change (digits_value "5") with 5 in Hsame.
  change (1 - zstr_len "5") with 0 in Hsame. rewrite <- Ed.
  assert ((if 0 <=? e then m * 10 ^ e else m / 10 ^ (- e)) = 5) as ->; [|by vm_compute].
  destruct (Z.leb_spec 0 e).
  - rewrite Z.min_r in Hsame by lia. rewrite !Z.sub_0_r in Hsame. lia.
  - rewrite Z.min_l in Hsame by lia. rewrite Z.sub_diag in Hsame.
    replace (0 - e) with (- e) in Hsame by lia.
    replace m with (5 * 10 ^ (- e)) by lia. apply Z.div_mul.
    assert (0 < 10 ^ (- e)) by (apply Z.pow_pos_nonneg; lia). lia.
Qed.

Definition toy_ud_compress : php_memc_user_data_t :=
  mkUserData false true true SERIALIZER_PHP COMPRESSION_TYPE_FASTLZ 3 0 7 0 false.

Lemma payload_round_trip_witness :
  let w := with_ud toy_ud_compress (toy_world toy_new) in
  (∃ payload flags, s_zval_to_payload (ZStr (repeat_char "a" 3000)) 0 w = Ret (Some (payload, flags)) w
    ∧ zstr_len payload < 100 ∧ flags = Z.shiftl 7 16 + Z.shiftl 5 4)
  ∧ (∃ payload flags, s_zval_to_payload (ZDouble (double_of_Z 5)) 0 w = Ret (Some (payload, flags)) w
    ∧ is_u32 flags ∧ MEMC_VAL_GET_TYPE flags = MEMC_VAL_IS_DOUBLE
    ∧ MEMC_VAL_GET_USER_FLAGS flags = 7
    ∧ ∀ MC' (w' : world MC') key cas, serializer (w_ud w') = SERIALIZER_PHP →
        s_memcached_result_to_zval (mkResult key (Bytes payload) flags cas) w'
        = Ret (Some (ZDouble (double_of_Z 5))) w').
Proof.
  split; [eexists _, _; split; [vm_compute; reflexivity|split; reflexivity]|].
  apply (payload_round_trip (ZDouble (double_of_Z 5)) MEMC_VAL_IS_DOUBLE
           (php_memcached_g_fmt (zend_dtoa (double_of_Z 5))) false).
  - apply spells_double, toy_five_readable.
  - vm_compute. reflexivity.
  - reflexivity.
Defined.
