(* ===== verification/Store.v ===== *)
(** * Writing: [s_memc_write_zval] and the methods on top of it

    set, add, replace, append, prepend, touch, setMulti, cas, delete,
    deleteMulti, increment and decrement, with their ByKey forms.  Argument
    parsing is the engine's: a method is a function of its parsed arguments. *)

From S2P Require Import Prelude CLib Zend LibMemcached World Keys CasToken Payload.
#[local] Open Scope Z_scope.

Inductive php_memc_write_op : Type :=
| MEMC_OP_SET | MEMC_OP_TOUCH | MEMC_OP_ADD | MEMC_OP_REPLACE | MEMC_OP_APPEND | MEMC_OP_PREPEND.

#[global] Instance php_memc_write_op_eq_dec : EqDecision php_memc_write_op.
Proof. solve_decision. Defined.

Section Store.
Context {MC : Type} `{ZendRuntime} `{BuildConfig} `{MemcachedNumbers}
  `{MemcachedControl MC} `{MemcachedStorage MC} `{MemcachedCounters MC}.
#[local] Abbreviation M := (M (world MC)).

(** php_libmemcached_compat.c. *)
Definition touch_warning : M unit :=
  m ← gets w_memc;
  when ((LIBMEMCACHED_VERSION_HEX <? 16777240)
        && negb (behavior_get m BEHAVIOR_BINARY_PROTOCOL =? 0))
    (warn "using touch command with binary protocol is not recommended with libmemcached versions below 1.0.18, please use ascii protocol or upgrade libmemcached").

Definition php_memcached_touch (key : string) (expiration : Z) : M memcached_return :=
  touch_warning;; memc_call (λ m, memcached_touch m key expiration).

Definition php_memcached_touch_by_key (server_key key : string) (expiration : Z)
    : M memcached_return :=
  touch_warning;; memc_call (λ m, memcached_touch_by_key m server_key key expiration).

Definition s_should_retry_write (status : memcached_return) : M bool :=
  m ← gets w_memc;
  mret (if memcached_server_count m =? 0 then false
        else s_memcached_return_is_error status true).

(** [memc_write_using_fn(fn)]: without a payload nothing is sent. *)
Definition memc_write_using_fn (payload : option string)
    (fn : string → MC → memcached_return * MC) : M memcached_return :=
  match payload with
  | Some p => memc_call (fn p)
  | None => mret MEMC_RES_PAYLOAD_FAILURE
  end.

(** [if (status == MEMCACHED_END) status = MEMCACHED_SUCCESS;] *)
Definition end_to_success (status : memcached_return) : memcached_return :=
  match status with MEMCACHED_END => MEMCACHED_SUCCESS | _ => status end.

(** The [switch] of the [server_key] branch. *)
Definition write_by_key (op : php_memc_write_op) (server_key key : string)
    (payload : option string) (expiration flags : Z) : M memcached_return :=
  let send fn :=
    memc_write_using_fn payload (λ p m, fn m server_key key p expiration flags) in
  status ← match op with
           | MEMC_OP_SET => send memcached_set_by_key
           | MEMC_OP_TOUCH => php_memcached_touch_by_key server_key key expiration
           | MEMC_OP_ADD => send memcached_add_by_key
           | MEMC_OP_REPLACE => send memcached_replace_by_key
           | MEMC_OP_APPEND => send memcached_append_by_key
           | MEMC_OP_PREPEND => send memcached_prepend_by_key
           end;
  mret (end_to_success status).

(** The [switch] behind the label [retry:]. *)
Definition write_plain (op : php_memc_write_op) (key : string)
    (payload : option string) (expiration flags : Z) : M memcached_return :=
  let send fn := memc_write_using_fn payload (λ p m, fn m key p expiration flags) in
  status ← match op with
           | MEMC_OP_SET => send memcached_set
           | MEMC_OP_TOUCH => php_memcached_touch key expiration
           | MEMC_OP_ADD => send memcached_add
           | MEMC_OP_REPLACE => send memcached_replace
           | MEMC_OP_APPEND => send memcached_append
           | MEMC_OP_PREPEND => send memcached_prepend
           end;
  mret (end_to_success status).

(** [if (s_should_retry_write(intern, status) && retries-- > 0) goto retry;]
    after an attempt that returned [status]; [again] is what the label leads to. *)
Fixpoint retry_write (retries : nat) (again : M memcached_return) (status : memcached_return)
    : M memcached_return :=
  retry ← s_should_retry_write status;
  match retries with
  | S n => if retry : bool then status' ← again; retry_write n again status' else mret status
  | O => mret status
  end.

(** The write itself; the result is SUCCESS or FAILURE of the status. *)
Definition write_payload (op : php_memc_write_op) (server_key : option string) (key : string)
    (payload : option string) (expiration flags : Z) : M bool :=
  ud ← gets w_ud;
  let again := write_plain op key payload expiration flags in
  status ← match server_key with
           | Some sk => write_by_key op sk key payload expiration flags
           | None => again
           end;
  status ← retry_write (Z.to_nat (store_retry_count ud)) again status;
  s_memc_status_handle_result_code status.

Definition s_memc_write_zval (op : php_memc_write_op) (server_key : option string)
    (key : string) (value : option zval) (expiration : Z) : M bool :=
  match value with
  | Some v =>
      r ← s_zval_to_payload v 0;
      match r with
      | None => s_memc_set_status MEMC_RES_PAYLOAD_FAILURE 0;; mret false
      | Some (payload, flags) =>
          big ← s_is_payload_too_big payload;
          if big : bool then s_memc_set_status MEMCACHED_E2BIG 0;; mret false
          else write_payload op server_key key (Some payload) expiration flags
      end
  | None => write_payload op server_key key None expiration 0
  end.

(** ** The methods *)

Definition php_memc_store_impl (op : php_memc_write_op) (server_key : option string)
    (key : string) (value : option zval) (expiration : Z) : M zval :=
  s_memc_set_status MEMCACHED_SUCCESS 0;;
  ok ← MEMC_CHECK_KEY key;
  if negb ok then mret ZFalse
  else
    ud ← gets w_ud;
    if compression_enabled ud
       && bool_decide (op = MEMC_OP_APPEND ∨ op = MEMC_OP_PREPEND)
    then warn "cannot append/prepend with compression turned on";; mret ZNull
    else
      r ← s_memc_write_zval op server_key key value expiration;
      mret (if r : bool then ZTrue else ZFalse).

(** The string of an integer key: [snprintf("%ld", num_key)]. *)
Definition entry_key (k : zkey) : string :=
  match k with KStr s => s | KInt z => ldec z end.

Fixpoint set_entries (server_key : option string) (entries : zarray) (expiration : Z) : M unit :=
  match entries with
  | [] => mret tt
  | (k, value) :: rest =>
      _ ← s_memc_write_zval MEMC_OP_SET server_key (entry_key k) (Some value) expiration;
      set_entries server_key rest expiration
  end.

Definition php_memc_setMulti_impl (server_key : option string) (entries : zarray)
    (expiration : Z) : M zval :=
  s_memc_set_status MEMCACHED_SUCCESS 0;;
  set_entries server_key entries expiration;;
  err ← s_memc_status_has_error;
  mret (ZBool (negb err)).

Definition php_memc_cas_impl (zv_cas : zval) (server_key : option string) (key : string)
    (value : zval) (expiration : Z) : M zval :=
  s_memc_set_status MEMCACHED_SUCCESS 0;;
  ok ← MEMC_CHECK_KEY key;
  if negb ok then mret ZFalse
  else
    cas ← s_zval_to_uint64 zv_cas;
    r ← s_zval_to_payload value 0;
    match r with
    | None => set_rescode MEMC_RES_PAYLOAD_FAILURE;; mret ZFalse
    | Some (payload, flags) =>
        big ← s_is_payload_too_big payload;
        if big : bool then set_rescode MEMCACHED_E2BIG;; mret ZFalse
        else
          status ← memc_call (λ m,
            match server_key with
            | Some sk => memcached_cas_by_key m sk key payload expiration flags cas
            | None => memcached_cas m key payload expiration flags cas
            end);
          ok ← s_memc_status_handle_result_code status;
          mret (ZBool ok)
    end.

Definition php_memc_delete_impl (server_key : option string) (key : string)
    (expiration : Z) : M zval :=
  s_memc_set_status MEMCACHED_SUCCESS 0;;
  ok ← MEMC_CHECK_KEY key;
  if negb ok then mret ZFalse
  else
    status ← memc_call (λ m,
      match server_key with
      | Some sk => memcached_delete_by_key m sk key expiration
      | None => memcached_delete m key expiration
      end);
    ok ← s_memc_status_handle_result_code status;
    mret (ZBool ok).

(** Without a server key each key is its own. *)
Fixpoint delete_entries (server_key : option string) (entries : list zval) (expiration : Z)
    (return_value : zarray) : M zarray :=
  match entries with
  | [] => mret return_value
  | zv :: rest =>
      let entry := zval_get_string zv in
      if zstr_len entry =? 0 then delete_entries server_key rest expiration return_value
      else
        status ← memc_call (λ m,
          memcached_delete_by_key m (default entry server_key) entry expiration);
        ok ← s_memc_status_handle_result_code status;
        delete_entries server_key rest expiration
          (arr_update return_value (symtable_key entry)
             (if ok : bool then ZTrue else ZLong (return_num status)))
  end.

Definition php_memc_deleteMulti_impl (server_key : option string) (entries : zarray)
    (expiration : Z) : M zval :=
  s_memc_set_status MEMCACHED_SUCCESS 0;;
  a ← delete_entries server_key (arr_vals entries) expiration [];
  mret (ZArr a).

(** ** Counters *)

(** One command with an initial value; [value] is the variable it writes to. *)
Definition incdec_initial (server_key : option string) (incr : bool) (key : string)
    (offset initial expiry value : Z) : M (memcached_return * Z) :=
  r ← memc_call (λ m,
    let '(rc, v, m) :=
      match server_key, incr with
      | Some sk, true =>
          memcached_increment_with_initial_by_key m sk key (u64 offset) (u64 initial) expiry
      | Some sk, false =>
          memcached_decrement_with_initial_by_key m sk key (u64 offset) (u64 initial) expiry
      | None, true => memcached_increment_with_initial m key (u64 offset) (u64 initial) expiry
      | None, false => memcached_decrement_with_initial m key (u64 offset) (u64 initial) expiry
      end in ((rc, v), m));
  let '(rc, v) := (r : memcached_return * option Z) in mret (rc, default value v).

Definition incdec_simple (server_key : option string) (incr : bool) (key : string)
    (offset value : Z) : M (memcached_return * Z) :=
  r ← memc_call (λ m,
    let sk := default key server_key in
    let '(rc, v, m) :=
      if incr then memcached_increment_by_key m sk key (u64 offset)
      else memcached_decrement_by_key m sk key (u64 offset) in ((rc, v), m));
  let '(rc, v) := (r : memcached_return * option Z) in mret (rc, default value v).

(** The label [retry_inc_dec:]; [None] is the early [RETURN_FALSE]. *)
Fixpoint incdec_retry (retries : nat) (server_key : option string) (incr : bool) (key : string)
    (offset initial expiry value : Z) : M (option (memcached_return * Z)) :=
  m ← gets w_memc;
  if behavior_get m BEHAVIOR_BINARY_PROTOCOL =? 0
  then warn "Initial value is only supported with binary protocol";; mret None
  else
    r ← incdec_initial server_key incr key offset initial expiry value;
    let '(status, value) := (r : memcached_return * Z) in
    retry ← s_should_retry_write status;
    match retries with
    | S n =>
        if retry : bool
        then incdec_retry n server_key incr key offset initial expiry value
        else mret (Some (status, value))
    | O => mret (Some (status, value))
    end.

(** [with_initial] says that the initial value was among the arguments
    ([n_args < 3], or 4 with a server key). *)
Definition php_memc_incdec_impl (server_key : option string) (incr : bool) (key : string)
    (offset initial expiry : Z) (with_initial : bool) : M zval :=
  s_memc_set_status MEMCACHED_SUCCESS 0;;
  ok ← MEMC_CHECK_KEY key;
  if negb ok then mret ZFalse
  else if offset <? 0 then warn "offset cannot be a negative value";; mret ZFalse
  else
    ud ← gets w_ud;
    r ← (if negb with_initial then
           r ← incdec_simple server_key incr key offset UINT64_MAX; mret (Some r)
         else incdec_retry (Z.to_nat (store_retry_count ud)) server_key incr key
                offset initial expiry UINT64_MAX);
    match (r : option (memcached_return * Z)) with
    | None => mret ZFalse
    | Some (status, value) =>
        ok ← s_memc_status_handle_result_code status;
        mret (if negb ok then ZFalse
              else if value =? UINT64_MAX then ZFalse else ZLong (s64 value))
    end.
End Store.
