(* ===== verification/StoreProofs.v ===== *)
(** * Writing: attempts, refusals and results *)

From S2P Require Import Prelude CLib Zend LibMemcached World Toy Keys CasToken Payload PayloadProofs Store.
#[local] Open Scope Z_scope.

Section Attempts.
Context {MC : Type} `{ZendRuntime} `{BuildConfig} `{MemcachedNumbers}
  `{MemcachedControl MC} `{MemcachedStorage MC} `{MemcachedCounters MC}.
Implicit Types w : world MC.

(** The libmemcached command of an operation, the END status mapped. *)
Definition write_command (op : php_memc_write_op) (key payload : string) (expiration flags : Z)
    (m : MC) : memcached_return * MC :=
  let '(rc, m) :=
    match op with
    | MEMC_OP_SET => memcached_set m key payload expiration flags
    | MEMC_OP_TOUCH => memcached_touch m key expiration
    | MEMC_OP_ADD => memcached_add m key payload expiration flags
    | MEMC_OP_REPLACE => memcached_replace m key payload expiration flags
    | MEMC_OP_APPEND => memcached_append m key payload expiration flags
    | MEMC_OP_PREPEND => memcached_prepend m key payload expiration flags
    end in (end_to_success rc, m).

(** An answer that [s_should_retry_write] sends the write back for. *)
Definition retriable (a : memcached_return * MC) : Prop :=
  s_memcached_return_is_error a.1 true = true ∧ memcached_server_count a.2 ≠ 0.

Lemma should_retry_run status w :
  s_should_retry_write status w
  = Ret (negb (memcached_server_count (w_memc w) =? 0)
         && s_memcached_return_is_error status true) w.
Proof. unfold s_should_retry_write. mrun. by destruct (_ =? 0). Qed.

Lemma with_memc_twice m1 m2 w : with_memc m2 (with_memc m1 w) = with_memc m2 w.
Proof. done. Qed.

(** Attempts that only thread the handle. *)
Lemma retry_write_spec n again call status w :
  (∀ w, again w = let '(rc, m) := call (w_memc w) in Ret rc (with_memc m w)) →
  ∃ k, (k <= n)%nat
    ∧ let a i := match i with O => (status, w_memc w) | S j => nth_answer call j (w_memc w) end in
      (∀ i, (i < k)%nat → retriable (a i))
      ∧ (k = n ∨ ¬ retriable (a k))
      ∧ retry_write n again status w = Ret (a k).1 (with_memc (a k).2 w).
Proof.
  intros Hagain. revert status w. induction n as [|n IH]; intros status w; cbn [retry_write].
  - exists O. rewrite (bind_Ret _ _ _ _ _ (should_retry_run status w)).
    split; [lia|]. split; [lia|]. split; [by left|]. by destruct w.
  - rewrite (bind_Ret _ _ _ _ _ (should_retry_run status w)).
    destruct (negb _ && _) eqn:E.
    + apply andb_true_iff in E as [E1 E2]. apply negb_true_iff, Z.eqb_neq in E1.
      pose proof (Hagain w) as Ha. destruct (call (w_memc w)) as [rc m] eqn:Ec.
      rewrite (bind_Ret _ _ _ _ _ Ha).
      destruct (IH rc (with_memc m w)) as (k & Hk & Hlt & Hend & Hrun).
      exists (S k). split; [lia|].
      assert (∀ i, (match i with
                    | O => (rc, w_memc (with_memc m w))
                    | S j => nth_answer call j (w_memc (with_memc m w)) end)
                   = nth_answer call i (w_memc w)) as Hi.
      { intros [|i]; cbn [nth_answer]; rewrite Ec; done. }
      rewrite Hi in Hend, Hrun. split; [|split].
      * intros [|i] Hik; [by split|]. rewrite <- Hi. apply Hlt. lia.
      * destruct Hend as [->|]; auto.
      * rewrite Hrun. done.
    + exists O. split; [lia|]. split; [lia|]. split; [right|by destruct w].
      intros [H1' H2']. cbn in *. rewrite H1', andb_true_r in E.
      apply negb_false_iff, Z.eqb_eq in E. done.
Qed.

Lemma write_plain_run op key p expiration flags w :
  op ≠ MEMC_OP_TOUCH →
  write_plain op key (Some p) expiration flags w
  = let '(rc, m) := write_command op key p expiration flags (w_memc w) in Ret rc (with_memc m w).
Proof.
  intros Hop. unfold write_plain, write_command, memc_write_using_fn, memc_call.
  destruct op; try done; unfold mbind, M_bind;
    match goal with |- context [?f (w_memc w) key p expiration flags] =>
      by destruct (f (w_memc w) key p expiration flags) end.
Qed.
End Attempts.

Lemma write_zval_attempts {MC} `{ZendRuntime} `{BuildConfig} `{MemcachedNumbers}
    `{MemcachedControl MC} `{MemcachedStorage MC}
    op key v expiration payload flags (w w1 : world MC) :
  op ≠ MEMC_OP_TOUCH →
  s_zval_to_payload v 0 w = Ret (Some (payload, flags)) w1 →
  item_size_limit (w_ud w1) = 0 ∨ zstr_len payload <= u64 (item_size_limit (w_ud w1)) →
  let answer k := nth_answer (write_command op key payload expiration flags) k (w_memc w1) in
  ∃ k rc m, answer k = (rc, m)
    ∧ Z.of_nat k <= Z.max 0 (store_retry_count (w_ud w1))
    ∧ (∀ i, (i < k)%nat → retriable (answer i))
    ∧ (Z.of_nat k = Z.max 0 (store_retry_count (w_ud w1)) ∨ ¬ retriable (rc, m))
    ∧ s_memc_write_zval op None key (Some v) expiration w
      = Ret (negb (s_memcached_return_is_error rc true))
          (with_obj (result_obj rc m (w_obj w1)) (with_memc m w1)).
Proof.
  intros Hop Hpay Hbig answer.
  set (call := write_command op key payload expiration flags) in *.
  pose proof (write_plain_run op key payload expiration flags) as Hplain.
  destruct (retry_write_spec (Z.to_nat (store_retry_count (w_ud w1)))
    (write_plain op key (Some payload) expiration flags) call
    (call (w_memc w1)).1 (with_memc (call (w_memc w1)).2 w1)) as (k & Hk & Hlt & Hend & Hrun).
  { intros w'. by apply Hplain. }
  assert (∀ i, (match i with
      | O => ((call (w_memc w1)).1, w_memc (with_memc (call (w_memc w1)).2 w1))
      | S j => nth_answer call j (w_memc (with_memc (call (w_memc w1)).2 w1)) end)
    = answer i) as Hi.
  { intros [|i]; unfold answer; cbn [nth_answer]; [by destruct (call (w_memc w1))|done]. }
  rewrite Hi in Hend, Hrun. destruct (answer k) as [rc m] eqn:Ea. cbn [fst snd] in *.
  exists k, rc, m. split; [done|]. split; [lia|]. split.
  { intros i Hik. rewrite <- Hi. by apply Hlt. }
  split; [destruct Hend; [left; lia|by right]|].
  cbn [s_memc_write_zval]. rewrite (bind_Ret _ _ _ _ _ Hpay).
  assert (s_is_payload_too_big payload w1 = Ret false w1) as Hb.
  { unfold s_is_payload_too_big. mrun. destruct (Z.eqb_spec (item_size_limit (w_ud w1)) 0); [done|].
    assert ((zstr_len payload >? u64 (item_size_limit (w_ud w1))) = false) as ->; [|done].
    destruct Hbig; [done|]. lia. }
  rewrite (bind_Ret _ _ _ _ _ Hb). unfold write_payload. rewrite gets_bind.
  pose proof (Hplain w1 Hop) as Hp. fold call in Hp. destruct (call (w_memc w1)) as [rc0 m0].
  rewrite (bind_Ret _ _ _ _ _ Hp). cbn [fst snd] in Hrun.
  rewrite (bind_Ret _ _ _ _ _ Hrun), handle_result_code_run. done.
Qed.

(** C13: a write without a server key is the same command sent one to
    [store_retry_count + 1] times.  Every answer but the last is an error on a
    handle that has servers; the last is not, or the retries are used up.  The
    method's result, the result code and the errno are those of the last answer,
    and nothing but the handle and the object has changed since the payload was
    made. *)
Theorem s_memc_write_zval_attempts {MC} `{ZendRuntime} `{BuildConfig} `{MemcachedNumbers}
    `{MemcachedControl MC} `{MemcachedStorage MC}
    op key v expiration payload flags (w w1 : world MC) :
  op ≠ MEMC_OP_TOUCH →
  s_zval_to_payload v 0 w = Ret (Some (payload, flags)) w1 →
  item_size_limit (w_ud w1) = 0 ∨ zstr_len payload <= u64 (item_size_limit (w_ud w1)) →
  let answer k := nth_answer (write_command op key payload expiration flags) k (w_memc w1) in
  ∃ k rc m, answer k = (rc, m)
    ∧ Z.of_nat k <= Z.max 0 (store_retry_count (w_ud w1))
    ∧ (∀ i, (i < k)%nat → retriable (answer i))
    ∧ (Z.of_nat k = Z.max 0 (store_retry_count (w_ud w1)) ∨ ¬ retriable (rc, m))
    ∧ s_memc_write_zval op None key (Some v) expiration w
      = Ret (negb (s_memcached_return_is_error rc true))
          (with_obj (result_obj rc m (w_obj w1)) (with_memc m w1)).
Proof. apply write_zval_attempts. Qed.

(** A world whose next answers come from a script. *)
Definition scripted (answers : list memcached_return) (retries : Z) : world toy :=
  with_ud (mkUserData false false true SERIALIZER_PHP COMPRESSION_TYPE_FASTLZ 3 retries (-1) 0 false)
    (toy_world (t_set_script answers toy_new)).

Lemma s_memc_write_zval_attempts_witness :
  let w := scripted [MEMCACHED_TIMEOUT; MEMCACHED_TIMEOUT] 5 in
  let answer k := nth_answer (write_command MEMC_OP_SET "k" "v" 0 0) k (w_memc w) in
  ∃ k rc m, answer k = (rc, m)
    ∧ Z.of_nat k <= Z.max 0 5
    ∧ (∀ i, (i < k)%nat → retriable (answer i))
    ∧ (Z.of_nat k = Z.max 0 5 ∨ ¬ retriable (rc, m))
    ∧ s_memc_write_zval MEMC_OP_SET None "k" (Some (ZStr "v")) 0 w
      = Ret (negb (s_memcached_return_is_error rc true))
          (with_obj (result_obj rc m (w_obj w)) (with_memc m w)).
Proof.
  apply (s_memc_write_zval_attempts MEMC_OP_SET "k" (ZStr "v") 0 "v" 0
           (scripted [MEMCACHED_TIMEOUT; MEMCACHED_TIMEOUT] 5)
           (scripted [MEMCACHED_TIMEOUT; MEMCACHED_TIMEOUT] 5)).
  - discriminate.
  - vm_compute. reflexivity.
  - left. reflexivity.
Defined.

(** The retry of a ByKey write is not the ByKey command.  The label [retry:]
    stands in the branch without a server key, so after one error
    [Memcached::setByKey] sends plain [memcached_set]: here the item of server
    key "s" ends up where "k" itself hashes to, [setByKey] reports success, and
    nothing is found under the server key it was given. *)
Theorem set_by_key_retry_drops_the_server_key :
  let w := scripted [MEMCACHED_TIMEOUT] 1 in
  ∃ w', php_memc_store_impl MEMC_OP_SET (Some "s"%string) "k" (Some (ZStr "v")) 0 w = Ret ZTrue w'
    ∧ rescode (w_obj w') = MEMCACHED_SUCCESS
    ∧ t_items (w_memc w') !! ("s", "k")%string = None
    ∧ it_value <$> t_items (w_memc w') !! ("k", "k")%string = Some "v"%string
    ∧ tc_skey <$> t_log (w_memc w') = [Some "s"%string; None].
Proof. eexists. split; [vm_compute; reflexivity|]. repeat split; vm_compute; reflexivity. Qed.

(** ** Refusals *)

(** C16: no operation on the server without an acceptable key and payload.  A key
    that [MEMC_CHECK_KEY] rejects, a value that cannot be serialized, a payload
    over the item size limit, and an append or prepend under compression all end
    the write with the handle untouched; the first three return FALSE with the
    result code BAD_KEY_PROVIDED, PAYLOAD_FAILURE or E2BIG, the last NULL with
    SUCCESS and a warning. *)
Theorem store_impl_refusals {MC} `{ZendRuntime} `{BuildConfig} `{MemcachedNumbers}
    `{MemcachedControl MC} `{MemcachedStorage MC} op sk key v expiration (w : world MC) :
  let w0 := with_obj (mkObject MEMCACHED_SUCCESS 0 (is_pristine (w_obj w))) w in
  let answer v rc w := Ret v (with_obj (mkObject rc 0 (is_pristine (w_obj w))) w) in
  (memc_key_ok (w_memc w) key = false →
     php_memc_store_impl op sk key (Some v) expiration w = answer ZFalse MEMCACHED_BAD_KEY_PROVIDED w)
  ∧ (memc_key_ok (w_memc w) key = true →
     compression_enabled (w_ud w) = true → op = MEMC_OP_APPEND ∨ op = MEMC_OP_PREPEND →
     php_memc_store_impl op sk key (Some v) expiration w
     = answer ZNull MEMCACHED_SUCCESS
         (with_warning "cannot append/prepend with compression turned on" w))
  ∧ (∀ w1, memc_key_ok (w_memc w) key = true → op ≠ MEMC_OP_APPEND → op ≠ MEMC_OP_PREPEND →
     s_zval_to_payload v 0 w0 = Ret None w1 →
     php_memc_store_impl op sk key (Some v) expiration w = answer ZFalse MEMC_RES_PAYLOAD_FAILURE w1)
  ∧ (∀ w1 payload flags,
     memc_key_ok (w_memc w) key = true → op ≠ MEMC_OP_APPEND → op ≠ MEMC_OP_PREPEND →
     s_zval_to_payload v 0 w0 = Ret (Some (payload, flags)) w1 →
     item_size_limit (w_ud w1) ≠ 0 → u64 (item_size_limit (w_ud w1)) < zstr_len payload →
     php_memc_store_impl op sk key (Some v) expiration w = answer ZFalse MEMCACHED_E2BIG w1).
Proof.
  intros w0 answer. unfold php_memc_store_impl, answer.
  assert (∀ w', memc_key_ok (w_memc w') key = true →
    MEMC_CHECK_KEY key w' = Ret true w') as Hok by (intros w' E; by rewrite check_key_run, E).
  rewrite !(bind_Ret _ _ _ _ _ (set_status_run MEMCACHED_SUCCESS 0 w)). fold w0.
  split; [|split; [|split]].
  - intros E. unfold mbind, M_bind. rewrite check_key_run.
    change (w_memc w0) with (w_memc w). by rewrite E.
  - intros E Hc Hop. rewrite (bind_Ret _ _ _ _ _ (Hok w0 E)).
    cbn [negb]. rewrite gets_bind. change (w_ud w0) with (w_ud w).
    rewrite Hc, bool_decide_true by done. done.
  - intros w1 E Ha Hp Hpay. rewrite (bind_Ret _ _ _ _ _ (Hok w0 E)).
    cbn [negb]. rewrite gets_bind. rewrite bool_decide_false by (intros [?|?]; done). rewrite andb_false_r.
    cbn [s_memc_write_zval]. unfold mbind, M_bind. by rewrite Hpay.
  - intros w1 payload flags E Ha Hp Hpay Hl Hbig. rewrite (bind_Ret _ _ _ _ _ (Hok w0 E)).
    cbn [negb]. rewrite gets_bind. rewrite bool_decide_false by (intros [?|?]; done). rewrite andb_false_r.
    cbn [s_memc_write_zval]. unfold mbind, M_bind. rewrite Hpay.
    unfold s_is_payload_too_big. mrun.
    replace (item_size_limit (w_ud w1) =? 0) with false by (symmetry; by apply Z.eqb_neq).
    assert ((zstr_len payload >? u64 (item_size_limit (w_ud w1))) = true) as -> by lia. done.
Qed.

Lemma store_impl_refusals_witness :
  php_memc_store_impl MEMC_OP_SET None "a b" (Some (ZStr "v")) 0 (toy_world toy_new)
  = Ret ZFalse (with_obj (mkObject MEMCACHED_BAD_KEY_PROVIDED 0 true) (toy_world toy_new))
  ∧ php_memc_store_impl MEMC_OP_APPEND None "k" (Some (ZStr "v")) 0
      (with_ud toy_ud_compress (toy_world toy_new))
    = Ret ZNull (with_obj (mkObject MEMCACHED_SUCCESS 0 true)
        (with_warning "cannot append/prepend with compression turned on"
           (with_ud toy_ud_compress (toy_world toy_new)))).
Proof.
  split.
  - apply (proj1 (store_impl_refusals MEMC_OP_SET None "a b" (ZStr "v") 0 (toy_world toy_new))).
    vm_compute. reflexivity.
  - apply (proj1 (proj2 (store_impl_refusals MEMC_OP_APPEND None "k" (ZStr "v") 0
             (with_ud toy_ud_compress (toy_world toy_new))))).
    + vm_compute. reflexivity.
    + reflexivity.
    + left. reflexivity.
Defined.

(** ** setMulti *)

Lemma set_entries_app {MC} `{ZendRuntime} `{BuildConfig} `{MemcachedNumbers}
    `{MemcachedControl MC} `{MemcachedStorage MC} sk es1 es2 expiration (w : world MC) :
  set_entries sk (es1 ++ es2) expiration w
  = (set_entries sk es1 expiration;; set_entries sk es2 expiration) w.
Proof.
  revert w. induction es1 as [|[k v] es1 IH]; intros w; [done|].
  cbn [app set_entries]. unfold mbind, M_bind.
  destruct (s_memc_write_zval _ _ _ _ _ w); [|done..]. apply IH.
Qed.

(** The status a write leaves is the one it reports. *)
Definition reports_status {MC} (m : M (world MC) bool) : Prop :=
  ∀ w b w', m w = Ret b w' → s_memcached_return_is_error (rescode (w_obj w')) true = negb b.

Lemma handle_result_code_reports {MC} `{MemcachedControl MC} status :
  reports_status (MC := MC) (s_memc_status_handle_result_code status).
Proof.
  intros w b w'. rewrite handle_result_code_run. intros [= <- <-].
  by rewrite negb_involutive.
Qed.

Lemma write_zval_reports {MC} `{ZendRuntime} `{BuildConfig} `{MemcachedNumbers}
    `{MemcachedControl MC} `{MemcachedStorage MC} op sk key v expiration :
  reports_status (MC := MC) (s_memc_write_zval op sk key v expiration).
Proof.
  assert (∀ p flags, reports_status (MC := MC) (write_payload op sk key p expiration flags)) as Hw.
  { intros p flags w b w' R. unfold write_payload in R.
    apply bind_inv in R as (ud & w1 & _ & R). apply bind_inv in R as (st & w2 & _ & R).
    apply bind_inv in R as (st' & w3 & _ & R). by eapply handle_result_code_reports. }
  intros w b w' R. destruct v as [v|]; cbn [s_memc_write_zval] in R; [|by eapply Hw].
  apply bind_inv in R as ([[p f]|] & w1 & _ & R).
  - apply bind_inv in R as (big & w2 & _ & R). destruct big; [|by eapply Hw].
    apply bind_inv in R as ([] & w3 & R & Hr). rewrite set_status_run in R.
    injection R as <-. by injection Hr as <- <-.
  - apply bind_inv in R as ([] & w3 & R & Hr). rewrite set_status_run in R.
    injection R as <-. by injection Hr as <- <-.
Qed.

(** SetMulti reports its last write only.  The entries are written in order,
    with integer keys in decimal; whatever became of the earlier ones, the result
    is TRUE exactly when the last write succeeded. *)
Theorem setMulti_reports_the_last_write {MC} `{ZendRuntime} `{BuildConfig} `{MemcachedNumbers}
    `{MemcachedControl MC} `{MemcachedStorage MC} sk entries k v expiration (w w1 w2 : world MC) b :
  set_entries sk entries expiration
    (with_obj (mkObject MEMCACHED_SUCCESS 0 (is_pristine (w_obj w))) w) = Ret tt w1 →
  s_memc_write_zval MEMC_OP_SET sk (entry_key k) (Some v) expiration w1 = Ret b w2 →
  php_memc_setMulti_impl sk (entries ++ [(k, v)]) expiration w = Ret (ZBool b) w2.
Proof.
  intros Hes Hlast. unfold php_memc_setMulti_impl.
  rewrite (bind_Ret _ _ _ _ _ (set_status_run MEMCACHED_SUCCESS 0 w)).
  assert (set_entries sk (entries ++ [(k, v)]) expiration
    (with_obj (mkObject MEMCACHED_SUCCESS 0 (is_pristine (w_obj w))) w) = Ret tt w2) as E.
  { rewrite set_entries_app, (bind_Ret _ _ _ _ _ Hes). cbn [set_entries].
    by rewrite (bind_Ret _ _ _ _ _ Hlast). }
  rewrite (bind_Ret _ _ _ _ _ E). unfold s_memc_status_has_error. rewrite gets_bind.
  pose proof (write_zval_reports _ _ _ _ _ _ _ _ Hlast) as ->. by rewrite negb_involutive.
Qed.

(** The comment in the loop says otherwise: "If this failed to write a value,
    intern stores the error for the return value". *)
Lemma setMulti_reports_the_last_write_witness :
  let w := scripted [MEMCACHED_SERVER_ERROR] 0 in
  ∃ w2, php_memc_setMulti_impl None ([(KInt 1, ZStr "a")] ++ [(KStr "x", ZStr "b")]) 0 w
        = Ret (ZBool true) w2
    ∧ t_items (w_memc w2) !! ("1", "1")%string = None.
Proof.
  set (w := scripted [MEMCACHED_SERVER_ERROR] 0).
  assert (∃ w1, set_entries None [(KInt 1, ZStr "a")] 0
            (with_obj (mkObject MEMCACHED_SUCCESS 0 (is_pristine (w_obj w))) w) = Ret tt w1
    ∧ ∃ w2, s_memc_write_zval MEMC_OP_SET None (entry_key (KStr "x")) (Some (ZStr "b")) 0 w1
            = Ret true w2 ∧ t_items (w_memc w2) !! ("1", "1")%string = None)
    as (w1 & E1 & w2 & E2 & E3).
  { eexists. split; [vm_compute; reflexivity|]. eexists. split; vm_compute; reflexivity. }
  exists w2. split; [|exact E3].
  exact (setMulti_reports_the_last_write None [(KInt 1, ZStr "a")] (KStr "x") (ZStr "b") 0
           w w1 w2 true E1 E2).
Defined.

(** ** cas *)

(** C20: the token a script got from [get] is the token [cas] sends: with an
    acceptable key and payload the command is [memcached_cas] (or its ByKey form)
    with that 64-bit number, sent once; the result says whether the answer was an
    error, and the result code is the answer (DATA_EXISTS when the item changed). *)
Theorem cas_sends_the_token {MC} `{ZendLaws} `{BuildConfig} `{MemcachedNumbers}
    `{MemcachedControl MC} `{MemcachedStorage MC} token sk key v expiration payload flags
    (w w1 : world MC) :
  is_u64 token → memc_key_ok (w_memc w) key = true →
  s_zval_to_payload v 0 (with_obj (mkObject MEMCACHED_SUCCESS 0 (is_pristine (w_obj w))) w)
  = Ret (Some (payload, flags)) w1 →
  item_size_limit (w_ud w1) = 0 →
  php_memc_cas_impl (s_uint64_to_zval token) sk key v expiration w
  = let '(rc, m) := match sk with
                    | Some sk => memcached_cas_by_key (w_memc w1) sk key payload expiration flags token
                    | None => memcached_cas (w_memc w1) key payload expiration flags token
                    end in
    Ret (ZBool (negb (s_memcached_return_is_error rc true)))
      (with_obj (result_obj rc m (w_obj w1)) (with_memc m w1)).
Proof.
  intros Ht Hkey Hpay Hlim. unfold php_memc_cas_impl.
  set (w0 := with_obj (mkObject MEMCACHED_SUCCESS 0 (is_pristine (w_obj w))) w) in *.
  rewrite (bind_Ret _ _ _ _ _ (set_status_run MEMCACHED_SUCCESS 0 w)). fold w0.
  assert (MEMC_CHECK_KEY key w0 = Ret true w0) as Hok
    by (rewrite check_key_run; change (w_memc w0) with (w_memc w); by rewrite Hkey).
  rewrite (bind_Ret _ _ _ _ _ Hok). cbn [negb].
  rewrite (bind_Ret _ _ _ _ _ (cas_token_round_trip' token w0 Ht)).
  rewrite (bind_Ret _ _ _ _ _ Hpay).
  assert (s_is_payload_too_big payload w1 = Ret false w1) as Hb
    by (unfold s_is_payload_too_big; mrun; by rewrite Hlim).
  rewrite (bind_Ret _ _ _ _ _ Hb). unfold memc_call, mbind, M_bind.
  destruct sk as [sk|]; [destruct (memcached_cas_by_key _ _ _ _ _ _ _) as [rc m]
                        |destruct (memcached_cas _ _ _ _ _ _) as [rc m]];
    by rewrite handle_result_code_run.
Qed.

Lemma cas_sends_the_token_witness :
  let w := toy_world (t_set_item ("k", "k")%string (mkItem "old" 0 UINT64_MAX 0) toy_new) in
  ∃ w', php_memc_cas_impl (s_uint64_to_zval UINT64_MAX) None "k" (ZStr "new") 0 w = Ret ZTrue w'.
Proof.
  eexists. etransitivity.
  - eapply (cas_sends_the_token UINT64_MAX None "k" (ZStr "new") 0 "new" 0).
    + unfold is_u64, UINT64_MAX. lia.
    + vm_compute. reflexivity.
    + vm_compute. reflexivity.
    + reflexivity.
  - vm_compute. reflexivity.
Defined.

(** ** deleteMulti *)

Lemma delete_entries_spec {MC} `{ZendRuntime} `{MemcachedControl MC} `{MemcachedNumbers}
    `{MemcachedStorage MC} sk entries expiration a (w : world MC) :
  let ok v := v = ZTrue ∨ ∃ rc, s_memcached_return_is_error rc true = true ∧ v = ZLong (return_num rc) in
  Forall ok (arr_vals a) →
  ∃ a' w', delete_entries sk entries expiration a w = Ret a' w'
    ∧ arr_keys a' = foldl (λ l k, if decide (k ∈ l) then l else l ++ [k]) (arr_keys a)
        (symtable_key <$> filter (λ k, zstr_len k ≠ 0) (zval_get_string <$> entries))
    ∧ Forall ok (arr_vals a').
Proof.
  intros ok. revert a w. induction entries as [|zv entries IH]; intros a w Ha; [by eexists _, _|].
  cbn [delete_entries]. rewrite fmap_cons, filter_cons.
  destruct (Z.eqb_spec (zstr_len (zval_get_string zv)) 0) as [E|E].
  - rewrite decide_False by (intros []; done). by apply IH.
  - rewrite decide_True by done. unfold memc_call, mbind at 1, M_bind at 1.
    destruct (memcached_delete_by_key _ _ _ _) as [rc m].
    rewrite (bind_Ret _ _ _ _ _ (handle_result_code_run rc _)). rewrite fmap_cons. cbn [foldl].
    set (k := symtable_key (zval_get_string zv)).
    set (v := if negb (s_memcached_return_is_error rc true) then ZTrue else ZLong (return_num rc)).
    assert (ok v) as Hv.
    { unfold v. destruct (s_memcached_return_is_error rc true) eqn:Er; [right; eauto|by left]. }
    destruct (IH (arr_update a k v) (with_obj (result_obj rc m (w_obj w)) (with_memc m w)))
      as (a' & w' & E' & Hk & Hvs).
    { clear -Ha Hv. unfold arr_vals in *. induction a as [|[k' v'] a IH]; simpl in *.
      - by apply Forall_singleton.
      - apply Forall_cons_iff in Ha as [? ?]. case_decide; simpl; apply List.Forall_cons; auto. }
    exists a', w'. split; [exact E'|]. split; [|done]. rewrite Hk. f_equal.
    case_decide; [by apply arr_keys_update_in|by apply arr_keys_update_new].
Qed.

(** DeleteMulti answers for every key that is not empty, once each, in the
    order of first occurrence: TRUE when the last deletion of that key was not an
    error, and otherwise the number of its result code. *)
Theorem deleteMulti_result {MC} `{ZendRuntime} `{MemcachedControl MC} `{MemcachedNumbers}
    `{MemcachedStorage MC} sk entries expiration (w : world MC) :
  ∃ a w', php_memc_deleteMulti_impl sk entries expiration w = Ret (ZArr a) w'
    ∧ arr_keys a = first_occurrences
        (symtable_key <$> filter (λ k, zstr_len k ≠ 0) (zval_get_string <$> arr_vals entries))
    ∧ Forall (λ v, v = ZTrue ∨ ∃ rc, s_memcached_return_is_error rc true = true
                                     ∧ v = ZLong (return_num rc)) (arr_vals a).
Proof.
  unfold php_memc_deleteMulti_impl.
  rewrite (bind_Ret _ _ _ _ _ (set_status_run MEMCACHED_SUCCESS 0 w)).
  destruct (delete_entries_spec sk (arr_vals entries) expiration []
    (with_obj (mkObject MEMCACHED_SUCCESS 0 (is_pristine (w_obj w))) w)) as (a & w' & E & Hk & Hv).
  { apply List.Forall_nil. }
  rewrite (bind_Ret _ _ _ _ _ E). exists a, w'. split; [done|]. split; [exact Hk|exact Hv].
Qed.
