(* ===== verification/Fetch.v ===== *)
(** * Reading: results, get, getMulti, getDelayed, fetch and fetchAll

    "Iterate over memcached results and mget" and the get methods.  A PHP
    callback is a function of the model's state monad, so it may do anything to
    the object, the handle and the exception flag. *)

From S2P Require Import Prelude CLib Flags Zend LibMemcached World Keys CasToken Payload Store.
#[local] Open Scope Z_scope.

Definition MEMC_GET_PRESERVE_ORDER : Z := 1.
Definition MEMC_GET_EXTENDED : Z := 2.

Definition has_bit (flags bit : Z) : bool := negb (Z.land flags bit =? 0).

Section Fetch.
Context {MC : Type} `{ZendRuntime} `{BuildConfig} `{MemcachedNumbers}
  `{MemcachedControl MC} `{MemcachedStorage MC} `{MemcachedRetrieval MC}.
#[local] Abbreviation M := (M (world MC)).

(** [php_memc_result_apply_fn]: what it does with one result, its verdict, and
    its context afterwards. *)
Definition result_apply_fn (A : Type) : Type :=
  string → zval → zval → Z → A → M (bool * A).

Definition fetch_result : M (option memcached_result * memcached_return) :=
  memc_call memcached_fetch_result.

(** [while (memcached_fetch_result(...)) {}] *)
Fixpoint drain (fuel : nat) : M unit :=
  match fuel with
  | O => no_fuel
  | S f =>
      r ← fetch_result;
      match r.1 with Some _ => drain f | None => mret tt end
  end.

(** More turns than there can be results. *)
Definition fetch_fuel (w : world MC) : nat := S (memcached_pending (w_memc w)).

Fixpoint result_loop {A} (fn : result_apply_fn A) (fetch_delay : bool) (fuel : nat)
    (status : memcached_return) (ctx : A) : M (memcached_return * A) :=
  match fuel with
  | O => no_fuel
  | S f =>
      r ← fetch_result;
      let '(result, rc) := (r : option memcached_result * memcached_return) in
      let status := if s_memcached_return_is_error rc false then rc else status in
      match result with
      | None => mret (status, ctx)
      | Some res =>
          v ← s_memcached_result_to_zval res;
          match v with
          | None =>
              exn ← gets w_exception;
              if exn : bool then
                memc_do memcached_quit;; mret (MEMC_RES_PAYLOAD_FAILURE, ctx)
              else result_loop fn fetch_delay f MEMCACHED_SOME_ERRORS ctx
          | Some val =>
              r ← fn (result_key res) val (s_uint64_to_zval (result_cas res)) (result_flags res) ctx;
              let '(retval, ctx) := (r : bool * A) in
              if negb retval then
                when (negb fetch_delay) (n ← gets fetch_fuel; drain n);;
                mret (status, ctx)
              else result_loop fn fetch_delay f status ctx
          end
      end
  end.

Definition php_memc_result_apply {A} (fn : result_apply_fn A) (fetch_delay : bool) (ctx : A)
    : M (memcached_return * A) :=
  n ← gets fetch_fuel; result_loop fn fetch_delay n MEMCACHED_SUCCESS ctx.

Definition set_behavior (b : memcached_behavior) (v : Z) : M memcached_return :=
  memc_call (λ m, memcached_behavior_set m (behavior_num b) v).

Definition php_memc_mget_apply {A} (server_key : option string) (keys : list string)
    (fn : option (result_apply_fn A)) (with_cas : bool) (ctx : A) : M (bool * A) :=
  s_memc_set_status MEMCACHED_SUCCESS 0;;
  if bool_decide (keys = []) then set_rescode MEMCACHED_BAD_KEY_PROVIDED;; mret (false, ctx)
  else
    m ← gets w_memc;
    let orig_cas_flag := if with_cas then behavior_get m BEHAVIOR_SUPPORT_CAS else 0 in
    when (with_cas && (orig_cas_flag =? 0)) (set_behavior BEHAVIOR_SUPPORT_CAS 1;; mret tt);;
    status ← memc_call (λ m,
      match server_key with
      | Some sk => memcached_mget_by_key m sk keys
      | None => memcached_mget m keys
      end);
    mget_status ← s_memc_status_handle_result_code status;
    when (with_cas && (orig_cas_flag =? 0))
      (set_behavior BEHAVIOR_SUPPORT_CAS orig_cas_flag;; mret tt);;
    if negb mget_status then mret (false, ctx)
    else
      match fn with
      | None => mret (true, ctx)
      | Some fn =>
          r ← php_memc_result_apply fn false ctx;
          let '(status, ctx) := (r : memcached_return * A) in
          ok ← s_memc_status_handle_result_code status;
          mret (ok, ctx)
      end.

(** ** get *)

(** [array("value" => ..., "cas" => ..., "flags" => ...)]. *)
Definition extended_array (value cas : zval) (flags : Z) : zval :=
  ZArr [(KStr "value", value); (KStr "cas", cas);
        (KStr "flags", ZLong (MEMC_VAL_GET_USER_FLAGS flags))].

Definition s_get_apply_fn (extended : bool) : result_apply_fn zval :=
  λ key value cas flags return_value,
    mret (false, if extended then extended_array value cas flags else value).

(** A cache callback gets the key and the value by reference, and the expiration
    by reference unless the result is extended; [None] says it could not be
    called.  The answer is its return value and the two references. *)
Definition cache_callback : Type := string → zval → M (option (zval * zval * zval)).

(** [Z_LVAL_P]: the integer of a zval, when it is one. *)
Definition Z_LVAL_P (v : zval) : M Z :=
  match v with ZLong l => mret l | _ => undef end.

Definition s_invoke_cache_callback (cb : cache_callback) (with_cas : bool) (key : string)
    (value : zval) : M (bool * zval) :=
  r ← cb key value;
  match r with
  | None => s_memc_set_status MEMCACHED_NOTFOUND 0;; mret (false, value)
  | Some (retval, val, exp) =>
      if zend_is_true retval then
        if with_cas then
          match val with
          | ZArr a =>
              status ←
                match arr_find a (KStr "value") with
                | Some rv =>
                    expiration ← match arr_find a (KStr "cas") with
                                 | Some cas => Z_LVAL_P cas
                                 | None => mret 0
                                 end;
                    s_memc_write_zval MEMC_OP_SET None key (Some rv) expiration
                | None => mret false
                end;
              mret (status, val)
          | _ => mret (false, value)
          end
        else
          status ← s_memc_write_zval MEMC_OP_SET None key (Some val) (zval_get_long exp);
          mret (status, val)
      else mret (false, value)
  end.

Definition php_memc_get_impl (server_key : option string) (key : string)
    (cb : option cache_callback) (get_flags : Z) : M zval :=
  s_memc_set_status MEMCACHED_SUCCESS 0;;
  ok ← MEMC_CHECK_KEY key;
  if negb ok then mret ZFalse
  else
    let extended := has_bit get_flags MEMC_GET_EXTENDED in
    r ← php_memc_mget_apply server_key (s_key_to_keys key) (Some (s_get_apply_fn extended))
          extended ZNull;
    let '(mget_status, return_value) := (r : bool * zval) in
    notfound ← s_memc_status_has_result_code MEMCACHED_NOTFOUND;
    r ← match cb with
        | Some cb =>
            if negb mget_status && notfound
            then s_invoke_cache_callback cb extended key return_value
            else mret (true, return_value)
        | None => mret (true, return_value)
        end;
    let '(status, return_value) := (r : bool * zval) in
    if negb status then mret ZFalse
    else
      err ← s_memc_status_has_error;
      mret (if err : bool then ZFalse else return_value).

(** ** getMulti *)

Definition s_get_multi_apply_fn (extended : bool) : result_apply_fn zarray :=
  λ key value cas flags return_value,
    mret (true, arr_update return_value (symtable_key key)
                  (if extended then extended_array value cas flags else value)).

Definition php_memc_getMulti_impl (server_key : option string) (keys : zarray) (flags : Z)
    : M zval :=
  if bool_decide (keys = []) then s_memc_set_status MEMCACHED_NOTFOUND 0;; mret (ZArr [])
  else
    s_memc_set_status MEMCACHED_SUCCESS 0;;
    let preserve_order := has_bit flags MEMC_GET_PRESERVE_ORDER in
    let '(keys_out, rv) := s_hash_to_keys keys preserve_order (Some []) in
    let extended := has_bit flags MEMC_GET_EXTENDED in
    r ← php_memc_mget_apply server_key keys_out (Some (s_get_multi_apply_fn extended))
          extended (default [] rv);
    let '(retval, return_value) := (r : bool * zarray) in
    notfound ← s_memc_status_has_result_code MEMCACHED_NOTFOUND;
    some ← s_memc_status_has_result_code MEMCACHED_SOME_ERRORS;
    if negb retval && (notfound || some) then mret (ZArr return_value)
    else
      exn ← gets w_exception;
      mret (if negb retval || exn then ZFalse else ZArr return_value).

(** ** getDelayed, fetch, fetchAll *)

(** A CAS token of 0 leaves "cas" and "flags" out; a token that is a string has a
    pointer where [Z_LVAL_P] looks. *)
Definition cas_present (cas : zval) : bool :=
  match cas with ZLong l => negb (l =? 0) | _ => true end.

Definition s_create_result_array (key : string) (value cas : zval) (flags : Z) : zarray :=
  [(KStr "key", ZStr key); (KStr "value", value)]
  ++ (if cas_present cas
      then [(KStr "cas", cas); (KStr "flags", ZLong (MEMC_VAL_GET_USER_FLAGS flags))] else []).

(** A result callback: was it called? *)
Definition result_callback : Type := zarray → M bool.

Definition s_result_callback_apply (cb : result_callback) : result_apply_fn unit :=
  λ key value cas flags _,
    ok ← cb (s_create_result_array key value cas flags);
    when (negb ok) (warn "could not invoke result callback");;
    mret (ok, tt).

Definition php_memc_getDelayed_impl (server_key : option string) (keys : zarray)
    (with_cas : bool) (cb : option result_callback) : M zval :=
  s_memc_set_status MEMCACHED_SUCCESS 0;;
  r ← php_memc_mget_apply server_key (s_hash_to_keys keys false None).1
        (s_result_callback_apply <$> cb) with_cas tt;
  mret (ZBool r.1).

Definition s_fetch_apply : result_apply_fn zarray :=
  λ key value cas flags return_value,
    mret (false, return_value ++ s_create_result_array key value cas flags).

Definition Memcached_fetch : M zval :=
  s_memc_set_status MEMCACHED_SUCCESS 0;;
  r ← php_memc_result_apply s_fetch_apply true [];
  let '(status, return_value) := (r : memcached_return * zarray) in
  ok ← s_memc_status_handle_result_code status;
  mret (if ok : bool then ZArr return_value else ZFalse).

Definition s_fetch_all_apply : result_apply_fn zarray :=
  λ key value cas flags return_value,
    mret (true, add_next_index return_value (ZArr (s_create_result_array key value cas flags))).

Definition Memcached_fetchAll : M zval :=
  s_memc_set_status MEMCACHED_SUCCESS 0;;
  r ← php_memc_result_apply s_fetch_all_apply false [];
  let '(status, return_value) := (r : memcached_return * zarray) in
  ok ← s_memc_status_handle_result_code status;
  mret (if ok : bool then ZArr return_value else ZFalse).
End Fetch.
