(* ===== verification/FetchProofs.v ===== *)
(** * Reading: termination of the result loop, and the CAS switch *)

From S2P Require Import Prelude CLib Flags Zend LibMemcached World Toy Keys CasToken FastLZ FastLZSafety Payload PayloadProofs Store StoreProofs Fetch.
#[local] Open Scope Z_scope.

(** Every result delivered leaves fewer to deliver. *)
Class FetchLaws (MC : Type) `{MemcachedRetrieval MC} : Prop := {
  fetch_pending m r rc m' :
    memcached_fetch_result m = (Some r, rc, m') → (memcached_pending m' < memcached_pending m)%nat
}.

#[export] Instance ToyFetchLaws : FetchLaws toy.
Proof.
  constructor. intros m r rc m'. simpl. destruct (t_pending m) as [|[r0 rc0] p]; [done|].
  intros [= -> -> <-]. simpl. lia.
Qed.

Section Loops.
Context {MC : Type} `{ZendRuntime} `{BuildConfig} `{MemcachedNumbers}
  `{MemcachedControl MC} `{MemcachedStorage MC} `{MemcachedRetrieval MC} `{!FetchLaws MC}.
Implicit Types w : world MC.

(** *** Draining *)
Lemma drain_total n w :
  (memcached_pending (w_memc w) < n)%nat → ∃ m', drain n w = Ret tt (with_memc m' w).
Proof.
  revert w. induction n as [|n IH]; intros w Hn; [lia|].
  cbn [drain]. unfold fetch_result, memc_call, mbind, M_bind.
  destruct (memcached_fetch_result (w_memc w)) as [[[r|] rc] m] eqn:E; cbn [fst].
  - apply fetch_pending in E. destruct (IH (with_memc m w)) as [m' ->]; [simpl; lia|].
    by exists m'.
  - by exists m.
Qed.

(** *** Results that are all delivered and all decoded *)
Inductive delivers (m : MC) : list memcached_result → memcached_return → MC → Prop :=
| delivers_end rc m' :
    memcached_fetch_result m = (None, rc, m') → delivers m [] rc m'
| delivers_result r rc m1 rs rc' m' :
    memcached_fetch_result m = (Some r, rc, m1) → s_memcached_return_is_error rc false = false →
    delivers m1 rs rc' m' → delivers m (r :: rs) rc' m'.

Lemma delivers_pending m rs rc m' : delivers m rs rc m' → (length rs <= memcached_pending m)%nat.
Proof.
  induction 1 as [|m r rc m1 rs rc' m' E _ _ IH]; simpl; [lia|].
  apply fetch_pending in E. lia.
Qed.

(** Under the settings [ud] the result is read as [v] and nothing else happens. *)
Definition decodes (ud : php_memc_user_data_t) (r : memcached_result) (v : zval) : Prop :=
  ∀ w, w_ud w = ud → s_memcached_result_to_zval r w = Ret (Some v) w.

(** A result function that only folds over its context and goes on. *)
Lemma result_loop_fold {A} (step : memcached_result → zval → A → A) (fn : result_apply_fn A)
    fetch_delay fuel status ctx w m rs vs rc m' :
  (∀ r v c, fn (result_key r) v (s_uint64_to_zval (result_cas r)) (result_flags r) c
            = mret (true, step r v c)) →
  delivers m rs rc m' → Forall2 (decodes (w_ud w)) rs vs → (length rs < fuel)%nat →
  result_loop fn fetch_delay fuel status ctx (with_memc m w)
  = Ret (if s_memcached_return_is_error rc false then rc else status,
         foldl (λ c rv, step rv.1 rv.2 c) ctx (zip rs vs)) (with_memc m' w).
Proof.
  intros Hfn Hd. revert fuel status ctx vs.
  induction Hd as [m rc m' E|m r rc0 m1 rs rc m' E Herr Hd IH];
    intros fuel status ctx vs Hdec Hf; (destruct fuel as [|fuel]; [simpl in Hf; lia|]);
    cbn [result_loop]; unfold fetch_result, memc_call;
    unfold mbind at 1, M_bind at 1; cbn [w_memc with_memc]; rewrite E.
  - apply Forall2_nil_inv_l in Hdec as ->. done.
  - apply Forall2_cons_inv_l in Hdec as (v & vs' & Hv & Hvs & ->). rewrite Herr.
    specialize (Hv (with_memc m1 w) eq_refl).
    change (with_memc m1 (with_memc m w)) with (with_memc m1 w).
    rewrite (bind_Ret _ _ _ _ _ Hv), Hfn. rewrite ret_bind. cbn [negb].
    rewrite (IH fuel status _ vs') by (done || (simpl in Hf; lia)). done.
Qed.

(** A result function that stops at the first result. *)
Lemma result_loop_first {A} (fn : result_apply_fn A) fetch_delay fuel status ctx ctx' w m r rc m1 v :
  memcached_fetch_result m = (Some r, rc, m1) → s_memcached_return_is_error rc false = false →
  decodes (w_ud w) r v →
  fn (result_key r) v (s_uint64_to_zval (result_cas r)) (result_flags r) ctx = mret (false, ctx') →
  ∃ m', result_loop fn fetch_delay (S fuel) status ctx (with_memc m w)
        = Ret (status, ctx') (with_memc m' w) ∧ (fetch_delay = true → m' = m1).
Proof.
  intros E Herr Hv Hfn. cbn [result_loop]. unfold fetch_result, memc_call.
  unfold mbind at 1, M_bind at 1; cbn [w_memc with_memc]. rewrite E, Herr.
  specialize (Hv (with_memc m1 w) eq_refl).
    change (with_memc m1 (with_memc m w)) with (with_memc m1 w).
  rewrite (bind_Ret _ _ _ _ _ Hv), Hfn, ret_bind. cbn [negb].
  destruct fetch_delay; cbn [negb when].
  - exists m1. done.
  - rewrite bind_assoc, gets_bind.
    destruct (drain_total (fetch_fuel (with_memc m1 w)) (with_memc m1 w)) as [m' E'];
      [unfold fetch_fuel; lia|].
    rewrite (bind_Ret _ _ _ _ _ E'). by exists m'.
Qed.

(** *** Reading a payload only warns or throws *)
Lemma result_to_zval_preserves {B} (f : world MC → B) r :
  (∀ s w, f (with_warning s w) = f w) → (∀ b w, f (with_exception b w) = f w) →
  preserves f (s_memcached_result_to_zval r).
Proof.
  intros Hw Hx.
  assert (∀ b, preserves f (raise_if (MC := MC) b)) as Hr
    by (intros b; apply preserves_modify; auto).
  assert (∀ s fl, preserves f (s_decompress_value s fl)) as Hd
    by (intros s fl; unfold s_decompress_value; preserve).
  assert (∀ n fl s, preserves f (payload_to_zval n fl s)) as Hp
    by (intros n fl s; unfold payload_to_zval, s_unserialize_value; preserve).
  unfold s_memcached_result_to_zval. preserve.
Qed.

Lemma result_to_zval_fuel r w : s_memcached_result_to_zval r w ≠ NoFuel.
Proof.
  assert (∀ s fl w, s_decompress_value s fl w ≠ NoFuel) as Hd.
  { intros s fl w'. unfold s_decompress_value. mrun. repeat case_match; try done.
    match goal with E : fastlz_decompress ?i ?n ?m = FuelOut |- _ =>
      destruct (fastlz_decompress_result i n m (bytes_of_string_u8 _)) as [F _]; done end. }
  assert (∀ n fl s w, payload_to_zval n fl s w ≠ NoFuel) as Hp.
  { intros n fl s w'. unfold payload_to_zval, s_unserialize_value, raise_if. mrun.
    repeat case_match; done. }
  unfold s_memcached_result_to_zval, mbind, M_bind.
  repeat case_match; try done; try apply Hp;
    match goal with E : s_decompress_value _ _ _ = NoFuel |- _ => by apply Hd in E end.
Qed.

(** A result function that does not loop and asks for nothing more. *)
Definition fn_settles {A} (fn : result_apply_fn A) : Prop :=
  ∀ key v cas fl ctx w,
    fn key v cas fl ctx w ≠ NoFuel
    ∧ ∀ a w', fn key v cas fl ctx w = Ret a w' →
        (memcached_pending (w_memc w') <= memcached_pending (w_memc w))%nat.

Lemma drain_fuel n w : (memcached_pending (w_memc w) < n)%nat → drain n w ≠ NoFuel.
Proof. intros Hn. by destruct (drain_total n w Hn) as [m' ->]. Qed.

Lemma result_loop_fuel {A} (fn : result_apply_fn A) fetch_delay n status ctx w :
  fn_settles fn → (memcached_pending (w_memc w) < n)%nat →
  result_loop fn fetch_delay n status ctx w ≠ NoFuel.
Proof.
  intros Hfn. revert status ctx w. induction n as [|n IH]; intros status ctx w Hn; [lia|].
  cbn [result_loop]. unfold fetch_result, memc_call. unfold mbind at 1, M_bind at 1.
  destruct (memcached_fetch_result (w_memc w)) as [[[r|] rc] m] eqn:E; [|done].
  apply fetch_pending in E.
  set (w1 := with_memc m w).
  unfold mbind at 1, M_bind at 1.
  destruct (s_memcached_result_to_zval r w1) as [o w2| | |] eqn:Er; try done;
    [|by apply result_to_zval_fuel in Er].
  assert (w_memc w2 = m) as Hm
    by (by rewrite (result_to_zval_preserves w_memc r ltac:(done) ltac:(done) _ _ _ Er)).
  destruct o as [v|].
  - unfold mbind at 1, M_bind at 1.
    destruct (Hfn (result_key r) v (s_uint64_to_zval (result_cas r)) (result_flags r) ctx w2)
      as [Hf1 Hf2].
    destruct (fn _ _ _ _ _ w2) as [[go ctx'] w3| | |]; try done.
    specialize (Hf2 _ _ eq_refl). rewrite Hm in Hf2. destruct go; cbn [negb].
    + apply IH. lia.
    + destruct fetch_delay; cbn [negb when]; [done|].
      rewrite bind_assoc, gets_bind. unfold mbind, M_bind, fetch_fuel.
      pose proof (drain_fuel (S (memcached_pending (w_memc w3))) w3 ltac:(lia)) as Hdr.
      by destruct (drain _ w3).
  - rewrite gets_bind. destruct (w_exception w2); [done|]. apply IH. rewrite Hm. lia.
Qed.
End Loops.

(** C29: reading results always stops.  When every result delivered leaves fewer to
    deliver, the fuel of [php_memc_result_apply], one turn per pending result and
    one more, is enough: for any result function that itself stops and requests
    nothing, and for any result bytes, compressed ones included. *)
Theorem php_memc_result_apply_terminates {MC} `{ZendRuntime} `{BuildConfig} `{FetchLaws MC}
    `{MemcachedControl MC} {A} (fn : result_apply_fn (MC := MC) A) fetch_delay ctx (w : world MC) :
  fn_settles fn → php_memc_result_apply fn fetch_delay ctx w ≠ NoFuel.
Proof.
  intros Hfn. unfold php_memc_result_apply. rewrite gets_bind.
  apply result_loop_fuel; [done|]. unfold fetch_fuel. lia.
Qed.

Lemma get_multi_settles {MC} `{ZendRuntime} `{MemcachedRetrieval MC} extended :
  fn_settles (MC := MC) (s_get_multi_apply_fn extended).
Proof. intros key v cas fl ctx w. split; [done|]. intros a w' [= _ <-]. lia. Qed.

Lemma php_memc_result_apply_terminates_witness :
  php_memc_result_apply (s_get_multi_apply_fn false) false []
    (toy_world (t_set_pending (toy_results None ["a"%string]
       (t_set_item ("a", "a")%string (mkItem "v" 0 1 0) toy_new)) toy_new)) ≠ NoFuel.
Proof. apply php_memc_result_apply_terminates. apply get_multi_settles. Defined.

(** ** The CAS switch of [php_memc_mget_apply] *)

(** Setting SUPPORT_CAS, a flag, to 0 or 1 works, and no other call of the read
    path changes it. *)
Class CasSwitchLaws (MC : Type) `{MemcachedNumbers} `{MemcachedControl MC}
    `{MemcachedRetrieval MC} : Prop := {
  support_cas_set m v :
    v = 0 ∨ v = 1 →
    behavior_get (memcached_behavior_set m (behavior_num BEHAVIOR_SUPPORT_CAS) v).2
      BEHAVIOR_SUPPORT_CAS = v;
  support_cas_mget m keys :
    behavior_get (memcached_mget m keys).2 BEHAVIOR_SUPPORT_CAS = behavior_get m BEHAVIOR_SUPPORT_CAS;
  support_cas_mget_by_key m sk keys :
    behavior_get (memcached_mget_by_key m sk keys).2 BEHAVIOR_SUPPORT_CAS
    = behavior_get m BEHAVIOR_SUPPORT_CAS;
  support_cas_fetch m :
    behavior_get (memcached_fetch_result m).2 BEHAVIOR_SUPPORT_CAS = behavior_get m BEHAVIOR_SUPPORT_CAS;
  support_cas_quit m :
    behavior_get (memcached_quit m) BEHAVIOR_SUPPORT_CAS = behavior_get m BEHAVIOR_SUPPORT_CAS
}.

#[export] Instance ToyCasSwitchLaws : CasSwitchLaws toy.
Proof.
  constructor; unfold behavior_get; simpl; try done.
  - intros m v _. by rewrite lookup_insert_eq.
  - intros m keys. unfold toy_mget, toy_cmd. simpl. repeat case_match; done.
  - intros m sk keys. unfold toy_mget, toy_cmd. simpl. repeat case_match; done.
  - intros m. by destruct (t_pending m) as [|[r rc] p].
Qed.

Section CasSwitch.
Context {MC : Type} `{ZendRuntime} `{BuildConfig} `{CasSwitchLaws MC}.
Implicit Types w : world MC.

Definition support_cas w : Z := behavior_get (w_memc w) BEHAVIOR_SUPPORT_CAS.

Lemma fetch_keeps_cas : preserves support_cas fetch_result.
Proof. apply preserves_memc_call. intros w. apply support_cas_fetch. Qed.

Lemma drain_keeps_cas n : preserves support_cas (drain n).
Proof.
  induction n as [|n IH]; cbn [drain]; [auto with memc|].
  apply preserves_bind; [apply fetch_keeps_cas|]. intros r. case_match; [done|auto with memc].
Qed.

Lemma result_apply_keeps_cas {A} (fn : result_apply_fn A) fetch_delay ctx :
  (∀ key v cas fl c, preserves support_cas (fn key v cas fl c)) →
  preserves support_cas (php_memc_result_apply fn fetch_delay ctx).
Proof.
  intros Hfn. apply preserves_bind; [auto with memc|]. intros n.
  generalize MEMCACHED_SUCCESS. revert ctx.
  induction n as [|n IH]; intros ctx status; cbn [result_loop]; [auto with memc|].
  apply preserves_bind; [apply fetch_keeps_cas|]. intros [[r|] rc]; [|auto with memc].
  apply preserves_bind; [by apply result_to_zval_preserves|]. intros [v|].
  - apply preserves_bind; [apply Hfn|]. intros [[] c]; cbn [negb]; [apply IH|].
    apply preserves_bind; [|auto with memc]. apply preserves_when.
    apply preserves_bind; [auto with memc|]. intros k. apply drain_keeps_cas.
  - apply preserves_bind; [auto with memc|]. intros []; [|apply IH].
    apply preserves_bind; [|auto with memc]. apply preserves_modify.
    intros w. apply support_cas_quit.
Qed.

Lemma set_cas_run v w :
  v = 0 ∨ v = 1 →
  ∃ rc m, set_behavior BEHAVIOR_SUPPORT_CAS v w = Ret rc (with_memc m w)
          ∧ behavior_get m BEHAVIOR_SUPPORT_CAS = v.
Proof.
  intros Hv. unfold set_behavior, memc_call.
  pose proof (support_cas_set (w_memc w) v Hv) as E. destruct (memcached_behavior_set _ _ _) as [rc m].
  by exists rc, m.
Qed.

Lemma mget_command_keeps_cas sk keys :
  preserves support_cas (memc_call (λ m,
    match sk with
    | Some sk => memcached_mget_by_key m sk keys
    | None => memcached_mget m keys
    end)).
Proof.
  apply preserves_memc_call. intros w. unfold support_cas. simpl.
  destruct sk; [apply support_cas_mget_by_key|apply support_cas_mget].
Qed.

(** What follows the request: the results, if there are to be any. *)
Lemma mget_tail_keeps_cas {A} (fn : option (result_apply_fn A)) (ok : bool) ctx :
  (∀ f key v cas fl c, fn = Some f → preserves support_cas (f key v cas fl c)) →
  preserves support_cas
    (if negb ok then mret (false, ctx)
     else match fn with
          | None => mret (true, ctx)
          | Some fn =>
              r ← php_memc_result_apply fn false ctx;
              let '(status, ctx) := (r : memcached_return * A) in
              ok ← s_memc_status_handle_result_code status;
              mret (ok, ctx)
          end).
Proof.
  intros Hfn. destruct (negb ok); [auto with memc|]. destruct fn as [f|]; [|auto with memc].
  apply preserves_bind; [apply result_apply_keeps_cas; eauto|]. intros [st c].
  apply preserves_bind; [by apply (preserves_handle_result_code support_cas)|auto with memc].
Qed.
End CasSwitch.

(** C18: an extended read switches CAS support on for the request and puts it back.
    Whatever happens in between (no keys, a request that fails, results that
    cannot be decoded, an exception), [SUPPORT_CAS] is afterwards what it was,
    provided the result function leaves it alone. *)
Theorem mget_apply_restores_cas {MC} `{ZendRuntime} `{BuildConfig} `{CasSwitchLaws MC}
    {A} sk keys (fn : option (result_apply_fn A)) with_cas ctx (w w' : world MC) r :
  (∀ f key v cas fl c, fn = Some f → preserves support_cas (f key v cas fl c)) →
  php_memc_mget_apply sk keys fn with_cas ctx w = Ret r w' →
  support_cas w' = support_cas w.
Proof.
  intros Hfn R. unfold php_memc_mget_apply in R.
  rewrite (bind_Ret _ _ _ _ _ (set_status_run MEMCACHED_SUCCESS 0 w)) in R.
  set (w0 := with_obj _ w) in R. change (support_cas w) with (support_cas w0). clearbody w0.
  destruct (bool_decide (keys = [])).
  { apply bind_inv in R as ([] & w1 & R & R2). injection R2 as _ <-.
    revert R. apply (preserves_set_rescode support_cas). done. }
  rewrite gets_bind in R.
  destruct (with_cas && _) eqn:Esw.
  - apply andb_true_iff in Esw as [-> E0]. apply Z.eqb_eq in E0.
    cbn [when] in R. rewrite bind_assoc in R.
    destruct (set_cas_run 1 w0 (or_intror eq_refl)) as (rc1 & m1 & E1 & _). rewrite (bind_Ret _ _ _ _ _ E1) in R.
    rewrite ret_bind in R. apply bind_inv in R as (st & w2 & _ & R).
    apply bind_inv in R as (ok & w3 & _ & R).
    rewrite bind_assoc, E0 in R. destruct (set_cas_run 0 w3 (or_introl eq_refl)) as (rc2 & m2 & E2 & Hm2).
    rewrite (bind_Ret _ _ _ _ _ E2), ret_bind in R.
    assert (support_cas (with_memc m2 w3) = support_cas w0) as E3
      by (unfold support_cas at 1; cbn; rewrite Hm2; done).
    rewrite <- E3. by apply (mget_tail_keeps_cas fn ok ctx Hfn) in R.
  - cbn [when] in R. rewrite ret_bind in R.
    apply bind_inv in R as (st & w2 & R1 & R). apply mget_command_keeps_cas in R1. rewrite <- R1.
    apply bind_inv in R as (ok & w3 & R2 & R).
    apply (preserves_handle_result_code support_cas) in R2; [|done]. rewrite <- R2.
    rewrite ret_bind in R. by apply (mget_tail_keeps_cas fn ok ctx Hfn) in R.
Qed.

Lemma mget_apply_restores_cas_witness :
  let w := toy_world toy_new in
  ∃ r w', php_memc_mget_apply None ["a"%string] (Some (s_get_apply_fn true)) true ZNull w = Ret r w'
          ∧ support_cas w' = support_cas w.
Proof.
  set (w := toy_world toy_new).
  assert (∃ r w', php_memc_mget_apply None ["a"%string] (Some (s_get_apply_fn true)) true ZNull w
                  = Ret r w') as (r & w' & E) by (eexists _, _; vm_compute; reflexivity).
  exists r, w'. split; [exact E|].
  refine (mget_apply_restores_cas None ["a"%string] (Some (s_get_apply_fn true)) true ZNull w w' r _ E).
  intros f key v cas fl c [= <-] w1 a w2 [= _ <-]. reflexivity.
Defined.
