(* ===== verification/FetchResults.v ===== *)
(** * Reading: what the get methods return *)

From S2P Require Import Prelude CLib Flags Zend LibMemcached World Toy Keys CasToken Payload PayloadProofs Store StoreProofs Fetch FetchProofs.
#[local] Open Scope Z_scope.

(** The world after a reset status and an answered request. *)
Definition after_request {MC} `{MemcachedControl MC} (rc : memcached_return) (m : MC) (w : world MC)
    : world MC :=
  with_obj (result_obj rc m (w_obj w)) (with_memc m w).

Section Results.
Context {MC : Type} `{ZendLaws} `{BuildConfig} `{MemcachedNumbers}
  `{MemcachedControl MC} `{MemcachedStorage MC} `{MemcachedRetrieval MC} `{!FetchLaws MC}.
Implicit Types w : world MC.

(** A request without CAS, as far as the results. *)
Lemma mget_apply_run {A} keys (fn : result_apply_fn A) ctx w rc m st c w2 :
  keys ≠ [] → memcached_mget (w_memc w) keys = (rc, m) →
  s_memcached_return_is_error rc true = false →
  php_memc_result_apply fn false ctx (after_request rc m w) = Ret (st, c) w2 →
  php_memc_mget_apply None keys (Some fn) false ctx w
  = Ret (negb (s_memcached_return_is_error st true), c)
      (with_obj (result_obj st (w_memc w2) (w_obj w2)) w2).
Proof.
  intros Hk Hm Hrc R. unfold php_memc_mget_apply.
  rewrite (bind_Ret _ _ _ _ _ (set_status_run MEMCACHED_SUCCESS 0 w)).
  rewrite bool_decide_false by done. rewrite gets_bind. cbn [andb when]. rewrite ret_bind.
  unfold memc_call. unfold mbind at 1, M_bind at 1. cbn [w_memc with_obj]. rewrite Hm.
  rewrite (bind_Ret _ _ _ _ _ (handle_result_code_run rc _)), Hrc. cbn [negb]. rewrite ret_bind.
  unfold after_request, result_obj in *. cbn [is_pristine w_obj with_obj with_memc] in *.
  rewrite (bind_Ret _ _ _ _ _ R).
  by rewrite (bind_Ret _ _ _ _ _ (handle_result_code_run st _)).
Qed.

(** The handle the request of an extended read is made on, and the one whose
    results are read: CAS support is on for the request alone. *)
Definition asked_on (m : MC) : MC :=
  if behavior_get m BEHAVIOR_SUPPORT_CAS =? 0
  then (memcached_behavior_set m (behavior_num BEHAVIOR_SUPPORT_CAS) 1).2 else m.

Definition answered_on (m m' : MC) : MC :=
  if behavior_get m BEHAVIOR_SUPPORT_CAS =? 0
  then (memcached_behavior_set m' (behavior_num BEHAVIOR_SUPPORT_CAS) 0).2 else m'.

Lemma set_behavior_do b v w :
  (set_behavior b v;; mret tt) w
  = Ret tt (with_memc (memcached_behavior_set (w_memc w) (behavior_num b) v).2 w).
Proof.
  unfold set_behavior, memc_call, mbind, M_bind.
  by destruct (memcached_behavior_set (w_memc w) (behavior_num b) v).
Qed.

(** A request with CAS, as far as the results. *)
Lemma mget_apply_run_cas {A} keys (fn : result_apply_fn A) ctx w rc m st c w2 :
  keys ≠ [] → memcached_mget (asked_on (w_memc w)) keys = (rc, m) →
  s_memcached_return_is_error rc true = false →
  php_memc_result_apply fn false ctx
    (with_obj (result_obj rc m (w_obj w)) (with_memc (answered_on (w_memc w) m) w)) = Ret (st, c) w2 →
  php_memc_mget_apply None keys (Some fn) true ctx w
  = Ret (negb (s_memcached_return_is_error st true), c)
      (with_obj (result_obj st (w_memc w2) (w_obj w2)) w2).
Proof.
  intros Hk Hm Hrc R. unfold php_memc_mget_apply.
  rewrite (bind_Ret _ _ _ _ _ (set_status_run MEMCACHED_SUCCESS 0 w)).
  rewrite bool_decide_false by done. rewrite gets_bind. cbn [andb w_memc with_obj].
  unfold asked_on in Hm. unfold answered_on in R.
  destruct (behavior_get (w_memc w) BEHAVIOR_SUPPORT_CAS =? 0) eqn:E0; cbn [when];
    rewrite ?(bind_Ret _ _ _ _ _ (set_behavior_do _ _ _)), ?ret_bind;
    unfold memc_call; unfold mbind at 1, M_bind at 1; cbn [w_memc with_obj with_memc]; rewrite Hm;
    rewrite (bind_Ret _ _ _ _ _ (handle_result_code_run rc _)), Hrc; cbn [negb when];
    rewrite ?(bind_Ret _ _ _ _ _ (set_behavior_do _ _ _)), ?ret_bind;
    unfold result_obj in *; cbn [is_pristine w_obj w_memc with_obj with_memc] in *.
  - apply Z.eqb_eq in E0. rewrite E0.
    unfold with_obj, with_memc in *. cbn in *. rewrite (bind_Ret _ _ _ _ _ R).
    by rewrite (bind_Ret _ _ _ _ _ (handle_result_code_run st _)).
  - unfold with_obj, with_memc in *. cbn in *. rewrite (bind_Ret _ _ _ _ _ R).
    by rewrite (bind_Ret _ _ _ _ _ (handle_result_code_run st _)).
Qed.

(** The last value delivered under a key. *)
Definition last_value (rvs : list (memcached_result * zval)) (k : string) : option zval :=
  foldl (λ acc rv, if decide (result_key rv.1 = k) then Some rv.2 else acc) None rvs.

Definition put_value (a : zarray) (rv : memcached_result * zval) : zarray :=
  arr_update a (symtable_key (result_key rv.1)) rv.2.

Lemma find_put_values rvs a k :
  arr_find (foldl put_value a rvs) (symtable_key k)
  = match last_value rvs k with Some v => Some v | None => arr_find a (symtable_key k) end.
Proof.
  unfold last_value. revert a.
  induction rvs as [|rv rvs IH] using rev_ind; intros a; [done|].
  rewrite !foldl_app. cbn [foldl]. unfold put_value at 1. rewrite arr_find_update.
  destruct (decide (result_key rv.1 = k)) as [->|Hne].
  - by rewrite decide_True.
  - rewrite decide_False by (intros E%(inj symtable_key); done). apply IH.
Qed.

Lemma keys_put_values rvs a :
  (∀ rv, rv ∈ rvs → symtable_key (result_key rv.1) ∈ arr_keys a) →
  arr_keys (foldl put_value a rvs) = arr_keys a.
Proof.
  revert a. induction rvs as [|rv rvs IH]; intros a Hin; [done|]. cbn [foldl].
  assert (arr_keys (put_value a rv) = arr_keys a) as E
    by (apply arr_keys_update_in, Hin; left).
  rewrite IH; [done|]. intros rv' Hrv. rewrite E. apply Hin. by right.
Qed.

Lemma find_nulls ks k :
  arr_find (foldl (λ a k, arr_update a (symtable_key k) ZNull) [] ks) (symtable_key k)
  = if decide (k ∈ ks) then Some ZNull else None.
Proof.
  induction ks as [|x ks IH] using rev_ind.
  - by rewrite decide_False by (by intros ?%elem_of_nil).
  - rewrite foldl_app. cbn [foldl]. rewrite arr_find_update.
    destruct (decide (x = k)) as [->|Hne].
    + rewrite decide_True by done. rewrite decide_True; [done|].
      apply elem_of_app. right. by apply list_elem_of_singleton.
    + rewrite decide_False by (intros E%(inj symtable_key); done). rewrite IH.
      apply decide_ext. rewrite elem_of_app, list_elem_of_singleton.
      split; [by left|by intros [?| ->]].
Qed.

(** The results put into the array getMulti starts from. *)
Lemma put_values_spec (ordered : bool) asked rs vs a0 :
  a0 = (if ordered then foldl (λ a k, arr_update a (symtable_key k) ZNull) [] asked else []) →
  (∀ k, arr_find (foldl put_value a0 (zip rs vs)) (symtable_key k)
        = match last_value (zip rs vs) k with
          | Some v => Some v
          | None => if decide (ordered = true ∧ k ∈ asked) then Some ZNull else None
          end)
  ∧ (ordered = true → (∀ r, r ∈ rs → result_key r ∈ asked) →
       arr_keys (foldl put_value a0 (zip rs vs)) = first_occurrences (symtable_key <$> asked)).
Proof.
  intros Ea0. split.
  - intros k. rewrite find_put_values. destruct (last_value _ k); [done|]. rewrite Ea0.
    destruct ordered.
    + rewrite find_nulls. apply decide_ext. split; [by split|by intros []].
    + by rewrite decide_False by (by intros [? _]).
  - intros Ho Hin. rewrite keys_put_values, Ea0, Ho; [apply foldl_null_keys|].
    intros [r v] Hrv%elem_of_zip_l. rewrite Ea0, Ho, foldl_null_keys.
    destruct (foldl_occurrences (symtable_key <$> asked) [] (NoDup_nil_2)) as [_ Hocc].
    apply Hocc. right. apply list_elem_of_fmap_2. by apply Hin.
Qed.

(** The run of getMulti whose request is answered. *)
Lemma getMulti_run keys flags w rc1 m1 rs vs rc m :
  let '(wanted, a0) := s_hash_to_keys keys (has_bit flags MEMC_GET_PRESERVE_ORDER) (Some []) in
  has_bit flags MEMC_GET_EXTENDED = false → w_exception w = false →
  wanted ≠ [] → memcached_mget (w_memc w) wanted = (rc1, m1) →
  s_memcached_return_is_error rc1 true = false →
  delivers m1 rs rc m → Forall2 (decodes (MC := MC) (w_ud w)) rs vs →
  s_memcached_return_is_error rc true = false ∨ rc = MEMCACHED_NOTFOUND ∨ rc = MEMCACHED_SOME_ERRORS →
  ∃ w', php_memc_getMulti_impl None keys flags w
        = Ret (ZArr (foldl put_value (default [] a0) (zip rs vs))) w'
    ∧ rescode (w_obj w') = (if s_memcached_return_is_error rc false then rc else MEMCACHED_SUCCESS)
    ∧ ∃ o, w' = with_obj o (with_memc m w).
Proof.
  destruct (s_hash_to_keys _ _ _) as [wanted rv] eqn:Ek. intros Hext Hx Hw Hm Hrc1 Hdel Hdec Hend.
  unfold php_memc_getMulti_impl.
  rewrite bool_decide_false by (intros ->; by injection Ek as <- _).
  rewrite (bind_Ret _ _ _ _ _ (set_status_run MEMCACHED_SUCCESS 0 w)).
  set (w0 := with_obj _ w). rewrite Hext, Ek. set (a0 := default [] rv).
  assert (w_memc w0 = w_memc w) as E0 by done. rewrite <- E0 in Hm.
  set (w1 := after_request rc1 m1 w0).
  assert (php_memc_result_apply (s_get_multi_apply_fn false) false a0 w1
    = Ret (if s_memcached_return_is_error rc false then rc else MEMCACHED_SUCCESS,
           foldl put_value a0 (zip rs vs)) (with_memc m w1)) as Hrun.
  { unfold php_memc_result_apply. rewrite gets_bind.
    change w1 with (with_memc m1 w1) at 2.
    pose proof (delivers_pending _ _ _ _ Hdel).
    eapply (result_loop_fold (λ r v a, arr_update a (symtable_key (result_key r)) v));
      [done|done|exact Hdec|]. unfold fetch_fuel. simpl. lia. }
  rewrite (bind_Ret _ _ _ _ _ (mget_apply_run _ _ _ _ _ _ _ _ _ Hw Hm Hrc1 Hrun)).
  unfold s_memc_status_has_result_code. rewrite !gets_bind. cbn [w_obj with_obj result_obj rescode].
  set (st := if s_memcached_return_is_error rc false then rc else MEMCACHED_SUCCESS).
  exists (with_obj (result_obj st m (w_obj w1)) (with_memc m w1)). split; [|by split; [|eexists]].
  assert (negb (negb (s_memcached_return_is_error st true))
          && (bool_decide (st = MEMCACHED_NOTFOUND) || bool_decide (st = MEMCACHED_SOME_ERRORS)) = true
          ∨ s_memcached_return_is_error st true = false) as [-> | Hst]; [|done|].
  { unfold st. destruct Hend as [E|[-> | ->]]; [right|by left|by right]. by destruct rc. }
  rewrite Hst. cbn [negb andb]. rewrite gets_bind. cbn [w_exception with_obj with_memc].
  change (w_exception w1) with (w_exception w). by rewrite Hx.
Qed.
End Results.

(** C17: what getMulti returns.  Suppose the request for the acceptable keys is
    answered, the handle delivers the results [rs] and then stops with [rc], and
    every result decodes.  The array maps each key to the last value delivered for
    it; with PRESERVE_ORDER a key that was asked for and not found is NULL, and
    the array's keys are the keys asked for, in the order of their first
    occurrence.  That holds when the end is clean and also, with the partial
    results, when it is NOTFOUND or SOME_ERRORS; the result code says which. *)
Theorem getMulti_result {MC} `{ZendLaws} `{BuildConfig} `{MemcachedNumbers}
    `{MemcachedControl MC} `{FetchLaws MC} keys flags (w : world MC) rc1 m1 rs vs rc m :
  let asked := zval_get_string <$> arr_vals keys in
  let wanted := filter (λ k, 0 < zstr_len k < MEMCACHED_MAX_KEY) asked in
  let ordered := has_bit flags MEMC_GET_PRESERVE_ORDER in
  has_bit flags MEMC_GET_EXTENDED = false → w_exception w = false →
  wanted ≠ [] → memcached_mget (w_memc w) wanted = (rc1, m1) →
  s_memcached_return_is_error rc1 true = false →
  delivers m1 rs rc m → Forall2 (decodes (MC := MC) (w_ud w)) rs vs →
  s_memcached_return_is_error rc true = false ∨ rc = MEMCACHED_NOTFOUND ∨ rc = MEMCACHED_SOME_ERRORS →
  ∃ a w', php_memc_getMulti_impl None keys flags w = Ret (ZArr a) w'
    ∧ rescode (w_obj w') = (if s_memcached_return_is_error rc false then rc
                            else MEMCACHED_SUCCESS)
    ∧ (∀ k, arr_find a (symtable_key k)
            = match last_value (zip rs vs) k with
              | Some v => Some v
              | None => if decide (ordered = true ∧ k ∈ asked) then Some ZNull else None
              end)
    ∧ (ordered = true → (∀ r, r ∈ rs → result_key r ∈ asked) →
         arr_keys a = first_occurrences (symtable_key <$> asked)).
Proof.
  intros asked wanted ordered Hext Hx Hw Hm Hrc1 Hdel Hdec Hend.
  pose proof (getMulti_run keys flags w rc1 m1 rs vs rc m) as Hrun.
  pose proof (s_hash_to_keys_keys keys ordered (Some [])) as Hk.
  destruct (s_hash_to_keys_array keys ordered) as (a0 & Ha0 & Ea0).
  fold ordered in Hrun. fold asked wanted in Hk. fold asked in Ea0.
  destruct (s_hash_to_keys keys ordered (Some [])) as [ks rv]. cbn [fst snd] in *. subst ks rv.
  destruct Hrun as (w' & R & Hrc & _); [done..|].
  eexists _, w'. split; [exact R|]. split; [done|]. by apply put_values_spec.
Qed.

Definition toy_two_items : world toy :=
  toy_world (t_set_item ("b", "b")%string (mkItem "2" 0 2 0)
               (t_set_item ("a", "a")%string (mkItem "1" 0 1 0) toy_new)).

Lemma toy_string_decodes k s cas :
  decodes (MC := toy) toy_ud (mkResult k (Bytes s) 0 cas) (ZStr s).
Proof. intros w _. reflexivity. Qed.

Lemma getMulti_result_witness :
  let asked := ["b"; "x"; "a"]%string in
  ∃ a w', php_memc_getMulti_impl None [(KInt 0, ZStr "b"); (KInt 1, ZStr "x"); (KInt 2, ZStr "a")]
            MEMC_GET_PRESERVE_ORDER toy_two_items = Ret (ZArr a) w'
    ∧ arr_keys a = [KStr "b"; KStr "x"; KStr "a"]
    ∧ arr_find a (KStr "x") = Some ZNull ∧ arr_find a (KStr "a") = Some (ZStr "1").
Proof.
  destruct (getMulti_result [(KInt 0, ZStr "b"); (KInt 1, ZStr "x"); (KInt 2, ZStr "a")]
    MEMC_GET_PRESERVE_ORDER toy_two_items MEMCACHED_SUCCESS
    (memcached_mget (w_memc toy_two_items) ["b"; "x"; "a"]%string).2
    [mkResult "b" (Bytes "2") 0 2; mkResult "a" (Bytes "1") 0 1] [ZStr "2"; ZStr "1"]
    MEMCACHED_END
    (t_set_pending [] (memcached_mget (w_memc toy_two_items) ["b"; "x"; "a"]%string).2))
    as (a & w' & E & _ & Hfind & Hkeys).
  - reflexivity.
  - reflexivity.
  - vm_compute. discriminate.
  - vm_compute. reflexivity.
  - reflexivity.
  - eapply delivers_result; [vm_compute; reflexivity|reflexivity|].
    eapply delivers_result; [vm_compute; reflexivity|reflexivity|].
    apply delivers_end. vm_compute. reflexivity.
  - apply List.Forall2_cons; [apply toy_string_decodes|].
    apply List.Forall2_cons; [apply toy_string_decodes|]. apply List.Forall2_nil.
  - left. reflexivity.
  - exists a, w'. split; [exact E|]. split; [|split].
    + rewrite Hkeys; [vm_compute; reflexivity|reflexivity|].
      intros r Hr. apply elem_of_cons in Hr as [->|Hr].
      * by left.
      * apply list_elem_of_singleton in Hr as ->. right. right. by left.
    + apply (Hfind "x"%string).
    + apply (Hfind "a"%string).
Defined.

(** ** set, then get *)

(** What a server promises: [stored] is the item a plain key holds.  A set that is
    not an error stores its payload and flags; an answered request for a key that
    holds an item delivers it first. *)
Class ServerLaws (MC : Type) `{MemcachedStorage MC} `{MemcachedRetrieval MC} : Type := {
  stored : MC → string → option (string * Z);
  set_stores m k p f rc m' :
    memcached_set m k p 0 f = (rc, m') → s_memcached_return_is_error rc true = false →
    stored m' k = Some (p, f);
  mget_delivers m k p f m' :
    stored m k = Some (p, f) → memcached_mget m [k] = (MEMCACHED_SUCCESS, m') →
    ∃ cas rc m1, memcached_fetch_result m' = (Some (mkResult k (Bytes p) f cas), rc, m1)
                 ∧ s_memcached_return_is_error rc false = false
}.

#[export] Instance ToyServerLaws : ServerLaws toy.
Proof.
  refine {| stored m k := it ← t_items m !! (k, k); mret (it_value it, it_flags it) |}.
  - intros m k p f rc m'. simpl. unfold toy_store, toy_cmd. simpl.
    destruct (t_script m) as [|rc0 s].
    + intros [= <- <-] _. unfold toy_write. cbn [t_items t_set_item t_add_log].
      by rewrite lookup_insert_eq.
    + destruct (s_memcached_return_is_error rc0 true) eqn:E; intros [= <- <-] Hrc.
      * congruence.
      * unfold toy_write. cbn [t_items t_set_item t_set_script t_add_log].
        by rewrite lookup_insert_eq.
  - intros m k p f m' Hs. simpl in *. unfold toy_mget, toy_cmd. cbn [t_script t_add_log].
    assert (∀ m0, t_items m0 = t_items m → t_pending (t_set_pending (toy_results None [k] m0) m0)
      = toy_results None [k] m) as Hres.
    { intros m0 E. unfold toy_results. simpl. by rewrite E. }
    destruct (t_items m !! (k, k)) as [it|] eqn:Ei; [|done]. injection Hs as <- <-.
    destruct (t_script m) as [|rc0 s].
    + intros [= <-]. exists (it_cas it), MEMCACHED_SUCCESS. rewrite Hres by done.
      unfold toy_results. cbn. rewrite Ei. cbn. by eexists.
    + destruct (s_memcached_return_is_error rc0 true) eqn:E; [by intros [= -> _]|]. intros [= <-].
      exists (it_cas it), MEMCACHED_SUCCESS. rewrite Hres by done.
      unfold toy_results. cbn. rewrite Ei. cbn. by eexists.
Defined.

(** The next result the handle delivers is [r]. *)
Definition delivers_first {MC} `{MemcachedRetrieval MC} (m : MC) (r : memcached_result) : Prop :=
  ∃ rc m1, memcached_fetch_result m = (Some r, rc, m1) ∧ s_memcached_return_is_error rc false = false.

(** What a read with CAS relies on: [token] is the token the server keeps with an
    item.  A request made with SUPPORT_CAS on delivers it; switching the behavior
    changes no item, no token, and no result that is already there. *)
Class TokenLaws (MC : Type) `{MemcachedNumbers} `{MemcachedControl MC} `{ServerLaws MC} : Type := {
  token : MC → string → Z;
  mget_delivers_token m k p f m' :
    behavior_get m BEHAVIOR_SUPPORT_CAS ≠ 0 → stored m k = Some (p, f) →
    memcached_mget m [k] = (MEMCACHED_SUCCESS, m') →
    delivers_first m' (mkResult k (Bytes p) f (token m k));
  switch_keeps_items m v k :
    let m' := (memcached_behavior_set m (behavior_num BEHAVIOR_SUPPORT_CAS) v).2 in
    v = 0 ∨ v = 1 → stored m' k = stored m k ∧ token m' k = token m k;
  switch_keeps_results m v r :
    v = 0 ∨ v = 1 → delivers_first m r →
    delivers_first (memcached_behavior_set m (behavior_num BEHAVIOR_SUPPORT_CAS) v).2 r
}.

#[export] Instance ToyTokenLaws : TokenLaws toy.
Proof.
  refine {| token m k := default 0 (it_cas <$> t_items m !! (k, k)) |}.
  - intros m k p f m' _ Hs. simpl in *. unfold toy_mget, toy_cmd. cbn [t_script t_add_log].
    destruct (t_items m !! (k, k)) as [it|] eqn:Ei; [|done]. injection Hs as <- <-.
    assert (∀ m0, t_items m0 = t_items m → delivers_first (t_set_pending (toy_results None [k] m0) m0)
      (mkResult k (Bytes (it_value it)) (it_flags it) (it_cas it))) as Hres.
    { intros m0 E. eexists MEMCACHED_SUCCESS, _. unfold toy_results. simpl. rewrite E, Ei. by split. }
    destruct (t_script m) as [|rc0 s].
    + intros [= <-]. by apply Hres.
    + destruct (s_memcached_return_is_error rc0 true) eqn:E; [by intros [= -> _]|]. intros [= <-].
      by apply Hres.
  - by intros m v k m' _.
  - intros m v r _ (rc & m1 & E & Hrc). unfold delivers_first. simpl in *.
    destruct (t_pending m) as [|[r0 rc0] p]; [done|]. injection E as -> -> _. by eexists rc, _.
Defined.

Section SetThenGet.
Context {MC : Type} `{ZendLaws} `{!CompressionLaws} `{BuildConfig}
  `{MemcachedNumbersLaws} `{MemcachedControl MC} `{ServerLaws MC} `{!FetchLaws MC}.
Implicit Types w : world MC.

(** What a successful set says: the payload made, and the item stored. *)
Lemma store_impl_success key v payload flags w w1 :
  let w0 := with_obj (mkObject MEMCACHED_SUCCESS 0 (is_pristine (w_obj w))) w in
  s_zval_to_payload v 0 w0 = Ret (Some (payload, flags)) w0 →
  php_memc_store_impl MEMC_OP_SET None key (Some v) 0 w = Ret ZTrue w1 →
  stored (w_memc w1) key = Some (payload, flags)
  ∧ w_ud w1 = w_ud w ∧ w_exception w1 = w_exception w.
Proof.
  intros w0 Hpay R. unfold php_memc_store_impl in R.
  rewrite (bind_Ret _ _ _ _ _ (set_status_run MEMCACHED_SUCCESS 0 w)) in R. fold w0 in R.
  apply bind_inv in R as (ok & w2 & R1 & R). rewrite check_key_run in R1.
  destruct (memc_key_ok _ key); injection R1 as <- <-; [|done]. cbn [negb] in R.
  rewrite gets_bind, bool_decide_false, andb_false_r in R by (intros [?|?]; done).
  apply bind_inv in R as (b & w2 & R1 & R). destruct b; [|done]. injection R as <-.
  assert (item_size_limit (w_ud w0) = 0 ∨ zstr_len payload <= u64 (item_size_limit (w_ud w0)))
    as Hbig.
  { cbn [s_memc_write_zval] in R1. rewrite (bind_Ret _ _ _ _ _ Hpay) in R1.
    unfold s_is_payload_too_big in R1. rewrite bind_assoc, gets_bind, ret_bind in R1.
    destruct (Z.eqb_spec (item_size_limit (w_ud w0)) 0); [by left|].
    destruct (zstr_len payload >? u64 (item_size_limit (w_ud w0))) eqn:E; [done|]. right. lia. }
  destruct (write_zval_attempts MEMC_OP_SET key v 0 payload flags w0 w0) as
    (k & rc & m & Ha & _ & _ & _ & R2); [done|done|done|].
  rewrite R2 in R1. injection R1 as Hrc <-. apply negb_true_iff in Hrc.
  destruct (nth_answer_call (write_command MEMC_OP_SET key payload 0 flags) k (w_memc w0))
    as [m0 Hm0]. rewrite Ha in Hm0. unfold write_command in Hm0.
  destruct (memcached_set m0 key payload 0 flags) as [rc0 m1] eqn:Eset.
  injection Hm0 as -> ->. split; [|done]. simpl.
  eapply set_stores; [exact Eset|]. by destruct rc0.
Qed.

Lemma key_to_keys_one key :
  1 <= zstr_len key <= 250 → s_key_to_keys key = [key].
Proof.
  intros Hk. unfold s_key_to_keys. rewrite s_hash_to_keys_keys.
  assert (zval_get_string <$> arr_vals (add_next_index [] (ZStr key)) = [key]) as ->
    by (simpl; by rewrite zval_get_string_str).
  by rewrite filter_cons_True by (rewrite max_key_251; lia).
Qed.

Lemma memc_key_ok_length m key :
  memc_key_ok m key = true → zstr_len key <= 250 → 1 <= zstr_len key <= 250.
Proof.
  intros Hok Hlen. unfold memc_key_ok in Hok. apply negb_true_iff, orb_false_iff in Hok as [Hok _].
  apply orb_false_iff in Hok as [Hok _]. unfold zstr_len in *. lia.
Qed.

(** get when the item is there. *)
Lemma get_impl_found key payload flags v w :
  stored (w_memc w) key = Some (payload, flags) →
  (∀ cas, decodes (MC := MC) (w_ud w) (mkResult key (Bytes payload) flags cas) v) →
  zstr_len key <= 250 → memc_key_ok (w_memc w) key = true →
  (memcached_mget (w_memc w) [key]).1 = MEMCACHED_SUCCESS →
  ∃ w2, php_memc_get_impl None key None 0 w = Ret v w2 ∧ rescode (w_obj w2) = MEMCACHED_SUCCESS.
Proof.
  intros Hst Hdec Hlen Hok Hm. unfold php_memc_get_impl.
  rewrite (bind_Ret _ _ _ _ _ (set_status_run MEMCACHED_SUCCESS 0 w)).
  set (w0 := with_obj _ w).
  assert (MEMC_CHECK_KEY key w0 = Ret true w0) as Hck
    by (rewrite check_key_run; change (w_memc w0) with (w_memc w); by rewrite Hok).
  rewrite (bind_Ret _ _ _ _ _ Hck). cbn [negb].
  rewrite key_to_keys_one by (by eapply memc_key_ok_length). change (has_bit 0 MEMC_GET_EXTENDED) with false.
  destruct (memcached_mget (w_memc w) [key]) as [rc m] eqn:Em. cbn [fst] in Hm. subst rc.
  destruct (mget_delivers _ _ _ _ _ Hst Em) as (cas & rc & m1 & Ef & Hrc).
  set (w1 := after_request MEMCACHED_SUCCESS m w0).
  destruct (result_loop_first (s_get_apply_fn false) false (memcached_pending m)
    MEMCACHED_SUCCESS ZNull v w1 m _ rc m1 v Ef Hrc (Hdec cas) eq_refl) as (m2 & R & _).
  assert (php_memc_result_apply (s_get_apply_fn false) false ZNull w1
          = Ret (MEMCACHED_SUCCESS, v) (with_memc m2 w1)) as R' by exact R.
  rewrite (bind_Ret _ _ _ _ _ (mget_apply_run [key] _ _ w0 _ _ _ _ _ ltac:(done) Em eq_refl R')).
  eexists. split; [reflexivity|done].
Qed.

(** The request of an extended read, on the handle with CAS support on. *)
Lemma asked_on_delivers `{!CasSwitchLaws MC} `{!TokenLaws MC} m key payload flags m' :
  stored m key = Some (payload, flags) → memcached_mget (asked_on m) [key] = (MEMCACHED_SUCCESS, m') →
  delivers_first (answered_on m m') (mkResult key (Bytes payload) flags (token m key)).
Proof.
  intros Hst. unfold asked_on, answered_on. case_match eqn:E0; intros Em.
  - apply switch_keeps_results; [by left|].
    destruct (switch_keeps_items m 1 key (or_intror eq_refl)) as [Es <-].
    eapply mget_delivers_token; [|by rewrite Es|exact Em].
    rewrite support_cas_set by (by right). done.
  - eapply mget_delivers_token; [|exact Hst|exact Em]. by apply Z.eqb_neq.
Qed.

(** get with GET_EXTENDED when the item is there. *)
Lemma get_impl_extended `{!CasSwitchLaws MC} `{!TokenLaws MC} key payload flags v w :
  stored (w_memc w) key = Some (payload, flags) →
  (∀ cas, decodes (MC := MC) (w_ud w) (mkResult key (Bytes payload) flags cas) v) →
  zstr_len key <= 250 → memc_key_ok (w_memc w) key = true →
  (memcached_mget (asked_on (w_memc w)) [key]).1 = MEMCACHED_SUCCESS →
  ∃ w2, php_memc_get_impl None key None MEMC_GET_EXTENDED w
        = Ret (extended_array v (s_uint64_to_zval (token (w_memc w) key)) flags) w2
    ∧ rescode (w_obj w2) = MEMCACHED_SUCCESS.
Proof.
  intros Hst Hdec Hlen Hok Hm. unfold php_memc_get_impl.
  rewrite (bind_Ret _ _ _ _ _ (set_status_run MEMCACHED_SUCCESS 0 w)).
  set (w0 := with_obj _ w).
  assert (MEMC_CHECK_KEY key w0 = Ret true w0) as Hck
    by (rewrite check_key_run; change (w_memc w0) with (w_memc w); by rewrite Hok).
  rewrite (bind_Ret _ _ _ _ _ Hck). cbn [negb].
  rewrite key_to_keys_one by (by eapply memc_key_ok_length).
  change (has_bit MEMC_GET_EXTENDED MEMC_GET_EXTENDED) with true.
  destruct (memcached_mget (asked_on (w_memc w)) [key]) as [rc m] eqn:Em. cbn [fst] in Hm. subst rc.
  destruct (asked_on_delivers _ _ _ _ _ Hst Em) as (rc & m1 & Ef & Hrc).
  set (w1 := with_obj (result_obj MEMCACHED_SUCCESS m (w_obj w0))
               (with_memc (answered_on (w_memc w0) m) w0)).
  set (va := extended_array v (s_uint64_to_zval (token (w_memc w) key)) flags).
  destruct (result_loop_first (s_get_apply_fn true) false (memcached_pending (w_memc w1))
    MEMCACHED_SUCCESS ZNull va w1 (w_memc w1) _ rc m1 v Ef Hrc (Hdec _) eq_refl) as (m2 & R & _).
  assert (php_memc_result_apply (s_get_apply_fn true) false ZNull w1
          = Ret (MEMCACHED_SUCCESS, va) (with_memc m2 w1)) as R' by exact R.
  rewrite (bind_Ret _ _ _ _ _
    (mget_apply_run_cas [key] _ _ w0 _ _ _ _ _ ltac:(done) Em eq_refl R')).
  eexists. split; [reflexivity|done].
Qed.
End SetThenGet.

(** C5: a value that was set is what get returns.  Let [set(key, v)] return TRUE
    for a value the storage format spells.  If the key passes the check and the
    request for it is answered, [get(key)] on the handle it left returns the value
    [v] is read back as, with the result code SUCCESS: whatever the serializer,
    the compression, and the number of retries it took.  With GET_EXTENDED, when
    the request made with CAS support on is answered, it returns the array of that
    value, the token the server keeps with the item and the user flags the handle
    was set to write (0 when none are set). *)
Theorem set_then_get {MC} `{ZendLaws} `{!CompressionLaws} `{BuildConfig}
    `{MemcachedNumbersLaws} `{MemcachedControl MC} `{ServerLaws MC} `{!FetchLaws MC}
    `{!CasSwitchLaws MC} `{!TokenLaws MC}
    key v type s comp v' (w w1 : world MC) :
  spells (serializer (w_ud w)) v type s comp v' → zstr_len s < 2 ^ 30 →
  w_exception w = false → zstr_len key <= 250 →
  php_memc_store_impl MEMC_OP_SET None key (Some v) 0 w = Ret ZTrue w1 →
  memc_key_ok (w_memc w1) key = true →
  ((memcached_mget (w_memc w1) [key]).1 = MEMCACHED_SUCCESS →
   ∃ w2, php_memc_get_impl None key None 0 w1 = Ret v' w2
     ∧ rescode (w_obj w2) = MEMCACHED_SUCCESS)
  ∧ ((memcached_mget (asked_on (w_memc w1)) [key]).1 = MEMCACHED_SUCCESS →
     ∃ w2, php_memc_get_impl None key None MEMC_GET_EXTENDED w1
           = Ret (ZArr [(KStr "value", v');
                        (KStr "cas", s_uint64_to_zval (token (w_memc w1) key));
                        (KStr "flags", ZLong (if set_udf_flags (w_ud w) >=? 0
                                              then set_udf_flags (w_ud w) mod 2 ^ 16 else 0))]) w2
       ∧ rescode (w_obj w2) = MEMCACHED_SUCCESS).
Proof.
  intros Hs Hlen Hx Hk Hset Hok.
  set (w0 := with_obj (mkObject MEMCACHED_SUCCESS 0 (is_pristine (w_obj w))) w).
  destruct (zval_to_payload_spells v type s comp v' w0 Hs Hlen Hx) as (p & fl & E & Hfl & Hp).
  destruct (stored_flags_fields type fl (w_ud w) (spells_type Hs) Hfl) as (_ & _ & _ & Hus).
  destruct (store_impl_success key v p _ w w1 E Hset) as (Hst & Hud & _).
  assert (∀ cas, decodes (MC := MC) (w_ud w1)
            (mkResult key (Bytes p) (stored_flags type fl (w_ud w)) cas) v') as Hdec.
  { intros cas w' Hw'. eapply (result_to_zval_spells v type s comp v'); [exact Hs| |done|done].
    by rewrite Hw', Hud. }
  split; intros Hm; [by eapply get_impl_found|].
  destruct (get_impl_extended key p _ v' w1 Hst Hdec Hk Hok Hm) as (w2 & R & Hrc).
  exists w2. split; [|done]. rewrite R. unfold extended_array. by rewrite <- Hus.
Qed.

Lemma set_then_get_witness :
  let w := with_ud toy_ud_compress (scripted [] 0) in
  let v := ZStr (repeat_char "a" 3000) in
  ∃ w1, php_memc_store_impl MEMC_OP_SET None "k" (Some v) 0 w = Ret ZTrue w1
    ∧ (∃ w2, php_memc_get_impl None "k" None 0 w1 = Ret v w2 ∧ rescode (w_obj w2) = MEMCACHED_SUCCESS)
    ∧ ∃ w2, php_memc_get_impl None "k" None MEMC_GET_EXTENDED w1
            = Ret (ZArr [(KStr "value", v); (KStr "cas", ZLong 1); (KStr "flags", ZLong 7)]) w2
      ∧ rescode (w_obj w2) = MEMCACHED_SUCCESS.
Proof.
  set (w := with_ud toy_ud_compress (scripted [] 0)).
  set (v := ZStr (repeat_char "a" 3000)).
  assert (∃ w1, php_memc_store_impl MEMC_OP_SET None "k" (Some v) 0 w = Ret ZTrue w1
    ∧ memc_key_ok (w_memc w1) "k" = true
    ∧ (memcached_mget (w_memc w1) ["k"%string]).1 = MEMCACHED_SUCCESS
    ∧ (memcached_mget (asked_on (w_memc w1)) ["k"%string]).1 = MEMCACHED_SUCCESS
    ∧ token (w_memc w1) "k" = 1) as (w1 & E & Hok & Hm & Hm' & Ht).
  { eexists. split; [vm_compute; reflexivity|].
    split; [vm_compute; reflexivity|]. split; [vm_compute; reflexivity|].
    split; [vm_compute; reflexivity|]. vm_compute. reflexivity. }
  exists w1. split; [exact E|].
  destruct (set_then_get "k" v MEMC_VAL_IS_STRING (repeat_char "a" 3000) true v w w1
    (spells_string _ _) ltac:(vm_compute; reflexivity) eq_refl ltac:(vm_compute; discriminate) E Hok)
    as [Hg Hx].
  split; [exact (Hg Hm)|]. destruct (Hx Hm') as (w2 & R & Hrc). rewrite Ht in R.
  exists w2. split; [exact R|exact Hrc].
Defined.

(** ** fetch and fetchAll *)

Definition indexed (l : list zval) : zarray := imap (λ i v, (KInt (Z.of_nat i), v)) l.

Lemma next_index_indexed l : next_index (indexed l) = Z.of_nat (length l).
Proof.
  unfold indexed. assert (∀ k, next_index (imap (λ i v, (KInt (Z.of_nat (k + i)), v)) l)
    = if decide (l = []) then 0 else Z.of_nat (k + length l)) as H.
  { induction l as [|v l IH]; intros k; [done|]. rewrite imap_cons. cbn [next_index].
    assert (imap ((λ i v0, (KInt (Z.of_nat (k + i)), v0)) ∘ S) l
            = imap (λ i v0, (KInt (Z.of_nat (S k + i)), v0)) l) as ->
      by (apply imap_ext; intros i x _; simpl; do 2 f_equal; lia).
    rewrite IH. destruct l; simpl; lia. }
  specialize (H O). simpl in H. rewrite H. by destruct l.
Qed.

Lemma foldl_add_next l : foldl add_next_index [] l = indexed l.
Proof.
  induction l as [|v l IH] using rev_ind; [done|].
  rewrite foldl_app, IH. cbn [foldl]. unfold add_next_index. rewrite next_index_indexed.
  unfold indexed. rewrite imap_app. simpl. by rewrite Nat.add_0_r.
Qed.

Definition result_array (rv : memcached_result * zval) : zarray :=
  s_create_result_array (result_key rv.1) rv.2 (s_uint64_to_zval (result_cas rv.1))
    (result_flags rv.1).

Lemma foldl_add_results rvs a :
  foldl (λ c rv, add_next_index c (ZArr (result_array (rv.1, rv.2)))) a rvs
  = foldl add_next_index a ((λ rv, ZArr (result_array rv)) <$> rvs).
Proof. revert a. induction rvs as [|[r v] rvs IH]; intros a; [done|]. apply IH. Qed.

(** C30: fetch takes one result of a delayed request at a time, fetchAll the rest.
    With the results [rs] pending, [fetch] returns the first one (key and value,
    and the CAS token and the user flags unless the token is 0) and leaves the
    others pending, in order; [fetchAll] returns them all in order, numbered from
    0, and leaves the handle at the end of the request. *)
Theorem fetch_takes_one_fetchAll_the_rest {MC} `{ZendRuntime} `{BuildConfig}
    `{MemcachedControl MC} `{FetchLaws MC} (w : world MC) r rs v vs rc m :
  decodes (MC := MC) (w_ud w) r v → Forall2 (decodes (MC := MC) (w_ud w)) rs vs →
  s_memcached_return_is_error rc true = false →
  (delivers (w_memc w) (r :: rs) rc m →
     ∃ w', Memcached_fetch w = Ret (ZArr (result_array (r, v))) w'
           ∧ delivers (w_memc w') rs rc m ∧ w_ud w' = w_ud w)
  ∧ (delivers (w_memc w) rs rc m →
     ∃ w', Memcached_fetchAll w
           = Ret (ZArr (indexed ((λ rv, ZArr (result_array rv)) <$> zip rs vs))) w'
           ∧ w_memc w' = m).
Proof.
  intros Hv Hvs Hrc. set (w0 := with_obj (mkObject MEMCACHED_SUCCESS 0 (is_pristine (w_obj w))) w).
  split; intros Hd.
  - inversion Hd as [|? rc0 m1 ? ? ? E Herr Hd']; subst.
    destruct (result_loop_first s_fetch_apply true (memcached_pending (w_memc w)) MEMCACHED_SUCCESS
      [] (result_array (r, v)) w0 (w_memc w) r rc0 m1 v E Herr Hv eq_refl) as (m2 & R & Hm2).
    specialize (Hm2 eq_refl) as ->.
    assert (php_memc_result_apply s_fetch_apply true [] w0
            = Ret (MEMCACHED_SUCCESS, result_array (r, v)) (with_memc m1 w0)) as R' by exact R.
    unfold Memcached_fetch. rewrite (bind_Ret _ _ _ _ _ (set_status_run MEMCACHED_SUCCESS 0 w)).
    fold w0. rewrite (bind_Ret _ _ _ _ _ R').
    rewrite (bind_Ret _ _ _ _ _ (handle_result_code_run MEMCACHED_SUCCESS _)).
    eexists. split; [reflexivity|]. by split.
  - pose proof (delivers_pending _ _ _ _ Hd) as Hp.
    pose proof (result_loop_fold
      (λ r v a, add_next_index a (ZArr (result_array (r, v)))) s_fetch_all_apply false
      (S (memcached_pending (w_memc w))) MEMCACHED_SUCCESS [] w0 (w_memc w) rs vs rc m
      (λ _ _ _, eq_refl) Hd Hvs ltac:(lia)) as R.
    assert (s_memcached_return_is_error rc false = false) as Hrc' by (by destruct rc).
    rewrite Hrc' in R.
    assert (foldl (λ c rv, add_next_index c (ZArr (result_array (rv.1, rv.2)))) [] (zip rs vs)
            = indexed ((λ rv, ZArr (result_array rv)) <$> zip rs vs)) as Ef.
    { rewrite <- foldl_add_next. apply foldl_add_results. }
    rewrite Ef in R.
    assert (php_memc_result_apply s_fetch_all_apply false [] w0
      = Ret (MEMCACHED_SUCCESS, indexed ((λ rv, ZArr (result_array rv)) <$> zip rs vs))
          (with_memc m w0)) as R' by exact R.
    unfold Memcached_fetchAll. rewrite (bind_Ret _ _ _ _ _ (set_status_run MEMCACHED_SUCCESS 0 w)).
    fold w0. rewrite (bind_Ret _ _ _ _ _ R').
    rewrite (bind_Ret _ _ _ _ _ (handle_result_code_run MEMCACHED_SUCCESS _)).
    eexists. split; [reflexivity|done].
Qed.

Definition toy_pending_result : memcached_result := mkResult "a" (Bytes "1") 0 7.
Definition toy_pending_world : world toy :=
  toy_world (t_set_pending [(Some toy_pending_result, MEMCACHED_SUCCESS); (None, MEMCACHED_END)]
               toy_new).

Lemma toy_pending_delivers :
  delivers (w_memc toy_pending_world) [toy_pending_result] MEMCACHED_END (t_set_pending [] toy_new).
Proof.
  apply (delivers_result _ _ MEMCACHED_SUCCESS
           (t_set_pending [(None, MEMCACHED_END)] toy_new)); [reflexivity|reflexivity|].
  apply delivers_end. reflexivity.
Qed.

Lemma fetch_takes_one_fetchAll_the_rest_witness :
  ∃ w', Memcached_fetch toy_pending_world
        = Ret (ZArr (result_array (toy_pending_result, ZStr "1"))) w'
    ∧ result_array (toy_pending_result, ZStr "1")
      = [(KStr "key", ZStr "a"); (KStr "value", ZStr "1"); (KStr "cas", ZLong 7);
         (KStr "flags", ZLong 0)]
    ∧ delivers (w_memc w') [] MEMCACHED_END (t_set_pending [] toy_new).
Proof.
  destruct (fetch_takes_one_fetchAll_the_rest toy_pending_world toy_pending_result [] (ZStr "1") []
    MEMCACHED_END (t_set_pending [] toy_new) (toy_string_decodes "a" "1" 7)
    (List.Forall2_nil _) eq_refl) as [Hf _].
  destruct (Hf toy_pending_delivers) as (w' & E & Hd & _).
  exists w'. split; [exact E|]. split; [reflexivity|exact Hd].
Defined.

(** ** Cache callbacks *)

(** [getByKey] with a cache callback does not store where it looked.  On a
    miss under server key "s" the callback's value is written by
    [s_memc_write_zval] without a server key: the next [getByKey] misses again,
    and a plain [get] finds the value. *)
Theorem getByKey_callback_stores_elsewhere :
  let cb : cache_callback := λ _ _, mret (Some (ZTrue, ZStr "fresh", ZNull)) in
  let w := toy_world toy_new in
  ∃ w', php_memc_get_impl (Some "s"%string) "k" (Some cb) 0 w = Ret (ZStr "fresh") w'
    ∧ (∃ w'', php_memc_get_impl (Some "s"%string) "k" None 0 w' = Ret ZFalse w'')
    ∧ (∃ w'', php_memc_get_impl None "k" None 0 w' = Ret (ZStr "fresh") w'').
Proof.
  eexists. split; [vm_compute; reflexivity|].
  split; (eexists; vm_compute; reflexivity).
Qed.

(** With GET_EXTENDED the cache callback's "cas" becomes the expiration.  The
    item a callback supplies as [value => "v", cas => 5] is stored with an
    expiration of 5 seconds and a token of the server's choosing. *)
Theorem extended_callback_cas_is_the_expiration :
  let cb : cache_callback := λ _ _,
    mret (Some (ZTrue, ZArr [(KStr "value", ZStr "v"); (KStr "cas", ZLong 5)], ZNull)) in
  ∃ w', php_memc_get_impl None "k" (Some cb) MEMC_GET_EXTENDED (toy_world toy_new)
        = Ret (ZArr [(KStr "value", ZStr "v"); (KStr "cas", ZLong 5)]) w'
    ∧ it_exp <$> t_items (w_memc w') !! ("k", "k")%string = Some 5
    ∧ it_cas <$> t_items (w_memc w') !! ("k", "k")%string = Some 1.
Proof.
  eexists. split; [vm_compute; reflexivity|]. split; vm_compute; reflexivity.
Qed.
