(* ===== verification/Options.v ===== *)
(** * Options: getOption, setOption, setOptions and setBucket

    The extension's own options live in the user data of the handle and have
    negative numbers; every other number is taken for a libmemcached behavior.
    Proved here: no option call can leave the user data in a state the payload
    code does not handle, and what was accepted is what is read back. *)

From S2P Require Import Prelude CLib Flags Zend LibMemcached World Toy Keys Payload.
#[local] Open Scope Z_scope.

Definition MEMC_OPT_COMPRESSION : Z := -1001.
Definition MEMC_OPT_PREFIX_KEY : Z := -1002.
Definition MEMC_OPT_SERIALIZER : Z := -1003.
Definition MEMC_OPT_COMPRESSION_TYPE : Z := -1004.
Definition MEMC_OPT_STORE_RETRY_COUNT : Z := -1005.
Definition MEMC_OPT_USER_FLAGS : Z := -1006.
Definition MEMC_OPT_COMPRESSION_LEVEL : Z := -1007.
Definition MEMC_OPT_ITEM_SIZE_LIMIT : Z := -1008.

(** The assignments to fields of the user data. *)
Definition set_compression_enabled (b : bool) (u : php_memc_user_data_t) : php_memc_user_data_t :=
  mkUserData (is_persistent u) b (encoding_enabled u) (serializer u) (compression_type u)
    (compression_level u) (store_retry_count u) (set_udf_flags u) (item_size_limit u)
    (has_sasl_data u).
Definition set_compression_type (z : Z) (u : php_memc_user_data_t) : php_memc_user_data_t :=
  mkUserData (is_persistent u) (compression_enabled u) (encoding_enabled u) (serializer u) z
    (compression_level u) (store_retry_count u) (set_udf_flags u) (item_size_limit u)
    (has_sasl_data u).
Definition set_compression_level (z : Z) (u : php_memc_user_data_t) : php_memc_user_data_t :=
  mkUserData (is_persistent u) (compression_enabled u) (encoding_enabled u) (serializer u)
    (compression_type u) z (store_retry_count u) (set_udf_flags u) (item_size_limit u)
    (has_sasl_data u).
Definition set_item_size_limit (z : Z) (u : php_memc_user_data_t) : php_memc_user_data_t :=
  mkUserData (is_persistent u) (compression_enabled u) (encoding_enabled u) (serializer u)
    (compression_type u) (compression_level u) (store_retry_count u) (set_udf_flags u) z
    (has_sasl_data u).
Definition set_serializer (z : Z) (u : php_memc_user_data_t) : php_memc_user_data_t :=
  mkUserData (is_persistent u) (compression_enabled u) (encoding_enabled u) z
    (compression_type u) (compression_level u) (store_retry_count u) (set_udf_flags u)
    (item_size_limit u) (has_sasl_data u).
Definition set_user_flags (z : Z) (u : php_memc_user_data_t) : php_memc_user_data_t :=
  mkUserData (is_persistent u) (compression_enabled u) (encoding_enabled u) (serializer u)
    (compression_type u) (compression_level u) (store_retry_count u) z (item_size_limit u)
    (has_sasl_data u).
Definition set_store_retry_count (z : Z) (u : php_memc_user_data_t) : php_memc_user_data_t :=
  mkUserData (is_persistent u) (compression_enabled u) (encoding_enabled u) (serializer u)
    (compression_type u) (compression_level u) z (set_udf_flags u) (item_size_limit u)
    (has_sasl_data u).

Section Options.
Context {MC : Type} `{ZendRuntime} `{BuildConfig} `{MemcachedNumbers} `{MemcachedControl MC}
  `{MemcachedBuckets MC}.
#[local] Abbreviation M := (M (world MC)).
Implicit Types w : world MC.

Definition update_ud (f : php_memc_user_data_t → php_memc_user_data_t) : M unit :=
  modify (λ w, with_ud (f (w_ud w)) w).

(** [(memcached_behavior) option]: the enumeration is an [unsigned int]. *)
Definition behavior_of_option (option : Z) : Z := u32 option.

Definition Memcached_getOption (option : Z) : M zval :=
  ud ← gets w_ud;
  m ← gets w_memc;
  let behavior := mret (ZLong (s64 (memcached_behavior_get m (behavior_of_option option)))) in
  if option =? MEMC_OPT_COMPRESSION_TYPE then mret (ZLong (compression_type ud))
  else if option =? MEMC_OPT_COMPRESSION_LEVEL then mret (ZLong (compression_level ud))
  else if option =? MEMC_OPT_COMPRESSION then mret (ZBool (compression_enabled ud))
  else if option =? MEMC_OPT_ITEM_SIZE_LIMIT then mret (ZLong (item_size_limit ud))
  else if option =? MEMC_OPT_PREFIX_KEY then
    mret (match memcached_prefix_get m with
          | (Some result, MEMCACHED_SUCCESS) => ZStr (c_str result)
          | _ => ZStr ""
          end)
  else if option =? MEMC_OPT_SERIALIZER then mret (ZLong (serializer ud))
  else if option =? MEMC_OPT_USER_FLAGS then mret (ZLong (set_udf_flags ud))
  else if option =? MEMC_OPT_STORE_RETRY_COUNT then mret (ZLong (store_retry_count ud))
  else if (option =? behavior_num BEHAVIOR_SOCKET_SEND_SIZE)
          || (option =? behavior_num BEHAVIOR_SOCKET_RECV_SIZE) then
    if memcached_server_count m =? 0 then warn "no servers defined";; mret ZNull
    else behavior
  else behavior.

(** [lval == COMPRESSION_TYPE_...] of the build. *)
Definition compression_type_ok (lval : Z) : bool :=
  (lval =? COMPRESSION_TYPE_FASTLZ) || (HAVE_ZSTD_H && (lval =? COMPRESSION_TYPE_ZSTD))
  || (lval =? COMPRESSION_TYPE_ZLIB).

(** The chain of [#ifdef]s of MEMC_OPT_SERIALIZER. *)
Definition serializer_ok (lval : Z) : bool :=
  (HAVE_MEMCACHED_IGBINARY && (lval =? SERIALIZER_IGBINARY))
  || (HAVE_JSON_API && ((lval =? SERIALIZER_JSON) || (lval =? SERIALIZER_JSON_ARRAY)))
  || (HAVE_MEMCACHED_MSGPACK && (lval =? SERIALIZER_MSGPACK))
  || (lval =? SERIALIZER_PHP).

(** [if (s_memc_status_handle_result_code(intern, rc) == FAILURE) ...] at the end
    of an option that is a behavior. *)
Definition option_status (rc : memcached_return) (ok : M bool) : M bool :=
  good ← s_memc_status_handle_result_code rc;
  if good : bool then ok else warn "error setting memcached option: %s";; mret false.

Definition set_ketama_weighted (lval : Z) : M bool :=
  rc ← memc_call (λ m,
         memcached_behavior_set m (behavior_num BEHAVIOR_KETAMA_WEIGHTED) (u64 lval));
  option_status rc
    (when (lval =? 0)
       (memc_do (λ m, memcached_behavior_set_key_hash m MEMCACHED_HASH_DEFAULT);;
        memc_do (λ m, memcached_behavior_set_distribution_hash m MEMCACHED_HASH_DEFAULT);;
        memc_do (λ m, memcached_behavior_set_distribution m MEMCACHED_DISTRIBUTION_MODULA));;
     mret true).

(** The [default:] branch. *)
Definition set_behavior_option (option lval : Z) : M bool :=
  let flag := behavior_of_option option in
  m ← gets w_memc;
  if option <? 0 then option_status MEMCACHED_INVALID_ARGUMENTS (mret true)
  else if flag <? MEMCACHED_BEHAVIOR_MAX then
    if memcached_behavior_get m flag =? u64 lval then mret true
    else rc ← memc_call (λ m, memcached_behavior_set m flag (u64 lval));
         option_status rc (mret true)
  else option_status MEMCACHED_INVALID_ARGUMENTS (mret true).

Definition php_memc_set_option (option : Z) (value : zval) : M bool :=
  let lval := zval_get_long value in
  if option =? MEMC_OPT_COMPRESSION then
    update_ud (set_compression_enabled (negb (lval =? 0)));; mret true
  else if option =? MEMC_OPT_COMPRESSION_TYPE then
    if compression_type_ok lval then update_ud (set_compression_type lval);; mret true
    else set_rescode MEMCACHED_INVALID_ARGUMENTS;; mret false
  else if option =? MEMC_OPT_COMPRESSION_LEVEL then
    update_ud (set_compression_level lval);; mret true
  else if option =? MEMC_OPT_ITEM_SIZE_LIMIT then
    if lval <? 0 then warn "ITEM_SIZE_LIMIT must be >= 0";; mret false
    else update_ud (set_item_size_limit lval);; mret true
  else if option =? MEMC_OPT_PREFIX_KEY then
    let str := zval_get_string value in
    let key := if zstr_len str =? 0 then None else Some (c_str str) in
    rc ← memc_call (λ m, memcached_prefix_set m key);
    if bool_decide (rc = MEMCACHED_BAD_KEY_PROVIDED)
    then set_rescode MEMCACHED_INVALID_ARGUMENTS;; warn "bad key provided";; mret false
    else mret true
  else if option =? behavior_num BEHAVIOR_KETAMA_WEIGHTED then set_ketama_weighted lval
  else if option =? MEMC_OPT_SERIALIZER then
    if serializer_ok lval then update_ud (set_serializer lval);; mret true
    else update_ud (set_serializer SERIALIZER_PHP);;
         set_rescode MEMCACHED_INVALID_ARGUMENTS;;
         warn "invalid serializer provided";; mret false
  else if option =? MEMC_OPT_USER_FLAGS then
    if lval <? 0 then update_ud (set_user_flags (-1));; mret true
    else if lval >? MEMC_VAL_USER_FLAGS_MAX
    then warn "MEMC_OPT_USER_FLAGS must be < %u";; mret false
    else update_ud (set_user_flags lval);; mret true
  else if option =? MEMC_OPT_STORE_RETRY_COUNT then
    update_ud (set_store_retry_count lval);; mret true
  else set_behavior_option option lval.

Definition Memcached_setOption (option : Z) (value : zval) : M zval :=
  ok ← php_memc_set_option option value; mret (ZBool ok).

Fixpoint set_options (options : zarray) (ok : bool) : M bool :=
  match options with
  | [] => mret ok
  | (KStr _, _) :: rest => warn "invalid configuration option";; set_options rest false
  | (KInt key_index, value) :: rest =>
      r ← php_memc_set_option key_index value; set_options rest (ok && r)
  end.

Definition Memcached_setOptions (options : zarray) : M zval :=
  ok ← set_options options true; mret (ZBool ok).

(** ** setBucket *)

(** [s_zval_to_uint32_array]: [None] is its NULL. *)
Fixpoint uint32_elements (input : list zval) : M (option (list Z)) :=
  match input with
  | [] => mret (Some [])
  | pzval :: rest =>
      let value := zval_get_long pzval in
      if value <? 0 then warn "the map must contain positive integers";; mret None
      else r ← uint32_elements rest; mret (cons (u32 value) <$> r)
  end.

Definition s_zval_to_uint32_array (input : zarray) : M (option (list Z)) :=
  if bool_decide (input = []) then mret None else uint32_elements (arr_vals input).

Definition Memcached_setBucket (zserver_map : zarray) (zforward_map : option zarray)
    (replicas : Z) : M zval :=
  if bool_decide (zserver_map = []) then warn "server map cannot be empty";; mret ZFalse
  else if match zforward_map with
          | Some f => negb (bool_decide (length zserver_map = length f))
          | None => false
          end
  then warn "forward_map length must match the server_map length";; mret ZFalse
  else if replicas <? 0 then warn "replicas must be larger than zero";; mret ZFalse
  else
    r ← s_zval_to_uint32_array zserver_map;
    match r with
    | None => mret ZFalse
    | Some server_map =>
        f ← match zforward_map with
            | None => mret (Some None)
            | Some z => r ← s_zval_to_uint32_array z; mret (Some <$> r)
            end;
        match f with
        | None => mret ZFalse
        | Some forward_map =>
            rc ← memc_call (λ m, memcached_bucket_set m server_map forward_map
                                   (u32 (Z.of_nat (length server_map))) (u32 replicas));
            ok ← s_memc_status_handle_result_code rc;
            mret (ZBool ok)
        end
    end.
End Options.
