(* ===== verification/OptionsProofs.v ===== *)
(** * Options: validity of the user data, round trips, option numbers *)

From S2P Require Import Prelude CLib Flags Zend LibMemcached World Toy Keys Payload Options.
#[local] Open Scope Z_scope.

(** User data that the payload code handles in this build: a compression type and
    a serializer that are compiled in, a limit that is a size, user flags that
    fit their 16 bits or -1 for none. *)
Definition ud_ok `{BuildConfig} (u : php_memc_user_data_t) : bool :=
  compression_type_ok (compression_type u) && serializer_ok (serializer u)
  && (0 <=? item_size_limit u) && (item_size_limit u <=? LONG_MAX)
  && (-1 <=? set_udf_flags u) && (set_udf_flags u <=? MEMC_VAL_USER_FLAGS_MAX).

(** What only the constructor and the credential methods may change. *)
Definition ud_owned (u : php_memc_user_data_t) : bool * bool * bool :=
  (is_persistent u, encoding_enabled u, has_sasl_data u).

Section Validity.
Context {MC : Type} `{ZendLaws} `{BuildConfig} `{MemcachedNumbers} `{MemcachedControl MC}
  `{MemcachedBuckets MC}.
Implicit Types w : world MC.

Definition ud_valid (owned : bool * bool * bool) (u : php_memc_user_data_t) : Prop :=
  ud_ok u = true ∧ ud_owned u = owned.

Lemma keeps_update_ud owned f :
  (∀ u, ud_valid owned u → ud_valid owned (f u)) →
  keeps (ud_in (MC := MC) (ud_valid owned)) (update_ud f).
Proof. intros Hf. apply keeps_modify. intros w. apply Hf. Qed.

(** An assignment of a value that passed its test. *)
Ltac valid_field :=
  apply keeps_update_ud; intros [] [Hok Howned]; split; [|exact Howned];
  revert Hok; unfold ud_ok; simpl; rewrite ?andb_true_iff, ?Z.leb_le; intuition.

Lemma set_option_keeps_valid owned option value :
  keeps (ud_in (MC := MC) (ud_valid owned)) (php_memc_set_option option value).
Proof.
  pose proof (zval_get_long_range value) as Hr. unfold is_long in Hr.
  unfold php_memc_set_option, set_ketama_weighted, set_behavior_option, option_status.
  set (lval := zval_get_long value) in *.
  keep; valid_field; try lia; unfold serializer_ok; by rewrite orb_true_r.
Qed.

Lemma set_options_keeps_valid owned options ok :
  keeps (ud_in (MC := MC) (ud_valid owned)) (set_options options ok).
Proof.
  revert ok. induction options as [|[[k|k] v] options IH]; intros ok; cbn [set_options].
  - auto with memc.
  - apply keeps_bind; [apply set_option_keeps_valid|auto].
  - apply keeps_bind; [auto with memc|auto].
Qed.
End Validity.

(** C21: setOptions always returns a boolean, whatever the array holds, and the
    user data it leaves is user data the payload code can work with: a
    compression type and a serializer that this build has, a size limit that is
    not negative, user flags that fit their field of the flag word.  Persistence,
    encoding and credentials are not options. *)
Theorem options_keep_user_data_valid {MC} `{ZendLaws} `{BuildConfig} `{MemcachedNumbers}
    `{MemcachedControl MC} (options : zarray) (w : world MC) :
  ud_ok (w_ud w) = true →
  ∃ b w', Memcached_setOptions options w = Ret (ZBool b) w'
          ∧ ud_ok (w_ud w') = true ∧ ud_owned (w_ud w') = ud_owned (w_ud w).
Proof.
  intros Hok.
  destruct (set_options_keeps_valid (ud_owned (w_ud w)) options true w) as (b & w' & E & Hw');
    [by split|].
  exists b, w'. split; [|apply Hw']. unfold Memcached_setOptions.
  by rewrite (bind_Ret _ _ _ _ _ E).
Qed.

Lemma options_keep_user_data_valid_witness :
  let options := [(KInt MEMC_OPT_SERIALIZER, ZLong 99); (KStr "x", ZNull);
                  (KInt MEMC_OPT_USER_FLAGS, ZLong 70000);
                  (KInt MEMC_OPT_COMPRESSION_TYPE, ZLong 1)] in
  let w := toy_world toy_new in
  ud_ok (w_ud w) = true
  ∧ ∃ b w', Memcached_setOptions options w = Ret (ZBool b) w'
            ∧ ud_ok (w_ud w') = true ∧ ud_owned (w_ud w') = ud_owned (w_ud w).
Proof.
  split; [reflexivity|]. apply options_keep_user_data_valid. reflexivity.
Defined.

(** ** What was set is what is read *)

(** A prefix that was set is kept, and no prefix reads as none. *)
Class PrefixLaws (MC : Type) `{MemcachedControl MC} : Prop := {
  prefix_set_get m p rc m' :
    memcached_prefix_set m p = (rc, m') → rc = MEMCACHED_SUCCESS →
    match p with
    | Some s => memcached_prefix_get m' = (Some s, MEMCACHED_SUCCESS)
    | None => (memcached_prefix_get m').1 = None
    end
}.

#[export] Instance ToyPrefixLaws : PrefixLaws toy.
Proof. constructor. intros m [s|] rc m'; simpl; [case_match|]; by intros [= <- <-]. Qed.

(** The prefix setOption passes on: a C string, or NULL for an empty one. *)
Definition prefix_argument `{ZendRuntime} (value : zval) : option string :=
  if zstr_len (zval_get_string value) =? 0 then None else Some (c_str (zval_get_string value)).

(** The value an own option has after it was set from a PHP value. *)
Definition own_option_value `{ZendRuntime} (opt : Z) (value : zval) : option zval :=
  let lval := zval_get_long value in
  if opt =? MEMC_OPT_COMPRESSION then Some (ZBool (negb (lval =? 0)))
  else if opt =? MEMC_OPT_PREFIX_KEY then Some (ZStr (c_str (zval_get_string value)))
  else if opt =? MEMC_OPT_USER_FLAGS then Some (ZLong (Z.max (-1) lval))
  else if (opt =? MEMC_OPT_SERIALIZER) || (opt =? MEMC_OPT_COMPRESSION_TYPE)
          || (opt =? MEMC_OPT_STORE_RETRY_COUNT) || (opt =? MEMC_OPT_COMPRESSION_LEVEL)
          || (opt =? MEMC_OPT_ITEM_SIZE_LIMIT)
  then Some (ZLong lval)
  else None.

Lemma own_option_negative `{ZendRuntime} opt value v : own_option_value opt value = Some v → opt < 0.
Proof.
  unfold own_option_value.
  repeat match goal with |- context [opt =? ?b] => destruct (Z.eqb_spec opt b) as [->|]; [done|] end.
  done.
Qed.

(** setOption of the prefix, by libmemcached's answer. *)
Lemma set_prefix_run {MC} `{ZendRuntime} `{BuildConfig} `{MemcachedNumbers} `{MemcachedControl MC}
    value (w : world MC) :
  let '(rc, m') := memcached_prefix_set (w_memc w) (prefix_argument value) in
  rc ≠ MEMCACHED_BAD_KEY_PROVIDED →
  Memcached_setOption MEMC_OPT_PREFIX_KEY value w = Ret ZTrue (with_memc m' w).
Proof.
  destruct (memcached_prefix_set _ _) as [rc m'] eqn:E. intros Hrc.
  unfold Memcached_setOption. change (php_memc_set_option (MC := MC) MEMC_OPT_PREFIX_KEY value)
    with (rc ← memc_call (λ m : MC, memcached_prefix_set m (prefix_argument value));
          if bool_decide (rc = MEMCACHED_BAD_KEY_PROVIDED)
          then set_rescode MEMCACHED_INVALID_ARGUMENTS;; warn "bad key provided";; mret false
          else mret true).
  unfold memc_call. unfold mbind, M_bind. rewrite E. by rewrite bool_decide_false.
Qed.

(** C33: setOption and getOption of the extension's own options agree: after
    setOption answered TRUE, getOption returns the value that was set, as the
    boolean, integer or string the option is, with the user flags' negative
    values read as -1.  For the prefix that needs libmemcached to have taken it:
    setOption also answers TRUE when it did not
    ([refused_prefix_is_reported_as_set]). *)
Theorem own_option_round_trip {MC} `{ZendRuntime} `{BuildConfig} `{MemcachedNumbersLaws}
    `{PrefixLaws MC} opt value v (w w' : world MC) :
  own_option_value opt value = Some v →
  (opt = MEMC_OPT_PREFIX_KEY →
   (memcached_prefix_set (w_memc w) (prefix_argument value)).1 = MEMCACHED_SUCCESS) →
  Memcached_setOption opt value w = Ret ZTrue w' →
  Memcached_getOption opt w' = Ret v w'.
Proof.
  intros Hv Hpre R. destruct (Z.eq_dec opt MEMC_OPT_PREFIX_KEY) as [->|Hne].
  { specialize (Hpre eq_refl). pose proof (set_prefix_run value w) as Hrun.
    destruct (memcached_prefix_set _ _) as [rc m'] eqn:E. cbn in Hpre. subst rc.
    rewrite Hrun in R by done. injection R as <-. injection Hv as <-.
    apply prefix_set_get in E; [|done]. unfold Memcached_getOption. mrun. cbn.
    unfold prefix_argument in E.
    destruct (Z.eqb_spec (zstr_len (zval_get_string value)) 0) as [Hz|_].
    - assert (zval_get_string value = ""%string) as ->
        by (destruct (zval_get_string value); [done|unfold zstr_len in Hz; cbn in Hz; lia]).
      by destruct (memcached_prefix_get m') as [[]].
    - by rewrite E, c_str_idemp. }
  unfold Memcached_setOption in R. apply bind_inv in R as ([] & w1 & R & [= <-]).
  pose proof (own_option_negative _ _ _ Hv) as Hneg.
  pose proof (behavior_num_range BEHAVIOR_KETAMA_WEIGHTED) as Hrange.
  unfold php_memc_set_option in R.
  rewrite (proj2 (Z.eqb_neq opt (behavior_num _))) in R by lia.
  unfold own_option_value in Hv.
  repeat match type of Hv with
  | context [opt =? ?b] => destruct (Z.eqb_spec opt b) as [->|]; [|]
  end; try discriminate; try done; clear Hneg Hrange Hne Hpre; cbn in R, Hv; injection Hv as <-.
  all: repeat case_match; try discriminate; injection R as <-; try done.
  - by rewrite Z.max_l by lia.
  - by rewrite Z.max_r by lia.
Qed.

Lemma own_option_round_trip_witness :
  let set opt value w :=
    match Memcached_setOption (MC := toy) opt value w with Ret _ w' => w' | _ => w end in
  let w := toy_world toy_new in
  let w1 := set MEMC_OPT_USER_FLAGS (ZLong 7) w in
  let w2 := set MEMC_OPT_PREFIX_KEY (ZStr "app:") w1 in
  Memcached_getOption MEMC_OPT_USER_FLAGS w1 = Ret (ZLong 7) w1
  ∧ Memcached_getOption MEMC_OPT_PREFIX_KEY w2 = Ret (ZStr "app:") w2.
Proof.
  intros set w w1 w2. split.
  - apply (own_option_round_trip MEMC_OPT_USER_FLAGS (ZLong 7) (ZLong 7) w w1);
      [reflexivity|discriminate|reflexivity].
  - apply (own_option_round_trip MEMC_OPT_PREFIX_KEY (ZStr "app:") (ZStr "app:") w1 w2);
      [reflexivity|reflexivity|reflexivity].
Defined.

(** setOption tells only a bad key apart.  When libmemcached refuses a prefix for
    another reason (it is too long, or there is no memory for it) and keeps the
    one it had, setOption answers TRUE without a warning, the result code is left
    as it was, and getOption returns the old prefix. *)
Theorem refused_prefix_is_reported_as_set {MC} `{ZendRuntime} `{BuildConfig} `{MemcachedNumbers}
    `{MemcachedControl MC} value rc m' (w : world MC) :
  memcached_prefix_set (w_memc w) (prefix_argument value) = (rc, m') →
  rc ≠ MEMCACHED_SUCCESS → rc ≠ MEMCACHED_BAD_KEY_PROVIDED →
  memcached_prefix_get m' = memcached_prefix_get (w_memc w) →
  let w' := with_memc m' w in
  Memcached_setOption MEMC_OPT_PREFIX_KEY value w = Ret ZTrue w'
  ∧ ∃ old, Memcached_getOption MEMC_OPT_PREFIX_KEY w = Ret old w
      ∧ Memcached_getOption MEMC_OPT_PREFIX_KEY w' = Ret old w'.
Proof.
  intros E _ Hrc Hkeep w'. pose proof (set_prefix_run value w) as Hrun. rewrite E in Hrun.
  split; [by apply Hrun|]. eexists. unfold Memcached_getOption. split; mrun; [done|]. cbn.
  by rewrite Hkeep.
Qed.

Lemma refused_prefix_is_reported_as_set_witness :
  let long := ZStr (repeat_char "p" 200) in
  let w := toy_world toy_new in
  Memcached_setOption MEMC_OPT_PREFIX_KEY long w = Ret ZTrue w
  ∧ Memcached_getOption MEMC_OPT_PREFIX_KEY w = Ret (ZStr "") w.
Proof.
  intros long w.
  destruct (refused_prefix_is_reported_as_set long MEMCACHED_KEY_TOO_BIG toy_new w)
    as (Hset & old & Hget & _); [vm_compute; reflexivity|done|done|done|].
  split; [exact Hset|]. vm_compute. reflexivity.
Defined.

(** ** Option numbers *)

(** Positive option numbers other than KETAMA_WEIGHTED are behaviors. *)
Lemma set_option_behavior {MC} `{ZendRuntime} `{BuildConfig} `{MemcachedNumbers}
    `{MemcachedControl MC} opt value :
  0 <= opt → opt ≠ behavior_num BEHAVIOR_KETAMA_WEIGHTED →
  php_memc_set_option (MC := MC) opt value = set_behavior_option opt (zval_get_long value).
Proof.
  intros Hopt Hne. unfold php_memc_set_option.
  repeat match goal with |- context [opt =? ?b] =>
    rewrite (proj2 (Z.eqb_neq opt b)) by (done || (cbv; lia) || (unfold b; lia)) end.
  done.
Qed.

(** An option number is cut to the 32 bits of the behavior enumeration before
    it is looked at, so setOption takes numbers that differ by a multiple of 2^32
    for the same behavior.  KETAMA_WEIGHTED is the exception: under any number
    but its own, switching it off does not reset the hash and the distribution,
    only the behavior is set. *)
Theorem option_numbers_wrap {MC} `{ZendRuntime} `{BuildConfig} `{MemcachedNumbersLaws}
    `{MemcachedControl MC} (n k : Z) value (w : world MC) :
  0 <= n → 0 < k → MEMCACHED_BEHAVIOR_MAX <= 2 ^ 32 →
  Memcached_setOption (n + k * 2 ^ 32) value w
  = if n =? behavior_num BEHAVIOR_KETAMA_WEIGHTED
    then (ok ← set_behavior_option n (zval_get_long value); mret (ZBool ok)) w
    else Memcached_setOption n value w.
Proof.
  intros Hn Hk Hmax. pose proof (behavior_num_range BEHAVIOR_KETAMA_WEIGHTED) as Hr.
  assert (set_behavior_option (MC := MC) (n + k * 2 ^ 32) (zval_get_long value)
          = set_behavior_option n (zval_get_long value)) as E.
  { unfold set_behavior_option, behavior_of_option, u32.
    rewrite Z_mod_plus_full, !(proj2 (Z.ltb_ge _ 0)) by lia. done. }
  unfold Memcached_setOption. rewrite set_option_behavior, E by lia.
  destruct (Z.eqb_spec n (behavior_num BEHAVIOR_KETAMA_WEIGHTED)) as [|Hne]; [done|].
  by rewrite set_option_behavior.
Qed.

Lemma option_numbers_wrap_witness :
  let n := behavior_num BEHAVIOR_KETAMA_WEIGHTED in
  let w := toy_world toy_new in
  0 <= n ∧ 0 < 1
  ∧ Memcached_setOption (n + 1 * 2 ^ 32) (ZLong 0) w
    = (ok ← set_behavior_option n (zval_get_long (ZLong 0)); mret (ZBool ok)) w.
Proof.
  intros n w. split; [done|]. split; [done|].
  rewrite (option_numbers_wrap n 1 (ZLong 0) w) by done. reflexivity.
Defined.
