(* ===== verification/Servers.v ===== *)
(** * The server list, statistics and maintenance commands

    addServer, addServers, getServerList, getServerByKey, resetServerList, quit,
    flushBuffers, flush, getStats, getVersion, getAllKeys and the getLastError
    methods, each a translation of the method with the callbacks it passes to
    libmemcached.  Proved in ServersProofs. *)

From S2P Require Import Prelude CLib Zend LibMemcached World Keys.
#[local] Open Scope Z_scope.

(** libc's [strtod(str, &end)]: the value, what [end] points at, whether errno
    was set. *)
Class CNumbers : Type := {
  strtod : string → double * string * bool
}.

(** *** Numbers in statistics *)

Definition s_long_value (str : string) : option Z :=
  let '(value, end_, erange, unread) := strtol 10 str in
  if erange || unread || negb (String.eqb end_ "") then None else Some value.

(** [str == end]: nothing of [str] was read. *)
Definition s_double_value `{CNumbers} (str : string) : option double :=
  let '(value, end_, errno) := strtod str in
  if errno || String.eqb str end_ || negb (String.eqb end_ "") then None else Some value.

(** The value the statistics array gets: [buffer] is the value up to a NUL. *)
Definition stat_value `{CNumbers} (value : string) : zval :=
  let buffer := c_str value in
  match s_long_value buffer with
  | Some l => ZLong l
  | None =>
      match s_double_value buffer with
      | Some d => ZDouble d
      | None => ZStr value
      end
  end.

(** ["%s:%d"] of an instance. *)
Definition server_address (i : server_instance) : string :=
  (c_str (server_name i) ++ ":" ++ ldec (server_port i))%string.

Section Servers.
Context {MC : Type} `{ZendRuntime} `{BuildConfig} `{CNumbers} `{MemcachedNumbers}
  `{MemcachedControl MC} `{!MemcachedServers MC} `{MemcachedErrors MC}.
#[local] Abbreviation M := (M (world MC)).
Implicit Types w : world MC.

(** [RETURN_FALSE] on failure of the status, [RETURN_TRUE] otherwise. *)
Definition bool_of_status (status : memcached_return) : M zval :=
  ok ← s_memc_status_handle_result_code status; mret (ZBool ok).

(** The port is an [in_port_t], the weight a [uint32_t]. *)
Definition Memcached_addServer (host : string) (port weight : Z) : M zval :=
  s_memc_set_status MEMCACHED_SUCCESS 0;;
  status ← memc_call (λ m,
    memcached_server_add_with_weight m (c_str host) (u16 port) (u32 weight));
  bool_of_status status.

(** One entry of the array given to addServers: the list so far and the index. *)
Definition add_entry (entry : zval) (i : Z) (list : option memcached_server_st)
    : M (option memcached_server_st) :=
  match entry with
  | ZArr a =>
      match arr_vals a with
      | z_host :: z_port :: rest =>
          let host := zval_get_string z_host in
          let port := zval_get_long z_port in
          let weight := match rest with z_weight :: _ => u32 (zval_get_long z_weight) | [] => 0 end in
          let '(list, status) :=
            memcached_server_list_append_with_weight list (c_str host) (u16 port) weight in
          ok ← s_memc_status_handle_result_code status;
          when (negb ok)
            (warn ("could not add entry #" ++ ldec (i + 1 + 1) ++ " to the server list"));;
          mret list
      | _ =>
          warn ("could not add entry #" ++ ldec (i + 1 + 1) ++ " to the server list");;
          mret list
      end
  | _ => warn ("server list entry #" ++ ldec (i + 1) ++ " is not an array");; mret list
  end.

Fixpoint add_entries (entries : list zval) (i : Z) (list : option memcached_server_st)
    : M (option memcached_server_st) :=
  match entries with
  | [] => mret list
  | entry :: rest => list ← add_entry entry i list; add_entries rest (i + 1) list
  end.

Definition Memcached_addServers (servers : zarray) : M zval :=
  s_memc_set_status MEMCACHED_SUCCESS 0;;
  list ← add_entries (arr_vals servers) 0 None;
  status ← memc_call (λ m, memcached_server_push m list);
  bool_of_status status.

Definition s_server_cursor_list_servers_cb (instance : server_instance) (return_value : zarray)
    : zarray :=
  add_next_index return_value
    (ZArr [(KStr "host", ZStr (c_str (server_name instance)));
           (KStr "port", ZLong (server_port instance));
           (KStr "type", ZStr (c_str (server_type instance)))]).

Definition Memcached_getServerList : M zval :=
  m ← gets w_memc;
  mret (ZArr (foldl (λ a i, s_server_cursor_list_servers_cb i a) []
                (memcached_server_cursor m).2)).

Definition Memcached_getServerByKey (server_key : string) : M zval :=
  s_memc_set_status MEMCACHED_SUCCESS 0;;
  r ← memc_call (λ m, memcached_server_by_key m server_key);
  match r with
  | inr error => s_memc_status_handle_result_code error;; mret ZFalse
  | inl i => mret (ZArr [(KStr "host", ZStr (c_str (server_name i)));
                         (KStr "port", ZLong (server_port i)); (KStr "weight", ZLong 0)])
  end.

Definition Memcached_resetServerList : M zval :=
  memc_do memcached_servers_reset;; mret ZTrue.

Definition Memcached_quit : M zval := memc_do memcached_quit;; mret ZTrue.

Definition Memcached_flushBuffers : M zval :=
  rc ← memc_call memcached_flush_buffers;
  mret (ZBool (bool_decide (rc = MEMCACHED_SUCCESS))).

Definition Memcached_getLastErrorMessage : M zval :=
  m ← gets w_memc; mret (ZStr (c_str (memcached_last_error_message m))).

Definition Memcached_getLastErrorCode : M zval :=
  m ← gets w_memc; mret (ZLong (return_num (memcached_last_error m))).

Definition Memcached_getLastErrorErrno : M zval :=
  m ← gets w_memc; mret (ZLong (memcached_last_error_errno m)).

Definition Memcached_getLastDisconnectedServer : M zval :=
  m ← gets w_memc;
  match memcached_server_get_last_disconnect m with
  | None => mret ZFalse
  | Some i => mret (ZArr [(KStr "host", ZStr (c_str (server_name i)));
                          (KStr "port", ZLong (server_port i))])
  end.

(** *** Statistics *)

Definition s_stat_execute_cb (instance : server_instance) (key value : string)
    (return_value : zarray) : zarray :=
  let server_key := KStr (server_address instance) in
  let server_values :=
    match arr_find return_value server_key with Some (ZArr a) => a | _ => [] end in
  let name :=
    match stat_value value with
    | ZStr _ => symtable_key key          (* add_assoc_stringl_ex *)
    | _ => symtable_key (c_str key)       (* add_assoc_long, add_assoc_double *)
    end in
  arr_update return_value server_key (ZArr (arr_update server_values name (stat_value value))).

Definition stats_array (calls : list (server_instance * string * string)) : zarray :=
  foldl (λ a '(i, key, value), s_stat_execute_cb i key value a) [] calls.

Definition Memcached_getStats (args : option string) : M zval :=
  m ← gets w_memc;
  let orig_no_block := behavior_get m BEHAVIOR_NO_BLOCK in
  let orig_protocol := behavior_get m BEHAVIOR_BINARY_PROTOCOL in
  let switch := negb (orig_no_block =? 0) && negb (orig_protocol =? 0) in
  let set_no_block v :=
    memc_do (λ m, (memcached_behavior_set m (behavior_num BEHAVIOR_NO_BLOCK) v).2) in
  when switch (set_no_block 0);;
  r ← memc_call (λ m, memcached_stat_execute m (c_str <$> args));
  let '(status, calls) := (r : memcached_return * list (server_instance * string * string)) in
  when switch (set_no_block orig_no_block);;
  ok ← s_memc_status_handle_result_code status;
  mret (if ok : bool then ZArr (stats_array calls) else ZFalse).

(** *** Versions, keys, flush *)

(** [zend_hash_add]: a key that is there already keeps its value. *)
Definition s_server_cursor_version_cb (instance : server_instance) (return_value : zarray)
    : zarray :=
  let '(major, minor, micro) := server_version instance in
  let version := (ldec major ++ "." ++ ldec minor ++ "." ++ ldec micro)%string in
  let address := KStr (server_address instance) in
  match arr_find return_value address with
  | Some _ => return_value
  | None => arr_update return_value address (ZStr version)
  end.

Definition Memcached_getVersion : M zval :=
  status ← memc_call memcached_version;
  ok ← s_memc_status_handle_result_code status;
  if negb ok then mret ZFalse
  else
    m ← gets w_memc;
    let '(status, instances) := memcached_server_cursor m in
    ok ← s_memc_status_handle_result_code status;
    mret (if ok : bool
          then ZArr (foldl (λ a i, s_server_cursor_version_cb i a) [] instances)
          else ZFalse).

Definition s_dump_keys_cb (key : string) (return_value : zarray) : zarray :=
  add_next_index return_value (ZStr key).

Definition Memcached_getAllKeys : M zval :=
  r ← memc_call memcached_dump;
  let '(rc, keys) := (r : memcached_return * list string) in
  let result := ZArr (foldl (λ a k, s_dump_keys_cb k a) [] keys) in
  if bool_decide (rc = MEMCACHED_CLIENT_ERROR ∨ rc = MEMCACHED_SERVER_ERROR)
  then mret result
  else
    ok ← s_memc_status_handle_result_code rc;
    mret (if ok : bool then result else ZFalse).

Definition Memcached_flush (delay : Z) : M zval :=
  s_memc_set_status MEMCACHED_SUCCESS 0;;
  status ← memc_call (λ m, memcached_flush m delay);
  bool_of_status status.
End Servers.
