(* ===== verification/ServersProofs.v ===== *)
(** * Servers: addServers, getStats *)

From S2P Require Import Prelude CLib Zend LibMemcached World Toy Keys Servers.
#[local] Open Scope Z_scope.

(** ** A server list for the toy handle: the servers are in its log *)
Definition toy_servers (m : toy) : list server_instance :=
  omap (λ c, match tc_nums c with
             | [port; weight] => if String.eqb (tc_name c) "server"
                                 then Some (mkInstance (tc_key c) port "TCP" (1, 6, 0)) else None
             | _ => None
             end) (t_log m).

Definition toy_add_server (s : string * Z * Z) (m : toy) : toy :=
  let '(h, p, w) := s in t_add_log (mkCall "server" None h "" [p; w]) m.

#[export] Instance ToyServers : MemcachedServers toy := {|
  memcached_server_st := list (string * Z * Z);
  memcached_server_add_with_weight m h p w := (MEMCACHED_SUCCESS, toy_add_server (h, p, w) m);
  memcached_server_list_append_with_weight l h p w :=
    (Some (default [] l ++ [(h, p, w)]), MEMCACHED_SUCCESS);
  memcached_server_push m l := (MEMCACHED_SUCCESS, foldl (λ m s, toy_add_server s m) m (default [] l));
  memcached_server_cursor m := (MEMCACHED_SUCCESS, toy_servers m);
  memcached_server_by_key m k :=
    match toy_servers m with i :: _ => (inl i, m) | [] => (inr MEMCACHED_NO_SERVERS, m) end;
  memcached_servers_reset m := m;
  memcached_server_get_last_disconnect m := None;
  memcached_flush_buffers m := (MEMCACHED_SUCCESS, m);
  memcached_stat_execute m args :=
    (MEMCACHED_SUCCESS, toy_servers m ≫= λ i, [(i, "pid", "42"); (i, "version", "1.6.0")]%string, m);
  memcached_version m := (MEMCACHED_SUCCESS, m);
  memcached_dump m := (MEMCACHED_SUCCESS, snd <$> (map_to_list (t_items m)).*1, m);
  memcached_flush m d := (MEMCACHED_SUCCESS, m)
|}.

#[export] Instance ToyCNumbers : CNumbers := {| strtod s := (double_of_Z 0, s, false) |}.

(** ** addServers *)
Section AddServers.
Context {MC : Type} `{ZendRuntime} `{MemcachedControl MC} `{!MemcachedServers MC}.
Implicit Types w : world MC.

(** An entry that names a server: host, port and weight as libmemcached gets them. *)
Definition server_entry (entry : zval) : option (string * Z * Z) :=
  match entry with
  | ZArr a =>
      match arr_vals a with
      | h :: p :: rest =>
          Some (c_str (zval_get_string h), u16 (zval_get_long p),
                match rest with w :: _ => u32 (zval_get_long w) | [] => 0 end)
      | _ => None
      end
  | _ => None
  end.

Definition append_server (l : option memcached_server_st) (s : string * Z * Z)
    : option memcached_server_st :=
  (memcached_server_list_append_with_weight l s.1.1 s.1.2 s.2).1.

Definition append_entry (l : option memcached_server_st) (entry : zval)
    : option memcached_server_st :=
  match server_entry entry with Some s => append_server l s | None => l end.

(** Warnings are only added. *)
Definition warned_since w w' : Prop := w_warnings w `prefix_of` w_warnings w'.

#[local] Instance warned_since_trans : Transitive warned_since.
Proof. intros w1 w2 w3. unfold warned_since. apply transitivity. Qed.

Definition too_short_warning (i : Z) : string :=
  ("could not add entry #" ++ ldec (i + 2) ++ " to the server list")%string.

Lemma add_entry_run entry i l w :
  ∃ w', add_entry entry i l w = Ret (append_entry l entry) w'
        ∧ w_memc w' = w_memc w ∧ warned_since w w'
        ∧ (∀ a, entry = ZArr a → (length a < 2)%nat → too_short_warning i ∈ w_warnings w').
Proof.
  assert (i + 1 + 1 = i + 2) as E by lia.
  assert (∀ s, ∃ w', (warn s;; mret l) w = Ret l w' ∧ w_memc w' = w_memc w ∧ warned_since w w'
                     ∧ s ∈ w_warnings w') as Hwarn.
  { intros s. exists (with_warning s w). repeat split; [by eexists|set_solver]. }
  unfold append_entry, append_server, server_entry, add_entry. rewrite E.
  destruct entry as [| | |z|d|s|a|z];
    try (destruct (Hwarn ("server list entry #" ++ ldec (i + 1) ++ " is not an array")%string)
           as (w' & E' & ? & ? & ?); exists w'; split; [exact E'|]; by repeat split).
  assert (∀ b, ZArr a = ZArr b → (length b < 2)%nat → (length a < 2)%nat) as Hlen by naive_solver.
  rewrite <- (length_fmap snd a) in Hlen. fold (arr_vals a) in Hlen.
  destruct (arr_vals a) as [|h [|p rest]];
    try (destruct (Hwarn (too_short_warning i)) as (w' & E' & ? & ? & ?); exists w';
         split; [exact E'|]; by repeat split).
  cbn [fst snd]. destruct (memcached_server_list_append_with_weight _ _ _ _) as [l' st].
  rewrite (bind_Ret _ _ _ _ _ (handle_result_code_run st w)).
  destruct (s_memcached_return_is_error st true); mrun; cbn;
    (eexists; split; [done|]); repeat split;
    try (intros b Hb1 Hb2; specialize (Hlen b Hb1 Hb2); simpl in Hlen; lia);
    unfold warned_since; cbn; first [reflexivity | by apply prefix_app_r].
Qed.

Lemma add_entries_run entries i l w :
  ∃ w', add_entries entries i l w = Ret (foldl append_entry l entries) w'
        ∧ w_memc w' = w_memc w ∧ warned_since w w'
        ∧ (∀ j a, entries !! j = Some (ZArr a) → (length a < 2)%nat →
             too_short_warning (i + Z.of_nat j) ∈ w_warnings w').
Proof.
  revert i l w. induction entries as [|entry entries IH]; intros i l w; cbn [add_entries foldl].
  { exists w. repeat split; [unfold warned_since; reflexivity|done]. }
  destruct (add_entry_run entry i l w) as (w1 & E & Hm & Hp & Hwarn).
  destruct (IH (i + 1) (append_entry l entry) w1) as (w2 & E2 & Hm2 & Hp2 & Hwarn2).
  exists w2. rewrite (bind_Ret _ _ _ _ _ E). split; [done|]. split; [congruence|].
  split; [by etrans|]. intros [|j] a Hj Ha; simpl in Hj.
  - injection Hj as ->. rewrite Z.add_0_r. destruct Hp2 as [k ->].
    apply elem_of_app. left. by eapply Hwarn.
  - replace (i + Z.of_nat (S j)) with (i + 1 + Z.of_nat j) by lia. by eapply Hwarn2.
Qed.

Lemma foldl_append_entry entries l :
  foldl append_entry l entries = foldl append_server l (omap server_entry entries).
Proof.
  revert l. induction entries as [|e entries IH]; intros l; [done|]. simpl.
  unfold append_entry at 2. destruct (server_entry e); apply IH.
Qed.
End AddServers.

(** AddServers pushes, in order, exactly the entries of the array that name a
    host and a port; the port is cut to 16 bits and the weight to 32.  Entries
    that do not are skipped, and the result is that of the push alone.  The
    warning for an entry that is too short numbers it one too high: entry [i],
    counted from 0, is reported as [i + 2], where the warning for an entry that
    is no array says [i + 1]. *)
Theorem addServers_pushes_the_valid_entries {MC} `{ZendRuntime} `{MemcachedControl MC}
    `{!MemcachedServers MC} (servers : zarray) (w : world MC) :
  let l := foldl append_server None (omap server_entry (arr_vals servers)) in
  let '(status, m') := memcached_server_push (w_memc w) l in
  ∃ w', Memcached_addServers servers w
        = Ret (ZBool (negb (s_memcached_return_is_error status true))) w'
        ∧ w_memc w' = m'
        ∧ ∀ i a, arr_vals servers !! i = Some (ZArr a) → (length a < 2)%nat →
                 too_short_warning (Z.of_nat i) ∈ w_warnings w'.
Proof.
  intros l. destruct (memcached_server_push (w_memc w) l) as [status m'] eqn:Epush.
  unfold Memcached_addServers. set (w0 := with_obj (mkObject MEMCACHED_SUCCESS 0 (is_pristine (w_obj w))) w).
  destruct (add_entries_run (arr_vals servers) 0 None w0) as (w1 & E & Hm & _ & Hwarn).
  rewrite foldl_append_entry in E. fold l in E.
  exists (with_obj (result_obj status m' (w_obj w1)) (with_memc m' w1)).
  rewrite (bind_Ret _ _ _ _ _ (set_status_run MEMCACHED_SUCCESS 0 w)). fold w0.
  rewrite (bind_Ret _ _ _ _ _ E). unfold bool_of_status.
  assert (memc_call (λ m, memcached_server_push m l) w1 = Ret status (with_memc m' w1)) as Ep
    by (unfold memc_call; rewrite Hm; change (w_memc w0) with (w_memc w); by rewrite Epush).
  rewrite (bind_Ret _ _ _ _ _ Ep), (bind_Ret _ _ _ _ _ (handle_result_code_run status _)).
  split; [done|]. split; [done|]. exact Hwarn.
Qed.

(** ** getStats *)

(** NO_BLOCK can be switched off, and back to the value it had on a handle; the
    statistics do not change it. *)
Class NoBlockLaws (MC : Type) `{MemcachedNumbers} `{MemcachedControl MC}
    `{!MemcachedServers MC} : Prop := {
  no_block_off m :
    behavior_get (memcached_behavior_set m (behavior_num BEHAVIOR_NO_BLOCK) 0).2 BEHAVIOR_NO_BLOCK = 0;
  no_block_back m m' :
    let v := behavior_get m BEHAVIOR_NO_BLOCK in
    behavior_get (memcached_behavior_set m' (behavior_num BEHAVIOR_NO_BLOCK) v).2 BEHAVIOR_NO_BLOCK = v;
  no_block_stat m args :
    behavior_get (memcached_stat_execute m args).2 BEHAVIOR_NO_BLOCK = behavior_get m BEHAVIOR_NO_BLOCK
}.

#[export] Instance ToyNoBlockLaws : NoBlockLaws toy.
Proof.
  constructor; intros; [..|done]; unfold behavior_get; simpl; by rewrite lookup_insert_eq.
Qed.

(** C35: getStats never asks for statistics in non-blocking mode over the binary
    protocol, which would hang: the request is made on a handle whose NO_BLOCK
    is off, or that speaks the ascii protocol.  Afterwards NO_BLOCK is what it
    was, and the result is the array of what the servers sent, or FALSE when the
    request failed. *)
Theorem getStats_never_hangs_and_restores {MC} `{ZendRuntime} `{CNumbers} `{NoBlockLaws MC}
    args (w : world MC) :
  ∃ r w' m1,
    Memcached_getStats args w = Ret r w'
    ∧ (behavior_get m1 BEHAVIOR_NO_BLOCK = 0 ∨ behavior_get m1 BEHAVIOR_BINARY_PROTOCOL = 0)
    ∧ behavior_get (w_memc w') BEHAVIOR_NO_BLOCK = behavior_get (w_memc w) BEHAVIOR_NO_BLOCK
    ∧ let '(status, calls, _) := memcached_stat_execute m1 (c_str <$> args) in
      rescode (w_obj w') = status
      ∧ r = if s_memcached_return_is_error status true then ZFalse else ZArr (stats_array calls).
Proof.
  set (nb := behavior_get (w_memc w) BEHAVIOR_NO_BLOCK).
  set (switch := negb (nb =? 0) && negb (behavior_get (w_memc w) BEHAVIOR_BINARY_PROTOCOL =? 0)).
  set (m1 := if switch
             then (memcached_behavior_set (w_memc w) (behavior_num BEHAVIOR_NO_BLOCK) 0).2
             else w_memc w).
  destruct (memcached_stat_execute m1 (c_str <$> args)) as [[status calls] m2] eqn:E.
  set (m3 := if switch then (memcached_behavior_set m2 (behavior_num BEHAVIOR_NO_BLOCK) nb).2 else m2).
  exists (if s_memcached_return_is_error status true then ZFalse else ZArr (stats_array calls)),
    (with_obj (result_obj status m3 (w_obj w)) (with_memc m3 w)), m1.
  split; [|split; [|split]].
  - unfold Memcached_getStats. rewrite gets_bind. fold nb switch.
    assert (memc_call (λ m, memcached_stat_execute m (c_str <$> args)) (with_memc m1 w)
            = Ret (status, calls) (with_memc m2 w)) as Ec by (unfold memc_call; cbn; by rewrite E).
    subst m1 m3. destruct switch; cbn [when]; unfold memc_do.
    + rewrite modify_bind, (bind_Ret _ _ _ _ _ Ec), modify_bind,
        (bind_Ret _ _ _ _ _ (handle_result_code_run status _)).
      by destruct (s_memcached_return_is_error status true).
    + rewrite ret_bind. replace (with_memc (w_memc w) w) with w in Ec by by destruct w.
      rewrite (bind_Ret _ _ _ _ _ Ec), ret_bind,
        (bind_Ret _ _ _ _ _ (handle_result_code_run status _)).
      by destruct (s_memcached_return_is_error status true).
  - subst m1. destruct switch eqn:Es; [left; apply no_block_off|].
    apply andb_false_iff in Es as [Es|Es]; apply negb_false_iff, Z.eqb_eq in Es; auto.
  - cbn. subst m3. destruct switch eqn:Es; [apply no_block_back|].
    pose proof (no_block_stat m1 (c_str <$> args)) as Hs. rewrite E in Hs. simpl in Hs.
    exact Hs.
  - by rewrite E.
Qed.

Definition toy_no_block_world : world toy :=
  toy_world (t_set_behaviors (<[18 := 1]> (<[0 := 1]> ∅)) toy_new).

Lemma getStats_never_hangs_and_restores_witness :
  let w := toy_no_block_world in
  behavior_get (w_memc w) BEHAVIOR_NO_BLOCK = 1
  ∧ ∃ r w' m1,
      Memcached_getStats None w = Ret r w'
      ∧ (behavior_get m1 BEHAVIOR_NO_BLOCK = 0 ∨ behavior_get m1 BEHAVIOR_BINARY_PROTOCOL = 0)
      ∧ behavior_get (w_memc w') BEHAVIOR_NO_BLOCK = 1
      ∧ let '(status, calls, _) := memcached_stat_execute m1 None in
        rescode (w_obj w') = status
        ∧ r = if s_memcached_return_is_error status true then ZFalse else ZArr (stats_array calls).
Proof.
  intros w. split; [reflexivity|].
  exact (getStats_never_hangs_and_restores None toy_no_block_world).
Defined.

(** ** What the statistics array holds *)
Section StatsArray.
Context `{ZendRuntime} `{CNumbers}.

Definition stats_find (a : zarray) (address : string) (name : zkey) : option zval :=
  match arr_find a (KStr address) with Some (ZArr b) => arr_find b name | _ => None end.

(** The key a statistic is filed under. *)
Definition stat_name (key value : string) : zkey :=
  match stat_value value with ZStr _ => symtable_key key | _ => symtable_key (c_str key) end.

Lemma stats_find_cb i key value a address name :
  stats_find (s_stat_execute_cb i key value a) address name
  = if decide (server_address i = address ∧ stat_name key value = name)
    then Some (stat_value value) else stats_find a address name.
Proof.
  unfold stats_find, s_stat_execute_cb. rewrite arr_find_update. fold (stat_name key value).
  destruct (decide (KStr (server_address i) = KStr address)) as [[= <-]|Hne].
  - rewrite arr_find_update. destruct (decide (stat_name key value = name)) as [->|Hn].
    + by rewrite decide_True.
    + rewrite decide_False by tauto.
      by destruct (arr_find a (KStr (server_address i))) as [[]|].
  - rewrite decide_False by naive_solver. done.
Qed.

Lemma stats_find_foldl calls a address name :
  Forall (λ '(i, key, value), ¬ (server_address i = address ∧ stat_name key value = name)) calls →
  stats_find (foldl (λ a '(i, key, value), s_stat_execute_cb i key value a) a calls) address name
  = stats_find a address name.
Proof.
  revert a. induction calls as [|[[i key] value] calls IH]; intros a; [done|].
  intros [Hn Hcalls]%Forall_cons. simpl. rewrite IH by done.
  rewrite stats_find_cb. by rewrite decide_False.
Qed.
End StatsArray.

(** The array getStats returns is a table: under a server's address and the
    name of a statistic it holds the last value that server sent for it, as an
    integer when the text is one, as a float when it is one, and as the text
    otherwise.  In particular every decimal integer comes back as itself. *)
Theorem stats_array_spec `{ZendRuntime} `{CNumbers} before i key value after :
  Forall (λ '(j, key', value'), ¬ (server_address j = server_address i
                                   ∧ stat_name key' value' = stat_name key value)) after →
  stats_find (stats_array (before ++ (i, key, value) :: after)) (server_address i)
    (stat_name key value) = Some (stat_value value)
  ∧ (∀ n, is_long n → value = ldec n → stat_value value = ZLong n).
Proof.
  intros Hafter. split.
  - unfold stats_array. rewrite foldl_app. simpl. rewrite stats_find_foldl by done.
    rewrite stats_find_cb. by rewrite decide_True.
  - intros n Hn ->. unfold stat_value, s_long_value. rewrite c_str_ldec.
    by rewrite strtol_ldec.
Qed.

Lemma stats_array_spec_witness :
  let i := mkInstance "10.0.0.1" 11211 "TCP" (1, 6, 0) in
  let calls := [(i, "pid", "41"); (i, "pid", "42"); (i, "version", "1.6.0")]%string in
  stats_find (stats_array calls) (server_address i) (stat_name "pid" "42") = Some (ZLong 42).
Proof.
  intros i calls.
  apply (stats_array_spec [(i, "pid", "41")]%string i "pid" "42" [(i, "version", "1.6.0")]%string).
  apply Forall_singleton. intros [_ E]. vm_compute in E. discriminate E.
Defined.
