(* ===== verification/Session.v ===== *)
(** * The session handler: locking, reading, writing

    php_memcached_session.c, less the opening and closing of handles, which are
    in SessionHandles.  A session function runs on the handle of the module
    data, the [php_memcached_user_data] attached to it, the session settings,
    the clock, and the lists of warnings raised and of pauses made so far. *)

From S2P Require Import Prelude CLib Zend LibMemcached World.
#[local] Open Scope Z_scope.

Definition REALTIME_MAXDELTA : Z := 60 * 60 * 24 * 30.

(** [php_memcached_user_data] of a session handle. *)
Record php_memcached_user_data : Type := mkSessionData {
  sess_is_persistent : bool;
  sess_has_sasl_data : bool;
  is_locked : bool;
  lock_key : option string
}.

(** The [session] part of the module globals. *)
Record session_ini : Type := mkSessionIni {
  lock_enabled : bool;
  lock_wait_max : Z;
  lock_wait_min : Z;
  lock_retries : Z;
  lock_expiration : Z;
  binary_protocol_enabled : bool;
  consistent_hash_enabled : bool;
  consistent_hash_type : Z;
  server_failure_limit : Z;
  number_of_replicas : Z;
  randomize_replica_read_enabled : bool;
  remove_failed_servers_enabled : bool;
  connect_timeout : Z;
  prefix : option string;
  persistent_enabled : bool;
  sasl_username : option string;
  sasl_password : option string
}.

Record sworld (MC : Type) : Type := mkSession {
  s_memc : MC;
  s_data : php_memcached_user_data;
  s_ini : session_ini;
  s_time : Z;                     (* time(NULL) *)
  s_max_execution_time : Z;       (* the INI setting *)
  s_warnings : list string;
  s_slept : list Z                (* arguments of usleep *)
}.
Arguments mkSession {MC} _ _ _ _ _ _ _.
Arguments s_memc {MC} _.
Arguments s_data {MC} _.
Arguments s_ini {MC} _.
Arguments s_time {MC} _.
Arguments s_max_execution_time {MC} _.
Arguments s_warnings {MC} _.
Arguments s_slept {MC} _.

(** [MEMC_SESS_STR_INI]: an empty setting is no setting. *)
Definition MEMC_SESS_STR_INI (v : option string) : option string :=
  match v with
  | Some s => if String.eqb (c_str s) "" then None else Some (c_str s)
  | None => None
  end.

(** What a session function answers. *)
Inductive ps_result : Type := SUCCESS | FAILURE.

Section SessionWorld.
Context {MC : Type}.
#[local] Abbreviation M := (M (sworld MC)).
Implicit Types s : sworld MC.

Definition with_smemc (m : MC) s : sworld MC :=
  mkSession m (s_data s) (s_ini s) (s_time s) (s_max_execution_time s) (s_warnings s) (s_slept s).
Definition with_sdata (d : php_memcached_user_data) s : sworld MC :=
  mkSession (s_memc s) d (s_ini s) (s_time s) (s_max_execution_time s) (s_warnings s) (s_slept s).
Definition with_swarning (x : string) s : sworld MC :=
  mkSession (s_memc s) (s_data s) (s_ini s) (s_time s) (s_max_execution_time s)
    (s_warnings s ++ [x]) (s_slept s).
Definition with_sleep (us : Z) s : sworld MC :=
  mkSession (s_memc s) (s_data s) (s_ini s) (s_time s) (s_max_execution_time s)
    (s_warnings s) (s_slept s ++ [us]).

Definition swarn (x : string) : M unit := modify (with_swarning x).
Definition smemc_call {A} (f : MC → A * MC) : M A :=
  λ s, let '(a, m) := f (s_memc s) in Ret a (with_smemc m s).

(** [usleep(useconds_t)]. *)
Definition usleep (us : Z) : M unit := modify (with_sleep (u32 us)).

(** ** Expirations *)

Definition s_adjust_expiration (now expiration : Z) : Z :=
  if expiration <=? REALTIME_MAXDELTA then expiration else now + expiration.

Definition s_lock_expiration : M Z :=
  s ← get;
  mret (if lock_expiration (s_ini s) >? 0
        then s_adjust_expiration (s_time s) (lock_expiration (s_ini s))
        else if s_max_execution_time s >? 0
        then s_adjust_expiration (s_time s) (s_max_execution_time s)
        else 0).

Definition s_session_expiration (maxlifetime : Z) : M Z :=
  now ← gets s_time;
  mret (if maxlifetime >? 0 then s_adjust_expiration now maxlifetime else 0).
End SessionWorld.

Section Session.
Context {MC : Type} `{BuildConfig} `{MemcachedNumbers} `{MemcachedControl MC}
  `{MemcachedStorage MC} `{MemcachedGet MC} `{MemcachedAuth MC}.
#[local] Abbreviation M := (M (sworld MC)).
Implicit Types s : sworld MC.

(** ** Locking *)

(** One turn of the loop: [memcached_add] and its [switch]; the answer is the next
    [wait_time]. *)
Definition lock_attempt (key : string) (expiration wait_time retries : Z) : M Z :=
  rc ← smemc_call (λ m, memcached_add m key "1" expiration 0);
  match rc with
  | MEMCACHED_SUCCESS =>
      modify (λ s, with_sdata (mkSessionData (sess_is_persistent (s_data s))
                                 (sess_has_sasl_data (s_data s)) true (Some key)) s);;
      mret wait_time
  | MEMCACHED_NOTSTORED | MEMCACHED_DATA_EXISTS =>
      if retries >? 0 then
        usleep (wait_time * 1000);;
        max ← gets (λ s, lock_wait_max (s_ini s));
        mret (Z.min max (s64 (wait_time * 2)))
      else mret wait_time
  | _ => swarn "Failed to write session lock: %s";; mret wait_time
  end.

(** [do { ... } while (!user_data->is_locked && retries-- > 0)]. *)
Fixpoint lock_loop (fuel : nat) (key : string) (expiration wait_time retries : Z) : M unit :=
  match fuel with
  | O => no_fuel
  | S f =>
      wait_time ← lock_attempt key expiration wait_time retries;
      locked ← gets (λ s, is_locked (s_data s));
      if negb locked && (retries >? 0) then lock_loop f key expiration wait_time (retries - 1)
      else mret tt
  end.

Definition lock_key_of (sid : string) : string := ("lock." ++ c_str sid)%string.

Definition s_lock_session (sid : string) : M bool :=
  expiration ← s_lock_expiration;
  ini ← gets s_ini;
  lock_loop (S (Z.to_nat (lock_retries ini))) (lock_key_of sid) expiration
    (lock_wait_min ini) (lock_retries ini);;
  gets (λ s, is_locked (s_data s)).

Definition s_unlock_session : M unit :=
  d ← gets s_data;
  if is_locked d then
    match lock_key d with
    | None => undef
    | Some key =>
        smemc_call (λ m, memcached_delete m key 0);;
        modify (λ s, with_sdata (mkSessionData (sess_is_persistent (s_data s))
                                   (sess_has_sasl_data (s_data s)) false (lock_key (s_data s))) s)
    end
  else mret tt.

(** ** The functions of the session module, with a handle *)

(** The second half of [ps_read]: the item, once the lock is taken. *)
Definition read_item (key : string) : M (ps_result * string) :=
  r ← smemc_call (λ m, let '(payload, flags, status, m') := memcached_get m key in
                       ((payload, status), m'));
  let '(payload, status) := (r : option string * memcached_return) in
  match status with
  | MEMCACHED_SUCCESS => mret (SUCCESS, default ""%string payload)
  | MEMCACHED_NOTFOUND => mret (SUCCESS, ""%string)
  | _ => swarn "error getting session from memcached: %s";; mret (FAILURE, ""%string)
  end.

Definition ps_read (key : string) : M (ps_result * string) :=
  enabled ← gets (λ s, lock_enabled (s_ini s));
  locked ← (if enabled : bool then s_lock_session key else mret true);
  if negb locked then swarn "Unable to clear session lock record";; mret (FAILURE, ""%string)
  else read_item key.

(** [do { ... } while (--retries > 0)]. *)
Fixpoint write_loop (fuel : nat) (key val : string) (expiration : Z) (retries : Z)
    : M ps_result :=
  match fuel with
  | O => no_fuel
  | S f =>
      rc ← smemc_call (λ m, memcached_set m key val expiration 0);
      if bool_decide (rc = MEMCACHED_SUCCESS) then mret SUCCESS
      else
        swarn "error saving session to memcached: %s";;
        if retries - 1 >? 0 then write_loop f key val expiration (retries - 1) else mret FAILURE
  end.

Definition write_retries (m : MC) (ini : session_ini) : Z :=
  if remove_failed_servers_enabled ini then
    let replicas := s64 (memcached_behavior_get m (behavior_num BEHAVIOR_NUMBER_OF_REPLICAS)) in
    let failure_limit :=
      s64 (memcached_behavior_get m (behavior_num BEHAVIOR_SERVER_FAILURE_LIMIT)) in
    s64 (1 + replicas * (failure_limit + 1))
  else 1.

Definition ps_write (key val : string) (maxlifetime : Z) : M ps_result :=
  expiration ← s_session_expiration maxlifetime;
  s ← get;
  let retries := write_retries (s_memc s) (s_ini s) in
  write_loop (S (Z.to_nat retries)) key val expiration retries.

Definition ps_destroy (key : string) : M ps_result :=
  smemc_call (λ m, memcached_delete m key 0);;
  d ← gets s_data;
  (if is_locked d then s_unlock_session else mret tt);;
  mret SUCCESS.

Definition ps_gc : M ps_result := mret SUCCESS.

(** The loop of [PS_CREATE_SID_FUNC]; [create_id] is [php_session_create_id] and
    [None] the NULL it leaves when every id was taken. *)
Fixpoint create_sid_loop (retries : nat) (create_id : M string) : M (option string) :=
  match retries with
  | O => mret None
  | S n =>
      sid ← create_id;
      expiration ← s_lock_expiration;
      rc ← smemc_call (λ m, memcached_add m sid "" expiration 0);
      if bool_decide (rc = MEMCACHED_SUCCESS) then mret (Some sid)
      else create_sid_loop n create_id
  end.

Definition ps_create_sid (create_id : M string) : M (option string) :=
  create_sid_loop 3 create_id.

(** [php_memcached_exist] (php_libmemcached_compat.c). *)
Definition php_memcached_exist (m : MC) (key : string) : memcached_return * MC :=
  if HAVE_MEMCACHED_EXIST then memcached_exist m key
  else let '(_, _, rc, m') := memcached_get m key in (rc, m').

Definition ps_validate_sid (key : string) : M ps_result :=
  rc ← smemc_call (λ m, php_memcached_exist m key);
  mret (if bool_decide (rc = MEMCACHED_SUCCESS) then SUCCESS else FAILURE).

Definition ps_update_timestamp (key : string) (maxlifetime : Z) : M ps_result :=
  expiration ← s_session_expiration maxlifetime;
  m ← gets s_memc;
  when ((LIBMEMCACHED_VERSION_HEX <? 16777240)
        && negb (memcached_behavior_get m (behavior_num BEHAVIOR_BINARY_PROTOCOL) =? 0))
    (swarn "using touch command with binary protocol is not recommended with libmemcached versions below 1.0.18, please use ascii protocol or upgrade libmemcached");;
  rc ← smemc_call (λ m, memcached_touch m key expiration);
  mret (if bool_decide (rc = MEMCACHED_FAILURE) then FAILURE else SUCCESS).
End Session.
