(* ===== verification/SessionProofs.v ===== *)
(** * Sessions: bounded waiting, bounded writing, what is written is read *)

From S2P Require Import Prelude CLib Zend LibMemcached World Toy Session.
#[local] Open Scope Z_scope.

(** ** Waiting for the lock *)
Section Lock.
Context {MC : Type} `{MemcachedStorage MC}.
Implicit Types s : sworld MC.

Definition lock_command (key : string) (expiration : Z) (m : MC) : memcached_return * MC :=
  memcached_add m key "1" expiration 0.

(** A pause that respects the configured limits, in microseconds. *)
Definition pause_ok (bound us : Z) : Prop := 0 <= us <= 1000 * bound.

Lemma u32_le z : 0 <= z → 0 <= u32 z <= z.
Proof. intros Hz. unfold u32. split; [apply Z.mod_pos_bound; lia|]. apply Z.mod_le; lia. Qed.

(** One attempt: either the lock is taken, or only the handle, the warnings and
    the pauses have changed. *)
Lemma lock_attempt_run key expiration wait retries bound s :
  0 <= wait <= bound → 0 <= lock_wait_max (s_ini s) <= bound → bound < 2 ^ 62 →
  let '(rc, m) := lock_command key expiration (s_memc s) in
  ∃ wait' s', lock_attempt key expiration wait retries s = Ret wait' s'
    ∧ 0 <= wait' <= bound ∧ s_memc s' = m ∧ s_ini s' = s_ini s
    ∧ s_data s' = (if bool_decide (rc = MEMCACHED_SUCCESS)
                   then mkSessionData (sess_is_persistent (s_data s)) (sess_has_sasl_data (s_data s))
                          true (Some key)
                   else s_data s)
    ∧ ∃ pauses, s_slept s' = s_slept s ++ pauses ∧ Forall (pause_ok bound) pauses
                ∧ Z.of_nat (length pauses) <= Z.min 1 (Z.max 0 retries).
Proof.
  intros Hwait Hmax Hbound. unfold lock_attempt, smemc_call, lock_command.
  destruct (memcached_add (s_memc s) key "1" expiration 0) as [rc m] eqn:E.
  assert (s64 (wait * 2) = wait * 2) as Hs by (apply s64_id; unfold is_long, LONG_MIN, LONG_MAX; lia).
  pose proof (u32_le (wait * 1000) ltac:(lia)) as Hu.
  unfold mbind, M_bind. rewrite E.
  destruct rc; cbn; try (eexists _, _; repeat split;
    [done | lia | lia | by exists []; rewrite app_nil_r; repeat split; [done|simpl; lia]]).
  all: destruct (Z.gtb_spec retries 0); cbn.
  all: eexists _, _; split; [reflexivity|]; (split; [lia|]); repeat split.
  all: first [ exists [u32 (wait * 1000)]; repeat split;
               [apply Forall_singleton; unfold pause_ok; lia|simpl; lia]
             | exists []; rewrite app_nil_r; repeat split; [done|simpl; lia] ].
Qed.

(** What the loop did: [n + 1] commands, all but the last not successful. *)
Definition lock_outcome (key : string) (expiration retries bound : Z) s s' : Prop :=
  ∃ n rc m, nth_answer (lock_command key expiration) n (s_memc s) = (rc, m)
    ∧ Z.of_nat n <= Z.max 0 retries
    ∧ (∀ i, (i < n)%nat →
         (nth_answer (lock_command key expiration) i (s_memc s)).1 ≠ MEMCACHED_SUCCESS)
    ∧ s_memc s' = m ∧ s_ini s' = s_ini s
    ∧ (rc = MEMCACHED_SUCCESS ∧ is_locked (s_data s') = true ∧ lock_key (s_data s') = Some key
       ∨ rc ≠ MEMCACHED_SUCCESS ∧ Z.of_nat n = Z.max 0 retries ∧ s_data s' = s_data s)
    ∧ ∃ pauses, s_slept s' = s_slept s ++ pauses ∧ Forall (pause_ok bound) pauses
                ∧ Z.of_nat (length pauses) <= Z.max 0 retries.

Lemma lock_loop_run fuel key expiration wait retries bound s :
  (Z.to_nat retries < fuel)%nat → is_locked (s_data s) = false →
  0 <= wait <= bound → 0 <= lock_wait_max (s_ini s) <= bound → bound < 2 ^ 62 →
  ∃ s', lock_loop fuel key expiration wait retries s = Ret tt s'
        ∧ lock_outcome key expiration retries bound s s'.
Proof.
  revert wait retries s. induction fuel as [|fuel IH]; intros wait retries s Hfuel Hfree Hwait Hmax Hbound;
    [lia|]. cbn [lock_loop].
  pose proof (lock_attempt_run key expiration wait retries bound s Hwait Hmax Hbound) as Hone.
  destruct (lock_command key expiration (s_memc s)) as [rc m] eqn:E.
  destruct Hone as (wait' & s1 & E1 & Hw' & Hm & Hini & Hdata & p1 & Hs1 & Hp1 & Hl1).
  rewrite (bind_Ret _ _ _ _ _ E1), gets_bind, Hdata.
  case_bool_decide as Hrc; cbn [is_locked negb andb].
  { exists s1. split; [done|]. exists O, rc, m. split; [done|]. split; [lia|]. split; [lia|].
    rewrite Hdata. split; [done|]. split; [done|]. split; [by left|].
    exists p1. split; [done|]. split; [done|]. lia. }
  rewrite Hfree. cbn [negb andb]. destruct (Z.gtb_spec retries 0) as [Hr|Hr].
  - destruct (IH wait' (retries - 1) s1) as (s2 & E2 & n & rc2 & m2 & Ha & Hn & Hi & Hm2 & Hini2 & Hd2 & p2 & Hs2 & Hp2 & Hl2);
      [lia|by rewrite Hdata|done|by rewrite Hini|done|].
    exists s2. split; [done|]. exists (S n), rc2, m2. cbn [nth_answer]. rewrite E. cbn [snd].
    rewrite Hm in Ha, Hi. split; [done|]. split; [lia|]. split.
    { intros [|i] Hin; cbn [nth_answer]; rewrite E; [done|]. apply Hi. lia. }
    split; [done|]. split; [congruence|]. split.
    { destruct Hd2 as [?|(? & ? & Hd2)]; [by left|right]. rewrite Hd2, Hdata. split; [done|].
      split; [lia|done]. }
    exists (p1 ++ p2). rewrite Hs2, Hs1, app_assoc, length_app. split; [done|].
    split; [by apply Forall_app|]. lia.
  - exists s1. split; [done|]. exists O, rc, m. split; [done|]. split; [lia|]. split; [lia|].
    split; [done|]. split; [done|]. split; [right; split; [done|]; split; [lia|done]|].
    exists p1. split; [done|]. split; [done|]. lia.
Qed.
End Lock.

Lemma lock_expiration_run {MC} (s : sworld MC) :
  ∃ e, s_lock_expiration s = Ret e s.
Proof. by eexists. Qed.

(** C28: taking the session lock never hangs.  A session that holds no lock sends
    the add at most [lock_retries + 1] times; it gets the lock with the first
    add that succeeds and answers whether there was one.  It pauses at most
    [lock_retries] times, each pause at most the larger of the two configured
    waits, so the whole wait is bounded by their product. *)
Theorem s_lock_session_bounded {MC} `{MemcachedStorage MC} (sid : string) (s : sworld MC) :
  let ini := s_ini s in
  let bound := Z.max (lock_wait_min ini) (lock_wait_max ini) in
  is_locked (s_data s) = false →
  0 <= lock_wait_min ini → 0 <= lock_wait_max ini → bound < 2 ^ 62 →
  ∃ expiration s', s_lock_session sid s = Ret (is_locked (s_data s')) s'
    ∧ lock_outcome (lock_key_of sid) expiration (lock_retries ini) bound s s'
    ∧ ∃ pauses, s_slept s' = s_slept s ++ pauses
        ∧ foldr Z.add 0 pauses <= 1000 * bound * Z.max 0 (lock_retries ini).
Proof.
  intros ini bound Hfree Hmin Hmax Hb. destruct (lock_expiration_run s) as [e He].
  assert (lock_wait_min ini <= bound ∧ lock_wait_max ini <= bound) as [Hb1 Hb2]
    by (unfold bound; lia).
  clearbody bound.
  destruct (lock_loop_run (S (Z.to_nat (lock_retries ini))) (lock_key_of sid) e
    (lock_wait_min ini) (lock_retries ini) bound s) as (s' & E & Hout); [lia|done|lia|done|done|].
  exists e, s'. unfold s_lock_session. rewrite (bind_Ret _ _ _ _ _ He), gets_bind.
  fold ini. rewrite (bind_Ret _ _ _ _ _ E). split; [done|]. split; [done|].
  destruct Hout as (n & rc & m & _ & _ & _ & _ & _ & _ & pauses & Hs & Hall & Hlen).
  exists pauses. split; [done|].
  assert (foldr Z.add 0 pauses <= 1000 * bound * Z.of_nat (length pauses)) as Hsum.
  { clear Hs Hlen. induction Hall as [|us l Hus Hall IH]; simpl; [lia|].
    unfold pause_ok in Hus. lia. }
  etrans; [exact Hsum|]. apply Z.mul_le_mono_nonneg_l; [lia|done].
Qed.

(** Settings and a handle of a session. *)
Definition toy_session_ini : session_ini :=
  mkSessionIni true 150 150 5 0 true true 3 0 0 false false 0 (Some "memc.sess.key."%string) false
    None None.

Definition toy_session (m : toy) : sworld toy :=
  mkSession m (mkSessionData false false false None) toy_session_ini 1700000000 30 [] [].

Lemma s_lock_session_bounded_witness :
  let s := toy_session (t_set_script [MEMCACHED_NOTSTORED; MEMCACHED_NOTSTORED] toy_new) in
  is_locked (s_data s) = false
  ∧ ∃ expiration s', s_lock_session "abc" s = Ret (is_locked (s_data s')) s'
    ∧ lock_outcome (lock_key_of "abc") expiration 5 150 s s'
    ∧ ∃ pauses, s_slept s' = s_slept s ++ pauses ∧ foldr Z.add 0 pauses <= 1000 * 150 * 5.
Proof.
  intros s. split; [reflexivity|].
  apply (s_lock_session_bounded "abc" s); [reflexivity|done|done|done].
Defined.

(** ** Writing *)
Section Write.
Context {MC : Type} `{MemcachedStorage MC}.
Implicit Types s : sworld MC.

Definition session_set (key val : string) (expiration : Z) (m : MC) : memcached_return * MC :=
  memcached_set m key val expiration 0.

Lemma write_loop_run fuel key val expiration retries s :
  (Z.to_nat retries < fuel)%nat →
  ∃ n rc m s', nth_answer (session_set key val expiration) n (s_memc s) = (rc, m)
    ∧ Z.of_nat n + 1 <= Z.max 1 retries
    ∧ (∀ i, (i < n)%nat →
         (nth_answer (session_set key val expiration) i (s_memc s)).1 ≠ MEMCACHED_SUCCESS)
    ∧ write_loop fuel key val expiration retries s
      = Ret (if bool_decide (rc = MEMCACHED_SUCCESS) then SUCCESS else FAILURE) s'
    ∧ (rc ≠ MEMCACHED_SUCCESS → Z.of_nat n + 1 = Z.max 1 retries)
    ∧ s_memc s' = m ∧ s_data s' = s_data s ∧ s_ini s' = s_ini s.
Proof.
  revert retries s. induction fuel as [|fuel IH]; intros retries s Hfuel; [lia|]. cbn [write_loop].
  destruct (session_set key val expiration (s_memc s)) as [rc m] eqn:E.
  assert (smemc_call (λ m, memcached_set m key val expiration 0) s = Ret rc (with_smemc m s)) as Ec
    by (unfold smemc_call; unfold session_set in E; by rewrite E).
  rewrite (bind_Ret _ _ _ _ _ Ec). case_bool_decide as Hrc.
  { exists O, rc, m, (with_smemc m s). rewrite bool_decide_true by done.
    repeat split; try lia; done. }
  unfold swarn. rewrite modify_bind. destruct (Z.gtb_spec (retries - 1) 0).
  - destruct (IH (retries - 1) (with_swarning "error saving session to memcached: %s" (with_smemc m s)))
      as (n & rc2 & m2 & s2 & Ha & Hn & Hi & Hrun & Hend & Hm & Hd & Hini); [lia|].
    exists (S n), rc2, m2, s2. cbn [nth_answer]. rewrite E. cbn [snd].
    split; [done|]. split; [lia|]. split.
    { intros [|i] Hin; cbn [nth_answer]; rewrite E; [done|]. apply Hi. lia. }
    split; [done|]. split; [|done]. intros Hne. specialize (Hend Hne). lia.
  - exists O, rc, m, (with_swarning "error saving session to memcached: %s" (with_smemc m s)).
    rewrite bool_decide_false by done. repeat split; try lia; done.
Qed.
End Write.

(** A session write sends the set command once, or, when failed servers are to
    be removed, at most 1 + replicas * (failure limit + 1) times.  It stops at the
    first command that succeeds and answers SUCCESS exactly then; FAILURE comes
    only after the last of the attempts, each of which has failed. *)
Theorem ps_write_attempts {MC} `{MemcachedNumbers} `{MemcachedControl MC} `{MemcachedStorage MC}
    (key val : string) (maxlifetime : Z) (s : sworld MC) :
  let retries := write_retries (s_memc s) (s_ini s) in
  ∃ expiration n rc s',
    nth_answer (session_set key val expiration) n (s_memc s) = (rc, s_memc s')
    ∧ Z.of_nat n + 1 <= Z.max 1 retries
    ∧ (∀ i, (i < n)%nat →
         (nth_answer (session_set key val expiration) i (s_memc s)).1 ≠ MEMCACHED_SUCCESS)
    ∧ ps_write key val maxlifetime s
      = Ret (if bool_decide (rc = MEMCACHED_SUCCESS) then SUCCESS else FAILURE) s'
    ∧ (rc ≠ MEMCACHED_SUCCESS → Z.of_nat n + 1 = Z.max 1 retries).
Proof.
  intros retries. set (e := if maxlifetime >? 0 then s_adjust_expiration (s_time s) maxlifetime else 0).
  destruct (write_loop_run (S (Z.to_nat retries)) key val e retries s)
    as (n & rc & m & s' & Ha & Hn & Hi & Hrun & Hend & <- & _ & _); [lia|].
  exists e, n, rc, s'. split; [done|]. split; [done|]. split; [done|]. split; [|done].
  unfold ps_write. unfold s_session_expiration. rewrite bind_assoc, gets_bind, ret_bind, get_bind.
  exact Hrun.
Qed.

(** ** What was written is read *)

Class SessionStoreLaws (MC : Type) `{MemcachedStorage MC} `{MemcachedGet MC} : Type := {
  sess_stored : MC → string → option string;
  sess_set m k v e f m' :
    memcached_set m k v e f = (MEMCACHED_SUCCESS, m') → sess_stored m' k = Some v;
  sess_get m k v payload flags rc m' :
    sess_stored m k = Some v → memcached_get m k = (payload, flags, rc, m') →
    rc ≠ MEMCACHED_NOTFOUND ∧ (rc = MEMCACHED_SUCCESS → payload = Some v);
  sess_add_other m k v e f k' :
    k' ≠ k → sess_stored (memcached_add m k v e f).2 k' = sess_stored m k'
}.

#[export] Instance ToySessionStore : SessionStoreLaws toy.
Proof.
  refine {| sess_stored m k := it_value <$> t_items m !! (k, k) |}.
  - intros m k v e f m'. simpl. unfold toy_store, toy_cmd. simpl.
    assert (∀ m0, it_value <$> t_items (toy_write k k v f e m0) !! (k, k) = Some v) as Hw
      by (intros m0; unfold toy_write; cbn; by rewrite lookup_insert_eq).
    destruct (t_script m) as [|rc s]; [|destruct (s_memcached_return_is_error rc true) eqn:E];
      intros [= ]; subst; [apply Hw|done|apply Hw].
  - intros m k v payload flags rc m'. simpl.
    destruct (t_items m !! (k, k)) as [it|]; [|done]. by intros [= <-] [= <- <- <- <-].
  - intros m k v e f k' Hne. simpl. unfold toy_store, toy_cmd. simpl.
    repeat case_match; try done; simpl; by rewrite lookup_insert_ne by congruence.
Defined.

(** A session id is never the key of its own lock. *)
Lemma lock_key_other sid : sid ≠ lock_key_of sid.
Proof.
  unfold lock_key_of. intros E. apply (f_equal c_str) in E.
  assert (∀ x, c_str ("lock." ++ x) = ("lock." ++ c_str x)%string) as Hlock by reflexivity.
  rewrite Hlock, c_str_idemp in E. apply (f_equal String.length) in E.
  rewrite string_length_app in E. simpl in E. lia.
Qed.

Lemma nth_add_other {MC} `{SessionStoreLaws MC} key e n m k :
  k ≠ key → sess_stored (nth_answer (lock_command key e) n m).2 k = sess_stored m k.
Proof.
  intros Hne. revert m. induction n as [|n IH]; intros m; cbn [nth_answer].
  - by apply sess_add_other.
  - rewrite IH. by apply sess_add_other.
Qed.

(** C27: what a session wrote is what it reads.  After a write that answered
    SUCCESS, a later read of the same session, on the server the write left,
    under any sound lock settings and whether or not locking is on, either
    fails or returns exactly the bytes that were written; it never returns an
    empty or a different session as a success. *)
Theorem session_write_then_read {MC} `{MemcachedNumbers} `{MemcachedControl MC}
    `{SessionStoreLaws MC} key val maxlifetime (s s1 s2 : sworld MC) :
  ps_write key val maxlifetime s = Ret SUCCESS s1 →
  s_memc s2 = s_memc s1 → is_locked (s_data s2) = false →
  0 <= lock_wait_min (s_ini s2) < 2 ^ 62 → 0 <= lock_wait_max (s_ini s2) < 2 ^ 62 →
  ∃ r data s3, ps_read key s2 = Ret (r, data) s3 ∧ (r = SUCCESS → data = val).
Proof.
  intros Hw Hm Hfree Hmin Hmax.
  assert (sess_stored (s_memc s2) key = Some val) as Hst.
  { unfold ps_write in Hw. apply bind_inv in Hw as (e & s' & He & Hw).
    rewrite get_bind in Hw.
    destruct (write_loop_run (S (Z.to_nat (write_retries (s_memc s') (s_ini s')))) key val e
      (write_retries (s_memc s') (s_ini s')) s') as (n & rc & m & s4 & Ha & _ & _ & R & _ & Hs4 & _); [lia|].
    rewrite R in Hw. case_bool_decide as Hrc; [|done]. injection Hw as ->. subst rc.
    destruct (nth_answer_call (session_set key val e) n (s_memc s')) as [m0 Hm0].
    rewrite Ha in Hm0. unfold session_set in Hm0. rewrite Hm, Hs4. by eapply sess_set. }
  assert (∃ (b : bool) s', (if lock_enabled (s_ini s2) then s_lock_session key else mret true) s2
            = Ret b s' ∧ sess_stored (s_memc s') key = Some val) as (b & s' & E & Hst').
  { destruct (lock_enabled (s_ini s2)); [|by exists true, s2].
    destruct (lock_expiration_run s2) as [e He].
    destruct (lock_loop_run (S (Z.to_nat (lock_retries (s_ini s2)))) (lock_key_of key) e
      (lock_wait_min (s_ini s2)) (lock_retries (s_ini s2))
      (Z.max (lock_wait_min (s_ini s2)) (lock_wait_max (s_ini s2))) s2)
      as (s' & R & n & rc & m & Ha & _ & _ & Hm' & _); [lia|done|lia|lia|lia|].
    exists (is_locked (s_data s')), s'. split.
    - unfold s_lock_session. by rewrite (bind_Ret _ _ _ _ _ He), gets_bind, (bind_Ret _ _ _ _ _ R).
    - rewrite Hm'. replace m with (nth_answer (lock_command (lock_key_of key) e) n (s_memc s2)).2
        by (by rewrite Ha). by rewrite nth_add_other by apply lock_key_other. }
  unfold ps_read. rewrite gets_bind, (bind_Ret _ _ _ _ _ E).
  destruct b; cbn [negb]; [|by eexists _, _, _].
  unfold read_item, smemc_call. unfold mbind at 1, M_bind at 1.
  destruct (memcached_get (s_memc s') key) as [[[payload flags] rc] m'] eqn:Eg.
  destruct (sess_get _ _ _ _ _ _ _ Hst' Eg) as [Hnf Hval].
  destruct rc; try done; try (by eexists _, _, _).
  exists SUCCESS, (default "" payload)%string. eexists. split; [done|]. by rewrite Hval.
Qed.

Lemma session_write_then_read_witness :
  let s := toy_session toy_new in
  ∃ s1, ps_write "abc" "count|i:1;" 1440 s = Ret SUCCESS s1
  ∧ ∃ r data s3, ps_read "abc" (toy_session (s_memc s1)) = Ret (r, data) s3
                 ∧ (r = SUCCESS → data = "count|i:1;"%string).
Proof.
  intros s.
  set (s1 := match ps_write "abc" "count|i:1;" 1440 s with Ret _ s1 => s1 | _ => s end).
  assert (ps_write "abc" "count|i:1;" 1440 s = Ret SUCCESS s1) as E by reflexivity.
  exists s1. split; [exact E|].
  apply (session_write_then_read "abc" "count|i:1;" 1440 s s1 (toy_session (s_memc s1)));
    [exact E|reflexivity|reflexivity|done|done].
Defined.

(** ** Expirations *)

(** How a server reads an expiration it gets at the time [now]: 0 is never, a
    number of up to thirty days is relative, a larger one a point in time. *)
Definition server_expires (now expiration : Z) : option Z :=
  if expiration =? 0 then None
  else if expiration <=? REALTIME_MAXDELTA then Some (now + expiration)
  else Some expiration.

(** A session expires [maxlifetime] seconds after it was written, and a lock
    [lock_expire] (or [max_execution_time]) seconds after it was taken, also
    when that is longer than the thirty days up to which the protocol takes a
    number for relative; 0 or less means never. *)
Theorem session_expirations {MC} (maxlifetime : Z) (s : sworld MC) :
  0 <= s_time s →
  (∃ e, s_session_expiration maxlifetime s = Ret e s
        ∧ server_expires (s_time s) e
          = if maxlifetime >? 0 then Some (s_time s + maxlifetime) else None)
  ∧ (∃ e, s_lock_expiration s = Ret e s
          ∧ server_expires (s_time s) e
            = if lock_expiration (s_ini s) >? 0 then Some (s_time s + lock_expiration (s_ini s))
              else if s_max_execution_time s >? 0 then Some (s_time s + s_max_execution_time s)
              else None).
Proof.
  intros Hnow.
  assert (∀ d, 0 < d → server_expires (s_time s) (s_adjust_expiration (s_time s) d)
                       = Some (s_time s + d)) as Hadj.
  { intros d Hd. unfold server_expires, s_adjust_expiration.
    destruct (Z.leb_spec d REALTIME_MAXDELTA).
    - rewrite (proj2 (Z.eqb_neq d 0)) by lia. by rewrite (proj2 (Z.leb_le d _)).
    - rewrite (proj2 (Z.eqb_neq _ 0)), (proj2 (Z.leb_gt _ REALTIME_MAXDELTA)) by lia. done. }
  split; eexists; (split; [reflexivity|]); cbn.
  - destruct (Z.gtb_spec maxlifetime 0); [by apply Hadj|done].
  - destruct (Z.gtb_spec (lock_expiration (s_ini s)) 0); [by apply Hadj|].
    destruct (Z.gtb_spec (s_max_execution_time s) 0); [by apply Hadj|done].
Qed.

Lemma session_expirations_witness :
  let s := toy_session toy_new in
  0 <= s_time s
  ∧ ∃ e, s_session_expiration 5000000 s = Ret e s ∧ server_expires (s_time s) e = Some 1705000000.
Proof. intros s. split; [done|]. apply (session_expirations 5000000 s). done. Defined.
