(* ===== verification/SessionLocks.v ===== *)
(** * Session locks: mutual exclusion between processes

    Several processes run the session handler against one server.  A system is
    the server and, per process, the user data of its handle; its steps are the
    operations of Session.v that touch locks, in any order and on any ids, and
    anything else that happens to the server.  Each step says which items it may
    take away other than by the release of a lock. *)

From S2P Require Import Prelude CLib Zend LibMemcached World Toy Session SessionProofs.
#[local] Open Scope Z_scope.

(** What a command does to the items: an add that succeeds found the key free and
    takes it, no add removes an item, and a delete removes no item but its own.
    Items that expire do so between commands. *)
Class LockServerLaws (MC : Type) `{MemcachedStorage MC} : Type := {
  holds : MC → string → Prop;
  add_takes m k v e m' :
    memcached_add m k v e 0 = (MEMCACHED_SUCCESS, m') → ¬ holds m k ∧ holds m' k;
  add_keeps m k v e k' : holds m k' → holds (memcached_add m k v e 0).2 k';
  delete_keeps m k e k' : k' ≠ k → holds m k' → holds (memcached_delete m k e).2 k'
}.

#[export] Instance ToyLockServer : LockServerLaws toy.
Proof.
  refine {| holds m k := is_Some (t_items m !! (k, k)) |}.
  - intros m k v e m'. simpl. unfold toy_store, toy_cmd. simpl.
    repeat case_match; intros; simplify_eq; split; simpl in *; try congruence;
      try (intros [? ?]; congruence); rewrite lookup_insert_eq; by eexists.
  - intros m k v e k' Hk'. simpl. unfold toy_store, toy_cmd. simpl.
    repeat case_match; simpl; try done; apply lookup_insert_is_Some';
      auto.
  - intros m k e k' Hne Hk'. simpl. unfold toy_delete, toy_cmd. simpl.
    repeat case_match; simpl; try done; by rewrite lookup_delete_ne by congruence.
Defined.

Section System.
Context {MC : Type} `{LockServerLaws MC}.

Record system : Type := mkSystem {
  sys_memc : MC;
  sys_procs : gmap nat php_memcached_user_data
}.

(** Process [p] runs [op]: on the shared server, with its own user data, under
    any settings and at any time. *)
Definition runs {A} (op : M (sworld MC) A) (p : nat) (σ σ' : system) : Prop :=
  ∃ s a s', sys_procs σ !! p = Some (s_data s) ∧ s_memc s = sys_memc σ
            ∧ op s = Ret a s'
            ∧ σ' = mkSystem (s_memc s') (<[p := s_data s']> (sys_procs σ)).

(** The items that go: the one a destroyed session is named after, whatever it is, and
    those that expire, are flushed or deleted by others. *)
Inductive lock_step : system → gset string → system → Prop :=
| step_attempt p sid expiration wait retries σ σ' :
    runs (lock_attempt (lock_key_of sid) expiration wait retries) p σ σ' → lock_step σ ∅ σ'
| step_unlock p σ σ' : runs s_unlock_session p σ σ' → lock_step σ ∅ σ'
| step_destroy p sid σ σ' : runs (ps_destroy sid) p σ σ' → lock_step σ {[sid]} σ'
| step_traffic m' gone σ :
    (∀ k, k ∉ gone → holds (sys_memc σ) k → holds m' k) →
    lock_step σ gone (mkSystem m' (sys_procs σ))
| step_open p persistent σ :
    sys_procs σ !! p = None →
    lock_step σ ∅ (mkSystem (sys_memc σ)
                   (<[p := mkSessionData persistent false false None]> (sys_procs σ)))
| step_close p d σ :
    sys_procs σ !! p = Some d →
    lock_step σ ∅ (mkSystem (sys_memc σ) (delete p (sys_procs σ))).

(** A step that does not take the item [k] away. *)
Definition keeping (k : string) (σ σ' : system) : Prop := ∃ gone, lock_step σ gone σ' ∧ k ∉ gone.

(** The lock a process believes to have. *)
Definition lock_of (d : php_memcached_user_data) : option string :=
  if is_locked d then lock_key d else None.

(** Who believes to have the lock [k] has it on the server, and is the only one. *)
Definition lock_inv (k : string) (σ : system) : Prop :=
  (∀ p d, sys_procs σ !! p = Some d → lock_of d = Some k → holds (sys_memc σ) k)
  ∧ (∀ p q dp dq, p ≠ q → sys_procs σ !! p = Some dp → sys_procs σ !! q = Some dq →
       lock_of dp = Some k → lock_of dq = Some k → False).

Lemma lock_of_Some d k : lock_of d = Some k ↔ is_locked d = true ∧ lock_key d = Some k.
Proof. unfold lock_of. destruct (is_locked d); split; [by split|by intros [_ ?]|done|by intros [? _]]. Qed.

(** A step that leaves the user data of the others alone and gives [p] a lock
    nobody had, or none, keeps the invariant. *)
Lemma lock_inv_update k σ p d d' m' :
  lock_inv k σ → sys_procs σ !! p = Some d →
  (∀ q dq, q ≠ p → sys_procs σ !! q = Some dq → lock_of dq = Some k →
     holds (sys_memc σ) k → holds m' k) →
  (lock_of d' = Some k → holds m' k ∧ (lock_of d = Some k ∨ ¬ holds (sys_memc σ) k)) →
  lock_inv k (mkSystem m' (<[p := d']> (sys_procs σ))).
Proof.
  intros [Hheld Hdiff] Hp Hothers Hmine. split; cbn.
  - intros q dq [[<- <-]|[Hne Hq]]%lookup_insert_Some Hl; [by apply Hmine|].
    apply (Hothers q dq); [congruence|done|done|by eapply Hheld].
  - assert (∀ q dq, q ≠ p → sys_procs σ !! q = Some dq → lock_of dq = Some k →
              lock_of d' = Some k → False) as Hclash.
    { intros q dq Hne Hq Hkq Hkp. destruct (Hmine Hkp) as [_ [Hd|Hfree]].
      - by eapply (Hdiff q p).
      - by eapply Hfree, Hheld. }
    intros q1 q2 d1 d2 Hne [[<- <-]|[Hn1 Hq1]]%lookup_insert_Some
      [[<- <-]|[Hn2 Hq2]]%lookup_insert_Some Hk1 Hk2; eauto.
Qed.

Lemma lock_inv_kept k σ m' :
  lock_inv k σ → (holds (sys_memc σ) k → holds m' k) → lock_inv k (mkSystem m' (sys_procs σ)).
Proof. intros [Hheld Hdiff] Hm. split; cbn; [|exact Hdiff]. eauto. Qed.

Lemma lock_attempt_step key e wait retries s a s' :
  lock_attempt key e wait retries s = Ret a s' →
  s_memc s' = (memcached_add (s_memc s) key "1" e 0).2
  ∧ (s_data s' = s_data s
     ∨ memcached_add (s_memc s) key "1" e 0 = (MEMCACHED_SUCCESS, s_memc s')
       ∧ is_locked (s_data s') = true ∧ lock_key (s_data s') = Some key).
Proof.
  intros R. unfold lock_attempt, smemc_call, mbind, M_bind in R.
  destruct (memcached_add (s_memc s) key "1" e 0) as [rc m].
  destruct rc; try (destruct (retries >? 0));
    injection R as _ <-; cbn; (split; [done|]); auto.
Qed.

Lemma unlock_step s a s' :
  s_unlock_session s = Ret a s' →
  is_locked (s_data s') = false
  ∧ (s' = s ∨ ∃ k, lock_of (s_data s) = Some k ∧ s_memc s' = (memcached_delete (s_memc s) k 0).2).
Proof.
  intros R. unfold s_unlock_session in R. rewrite gets_bind in R.
  destruct (is_locked (s_data s)) eqn:Hl; [|by injection R as _ <-; auto].
  destruct (lock_key (s_data s)) as [k|] eqn:Hk; [|done].
  unfold smemc_call, mbind, M_bind in R. destruct (memcached_delete (s_memc s) k 0) as [rc m] eqn:E.
  injection R as _ <-. cbn. split; [done|]. right. exists k. rewrite E.
  split; [by apply lock_of_Some|done].
Qed.

Lemma lock_inv_attempt k σ p key e wait retries s a s' :
  lock_inv k σ → sys_procs σ !! p = Some (s_data s) → s_memc s = sys_memc σ →
  lock_attempt key e wait retries s = Ret a s' →
  lock_inv k (mkSystem (s_memc s') (<[p := s_data s']> (sys_procs σ))).
Proof.
  intros Hinv Hp Hm R. pose proof Hinv as [Hheld _].
  apply lock_attempt_step in R as [Hm' Hd]. rewrite Hm in Hm', Hd.
  eapply lock_inv_update; [done|exact Hp| |].
  - intros q dq _ _ _ Hh. rewrite Hm'. by apply add_keeps.
  - intros Hk. destruct Hd as [Hd|(Hadd & Hl & Hkey)].
    + rewrite Hd in Hk. split; [|by left]. rewrite Hm'. by eapply add_keeps, Hheld.
    + apply lock_of_Some in Hk as [_ Hk]. assert (key = k) as -> by congruence.
      apply add_takes in Hadd as [Hfree Hh]. by split; [|right].
Qed.

Lemma lock_inv_unlock k σ p s a s' :
  lock_inv k σ → sys_procs σ !! p = Some (s_data s) → s_memc s = sys_memc σ →
  s_unlock_session s = Ret a s' →
  lock_inv k (mkSystem (s_memc s') (<[p := s_data s']> (sys_procs σ))).
Proof.
  intros Hinv Hp Hm R. apply unlock_step in R as [Hfree Hs].
  eapply lock_inv_update; [done|exact Hp| |unfold lock_of; by rewrite Hfree].
  intros q dq Hne Hq Hk Hh. destruct Hs as [->|(k' & Hk' & ->)]; [by rewrite Hm|].
  rewrite Hm. apply delete_keeps; [|done]. intros <-.
  destruct Hinv as [_ Hdiff]. by eapply (Hdiff q p).
Qed.

Lemma lock_inv_destroy k σ p sid s a s' :
  lock_inv k σ → k ≠ sid → sys_procs σ !! p = Some (s_data s) → s_memc s = sys_memc σ →
  ps_destroy sid s = Ret a s' →
  lock_inv k (mkSystem (s_memc s') (<[p := s_data s']> (sys_procs σ))).
Proof.
  intros Hinv Hsid Hp Hm R. unfold ps_destroy in R. apply bind_inv in R as (rc & s1 & R1 & R).
  assert (s_data s1 = s_data s ∧ s_memc s1 = (memcached_delete (s_memc s) sid 0).2) as [Hd1 Hm1].
  { unfold smemc_call in R1. destruct (memcached_delete (s_memc s) sid 0). by injection R1 as _ <-. }
  assert (lock_inv k (mkSystem (s_memc s1) (sys_procs σ))) as Hinv1.
  { apply lock_inv_kept; [done|]. intros Hh. rewrite Hm1, Hm. by apply delete_keeps. }
  rewrite gets_bind in R. apply bind_inv in R as (u & s2 & R & R2). injection R2 as _ <-.
  destruct (is_locked (s_data s1)).
  - by apply (lock_inv_unlock k _ p s1 u s2 Hinv1); [cbn; rewrite Hd1| |].
  - injection R as _ <-. by rewrite Hd1, insert_id.
Qed.

Lemma lock_step_inv k σ σ' : lock_inv k σ → keeping k σ σ' → lock_inv k σ'.
Proof.
  intros Hinv (gone & Hstep & Hk). pose proof Hinv as [Hheld Hdiff]. destruct Hstep as
    [p sid e wait retries σ σ' (s & a & s' & Hp & Hm & R & ->)
    |p σ σ' (s & a & s' & Hp & Hm & R & ->)
    |p sid σ σ' (s & a & s' & Hp & Hm & R & ->)
    |m' gone σ Hm'|p persistent σ Hp|p d σ Hp].
  - by eapply lock_inv_attempt.
  - by eapply lock_inv_unlock.
  - eapply lock_inv_destroy; [done| |done..]. by intros ->; apply Hk, elem_of_singleton.
  - apply lock_inv_kept; auto.
  - split; cbn.
    + intros q dq [[<- <-]|[Hne Hq]]%lookup_insert_Some Hl; [done|by eapply Hheld].
    + intros q1 q2 d1 d2 Hne [[<- <-]|[Hn1 Hq1]]%lookup_insert_Some
        [[<- <-]|[Hn2 Hq2]]%lookup_insert_Some Hk1 Hk2; try done. by eapply (Hdiff q1 q2).
  - split; cbn.
    + intros q dq [_ Hq]%lookup_delete_Some Hl. by eapply Hheld.
    + intros q1 q2 d1 d2 Hne [_ Hq1]%lookup_delete_Some [_ Hq2]%lookup_delete_Some. by eapply Hdiff.
Qed.

Lemma lock_steps_inv k σ σ' : lock_inv k σ → rtc (keeping k) σ σ' → lock_inv k σ'.
Proof. induction 2; eauto using lock_step_inv. Qed.
End System.
Arguments system : clear implicits.

(** C7: no two processes hold the lock of the same session.  From a system in which
    nobody holds a lock, after any number of attempts, releases, destructions of
    sessions with any ids, openings and closings of handles, and whatever else
    happens to the server, in any interleaving: as long as the lock item [k] is not
    taken away, by expiring, by other traffic or because a session is destroyed whose
    id is [k] itself, at most one process believes to have the lock [k], and the item
    is on the server. *)
Theorem session_locks_exclude {MC} `{LockServerLaws MC} (σ0 σ : system MC) k :
  (∀ p d, sys_procs σ0 !! p = Some d → is_locked d = false) →
  rtc (keeping k) σ0 σ →
  ∀ p q dp dq, p ≠ q → sys_procs σ !! p = Some dp → sys_procs σ !! q = Some dq →
    lock_of dp = Some k → holds (sys_memc σ) k ∧ lock_of dq ≠ Some k.
Proof.
  intros Hfree Hrun p q dp dq Hne Hp Hq Hk.
  assert (lock_inv k σ) as [Hheld Hdiff].
  { apply (lock_steps_inv k σ0); [|done]. split.
    - intros p' d Hp' [Hl _]%lock_of_Some. by rewrite (Hfree p' d Hp') in Hl.
    - intros p' q' d dq' _ Hp' _ [Hl _]%lock_of_Some. by rewrite (Hfree p' d Hp') in Hl. }
  split; [by apply (Hheld p dp)|]. intros Hkq. by apply (Hdiff p q dp dq).
Qed.

(** Two processes and an empty server; process 0 takes the lock. *)
Definition toy_procs : gmap nat php_memcached_user_data :=
  <[0%nat := mkSessionData false false false None]>
    (<[1%nat := mkSessionData false false false None]> ∅).

Definition toy_locked_session : sworld toy :=
  match lock_attempt (lock_key_of "abc") 0 150 5 (toy_session toy_new) with
  | Ret _ s' => s' | _ => toy_session toy_new end.

Lemma session_locks_exclude_witness :
  let σ0 := mkSystem toy_new toy_procs in
  let σ := mkSystem (s_memc toy_locked_session) (<[0%nat := s_data toy_locked_session]> toy_procs) in
  rtc (keeping (lock_key_of "abc")) σ0 σ
  ∧ ∀ p q dp dq, p ≠ q → sys_procs σ !! p = Some dp → sys_procs σ !! q = Some dq →
      lock_of dp = Some (lock_key_of "abc") →
      holds (sys_memc σ) (lock_key_of "abc") ∧ lock_of dq ≠ Some (lock_key_of "abc").
Proof.
  intros σ0 σ.
  assert (rtc (keeping (lock_key_of "abc")) σ0 σ) as Hrun.
  { apply rtc_once. exists ∅. split; [|apply not_elem_of_empty]. apply (step_attempt 0%nat "abc" 0 150 5).
    exists (toy_session toy_new), 150, toy_locked_session.
    split; [reflexivity|]. split; [reflexivity|]. split; reflexivity. }
  split; [exact Hrun|]. apply (session_locks_exclude σ0 σ); [|exact Hrun].
  intros p d Hp. change (toy_procs !! p = Some d) in Hp. unfold toy_procs in Hp.
  apply lookup_insert_Some in Hp as [[_ <-]|[_ Hp]]; [reflexivity|].
  apply lookup_insert_Some in Hp as [[_ <-]|[_ Hp]]; [reflexivity|].
  by rewrite lookup_empty in Hp.
Defined.

(** ** When the lock item goes *)

(** A server that carries out what it is asked. *)
Class AnsweringServer (MC : Type) `{LockServerLaws MC} : Type := {
  answering : MC → Prop;
  add_free m k v e :
    answering m → ¬ holds m k →
    ∃ m', memcached_add m k v e 0 = (MEMCACHED_SUCCESS, m') ∧ answering m';
  delete_takes m k :
    answering m → answering (memcached_delete m k 0).2 ∧ ¬ holds (memcached_delete m k 0).2 k
}.

#[export] Instance ToyAnsweringServer : AnsweringServer toy.
Proof.
  refine {| answering m := t_script m = [] |}.
  - intros m k v e Hm Hk. simpl in *. unfold toy_store, toy_cmd. simpl. rewrite Hm.
    destruct (t_items m !! (k, k)) eqn:E; [by destruct Hk|]. by eexists.
  - intros m k Hm. simpl. unfold toy_delete, toy_cmd. simpl. rewrite Hm.
    destruct (t_items m !! (k, k)) eqn:E; cbn; (split; [done|]).
    + rewrite lookup_delete_eq. by intros [].
    + rewrite E. by intros [].
Defined.

Section Broken.
Context {MC : Type} `{AnsweringServer MC}.

(** Process [p] runs [op], which answers [a], with the settings and the clock of
    [env]. *)
Definition run_at {A} (p : nat) (op : M (sworld MC) A) (env : sworld MC) (a : A)
    (σ σ' : system MC) : Prop :=
  ∃ d s', sys_procs σ !! p = Some d
    ∧ op (with_sdata d (with_smemc (sys_memc σ) env)) = Ret a s'
    ∧ σ' = mkSystem (s_memc s') (<[p := s_data s']> (sys_procs σ)).

Definition believes (σ : system MC) (p : nat) (k : string) : Prop :=
  ∃ d, sys_procs σ !! p = Some d ∧ lock_of d = Some k.

(** A lock that is free is taken at once. *)
Lemma lock_taken p sid env (σ : system MC) d :
  sys_procs σ !! p = Some d → is_locked d = false →
  answering (sys_memc σ) → ¬ holds (sys_memc σ) (lock_key_of sid) →
  ∃ σ', run_at p (s_lock_session sid) env true σ σ' ∧ answering (sys_memc σ')
    ∧ believes σ' p (lock_key_of sid) ∧ ∀ q, q ≠ p → sys_procs σ' !! q = sys_procs σ !! q.
Proof.
  intros Hp Hd Ha Hh. set (s := with_sdata d (with_smemc (sys_memc σ) env)).
  destruct (lock_expiration_run s) as [e He].
  destruct (add_free (sys_memc σ) (lock_key_of sid) "1" e Ha Hh) as (m' & E & Ha').
  set (d' := mkSessionData (sess_is_persistent d) (sess_has_sasl_data d) true (Some (lock_key_of sid))).
  exists (mkSystem m' (<[p := d']> (sys_procs σ))). split; [|split; [done|split]].
  - exists d, (with_sdata d' (with_smemc m' env)). split; [done|]. split; [|done].
    unfold s_lock_session. rewrite (bind_Ret _ _ _ _ _ He), gets_bind. cbn [lock_loop].
    unfold lock_attempt, smemc_call, mbind, M_bind. change (s_memc s) with (sys_memc σ).
    rewrite E. reflexivity.
  - exists d'. cbn. by rewrite lookup_insert_eq.
  - intros q Hq. cbn. by rewrite lookup_insert_ne.
Qed.

(** Who lets go of a lock deletes the item, whoever added it. *)
Lemma lock_released p k env (σ : system MC) :
  believes σ p k → answering (sys_memc σ) →
  ∃ σ', run_at p s_unlock_session env tt σ σ' ∧ answering (sys_memc σ')
    ∧ ¬ holds (sys_memc σ') k ∧ ∀ q, q ≠ p → sys_procs σ' !! q = sys_procs σ !! q.
Proof.
  intros (d & Hp & [Hl Hk]%lock_of_Some) Ha.
  destruct (delete_takes (sys_memc σ) k Ha) as [Ha' Hh'].
  destruct (memcached_delete (sys_memc σ) k 0) as [rc m'] eqn:E.
  set (d' := mkSessionData (sess_is_persistent d) (sess_has_sasl_data d) false (lock_key d)).
  exists (mkSystem m' (<[p := d']> (sys_procs σ))). split; [|split; [done|split; [done|]]].
  - exists d, (with_sdata d' (with_smemc m' env)). split; [done|]. split; [|done].
    unfold s_unlock_session. rewrite gets_bind. cbn [s_data with_sdata with_smemc].
    rewrite Hl, Hk. unfold smemc_call, mbind, M_bind. cbn [s_memc with_sdata with_smemc].
    by rewrite E.
  - intros q Hq. cbn. by rewrite lookup_insert_ne.
Qed.

Lemma believes_other (σ σ' : system MC) p q k :
  (∀ r, r ≠ p → sys_procs σ' !! r = sys_procs σ !! r) → q ≠ p → believes σ q k → believes σ' q k.
Proof. intros Ho Hq (d & Hd & Hk). exists d. by rewrite Ho. Qed.
End Broken.

(** C37: a lock is released by whoever believes to have it, not by its owner. Let the
    item of a lock that process [p] believes to have be gone, as after it expired.
    Then on any server that carries out what it is asked, and under any settings:
    process [q] gets the lock; when [p] then lets go, process [r] gets it too, at once;
    and now both [q] and [r] believe to have it. *)
Theorem expired_lock_release_breaks_exclusion {MC} `{AnsweringServer MC}
    sid (p q r : nat) dq dr (σ : system MC) (env1 env2 env3 : sworld MC) :
  believes σ p (lock_key_of sid) →
  ¬ holds (sys_memc σ) (lock_key_of sid) → answering (sys_memc σ) →
  sys_procs σ !! q = Some dq → is_locked dq = false →
  sys_procs σ !! r = Some dr → is_locked dr = false → q ≠ r →
  ∃ σ1 σ2 σ3, run_at q (s_lock_session sid) env1 true σ σ1
    ∧ run_at p s_unlock_session env2 tt σ1 σ2
    ∧ run_at r (s_lock_session sid) env3 true σ2 σ3
    ∧ believes σ3 q (lock_key_of sid) ∧ believes σ3 r (lock_key_of sid).
Proof.
  intros Hp Hgone Ha Hq Hdq Hr Hdr Hqr. set (k := lock_key_of sid) in *.
  assert (∀ x d, sys_procs σ !! x = Some d → is_locked d = false → x ≠ p) as Hne.
  { intros x d Hx Hd ->. destruct Hp as (dp & Hp & [Hl _]%lock_of_Some). congruence. }
  destruct (lock_taken q sid env1 σ dq Hq Hdq Ha Hgone) as (σ1 & R1 & Ha1 & Hb1 & Ho1).
  destruct (lock_released p k env2 σ1) as (σ2 & R2 & Ha2 & Hg2 & Ho2); [|done|].
  { apply (believes_other σ σ1 q); [done|by apply not_eq_sym, (Hne q dq)|done]. }
  destruct (lock_taken r sid env3 σ2 dr) as (σ3 & R3 & _ & Hb3 & Ho3); [|exact Hdr|exact Ha2|exact Hg2|].
  { by rewrite Ho2, Ho1 by (by apply (Hne r dr) || by apply not_eq_sym). }
  exists σ1, σ2, σ3. do 3 (split; [done|]). split; [|done].
  apply (believes_other σ2 σ3 r); [done|done|]. by apply (believes_other σ1 σ2 p); [|apply (Hne q dq)|].
Qed.

(** Three processes; process 0 believes to have a lock whose item is gone. *)
Definition toy_expired : system toy :=
  mkSystem toy_new (<[0%nat := s_data toy_locked_session]>
    (<[2%nat := mkSessionData false false false None]> toy_procs)).

Lemma expired_lock_release_breaks_exclusion_witness :
  let env := toy_session toy_new in
  ∃ σ1 σ2 σ3, run_at 1 (s_lock_session "abc") env true toy_expired σ1
    ∧ run_at 0 s_unlock_session env tt σ1 σ2
    ∧ run_at 2 (s_lock_session "abc") env true σ2 σ3
    ∧ believes σ3 1 (lock_key_of "abc") ∧ believes σ3 2 (lock_key_of "abc").
Proof.
  intros env.
  apply (expired_lock_release_breaks_exclusion "abc" 0 1 2 (mkSessionData false false false None)
    (mkSessionData false false false None) toy_expired env env env); try reflexivity; try done.
  - exists (s_data toy_locked_session). by split.
  - cbn. rewrite lookup_empty. by intros [].
Defined.

(** A client that may choose its session id can choose one that starts with
    [lock.]: destroying that session deletes the lock of another.  Process [q] destroys
    the session named like the lock that [p] has, and process [r] gets the lock while
    [p] still believes to have it. *)
Theorem lock_like_id_breaks_exclusion {MC} `{AnsweringServer MC}
    sid (p q r : nat) dq dr (σ : system MC) (env1 env2 : sworld MC) :
  believes σ p (lock_key_of sid) → answering (sys_memc σ) →
  sys_procs σ !! q = Some dq → is_locked dq = false →
  sys_procs σ !! r = Some dr → is_locked dr = false → q ≠ r →
  ∃ σ1 σ2, run_at q (ps_destroy (lock_key_of sid)) env1 SUCCESS σ σ1
    ∧ run_at r (s_lock_session sid) env2 true σ1 σ2
    ∧ believes σ2 p (lock_key_of sid) ∧ believes σ2 r (lock_key_of sid).
Proof.
  intros Hp Ha Hq Hdq Hr Hdr Hqr. set (k := lock_key_of sid) in *.
  assert (∀ x d, sys_procs σ !! x = Some d → is_locked d = false → x ≠ p) as Hne.
  { intros x d Hx Hd ->. destruct Hp as (dp & Hp & [Hl _]%lock_of_Some). congruence. }
  destruct (delete_takes (sys_memc σ) k Ha) as [Ha1 Hg1].
  destruct (memcached_delete (sys_memc σ) k 0) as [rc m'] eqn:E.
  set (σ1 := mkSystem m' (<[q := dq]> (sys_procs σ))).
  assert (∀ x, x ≠ q → sys_procs σ1 !! x = sys_procs σ !! x) as Ho1
    by (intros x Hx; cbn; by rewrite lookup_insert_ne).
  destruct (lock_taken r sid env2 σ1 dr) as (σ2 & R2 & _ & Hb2 & Ho2); [|exact Hdr|exact Ha1|exact Hg1|].
  { rewrite Ho1; [done|congruence]. }
  exists σ1, σ2. split; [|split; [done|split; [|done]]].
  - exists dq, (with_sdata dq (with_smemc m' env1)). split; [done|]. split; [|done].
    unfold ps_destroy, smemc_call, mbind, M_bind. cbn [s_memc with_sdata with_smemc].
    rewrite E. unfold gets. cbn [s_data with_sdata with_smemc]. by rewrite Hdq.
  - apply (believes_other σ1 σ2 r); [done|by apply not_eq_sym, (Hne r dr)|].
    by apply (believes_other σ σ1 q); [|apply not_eq_sym, (Hne q dq)|].
Qed.

(** A handle that still counts as locked answers that it has the lock of any
    session: the add fails, nothing is taken, and [s_lock_session] says TRUE
    because of the lock it had before. *)
Theorem stale_lock_is_taken_for_any_session {MC} `{MemcachedStorage MC} sid (s : sworld MC) :
  is_locked (s_data s) = true →
  (∀ e, (memcached_add (s_memc s) (lock_key_of sid) "1" e 0).1 = MEMCACHED_NOTSTORED) →
  ∃ s', s_lock_session sid s = Ret true s' ∧ s_data s' = s_data s.
Proof.
  intros Hl Hadd. destruct (lock_expiration_run s) as [e He].
  unfold s_lock_session. rewrite (bind_Ret _ _ _ _ _ He), gets_bind. cbn [lock_loop].
  unfold lock_attempt, smemc_call. unfold mbind, M_bind.
  specialize (Hadd e). destruct (memcached_add _ _ _ _ _) as [rc m]. cbn [fst] in Hadd. subst rc. cbn.
  destruct (lock_retries (s_ini s) >? 0); cbn; rewrite Hl;
    (eexists; split; [unfold gets; cbn; by rewrite Hl|done]).
Qed.

Lemma stale_lock_is_taken_for_any_session_witness :
  let m := t_set_item (lock_key_of "xyz", lock_key_of "xyz") (mkItem "1" 0 1 0) toy_new in
  let s := mkSession m (mkSessionData true false true (Some (lock_key_of "abc")))
             toy_session_ini 1700000000 30 [] [] in
  ∃ s', s_lock_session "xyz" s = Ret true s' ∧ s_data s' = s_data s.
Proof.
  intros m s.
  apply (stale_lock_is_taken_for_any_session "xyz" s); [reflexivity|intros e; reflexivity].
Defined.
