(* ===== verification/SessionSpec.v ===== *)
(** * Sessions as an abstract store

    What the session functions promise to the sessions of many processes: a map
    from session ids to data, the locks that are taken, and for each process the
    session whose lock it counts as its own, as a transition system with labels for
    what the processes see.  Nobody is kept from reading or writing, and what is
    stored may expire, locks included.  SessionStore shows that the system of handles
    around one server refines it; what exclusion there is follows here, from what a
    run contains. *)

From S2P Require Import Prelude Session.

(** ** What a caller can see *)
Inductive label : Type :=
| LAcquire (p : nat) (sid : string)
| LRelease (p : nat) (sid : string)
| LRead (p : nat) (sid : string) (answer : ps_result * string)
| LWrite (p : nat) (sid val : string) (ok : bool)
| LDestroy (p : nat) (sid : string)
| LCreate (p : nat) (sid : string) (ok : bool)
| LExpire (sid : string)
| LLockExpire (sid : string).

(** The runs of a transition system whose steps show any number of labels. *)
Inductive run {S : Type} (step : S → list label → S → Prop) : S → list label → S → Prop :=
| run_nil x : run step x [] x
| run_cons x l y tr z : step x l y → run step y tr z → run step x (l ++ tr) z.

Section Runs.
Context {S : Type} (step : S → list label → S → Prop).

Lemma run_once x l y : step x l y → run step x l y.
Proof. intros Hs. rewrite <- (app_nil_r l). econstructor; [done|constructor]. Qed.

Lemma run_app x tr y tr' z : run step x tr y → run step y tr' z → run step x (tr ++ tr') z.
Proof. induction 1; intros Hr; [done|]. rewrite <- app_assoc. econstructor; eauto. Qed.
End Runs.

(** ** The abstract store *)
Record sessions : Type := mkSessions {
  sdata : gmap string string;
  slocks : gset string;
  sheld : gmap nat string
}.

Definition owns (a : sessions) (p : nat) (sid : string) : Prop := sheld a !! p = Some sid.

(** A release deletes the lock of the session, whoever took it, or fails to. *)
Inductive spec_step : sessions → list label → sessions → Prop :=
| sp_acquire p sid a :
    sid ∉ slocks a →
    spec_step a [LAcquire p sid] (mkSessions (sdata a) ({[sid]} ∪ slocks a) (<[p := sid]> (sheld a)))
| sp_lock sid a :
    sid ∉ slocks a →
    spec_step a [] (mkSessions (sdata a) ({[sid]} ∪ slocks a) (sheld a))
| sp_release p sid a :
    owns a p sid →
    spec_step a [LRelease p sid] (mkSessions (sdata a) (slocks a ∖ {[sid]}) (delete p (sheld a)))
| sp_abandon p sid a :
    owns a p sid →
    spec_step a [LRelease p sid] (mkSessions (sdata a) (slocks a) (delete p (sheld a)))
| sp_read p sid r data a :
    (r = SUCCESS → data = default ""%string (sdata a !! sid)) →
    spec_step a [LRead p sid (r, data)] a
| sp_write p sid val ok a :
    spec_step a [LWrite p sid val ok] (mkSessions (<[sid := val]> (sdata a)) (slocks a) (sheld a))
| sp_write_lost p sid val a :
    spec_step a [LWrite p sid val false] a
| sp_destroy p sid a :
    spec_step a [LDestroy p sid] (mkSessions (delete sid (sdata a)) (slocks a) (sheld a))
| sp_destroy_lost p sid a :
    spec_step a [LDestroy p sid] a
| sp_create p sid ok a :
    sdata a !! sid = None →
    spec_step a [LCreate p sid ok] (mkSessions (<[sid := ""%string]> (sdata a)) (slocks a) (sheld a))
| sp_create_lost p sid a :
    spec_step a [LCreate p sid false] a
| sp_expire sid a :
    spec_step a [LExpire sid] (mkSessions (delete sid (sdata a)) (slocks a) (sheld a))
| sp_lock_expire sid a :
    spec_step a [LLockExpire sid] (mkSessions (sdata a) (slocks a ∖ {[sid]}) (sheld a)).

(** ** One owner at a time

    The lock of a session is there while a process counts it as its own, and at most
    one does. *)
Definition exclusive (sid : string) (a : sessions) : Prop :=
  (∀ p, owns a p sid → sid ∈ slocks a) ∧ (∀ p q, owns a p sid → owns a q sid → p = q).

(** The lock of the session does not expire. *)
Definition lock_kept (sid : string) (l : label) : Prop :=
  match l with LLockExpire sid' => sid' ≠ sid | _ => True end.

Lemma owns_insert a p sid d l q sid' :
  owns (mkSessions d l (<[p := sid]> (sheld a))) q sid' ↔
  (q = p ∧ sid' = sid) ∨ (q ≠ p ∧ owns a q sid').
Proof. unfold owns. cbn. rewrite lookup_insert_Some. naive_solver. Qed.

Lemma owns_delete a p d l q sid' :
  owns (mkSessions d l (delete p (sheld a))) q sid' ↔ q ≠ p ∧ owns a q sid'.
Proof. unfold owns. cbn. rewrite lookup_delete_Some. naive_solver. Qed.

Lemma spec_step_exclusive sid a l a' :
  spec_step a l a' → exclusive sid a → Forall (lock_kept sid) l → exclusive sid a'.
Proof.
  intros Hs [Hin Huq] Hl. destruct Hs as
    [p sid' a Hfree|sid' a Hfree|p sid' a Ho|p sid' a Ho| | | | | | | | |sid' a];
    try (by split).
  - split.
    + intros q [[-> ->]|[_ Hq]]%owns_insert; cbn; set_solver.
    + intros q q' [[-> ->]|[_ Hq]]%owns_insert [[-> E]|[_ Hq']]%owns_insert; subst; eauto;
        [by apply Hin in Hq'|by apply Hin in Hq].
  - split; [|exact Huq]. intros q Hq%Hin. cbn. set_solver.
  - split.
    + intros q [Hne Hq]%owns_delete. cbn. apply elem_of_difference. split; [by eapply Hin|].
      intros ->%elem_of_singleton. by apply Hne, Huq.
    + intros q q' [_ Hq]%owns_delete [_ Hq']%owns_delete. eauto.
  - split.
    + intros q [_ Hq]%owns_delete. by eapply Hin.
    + intros q q' [_ Hq]%owns_delete [_ Hq']%owns_delete. eauto.
  - rewrite Forall_singleton in Hl. cbn in Hl. split; [|exact Huq].
    intros q Hq%Hin. apply elem_of_difference. split; [done|]. intros E%elem_of_singleton. by apply Hl.
Qed.

(** ** Critical sections *)

(** The session whose lock each process counts as its own, from what it has seen. *)
Definition held_after (H : gmap nat string) (l : label) : gmap nat string :=
  match l with
  | LAcquire p sid => <[p := sid]> H
  | LRelease p _ => delete p H
  | _ => H
  end.

(** Those who write or delete the session count its lock as their own then. *)
Fixpoint disciplined (sid : string) (H : gmap nat string) (tr : list label) : Prop :=
  match tr with
  | [] => True
  | l :: rest =>
      match l with
      | LWrite p sid' _ _ | LDestroy p sid' => sid' = sid → H !! p = Some sid
      | _ => True
      end ∧ disciplined sid (held_after H l) rest
  end.

(** What the session holds when only [p] writes it. *)
Fixpoint own_view (p : nat) (sid v : string) (tr : list label) : string :=
  match tr with
  | [] => v
  | LWrite q sid' val true :: rest =>
      own_view p sid (if decide (q = p ∧ sid' = sid) then val else v) rest
  | _ :: rest => own_view p sid v rest
  end.

(** [p] neither lets go of the session, for another or none, nor destroys it, nor has a
    write of it fail, and the session does not expire. *)
Definition undisturbed (p : nat) (sid : string) (l : label) : Prop :=
  match l with
  | LAcquire q sid' => q = p → sid' = sid
  | LRelease q _ => q ≠ p
  | LDestroy q sid' | LWrite q sid' _ false => q = p → sid' ≠ sid
  | LExpire sid' => sid' ≠ sid
  | _ => True
  end.

(** A change of the session is [p]'s own. *)
Definition changed_by (p : nat) (sid : string) (l : label) : Prop :=
  match l with LWrite q sid' _ _ | LDestroy q sid' => sid' = sid → q = p | _ => True end.

Lemma own_view_app p sid v tr tr' :
  own_view p sid v (tr ++ tr') = own_view p sid (own_view p sid v tr) tr'.
Proof. revert v. induction tr as [|[] tr IH]; intros v; cbn; try done. by destruct ok. Qed.

Lemma disciplined_app sid H tr tr' :
  disciplined sid H (tr ++ tr') ↔ disciplined sid H tr ∧ disciplined sid (foldl held_after H tr) tr'.
Proof.
  revert H. induction tr as [|l tr IH]; intros H; cbn; [tauto|]. rewrite IH. tauto.
Qed.

Lemma spec_step_held a l a' : spec_step a l a' → sheld a' = foldl held_after (sheld a) l.
Proof. by destruct 1. Qed.

Lemma spec_step_critical p sid a l a' :
  spec_step a l a' → exclusive sid a → owns a p sid → disciplined sid (sheld a) l →
  Forall (undisturbed p sid) l →
  owns a' p sid ∧ Forall (changed_by p sid) l
  ∧ default ""%string (sdata a' !! sid)
    = own_view p sid (default ""%string (sdata a !! sid)) l.
Proof.
  intros Hs [_ Huq] Ho Hd Hl.
  assert (∀ q, sheld a !! q = Some sid → q = p) as Hone by (intros q Hq; by apply Huq).
  destruct Hs as [q sid' a Hfree|sid' a Hfree|q sid' a Hq|q sid' a Hq|q sid' r data a Hr
    |q sid' val ok a|q sid' val a|q sid' a|q sid' a|q sid' ok a Hn|q sid' a|sid' a|sid' a];
    rewrite ?Forall_singleton in *; cbn in Hl, Hd |- *; unfold owns in *; cbn in *;
    try (by repeat split).
  - rewrite lookup_insert_Some. split; [|done]. destruct (decide (q = p)) as [-> | ?]; [left|by right].
    by rewrite Hl.
  - by rewrite lookup_delete_ne.
  - by rewrite lookup_delete_ne.
  - destruct Hd as [Hd _]. split; [done|]. split; [by intros ->; auto|].
    destruct (decide (sid' = sid)) as [-> | Hne].
    + rewrite lookup_insert_eq. assert (q = p) as -> by auto.
      destruct ok; [by rewrite decide_True|by destruct (Hl eq_refl)].
    + rewrite lookup_insert_ne by done. destruct ok; [|done]. by rewrite decide_False by (intros []; done).
  - destruct Hd as [Hd _]. split; [done|]. split; [by intros ->; auto|done].
  - destruct Hd as [Hd _]. split; [done|]. split; [by intros ->; auto|].
    rewrite lookup_delete_ne; [done|]. intros ->. by apply Hl; [apply Hone, Hd|].
  - destruct Hd as [Hd _]. split; [done|]. split; [by intros ->; auto|done].
  - split; [done|]. split; [done|]. destruct (decide (sid' = sid)) as [-> | Hne].
    + by rewrite lookup_insert_eq, Hn.
    + by rewrite lookup_insert_ne.
  - by rewrite lookup_delete_ne.
Qed.

Lemma spec_run_held a tr a' : run spec_step a tr a' → sheld a' = foldl held_after (sheld a) tr.
Proof.
  induction 1 as [a|a l a1 tr a2 Hs R IH]; [done|].
  by rewrite IH, (spec_step_held _ _ _ Hs), foldl_app.
Qed.

Lemma spec_exclusive sid a tr a' :
  run spec_step a tr a' → exclusive sid a → Forall (lock_kept sid) tr → exclusive sid a'.
Proof.
  induction 1 as [|a l a1 tr a2 Hs R IH]; intros He Hk; [done|].
  apply Forall_app in Hk as [Hk1 Hk2]. apply IH; [|done]. by eapply spec_step_exclusive.
Qed.

Lemma spec_critical p sid a tr a' :
  run spec_step a tr a' → exclusive sid a → owns a p sid → Forall (lock_kept sid) tr →
  disciplined sid (sheld a) tr → Forall (undisturbed p sid) tr →
  owns a' p sid ∧ Forall (changed_by p sid) tr
  ∧ default ""%string (sdata a' !! sid)
    = own_view p sid (default ""%string (sdata a !! sid)) tr.
Proof.
  induction 1 as [a|a l a1 tr a2 Hs Hr IH]; intros He Ho Hk Hd Hl; [by repeat split|].
  apply Forall_app in Hl as [Hl1 Hl2]. apply Forall_app in Hk as [Hk1 Hk2].
  apply disciplined_app in Hd as [Hd1 Hd2]. rewrite <- (spec_step_held _ _ _ Hs) in Hd2.
  destruct (spec_step_critical p sid a l a1 Hs He Ho Hd1 Hl1) as (Ho1 & Hc1 & E1).
  destruct (IH (spec_step_exclusive _ _ _ _ Hs He Hk1) Ho1 Hk2 Hd2 Hl2) as (Ho2 & Hc2 & E2).
  split; [done|]. split; [by apply Forall_app|]. by rewrite own_view_app, <- E1.
Qed.

(** The runs of the store show one label at a time. *)
Lemma spec_step_labels a l a' : spec_step a l a' → l = [] ∨ ∃ x, l = [x].
Proof. destruct 1; eauto. Qed.

Lemma spec_split a tr1 tr2 a' :
  run spec_step a (tr1 ++ tr2) a' →
  ∃ a1, run spec_step a tr1 a1 ∧ run spec_step a1 tr2 a'.
Proof.
  remember (tr1 ++ tr2) as tr eqn:E. intros R. revert tr1 E.
  induction R as [a|a l a1 tr a2 Hs R IH]; intros tr1 E.
  - symmetry in E. apply app_nil in E as [-> ->]. exists a. split; constructor.
  - destruct (spec_step_labels _ _ _ Hs) as [-> | [x ->]].
    + destruct (IH tr1 E) as (b & R1 & R2). exists b. split; [|done].
      by apply (run_cons _ a [] a1).
    + destruct tr1 as [|y tr1]; cbn in E.
      * exists a. split; [constructor|]. rewrite <- E. by apply (run_cons _ a [x] a1).
      * injection E as -> E. destruct (IH tr1 E) as (b & R1 & R2). exists b. split; [|done].
        by apply (run_cons _ a [y] a1).
Qed.

(** A silent run changes no data and nothing a process counts on. *)
Lemma spec_silent a a' : run spec_step a [] a' → sdata a' = sdata a ∧ sheld a' = sheld a.
Proof.
  remember [] as tr eqn:E. induction 1 as [|a l a1 tr a2 Hs R IH]; [done|].
  apply app_nil in E as [-> ->]. destruct (IH eq_refl) as [-> ->]. by inversion Hs.
Qed.

Lemma spec_read_run p sid r data a a' :
  run spec_step a [LRead p sid (r, data)] a' →
  sheld a' = sheld a ∧ (r = SUCCESS → data = default ""%string (sdata a' !! sid)).
Proof.
  intros R. split; [by apply spec_run_held in R|].
  remember [LRead p sid (r, data)] as tr eqn:E. induction R as [a|a l a1 tr a2 Hs R IH]; [done|].
  destruct (spec_step_labels _ _ _ Hs) as [-> | [x ->]]; [by apply IH|].
  injection E as -> ->. clear IH. apply spec_silent in R as [-> _]. by inversion Hs.
Qed.
