(* ===== verification/SessionStore.v ===== *)
(** * The session handler as a store of locked sessions

    The system of handles around one server, whose steps are the commands that
    the session functions send, in any interleaving, and the expiry of items, refines
    the abstract store of SessionSpec; and where the processes keep to the locks and
    these do not expire, no update of a session is lost. *)

From S2P Require Import Prelude CLib Zend LibMemcached World Toy Session SessionProofs SessionLocks.
From S2P Require Import SessionSpec.
#[local] Open Scope Z_scope.

(** ** The server

    What a command does: an add that is answered SUCCESS found the key free; a command
    that is answered otherwise may or may not have been carried out; a read shows the
    item and changes nothing.  Items expire between commands. *)
Section Items.
Context {MC : Type} (item : MC → string → option string).

(** From [m] to [m'] the item under [k] becomes [x], and no other changes. *)
Definition puts (m m' : MC) (k : string) (x : option string) : Prop :=
  item m' k = x ∧ ∀ j, j ≠ k → item m' j = item m j.

Definition same_items (m m' : MC) : Prop := ∀ j, item m' j = item m j.
End Items.

Class SessionServer (MC : Type) `{BuildConfig} `{MemcachedStorage MC} `{MemcachedGet MC} : Type := {
  item : MC → string → option string;
  srv_add m k v e rc m' :
    memcached_add m k v e 0 = (rc, m') →
    (item m k = None ∧ puts item m m' k (Some v)) ∨ (rc ≠ MEMCACHED_SUCCESS ∧ same_items item m m');
  srv_set m k v e rc m' :
    memcached_set m k v e 0 = (rc, m') →
    puts item m m' k (Some v) ∨ (rc ≠ MEMCACHED_SUCCESS ∧ same_items item m m');
  srv_delete m k e rc m' :
    memcached_delete m k e = (rc, m') → puts item m m' k None ∨ same_items item m m';
  srv_get m k payload flags rc m' :
    memcached_get m k = (payload, flags, rc, m') →
    same_items item m m'
    ∧ (rc = MEMCACHED_SUCCESS → item m k = Some (default ""%string payload))
    ∧ (rc = MEMCACHED_NOTFOUND → item m k = None);
  srv_exist m k : same_items item m (memcached_exist m k).2;
  srv_touch m k e : same_items item m (memcached_touch m k e).2
}.

#[export] Instance ToySessionServer : SessionServer toy.
Proof.
  refine {| item m k := it_value <$> t_items m !! (k, k) |}.
  - intros m k v e rc m' E. simpl in E. unfold toy_store, toy_cmd in E. simpl in E.
    assert (∀ m0, t_items m0 = t_items m → t_items m !! (k, k) = None →
      it_value <$> t_items m !! (k, k) = None
      ∧ puts (λ m k, it_value <$> t_items m !! (k, k)) m (toy_write k k v 0 e m0) k (Some v)) as Hw.
    { intros m0 Hm Hf. rewrite Hf. split; [done|]. split; [cbn; by rewrite lookup_insert_eq|].
      intros j Hj. cbn. rewrite lookup_insert_ne by congruence. by rewrite Hm. }
    destruct (t_script m) as [|c s]; [|destruct (s_memcached_return_is_error c true) eqn:Ec];
      [|right|]; try (destruct (t_items m !! (k, k)) eqn:Ek; [right|left]);
      injection E as <- <-; try (by apply Hw); try by split.
    split; [by intros ->|done].
  - intros m k v e rc m' E. simpl in E. unfold toy_store, toy_cmd in E. simpl in E.
    assert (∀ m0, t_items m0 = t_items m →
      puts (λ m k, it_value <$> t_items m !! (k, k)) m (toy_write k k v 0 e m0) k (Some v)) as Hw.
    { intros m0 Hm. split; [cbn; by rewrite lookup_insert_eq|].
      intros j Hj. cbn. rewrite lookup_insert_ne by congruence. by rewrite Hm. }
    destruct (t_script m) as [|c s]; [|destruct (s_memcached_return_is_error c true) eqn:Ec];
      injection E as <- <-; [left; by apply Hw| |left; by apply Hw].
    right. split; [by intros ->|done].
  - intros m k e rc m' E. simpl in E. unfold toy_delete, toy_cmd in E. simpl in E.
    assert (∀ m0, t_items m0 = t_items m →
      puts (λ m k, it_value <$> t_items m !! (k, k)) m (t_del_item (k, k) m0) k None) as Hw.
    { intros m0 Hm. split; [cbn; by rewrite lookup_delete_eq|].
      intros j Hj. cbn. rewrite lookup_delete_ne by congruence. by rewrite Hm. }
    destruct (t_script m) as [|c s]; [|destruct (s_memcached_return_is_error c true) eqn:Ec];
      try destruct (t_items m !! (k, k)); injection E as <- <-;
      first [left; by apply Hw|by right].
  - intros m k payload flags rc m' E. simpl in E.
    destruct (t_items m !! (k, k)) as [it|] eqn:Ek; injection E as <- <- <- <-; by rewrite ?Ek.
  - intros m k j. simpl. by repeat case_match.
  - intros m k e j. simpl. unfold toy_touch, toy_cmd. simpl.
    assert (∀ m0 it, t_items m0 = t_items m → t_items m !! (k, k) = Some it →
      it_value <$> t_items (toy_write k k (it_value it) (it_flags it) e m0) !! (j, j)
      = it_value <$> t_items m !! (j, j)) as Hw.
    { intros m0 it Hm Hk. cbn. destruct (decide (j = k)) as [-> | Hne].
      - by rewrite lookup_insert_eq, Hk.
      - rewrite lookup_insert_ne by congruence. by rewrite Hm. }
    destruct (t_script m) as [|c s]; [|destruct (s_memcached_return_is_error c true)]; try done;
      (destruct (t_items m !! (k, k)) eqn:Ek; [by apply Hw|done]).
Defined.

(** ** The ids of sessions: without a NUL, and not named like a lock *)
Definition is_sid (sid : string) : bool :=
  String.eqb (c_str sid) sid && negb (String.prefix "lock." sid).

Lemma is_sid_c_str sid : is_sid sid = true → c_str sid = sid.
Proof. unfold is_sid. intros [H%String.eqb_eq _]%andb_true_iff. exact H. Qed.

Lemma is_sid_not_lock sid sid' : is_sid sid = true → sid ≠ lock_key_of sid'.
Proof. unfold is_sid, lock_key_of. intros [_ Hp]%andb_true_iff ->.
  destruct (c_str sid'); by vm_compute in Hp.
Qed.

Lemma lock_key_of_inj sid sid' :
  is_sid sid = true → is_sid sid' = true → lock_key_of sid = lock_key_of sid' → sid = sid'.
Proof.
  intros H1 H2 E. unfold lock_key_of in E. rewrite !is_sid_c_str in E by done.
  by apply (inj (String.append "lock.")) in E.
Qed.

Lemma lock_key_of_ne sid sid' :
  is_sid sid = true → is_sid sid' = true → sid ≠ sid' → lock_key_of sid ≠ lock_key_of sid'.
Proof. intros H1 H2 Hne E. by apply Hne, lock_key_of_inj. Qed.

(** The session whose lock a key is. *)
Definition locked_sid (k : string) : string := String.substring 5 (String.length k - 5) k.

Lemma substring_0_length s : String.substring 0 (String.length s) s = s.
Proof. induction s as [|c s IH]; cbn; [done|]. by rewrite IH. Qed.

Lemma locked_sid_of sid : is_sid sid = true → locked_sid (lock_key_of sid) = sid.
Proof.
  intros Hs. unfold locked_sid, lock_key_of. rewrite is_sid_c_str by done.
  rewrite string_length_app. cbn. rewrite Nat.sub_0_r. apply substring_0_length.
Qed.

(** ** The system

    The server and the user data of every process's handle, as in SessionLocks;
    a step is one command of a session function, or an item expires, locks
    included.  The commands check no lock, and the steps ask for none. *)
Section System.
Context {MC : Type} {HC : BuildConfig} {HN : MemcachedNumbers} {HL : MemcachedControl MC}
  {HS : MemcachedStorage MC} {HG : MemcachedGet MC} `{!SessionServer MC}.
#[local] Abbreviation M := (M (sworld MC)).
Implicit Types (σ : system MC) (d : php_memcached_user_data).

(** Process [p], with the user data [d], runs [op], which answers [a] and leaves
    [d']. *)
Definition ran {A} (op : M A) (p : nat) (a : A) d d' σ σ' : Prop :=
  ∃ s s', sys_procs σ !! p = Some d ∧ s_data s = d ∧ s_data s' = d' ∧ s_memc s = sys_memc σ
          ∧ op s = Ret a s' ∧ σ' = mkSystem (s_memc s') (<[p := d']> (sys_procs σ)).

Definition has_lock d (sid : string) : Prop := lock_of d = Some (lock_key_of sid).

(** The lock a handle loses track of when it releases it. *)
Definition released (p : nat) d : list label :=
  match lock_of d with Some k => [LRelease p (locked_sid k)] | None => [] end.

(** An attempt that took the lock shows in the handle, unless it counted the lock as its
    own before. *)
Definition attempted (p : nat) (sid : string) d d' : list label :=
  if decide (lock_of d' = lock_of d) then [] else [LAcquire p sid].

Definition delete_item (key : string) : M memcached_return :=
  smemc_call (λ m, memcached_delete m key 0).
Definition create_item (key : string) (e : Z) : M memcached_return :=
  smemc_call (λ m, memcached_add m key "" e 0).
Definition write_item (key val : string) (e : Z) : M memcached_return :=
  smemc_call (session_set key val e).

Inductive handler_step : system MC → list label → system MC → Prop :=
| h_attempt p sid e wait retries next d d' σ σ' :
    is_sid sid = true →
    ran (lock_attempt (lock_key_of sid) e wait retries) p next d d' σ σ' →
    handler_step σ (attempted p sid d d') σ'
| h_unlock p d d' σ σ' :
    ran s_unlock_session p tt d d' σ σ' → handler_step σ (released p d) σ'
| h_read p sid answer d d' σ σ' :
    is_sid sid = true → ran (read_item sid) p answer d d' σ σ' →
    handler_step σ [LRead p sid answer] σ'
| h_write p sid val e rc d d' σ σ' :
    is_sid sid = true → ran (write_item sid val e) p rc d d' σ σ' →
    handler_step σ [LWrite p sid val (bool_decide (rc = MEMCACHED_SUCCESS))] σ'
| h_destroy p sid rc d d' σ σ' :
    is_sid sid = true → ran (delete_item sid) p rc d d' σ σ' →
    handler_step σ [LDestroy p sid] σ'
| h_create p sid e rc d d' σ σ' :
    is_sid sid = true → ran (create_item sid e) p rc d d' σ σ' →
    handler_step σ [LCreate p sid (bool_decide (rc = MEMCACHED_SUCCESS))] σ'
| h_validate p sid answer d d' σ σ' :
    ran (ps_validate_sid sid) p answer d d' σ σ' → handler_step σ [] σ'
| h_touch p sid life answer d d' σ σ' :
    ran (ps_update_timestamp sid life) p answer d d' σ σ' → handler_step σ [] σ'
| h_open p persistent σ :
    sys_procs σ !! p = None →
    handler_step σ [] (mkSystem (sys_memc σ)
      (<[p := mkSessionData persistent false false None]> (sys_procs σ)))
| h_close p d σ :
    sys_procs σ !! p = Some d →
    handler_step σ (released p d) (mkSystem (sys_memc σ) (delete p (sys_procs σ)))
| h_expire sid m' σ :
    is_sid sid = true → puts item (sys_memc σ) m' sid None →
    handler_step σ [LExpire sid] (mkSystem m' (sys_procs σ))
| h_lock_expire sid m' σ :
    is_sid sid = true → puts item (sys_memc σ) m' (lock_key_of sid) None →
    handler_step σ [LLockExpire sid] (mkSystem m' (sys_procs σ))
| h_traffic m' σ :
    (∀ sid, is_sid sid = true →
       item m' sid = item (sys_memc σ) sid
       ∧ item m' (lock_key_of sid) = item (sys_memc σ) (lock_key_of sid)) →
    handler_step σ [] (mkSystem m' (sys_procs σ)).

(** ** The simulation *)

(** The store shows the items of the sessions, its locks are the lock items, and what
    each process counts as its own is what its handle says. *)
Record sim σ (a : sessions) : Prop := mkSim {
  sim_data sid : is_sid sid = true → item (sys_memc σ) sid = sdata a !! sid;
  sim_locks sid : is_sid sid = true → sid ∈ slocks a ↔ item (sys_memc σ) (lock_key_of sid) ≠ None;
  sim_held p sid :
    owns a p sid ↔ is_sid sid = true ∧ ∃ d, sys_procs σ !! p = Some d ∧ has_lock d sid;
  sim_keys p d :
    sys_procs σ !! p = Some d → is_locked d = true →
    ∃ sid, is_sid sid = true ∧ lock_key d = Some (lock_key_of sid)
}.

(** The abstract store can do what the labels show. *)
Definition simulated (a : sessions) (l : list label) σ' : Prop :=
  ∃ a', run spec_step a l a' ∧ sim σ' a'.

Lemma has_lock_keys σ a p d :
  sim σ a → sys_procs σ !! p = Some d →
  lock_of d = None ∨ ∃ sid, is_sid sid = true ∧ has_lock d sid ∧ owns a p sid.
Proof.
  intros Hs Hp. unfold lock_of. destruct (is_locked d) eqn:Hl; [right|by left].
  destruct (sim_keys _ _ Hs p d Hp Hl) as (sid & Hsid & Hk). exists sid.
  assert (has_lock d sid) as Hh by (apply lock_of_Some; by split).
  split; [done|]. split; [done|]. apply (sim_held _ _ Hs p sid). eauto.
Qed.

Lemma has_lock_sid d sid sid' :
  is_sid sid = true → is_sid sid' = true → has_lock d sid → has_lock d sid' → sid = sid'.
Proof. unfold has_lock. intros H1 H2 H3 H4. apply lock_key_of_inj; congruence. Qed.

(** Nothing changes for the store. *)
Lemma sim_same σ a m' :
  sim σ a → same_items item (sys_memc σ) m' → sim (mkSystem m' (sys_procs σ)) a.
Proof.
  intros [Hd Hl Ho Hk] Hi. split; cbn; [| |done|done]; intros sid Hsid; rewrite Hi; auto.
Qed.

(** An item of a session changes. *)
Lemma sim_put σ a m' sid x :
  sim σ a → is_sid sid = true → puts item (sys_memc σ) m' sid x →
  sim (mkSystem m' (sys_procs σ))
      (mkSessions (partial_alter (λ _, x) sid (sdata a)) (slocks a) (sheld a)).
Proof.
  intros [Hd Hl Ho Hk] Hsid [Hx Hi]. split; cbn; [| |done|done].
  - intros sid' Hsid'. destruct (decide (sid' = sid)) as [-> | Hne].
    + by rewrite lookup_partial_alter_eq.
    + rewrite lookup_partial_alter_ne, Hi by done. by apply Hd.
  - intros sid' Hsid'. rewrite Hi; [by apply Hl|].
    intros E. by apply (is_sid_not_lock sid sid' Hsid).
Qed.

(** A lock item changes. *)
Lemma sim_put_lock σ a m' sid x L :
  sim σ a → is_sid sid = true → puts item (sys_memc σ) m' (lock_key_of sid) x →
  (sid ∈ L ↔ x ≠ None) → (∀ sid', sid' ≠ sid → sid' ∈ L ↔ sid' ∈ slocks a) →
  sim (mkSystem m' (sys_procs σ)) (mkSessions (sdata a) L (sheld a)).
Proof.
  intros [Hd Hl Ho Hk] Hsid [Hx Hi] Hin Hin'. split; cbn; [| |done|done].
  - intros sid' Hsid'. rewrite Hi; [by apply Hd|]. by apply is_sid_not_lock.
  - intros sid' Hsid'. destruct (decide (sid' = sid)) as [-> | Hne]; [by rewrite Hx|].
    rewrite Hin', Hi; [by apply Hl|by apply lock_key_of_ne|done].
Qed.

(** The handle of process [p] changes, and with it the lock it counts as its own. *)
Lemma sim_handle σ a p d' o :
  sim σ a →
  (is_locked d' = true → ∃ sid, is_sid sid = true ∧ lock_key d' = Some (lock_key_of sid)) →
  (∀ sid, o = Some sid ↔ is_sid sid = true ∧ has_lock d' sid) →
  sim (mkSystem (sys_memc σ) (<[p := d']> (sys_procs σ)))
      (mkSessions (sdata a) (slocks a) (partial_alter (λ _, o) p (sheld a))).
Proof.
  intros [Hd Hl Ho Hk] Hkey Hheld. split; cbn; [done|done| |].
  - intros q sid. unfold owns. cbn. destruct (decide (q = p)) as [-> | Hne].
    + rewrite lookup_partial_alter_eq, lookup_insert_eq, Hheld. naive_solver.
    + rewrite lookup_partial_alter_ne, lookup_insert_ne by done. apply Ho.
  - intros q dq [[<- <-]|[Hne Hq]]%lookup_insert_Some Hlk; [by apply Hkey|by eapply Hk].
Qed.

(** Handles that have nothing. *)
Lemma sim_forget σ a p d' :
  sim σ a → is_locked d' = false →
  sim (mkSystem (sys_memc σ) (<[p := d']> (sys_procs σ)))
      (mkSessions (sdata a) (slocks a) (delete p (sheld a))).
Proof.
  intros Hs Hd. apply (sim_handle σ a p d' None Hs); [congruence|].
  intros sid. split; [done|]. intros [_ [Hl _]%lock_of_Some]. congruence.
Qed.

Lemma sim_no_handle σ a p :
  sim σ a → sim (mkSystem (sys_memc σ) (delete p (sys_procs σ)))
                (mkSessions (sdata a) (slocks a) (delete p (sheld a))).
Proof.
  intros [Hd Hl Ho Hk]. split; cbn; [done|done| |].
  - intros q sid. unfold owns. cbn. rewrite lookup_delete_Some.
    setoid_rewrite lookup_delete_Some. fold (owns a q sid). rewrite Ho. naive_solver.
  - intros q d [_ Hq]%lookup_delete_Some Hlk. by eapply Hk.
Qed.

(** A process without a lock has nothing to forget. *)
Lemma held_none σ a p d :
  sim σ a → sys_procs σ !! p = Some d → lock_of d = None →
  mkSessions (sdata a) (slocks a) (delete p (sheld a)) = a.
Proof.
  intros Hs Hp Hd. rewrite delete_id; [by destruct a|].
  destruct (sheld a !! p) as [sid|] eqn:E; [|done].
  apply (sim_held _ _ Hs) in E as (_ & d' & Hp' & Hh). unfold has_lock in Hh. congruence.
Qed.

(** Process [p] lets go of its lock, if it has one, and keeps a handle or not; the
    item stays. *)
Lemma sim_abandon σ a p d σ' :
  sim σ a → sys_procs σ !! p = Some d →
  sim σ' (mkSessions (sdata a) (slocks a) (delete p (sheld a))) → simulated a (released p d) σ'.
Proof.
  intros Hs Hp Hs'. unfold released. destruct (has_lock_keys σ a p d Hs Hp) as [Hn|(sid & Hsid & Hh & Ho)].
  - rewrite Hn. exists a. split; [constructor|]. by rewrite (held_none σ a p d) in Hs'.
  - rewrite Hh, locked_sid_of by done. eexists. split; [apply run_once, (sp_abandon _ _ _ Ho)|done].
Qed.

(** It deletes the item. *)
Lemma sim_release σ a m' p d d' sid :
  sim σ a → sys_procs σ !! p = Some d → is_locked d' = false →
  is_sid sid = true → has_lock d sid → puts item (sys_memc σ) m' (lock_key_of sid) None →
  simulated a (released p d) (mkSystem m' (<[p := d']> (sys_procs σ))).
Proof.
  intros Hs Hp Hd' Hsid Hh Hput. unfold released. rewrite Hh, locked_sid_of by done.
  assert (owns a p sid) as Ho by (apply (sim_held _ _ Hs); eauto).
  eexists. split; [apply run_once, (sp_release _ _ _ Ho)|].
  pose proof (sim_put_lock σ a m' sid None (slocks a ∖ {[sid]}) Hs Hsid Hput) as Hs1.
  eapply (sim_forget (mkSystem m' (sys_procs σ)) (mkSessions (sdata a) _ (sheld a))); [|done].
  apply Hs1; [|set_solver]. split; [set_solver|done].
Qed.

(** The lock item appears; process [p] counts the lock as its own, or nobody does. *)
Lemma sim_locked σ a m' sid v :
  sim σ a → is_sid sid = true → item (sys_memc σ) (lock_key_of sid) = None →
  puts item (sys_memc σ) m' (lock_key_of sid) (Some v) →
  sid ∉ slocks a
  ∧ sim (mkSystem m' (sys_procs σ)) (mkSessions (sdata a) ({[sid]} ∪ slocks a) (sheld a)).
Proof.
  intros Hs Hsid Hfree Hput. split; [by intros Hin%(sim_locks _ _ Hs sid Hsid); apply Hin|].
  eapply sim_put_lock; [done..| |set_solver]. split; [done|set_solver].
Qed.

Lemma sim_acquire σ a m' p d' sid v :
  sim σ a → is_sid sid = true → item (sys_memc σ) (lock_key_of sid) = None → has_lock d' sid →
  puts item (sys_memc σ) m' (lock_key_of sid) (Some v) →
  simulated a [LAcquire p sid] (mkSystem m' (<[p := d']> (sys_procs σ))).
Proof.
  intros Hs Hsid Hfree Hd' Hput.
  destruct (sim_locked σ a m' sid v Hs Hsid Hfree Hput) as [Hn Hs1].
  eexists. split; [by apply run_once, sp_acquire|].
  apply (sim_handle _ _ p d' (Some sid) Hs1).
  - intros _. apply lock_of_Some in Hd' as [_ Hk]. eauto.
  - intros sid'. split; [by intros [= <-]|]. intros [Hsid' Hh]. f_equal. by eapply has_lock_sid.
Qed.

(** ** Every step is one of the store *)

(** A command on an item, as a run. *)
Lemma smemc_run {A} (f : MC → A * MC) p a d d' σ σ' :
  ran (smemc_call f) p a d d' σ σ' →
  sys_procs σ !! p = Some d ∧ d' = d ∧ f (sys_memc σ) = (a, sys_memc σ')
  ∧ sys_procs σ' = sys_procs σ.
Proof.
  intros (s & s' & Hp & <- & <- & <- & R & ->). unfold smemc_call in R.
  destruct (f (s_memc s)) as [b m] eqn:E. injection R as -> <-. cbn.
  by rewrite insert_id.
Qed.

Lemma read_item_run sid p answer d d' σ σ' :
  ran (read_item sid) p answer d d' σ σ' →
  same_items item (sys_memc σ) (sys_memc σ') ∧ sys_procs σ' = sys_procs σ
  ∧ (answer.1 = SUCCESS → answer.2 = default ""%string (item (sys_memc σ) sid)).
Proof.
  intros (s & s' & Hp & <- & <- & <- & R & ->). unfold read_item, smemc_call in R.
  unfold mbind, M_bind in R.
  destruct (memcached_get (s_memc s) sid) as [[[payload flags] rc] m'] eqn:E.
  destruct (srv_get _ _ _ _ _ _ E) as (Hi & Hok & Hnf).
  destruct rc; injection R as <- <-; cbn; (split; [exact Hi|]); (split; [by apply insert_id|]);
    intros Hr; try done; [by rewrite Hok|by rewrite Hnf].
Qed.

Lemma quiet_run {A} (op : M A) p a d d' σ σ' :
  (∀ s b s', op s = Ret b s' → s_data s' = s_data s ∧ same_items item (s_memc s) (s_memc s')) →
  ran op p a d d' σ σ' →
  same_items item (sys_memc σ) (sys_memc σ') ∧ sys_procs σ' = sys_procs σ.
Proof.
  intros Hop (s & s' & Hp & <- & <- & <- & R & ->). destruct (Hop _ _ _ R) as [-> Hi].
  split; [exact Hi|]. cbn. by apply insert_id.
Qed.

Lemma validate_quiet sid s b s' :
  ps_validate_sid sid s = Ret b s' →
  s_data s' = s_data s ∧ same_items item (s_memc s) (s_memc s').
Proof.
  unfold ps_validate_sid, smemc_call, mbind, M_bind, php_memcached_exist.
  destruct HAVE_MEMCACHED_EXIST.
  - pose proof (srv_exist (s_memc s) sid) as Hi. destruct (memcached_exist (s_memc s) sid).
    by intros [= _ <-].
  - destruct (memcached_get (s_memc s) sid) as [[[payload flags] rc] m'] eqn:E.
    apply srv_get in E as [Hi _]. by intros [= _ <-].
Qed.

Lemma touch_quiet sid life s b s' :
  ps_update_timestamp sid life s = Ret b s' →
  s_data s' = s_data s ∧ same_items item (s_memc s) (s_memc s').
Proof.
  unfold ps_update_timestamp. intros R. apply bind_inv in R as (e & s1 & R1 & R).
  assert (s1 = s) as ->
    by (unfold s_session_expiration in R1; rewrite gets_bind in R1; by injection R1 as _ <-).
  rewrite gets_bind in R. apply bind_inv in R as (u & s2 & R2 & R).
  assert (s_data s2 = s_data s ∧ s_memc s2 = s_memc s) as [<- <-]
    by (unfold when in R2; destruct (_ && _); by injection R2 as _ <-).
  apply bind_inv in R as (rc & s3 & R3 & R). injection R as _ <-. unfold smemc_call in R3.
  pose proof (srv_touch (s_memc s2) sid e) as Hi.
  destruct (memcached_touch (s_memc s2) sid e). by injection R3 as _ <-.
Qed.

Lemma system_eta σ σ' : sys_procs σ' = sys_procs σ → σ' = mkSystem (sys_memc σ') (sys_procs σ).
Proof. destruct σ'. cbn. by intros ->. Qed.

Lemma attempt_simulated p sid e wait retries next d d' σ σ' a :
  sim σ a → is_sid sid = true →
  ran (lock_attempt (lock_key_of sid) e wait retries) p next d d' σ σ' →
  simulated a (attempted p sid d d') σ'.
Proof.
  intros Hs Hsid (s & s' & Hp & <- & <- & Hm & R & ->).
  apply lock_attempt_step in R as [Hm' Hd]. unfold attempted.
  destruct (memcached_add (s_memc s) (lock_key_of sid) "1" e 0) as [rc m'] eqn:E.
  cbn in Hm'. rewrite Hm', Hm in *. pose proof (srv_add _ _ _ _ _ _ E) as Hadd.
  destruct Hd as [Hd|(Hok & Hl & Hk)].
  - rewrite Hd, decide_True, insert_id by done.
    destruct Hadd as [[Hfree Hput]|[_ Hsame]].
    + destruct (sim_locked σ a m' sid "1" Hs Hsid Hfree Hput) as [Hn Hs'].
      eexists. split; [by apply run_once, sp_lock|exact Hs'].
    + exists a. split; [constructor|]. by apply sim_same.
  - injection Hok as ->. destruct Hadd as [[Hfree Hput]|[? _]]; [|done].
    assert (has_lock (s_data s') sid) as Hh by (apply lock_of_Some; by split).
    case_decide as Heq; [|by eapply sim_acquire].
    destruct (sim_locked σ a m' sid "1" Hs Hsid Hfree Hput) as [Hn Hs'].
    eexists. split; [by apply run_once, sp_lock|].
    assert (sheld a !! p = Some sid) as Ho
      by (apply (sim_held _ _ Hs); split; [done|]; exists (s_data s); split; [done|];
          unfold has_lock in *; congruence).
    pose proof (sim_handle _ _ p (s_data s') (Some sid) Hs') as Hs2. cbn in Hs2.
    change (partial_alter (λ _, Some sid) p (sheld a)) with (<[p := sid]> (sheld a)) in Hs2.
    rewrite (insert_id _ _ _ Ho) in Hs2. apply Hs2.
    + intros _. eauto.
    + intros sid'. split; [by intros [= <-]|]. intros [Hsid' Hh']. f_equal. by eapply has_lock_sid.
Qed.

Lemma unlock_simulated p d d' σ σ' a :
  sim σ a → ran s_unlock_session p tt d d' σ σ' → simulated a (released p d) σ'.
Proof.
  intros Hs (s & s' & Hp & <- & <- & Hm & R & ->).
  apply unlock_step in R as [Hfree Hd].
  assert (∀ m', same_items item (sys_memc σ) m' →
    simulated a (released p (s_data s)) (mkSystem m' (<[p := s_data s']> (sys_procs σ)))) as Hleft.
  { intros m' Hm'. eapply sim_abandon; [done..|].
    by apply (sim_forget (mkSystem m' (sys_procs σ)) a p); [apply sim_same|]. }
  destruct Hd as [->|(k & Hk & Em)]; [by apply Hleft; rewrite Hm|].
  destruct (has_lock_keys σ a p (s_data s) Hs Hp) as [?|(sid & Hsid & Hh & _)]; [congruence|].
  assert (k = lock_key_of sid) as -> by (unfold has_lock in Hh; congruence).
  rewrite Em, Hm. destruct (memcached_delete (sys_memc σ) (lock_key_of sid) 0) as [rc m] eqn:E.
  destruct (srv_delete _ _ _ _ _ E); [by eapply sim_release|by apply Hleft].
Qed.

Lemma sim_open p persistent σ a :
  sim σ a → sys_procs σ !! p = None →
  sim (mkSystem (sys_memc σ) (<[p := mkSessionData persistent false false None]> (sys_procs σ))) a.
Proof.
  intros Hs Hp. assert (mkSessions (sdata a) (slocks a) (delete p (sheld a)) = a) as E.
  { rewrite delete_id; [by destruct a|]. destruct (sheld a !! p) as [sid|] eqn:E; [|done].
    apply (sim_held _ _ Hs) in E as (_ & d & Hd & _). congruence. }
  rewrite <- E. by apply sim_forget.
Qed.

Lemma handler_step_simulated σ a l σ' :
  sim σ a → handler_step σ l σ' → simulated a l σ'.
Proof.
  intros Hs Hstep. destruct Hstep as
    [p sid e wait retries next d d' σ σ' Hsid R
    |p d d' σ σ' R
    |p sid [r data] d d' σ σ' Hsid R
    |p sid val e rc d d' σ σ' Hsid R
    |p sid rc d d' σ σ' Hsid R
    |p sid e rc d d' σ σ' Hsid R
    |p sid answer d d' σ σ' R|p sid life answer d d' σ σ' R
    |p persistent σ Hp|p d σ Hp|sid m' σ Hsid Hput|sid m' σ Hsid Hput|m' σ Hm'].
  - by eapply attempt_simulated.
  - by eapply unlock_simulated.
  - apply read_item_run in R as (Hi & Hp & Hr). rewrite (system_eta σ σ' Hp).
    exists a. split; [|by apply sim_same]. apply run_once, sp_read.
    cbn in Hr. by rewrite (sim_data _ _ Hs) in Hr.
  - unfold write_item in R. apply smemc_run in R as (_ & _ & E & Hp). rewrite (system_eta σ σ' Hp).
    destruct (srv_set _ _ _ _ _ _ E) as [Hput|[Hne Hi]].
    + eexists. split; [by apply run_once, sp_write|by eapply sim_put].
    + rewrite bool_decide_false by done. exists a.
      split; [by apply run_once, sp_write_lost|by apply sim_same].
  - unfold delete_item in R. apply smemc_run in R as (_ & _ & E & Hp). rewrite (system_eta σ σ' Hp).
    destruct (srv_delete _ _ _ _ _ E) as [Hput|Hi].
    + eexists. split; [by apply run_once, sp_destroy|by eapply sim_put].
    + exists a. split; [by apply run_once, sp_destroy_lost|by apply sim_same].
  - unfold create_item in R. apply smemc_run in R as (_ & _ & E & Hp). rewrite (system_eta σ σ' Hp).
    destruct (srv_add _ _ _ _ _ _ E) as [[Hfree Hput]|[Hne Hi]].
    + rewrite (sim_data _ _ Hs) in Hfree by done. eexists. split; [|by eapply sim_put].
      by apply run_once, sp_create.
    + rewrite bool_decide_false by done. exists a.
      split; [by apply run_once, sp_create_lost|by apply sim_same].
  - apply (quiet_run _ _ _ _ _ _ _ (validate_quiet sid)) in R as [Hi Hp].
    rewrite (system_eta σ σ' Hp). exists a. split; [constructor|by apply sim_same].
  - apply (quiet_run _ _ _ _ _ _ _ (touch_quiet sid life)) in R as [Hi Hp].
    rewrite (system_eta σ σ' Hp). exists a. split; [constructor|by apply sim_same].
  - exists a. split; [constructor|by apply sim_open].
  - eapply sim_abandon; [done..|]. by apply sim_no_handle.
  - eexists. split; [apply run_once, sp_expire|by eapply sim_put].
  - eexists. split; [apply run_once, sp_lock_expire|]. eapply sim_put_lock; [done..| |set_solver].
    split; [set_solver|done].
  - exists a. split; [constructor|]. destruct Hs as [Hdt Hl Ho Hk]. split; cbn; [| |done|done];
      intros sid Hsid; destruct (Hm' sid Hsid) as [E1 E2]; rewrite ?E1, ?E2; auto.
Qed.

Lemma handler_run_simulated σ a tr σ' :
  sim σ a → run handler_step σ tr σ' → simulated a tr σ'.
Proof.
  intros Hs R. revert a Hs. induction R as [σ|σ l σ1 tr σ2 Hl R IH]; intros a Hs;
    [by exists a; split; [constructor|]|].
  destruct (handler_step_simulated σ a l σ1 Hs Hl) as (a1 & R1 & Hs1).
  destruct (IH a1 Hs1) as (a2 & R2 & Hs2). exists a2. split; [by eapply run_app|done].
Qed.
End System.

(** ** The theorems *)

(** Where it starts: nobody has a lock. *)
Lemma sim_start {MC} `{HC : BuildConfig} `{HS : MemcachedStorage MC} `{HG : MemcachedGet MC}
    `{!SessionServer MC} (σ : system MC) :
  (∀ k, item (sys_memc σ) k = None) →
  (∀ p d, sys_procs σ !! p = Some d → is_locked d = false) → sim σ (mkSessions ∅ ∅ ∅).
Proof.
  intros Hi Hd. split; cbn.
  - intros sid _. by rewrite Hi, lookup_empty.
  - intros sid _. rewrite Hi. set_solver.
  - intros p sid. unfold owns. cbn. rewrite lookup_empty.
    split; [done|]. intros (_ & d & Hp & [Hl _]%lock_of_Some). by rewrite (Hd p d Hp) in Hl.
  - intros p d Hp Hl. by rewrite (Hd p d Hp) in Hl.
Qed.

(** Process 0 of two reads the session [abc] of an empty server and writes it. *)
Definition toy_start : system toy := mkSystem toy_new toy_procs.

Lemma toy_start_sim : sim toy_start (mkSessions ∅ ∅ ∅).
Proof.
  apply sim_start; [done|]. intros p d Hp. cbn in Hp. unfold toy_procs in Hp.
  apply lookup_insert_Some in Hp as [[_ <-]|[_ Hp]]; [reflexivity|].
  apply lookup_insert_Some in Hp as [[_ <-]|[_ Hp]]; [reflexivity|].
  by rewrite lookup_empty in Hp.
Qed.

Definition toy_after {A} (op : M (sworld toy) A) (s : sworld toy) : sworld toy :=
  match op s with Ret _ s' => s' | _ => s end.

Lemma toy_session_run :
  ∃ σ, run handler_step toy_start
         ([LAcquire 0 "abc"] ++ [LRead 0 "abc" (SUCCESS, ""%string)] ++ [LWrite 0 "abc" "n|i:1;" true]) σ.
Proof.
  set (s0 := toy_session toy_new).
  set (s1 := toy_after (lock_attempt (lock_key_of "abc") 0 150 5) s0).
  set (s2 := toy_after (read_item "abc") s1).
  set (s3 := toy_after (write_item "abc" "n|i:1;" 0) s2).
  eexists. apply (run_cons _ _ [_] (mkSystem (s_memc s1) (<[0%nat := s_data s1]> toy_procs))).
  { apply (h_attempt 0 "abc" 0 150 5 150 (s_data s0) (s_data s1)); [reflexivity|].
    exists s0, s1. by repeat split. }
  apply (run_cons _ _ [_] (mkSystem (s_memc s2) (<[0%nat := s_data s2]> toy_procs))).
  { apply (h_read 0 "abc" (SUCCESS, ""%string) (s_data s1) (s_data s2)); [reflexivity|].
    exists s1, s2. by repeat split. }
  apply run_once. apply (h_write 0 "abc" "n|i:1;" 0 MEMCACHED_SUCCESS (s_data s2) (s_data s3));
    [reflexivity|].
  exists s2, s3. repeat split.
Qed.

(** C3: the session handler is a store of sessions with locks.  However the commands that
    the session functions of any number of processes send interleave, with each
    other, with traffic on other keys and with the expiry of sessions and of locks, what the
    processes see, the locks they get and let go of, what they read, write, delete
    and create, and with which answers, is a run of the abstract store: a lock is
    taken only while it is free, a session is created only where none is, and a read
    that succeeds shows what the store has; and afterwards the server and the handles
    show the store's data and locks, and what each process counts as its own, again.
    Commands may fail, and a failed command may still have been carried out.  The ids
    are those without a NUL that do not start with [lock.].  Like the code, the store
    keeps nobody from reading or writing without a lock. *)
Theorem sessions_refine_the_store {MC} `{HC : BuildConfig} `{HN : MemcachedNumbers}
    `{HL : MemcachedControl MC} `{HS : MemcachedStorage MC} `{HG : MemcachedGet MC}
    `{!SessionServer MC} (σ0 σ : system MC) (a0 : sessions) (tr : list label) :
  sim σ0 a0 → run handler_step σ0 tr σ →
  ∃ a, run spec_step a0 tr a ∧ sim σ a.
Proof. apply handler_run_simulated. Qed.

Lemma sessions_refine_the_store_witness :
  ∃ tr σ, run handler_step toy_start tr σ
  ∧ ∃ a, run spec_step (mkSessions ∅ ∅ ∅) tr a ∧ sim σ a.
Proof.
  destruct toy_session_run as [σ R]. eexists _, σ. split; [exact R|].
  apply (sessions_refine_the_store toy_start σ (mkSessions ∅ ∅ ∅) _ toy_start_sim R).
Defined.


