(* ===== verification/SessionSteps.v ===== *)
(** * The session functions are made of the steps of the store

    The steps of SessionStore are single commands; here the whole functions of the
    session module are shown to be runs of them. *)

From S2P Require Import Prelude CLib Zend LibMemcached World Toy Session SessionProofs SessionLocks.
From S2P Require Import SessionSpec SessionStore.
#[local] Open Scope Z_scope.

Section Steps.
Context {MC : Type} {HC : BuildConfig} {HN : MemcachedNumbers} {HL : MemcachedControl MC}
  {HS : MemcachedStorage MC} {HG : MemcachedGet MC} `{!SessionServer MC}.
#[local] Abbreviation M := (M (sworld MC)).
Implicit Types (σ : system MC) (d : php_memcached_user_data).

(** [op] returns, and alone on the server it is a run of process [p] whose answer,
    state and labels satisfy [Φ]. *)
Definition made_of {A} (p : nat) (op : M A) (s : sworld MC)
    (Φ : A → sworld MC → list label → Prop) : Prop :=
  ∃ a s', op s = Ret a s' ∧ ∀ procs, procs !! p = Some (s_data s) → ∃ tr,
    run handler_step (mkSystem (s_memc s) procs) tr
        (mkSystem (s_memc s') (<[p := s_data s']> procs)) ∧ Φ a s' tr.

Lemma made_bind {A B} p (op : M A) (k : A → M B) s Φ Ψ :
  made_of p op s Φ →
  (∀ a s', (∃ tr, Φ a s' tr) →
     made_of p (k a) s' (λ b s'' tr', ∀ tr, Φ a s' tr → Ψ b s'' (tr ++ tr'))) →
  (∃ procs : gmap nat php_memcached_user_data, procs !! p = Some (s_data s)) →
  made_of p (op ≫= k) s Ψ.
Proof.
  intros (a & s1 & R1 & H1) Hk [procs0 Hp0].
  destruct (H1 procs0 Hp0) as (tr0 & _ & HΦ0).
  destruct (Hk a s1 (ex_intro _ _ HΦ0)) as (b & s2 & R2 & H2).
  exists b, s2. rewrite (bind_Ret _ _ _ _ _ R1). split; [done|]. intros procs Hp.
  destruct (H1 procs Hp) as (tr & Hr & HΦ).
  destruct (H2 (<[p := s_data s1]> procs)) as (tr' & Hr' & HΨ); [by rewrite lookup_insert_eq|].
  rewrite insert_insert_eq in Hr'. exists (tr ++ tr'). split; [by eapply run_app|by apply HΨ].
Qed.

Lemma some_procs p (d : php_memcached_user_data) :
  ∃ procs : gmap nat php_memcached_user_data, procs !! p = Some d.
Proof. exists {[p := d]}. by rewrite lookup_singleton_eq. Qed.

Lemma made_mono {A} p (op : M A) s (Φ Ψ : A → sworld MC → list label → Prop) :
  made_of p op s Φ → (∀ a s' tr, Φ a s' tr → Ψ a s' tr) → made_of p op s Ψ.
Proof.
  intros (a & s' & R & H) HΨ. exists a, s'. split; [done|]. intros procs Hp.
  destruct (H procs Hp) as (tr & Hr & HΦ). eauto.
Qed.

(** A first call that leaves the server, the handle and the run alone. *)
Lemma made_start {A B} p (op : M A) (k : A → M B) s a s1 Φ :
  op s = Ret a s1 → s_memc s1 = s_memc s → s_data s1 = s_data s →
  made_of p (k a) s1 Φ → made_of p (op ≫= k) s Φ.
Proof.
  intros R0 Hm Hd (b & s' & R & H). exists b, s'. rewrite (bind_Ret _ _ _ _ _ R0).
  split; [done|]. by rewrite <- Hm, <- Hd.
Qed.

Lemma made_gets {A B} p (f : sworld MC → A) (k : A → M B) s Φ :
  made_of p (k (f s)) s Φ → made_of p (gets f ≫= k) s Φ.
Proof. by apply made_start. Qed.

(** What touches neither the server nor the handle takes no step. *)
Lemma made_quiet {A} p (op : M A) s a s' (Φ : A → sworld MC → list label → Prop) :
  op s = Ret a s' → s_memc s' = s_memc s → s_data s' = s_data s → Φ a s' [] → made_of p op s Φ.
Proof.
  intros R Hm Hd HΦ. exists a, s'. split; [done|]. intros procs Hp. exists [].
  rewrite Hm, Hd, insert_id by done. split; [constructor|done].
Qed.

Lemma made_step {A} p (op : M A) s a s' l (Φ : A → sworld MC → list label → Prop) :
  op s = Ret a s' →
  (∀ σ σ', ran op p a (s_data s) (s_data s') σ σ' → handler_step σ l σ') →
  Φ a s' l → made_of p op s Φ.
Proof.
  intros R Hl HΦ. exists a, s'. split; [done|]. intros procs Hp. exists l.
  split; [|done]. apply run_once, Hl. exists s, s'. by repeat split.
Qed.

(** A handle that can ask for the lock of [sid]. *)
Definition fresh d (sid : string) : Prop := is_locked d = false ∨ has_lock d sid.

Definition taken (p : nat) (sid : string) d d' (tr : list label) : Prop :=
  fresh d' sid
  ∧ (tr = [] ∧ d' = d ∨ tr = [LAcquire p sid] ∧ is_locked d = false ∧ has_lock d' sid
     ∨ tr = [] ∧ has_lock d sid ∧ has_lock d' sid).

Lemma attempt_made p sid e wait retries s :
  is_sid sid = true → fresh (s_data s) sid →
  made_of p (lock_attempt (lock_key_of sid) e wait retries) s
    (λ _ s' tr, taken p sid (s_data s) (s_data s') tr).
Proof.
  intros Hsid Hd.
  assert (∃ a s', lock_attempt (lock_key_of sid) e wait retries s = Ret a s') as (a & s' & R).
  { unfold lock_attempt, smemc_call, mbind, M_bind.
    destruct (memcached_add (s_memc s) (lock_key_of sid) "1" e 0) as [rc m].
    destruct rc; try destruct (retries >? 0); by eexists _, _. }
  eapply made_step; [exact R|intros σ σ' Hr; by eapply h_attempt|].
  apply lock_attempt_step in R as [_ [->|(_ & Hl & Hk)]].
  - unfold attempted. rewrite decide_True by done. split; [done|by left].
  - assert (has_lock (s_data s') sid) as Hh by (apply lock_of_Some; by split).
    split; [by right|]. right. unfold attempted, released. destruct Hd as [Hd|Hd].
    + left. assert (lock_of (s_data s) = None) as Hn by (unfold lock_of; by rewrite Hd).
      by rewrite decide_False by (rewrite Hh, Hn; done).
    + right. by rewrite decide_True by (rewrite Hh, Hd; done).
Qed.

Lemma lock_loop_made fuel p sid e wait retries s :
  (Z.to_nat retries < fuel)%nat → is_sid sid = true → fresh (s_data s) sid →
  made_of p (lock_loop fuel (lock_key_of sid) e wait retries) s
    (λ _ s' tr, taken p sid (s_data s) (s_data s') tr).
Proof.
  revert wait retries s. induction fuel as [|fuel IH]; intros wait retries s Hf Hsid Hd; [lia|].
  cbn [lock_loop]. eapply made_bind; [by apply attempt_made| |apply some_procs].
  intros next s1 [tr1 Ht1]. pose proof Ht1 as [Hd1 _].
  eapply made_bind; [by apply (made_quiet p (gets _) s1 (is_locked (s_data s1)) s1 (λ b s' tr, b = is_locked (s_data s1) ∧ s' = s1 ∧ tr = []))
    | |apply some_procs].
  intros b s2 [tr2 (-> & -> & ->)].
  destruct (is_locked (s_data s1)) eqn:Hl; cbn [negb andb].
  - eapply made_quiet; [done..|]. intros tr (_ & _ & ->) tr' Ht. by rewrite app_nil_r.
  - assert (∀ tr, taken p sid (s_data s) (s_data s1) tr → tr = [] ∧ s_data s1 = s_data s) as Hnone.
    { intros tr [_ [?|[(_ & _ & [Hh _]%lock_of_Some)|(_ & _ & [Hh _]%lock_of_Some)]]];
        [done|congruence|congruence]. }
    destruct (retries >? 0) eqn:Hr.
    + eapply made_mono; [apply IH; [lia|done|done]|].
      intros a s3 tr3 Ht3 tr (_ & _ & ->) tr' Ht. apply Hnone in Ht as [-> <-]. done.
    + eapply made_quiet; [done..|]. intros tr (_ & _ & ->) tr' Ht. by rewrite app_nil_r.
Qed.

Lemma lock_session_made p sid s :
  is_sid sid = true → fresh (s_data s) sid →
  made_of p (s_lock_session sid) s
    (λ b s' tr, b = is_locked (s_data s') ∧ taken p sid (s_data s) (s_data s') tr).
Proof.
  intros Hsid Hd. destruct (lock_expiration_run s) as [e He]. unfold s_lock_session.
  apply (made_start p _ _ _ _ _ _ He eq_refl eq_refl), made_gets. eapply made_bind; [apply lock_loop_made; [lia|done|done]| |apply some_procs].
  intros [] s1 _. eapply made_quiet; [done..|]. intros tr Ht. by rewrite app_nil_r.
Qed.

Lemma read_item_made p sid s :
  is_sid sid = true →
  made_of p (read_item sid) s
    (λ ans s' tr, s_data s' = s_data s ∧ tr = [LRead p sid ans]).
Proof.
  intros Hsid.
  assert (∃ ans s', read_item sid s = Ret ans s' ∧ s_data s' = s_data s) as (ans & s' & R & Hd).
  { unfold read_item, smemc_call, mbind, M_bind.
    destruct (memcached_get (s_memc s) sid) as [[[payload flags] rc] m].
    by destruct rc; eexists _, _. }
  eapply made_step; [exact R|intros σ σ' Hr; by eapply h_read|done].
Qed.

Lemma ps_read_unlocked p sid s :
  is_sid sid = true → lock_enabled (s_ini s) = false →
  made_of p (ps_read sid) s (λ ans s' tr, s_data s' = s_data s ∧ tr = [LRead p sid ans]).
Proof.
  intros Hsid Hoff. unfold ps_read. apply made_gets. rewrite Hoff.
  eapply (made_start p _ _ s true s); [done..|]. by apply read_item_made.
Qed.

(** A read takes the lock, unless the handle has it, and then the item. *)
Lemma ps_read_made p sid s :
  is_sid sid = true → fresh (s_data s) sid → lock_enabled (s_ini s) = true →
  made_of p (ps_read sid) s
    (λ ans s' tr, tr = [] ∧ ans.1 = FAILURE
       ∨ has_lock (s_data s') sid
         ∧ (tr = [LRead p sid ans] ∧ has_lock (s_data s) sid
            ∨ tr = [LAcquire p sid; LRead p sid ans] ∧ is_locked (s_data s) = false)).
Proof.
  intros Hsid Hd Hon.
  unfold ps_read. apply made_gets. rewrite Hon. eapply made_bind; [by apply lock_session_made| |apply some_procs].
  intros b s1 (tr0 & -> & [Hd1 _]). destruct (is_locked (s_data s1)) eqn:Hl; cbn [negb].
  - assert (has_lock (s_data s1) sid) as Hh by (destruct Hd1; [congruence|done]).
    eapply made_mono; [by apply read_item_made|].
    intros ans s2 tr2 [E2 ->] tr [_ [_ Ht]]. right. rewrite E2. split; [done|].
    destruct Ht as [[-> E1]|[(-> & Hf & _)|(-> & Hh0 & _)]]; [left|by right|by left].
    by rewrite <- E1.
  - eapply made_quiet; [done..|]. intros tr [_ [_ Ht]]. left.
    destruct Ht as [[-> _]|[(_ & _ & [Hh _]%lock_of_Some)|(_ & _ & [Hh _]%lock_of_Some)]];
      [done|congruence|congruence].
Qed.

(** A write of [n] commands that fail, and then one that succeeds, or none. *)
Definition writes (p : nat) (sid val : string) (n : nat) (r : ps_result) : list label :=
  replicate n (LWrite p sid val false)
  ++ match r with SUCCESS => [LWrite p sid val true] | FAILURE => [] end.

Lemma write_loop_made fuel p sid val e retries s :
  (Z.to_nat retries < fuel)%nat → is_sid sid = true →
  made_of p (write_loop fuel sid val e retries) s
    (λ r s' tr, s_data s' = s_data s ∧ ∃ n, tr = writes p sid val n r).
Proof.
  revert retries s. induction fuel as [|fuel IH]; intros retries s Hf Hsid; [lia|].
  cbn [write_loop].
  assert (made_of p (write_item sid val e) s (λ rc s' tr, s_data s' = s_data s
            ∧ tr = [LWrite p sid val (bool_decide (rc = MEMCACHED_SUCCESS))])) as Hone.
  { unfold write_item. destruct (session_set sid val e (s_memc s)) as [rc m] eqn:E.
    eapply (made_step p _ s rc (with_smemc m s)); [unfold smemc_call; by rewrite E| |done].
    intros σ σ' Hr. by eapply h_write. }
  eapply made_bind; [exact Hone| |apply some_procs].
  intros rc s1 (tr1 & Hd1 & _). case_bool_decide as Hrc.
  - eapply made_quiet; [done..|]. intros tr [_ ->]. split; [done|]. by exists O.
  - set (s2 := with_swarning "error saving session to memcached: %s" s1).
    eapply (made_start p (swarn _) _ s1 tt s2); [done..|]. destruct (Z.gtb_spec (retries - 1) 0).
    + eapply made_mono; [apply IH; [lia|done]|].
      intros r s3 tr3 [Hd3 [n ->]] tr [_ ->]. split; [by rewrite Hd3|]. by exists (S n).
    + eapply made_quiet; [done..|]. intros tr [_ ->]. split; [done|]. by exists 1%nat.
Qed.

Lemma ps_write_made p sid val life s :
  is_sid sid = true →
  made_of p (ps_write sid val life) s
    (λ r s' tr, s_data s' = s_data s ∧ ∃ n, tr = writes p sid val n r).
Proof.
  intros Hsid.
  assert (∃ e, s_session_expiration life s = Ret e s) as [e He] by (by eexists).
  unfold ps_write. apply (made_start p _ _ _ _ _ _ He eq_refl eq_refl).
  apply (write_loop_made _ p sid val e (write_retries (s_memc s) (s_ini s)) s); [lia|done].
Qed.

Lemma delete_item_made p sid s :
  is_sid sid = true →
  made_of p (delete_item sid) s (λ _ s' tr, s_data s' = s_data s ∧ tr = [LDestroy p sid]).
Proof.
  intros Hsid. unfold delete_item. destruct (memcached_delete (s_memc s) sid 0) as [rc m] eqn:E.
  eapply (made_step p _ s rc (with_smemc m s)); [unfold smemc_call; by rewrite E| |done].
  intros σ σ' Hr. by eapply h_destroy.
Qed.

Lemma ps_destroy_unlocked p sid s :
  is_sid sid = true → is_locked (s_data s) = false →
  made_of p (ps_destroy sid) s (λ r s' tr, r = SUCCESS ∧ s_data s' = s_data s ∧ tr = [LDestroy p sid]).
Proof.
  intros Hsid Hl. unfold ps_destroy.
  eapply made_bind; [by apply delete_item_made| |apply some_procs]. intros rc s1 (tr1 & Hd1 & _).
  apply made_gets. rewrite Hd1, Hl. eapply made_quiet; [done..|]. intros tr [_ ->]. by split.
Qed.

Lemma ps_destroy_made p sid s :
  is_sid sid = true → has_lock (s_data s) sid →
  made_of p (ps_destroy sid) s
    (λ r s' tr, r = SUCCESS ∧ is_locked (s_data s') = false
                ∧ tr = [LDestroy p sid; LRelease p sid]).
Proof.
  intros Hsid Hh. unfold ps_destroy.
  eapply made_bind; [by apply delete_item_made| |apply some_procs]. intros rc s1 (tr1 & Hd1 & _).
  pose proof Hh as [Hl Hk]%lock_of_Some.
  assert (made_of p s_unlock_session s1
    (λ _ s' tr, is_locked (s_data s') = false ∧ tr = [LRelease p sid])) as Hun.
  { assert (∃ s2, s_unlock_session s1 = Ret tt s2) as [s2 R].
    { unfold s_unlock_session. rewrite gets_bind, Hd1, Hl, Hk. unfold smemc_call, mbind, M_bind.
      destruct (memcached_delete (s_memc s1) (lock_key_of sid) 0). by eexists. }
    pose proof R as [Hf _]%unlock_step.
    eapply made_step; [exact R|intros σ σ' Hr; by eapply h_unlock|].
    split; [done|]. unfold released. by rewrite Hd1, Hh, locked_sid_of. }
  apply made_gets. rewrite Hd1, Hl. eapply made_bind; [exact Hun| |apply some_procs].
  intros [] s2 (tr2 & Hf & _). eapply made_quiet; [done..|].
  intros tr [_ ->] tr' [_ ->]. done.
Qed.

(** Failed attempts to create a session, and one that succeeded, if there was one. *)
Lemma create_sid_made n p create_id s :
  (∀ s, ∃ sid s', create_id s = Ret sid s' ∧ is_sid sid = true ∧ s_memc s' = s_memc s
                  ∧ s_data s' = s_data s) →
  made_of p (create_sid_loop n create_id) s
    (λ r s' tr, s_data s' = s_data s ∧ ∃ sids, (length sids <= n)%nat ∧
       tr = ((λ x, LCreate p x false) <$> sids)
            ++ match r with Some sid => [LCreate p sid true] | None => [] end).
Proof.
  intros Hid. revert s. induction n as [|n IH]; intros s; cbn [create_sid_loop].
  { eapply made_quiet; [done..|]. split; [done|]. by exists []. }
  destruct (Hid s) as (sid & s1 & R1 & Hsid & Hm1 & Hd1).
  eapply made_bind; [by apply (made_quiet p create_id s sid s1
    (λ x s' tr, x = sid ∧ s_data s' = s_data s ∧ tr = []))| |apply some_procs].
  intros x s2 (tr & -> & Hd2 & _). destruct (lock_expiration_run s2) as [e He].
  apply (made_start p _ _ _ _ _ _ He eq_refl eq_refl).
  assert (made_of p (create_item sid e) s2 (λ rc s' tr, s_data s' = s_data s2
            ∧ tr = [LCreate p sid (bool_decide (rc = MEMCACHED_SUCCESS))])) as Hone.
  { unfold create_item. destruct (memcached_add (s_memc s2) sid "" e 0) as [rc m] eqn:E.
    eapply (made_step p _ s2 rc (with_smemc m s2)); [unfold smemc_call; by rewrite E| |done].
    intros σ σ' Hr. by eapply h_create. }
  eapply made_bind; [exact Hone| |apply some_procs].
  intros rc s3 (tr3 & Hd3 & _). case_bool_decide as Hrc.
  - eapply made_quiet; [done..|]. intros tr3' [_ ->] tr' (_ & _ & ->).
    split; [congruence|]. exists []. split; [cbn; lia|done].
  - eapply made_mono; [apply IH|].
    intros r s4 tr4 (Hd4 & sids & Hlen & ->) tr3' [_ ->] tr' (_ & _ & ->).
    split; [congruence|]. exists (sid :: sids). split; [cbn; lia|done].
Qed.
End Steps.

(** C26: the session functions are made of the steps of that system.  For ids without a
    NUL that do not start with [lock.], each of them returns, and run by itself: a
    read with locking on, of a handle that has no lock or that of the session, takes
    the lock, if the handle does not have it yet, and then the item, or fails without
    reading; a read with locking off takes the item; a write, with or without a lock,
    sends failing set commands and at most one that succeeds, which is when it answers
    SUCCESS; a destroy deletes the item, and then the lock if the handle has that of
    the session; and the creation of an id adds at most three items and answers the
    one it could add. *)
Theorem session_functions_are_steps {MC} `{HC : BuildConfig} `{HN : MemcachedNumbers}
    `{HL : MemcachedControl MC} `{HS : MemcachedStorage MC} `{HG : MemcachedGet MC}
    `{!SessionServer MC} p sid val life create_id (s : sworld MC) :
  is_sid sid = true →
  (∀ s : sworld MC, ∃ id s', create_id s = Ret id s' ∧ is_sid id = true ∧ s_memc s' = s_memc s
     ∧ s_data s' = s_data s) →
  (fresh (s_data s) sid → lock_enabled (s_ini s) = true →
     made_of p (ps_read sid) s (λ ans s' tr, tr = [] ∧ ans.1 = FAILURE
       ∨ has_lock (s_data s') sid
         ∧ (tr = [LRead p sid ans] ∧ has_lock (s_data s) sid
            ∨ tr = [LAcquire p sid; LRead p sid ans] ∧ is_locked (s_data s) = false)))
  ∧ (lock_enabled (s_ini s) = false →
     made_of p (ps_read sid) s (λ ans s' tr, s_data s' = s_data s ∧ tr = [LRead p sid ans]))
  ∧ made_of p (ps_write sid val life) s
      (λ r s' tr, s_data s' = s_data s ∧ ∃ n, tr = writes p sid val n r)
  ∧ (has_lock (s_data s) sid →
     made_of p (ps_destroy sid) s
       (λ r s' tr, r = SUCCESS ∧ is_locked (s_data s') = false
                   ∧ tr = [LDestroy p sid; LRelease p sid]))
  ∧ (is_locked (s_data s) = false →
     made_of p (ps_destroy sid) s
       (λ r s' tr, r = SUCCESS ∧ s_data s' = s_data s ∧ tr = [LDestroy p sid]))
  ∧ made_of p (ps_create_sid create_id) s
      (λ r s' tr, s_data s' = s_data s ∧ ∃ sids, (length sids <= 3)%nat
         ∧ tr = ((λ x, LCreate p x false) <$> sids)
                ++ match r with Some id => [LCreate p id true] | None => [] end).
Proof.
  intros Hsid Hid. split; [by intros; apply ps_read_made|].
  split; [by apply ps_read_unlocked|]. split; [by apply ps_write_made|].
  split; [by apply ps_destroy_made|]. split; [by apply ps_destroy_unlocked|].
  by apply create_sid_made.
Qed.

Lemma session_functions_are_steps_witness :
  let s := toy_session toy_new in
  made_of 0 (ps_read "abc") s (λ ans s' tr, tr = [] ∧ ans.1 = FAILURE
    ∨ has_lock (s_data s') "abc"
      ∧ (tr = [LRead 0 "abc" ans] ∧ has_lock (s_data s) "abc"
         ∨ tr = [LAcquire 0 "abc"; LRead 0 "abc" ans] ∧ is_locked (s_data s) = false)).
Proof.
  intros s.
  destruct (session_functions_are_steps 0 "abc" "" 0 (Ret "new"%string) s) as [Hread _];
    [reflexivity|intros s0; by exists "new"%string, s0|].
  apply Hread; [by left|reflexivity].
Defined.
