(* ===== verification/Lifecycle.v ===== *)
(** * Construction, persistence and destruction of Memcached objects

    A handle ([memcached_st] with its [php_memc_user_data_t]) is a heap cell;
    objects and the entries of the engine's persistent list point to cells.
    Using a cell that was freed is [Undef]. *)

From S2P Require Import Prelude CLib Zend LibMemcached World Keys Payload.
#[local] Open Scope Z_scope.

(** [le->type] of a persistent list entry: ours, or another extension's. *)
Inductive list_entry_type : Type := le_memc | le_other.

#[global] Instance list_entry_type_eq_dec : EqDecision list_entry_type.
Proof. solve_decision. Defined.

(** The part of [php_memc_object_t] that construction sets. *)
Record object_slot : Type := mkSlot { o_memc : option nat; o_pristine : bool }.

Record lworld (MC : Type) : Type := mkLifecycle {
  l_heap : gmap nat (MC * php_memc_user_data_t);
  l_next : nat;
  l_plist : gmap string (list_entry_type * nat);
  l_objects : gmap nat object_slot;
  l_globals : memc_globals;
  l_warnings : list string;
  l_exception : bool
}.
Arguments mkLifecycle {MC} _ _ _ _ _ _ _.
Arguments l_heap {MC} _.
Arguments l_next {MC} _.
Arguments l_plist {MC} _.
Arguments l_objects {MC} _.
Arguments l_globals {MC} _.
Arguments l_warnings {MC} _.
Arguments l_exception {MC} _.

Section Heap.
Context {MC : Type}.
#[local] Abbreviation M := (M (lworld MC)).
Implicit Types L : lworld MC.

Definition with_heap h L : lworld MC :=
  mkLifecycle h (l_next L) (l_plist L) (l_objects L) (l_globals L) (l_warnings L) (l_exception L).
Definition with_plist p L : lworld MC :=
  mkLifecycle (l_heap L) (l_next L) p (l_objects L) (l_globals L) (l_warnings L) (l_exception L).
Definition with_objects o L : lworld MC :=
  mkLifecycle (l_heap L) (l_next L) (l_plist L) o (l_globals L) (l_warnings L) (l_exception L).
Definition with_lwarning x L : lworld MC :=
  mkLifecycle (l_heap L) (l_next L) (l_plist L) (l_objects L) (l_globals L) (l_warnings L ++ [x])
    (l_exception L).

Definition lwarn (x : string) : M unit := modify (with_lwarning x).

(** A new cell. *)
Definition alloc (h : MC * php_memc_user_data_t) : M nat :=
  λ L, Ret (l_next L)
         (mkLifecycle (<[l_next L := h]> (l_heap L)) (S (l_next L)) (l_plist L) (l_objects L)
            (l_globals L) (l_warnings L) (l_exception L)).

(** Reading and writing a cell. *)
Definition get_handle (p : nat) : M (MC * php_memc_user_data_t) :=
  L ← get; match l_heap L !! p with Some h => mret h | None => undef end.

Definition on_handle {A} (p : nat) (f : MC → A * MC) : M A :=
  h ← get_handle p;
  let '(a, m) := f h.1 in
  modify (λ L, with_heap (<[p := (m, h.2)]> (l_heap L)) L);; mret a.

Definition set_object (o : nat) (slot : object_slot) : M unit :=
  modify (λ L, with_objects (<[o := slot]> (l_objects L)) L).

Definition object_memc (o : nat) : M (option nat) :=
  L ← get; mret (match l_objects L !! o with Some slot => o_memc slot | None => None end).

(** [php_memc_destroy]: the credentials, the handle and the user data go. *)
Definition php_memc_destroy (p : nat) : M unit :=
  _ ← get_handle p; modify (λ L, with_heap (delete p (l_heap L)) L).

(** [php_memc_dtor], the destructor of our persistent list entries. *)
Definition php_memc_dtor (e : list_entry_type * nat) : M unit :=
  match e with (le_memc, p) => php_memc_destroy p | (le_other, _) => mret tt end.

(** [zend_hash_str_update_mem] on the persistent list: an entry that is replaced
    is destroyed first. *)
Definition plist_update (key : string) (e : list_entry_type * nat) : M unit :=
  L ← get;
  match l_plist L !! key with Some old => php_memc_dtor old | None => mret tt end;;
  modify (λ L, with_plist (<[key := e]> (l_plist L)) L).
End Heap.

Section Lifecycle.
Context {MC : Type} `{ZendRuntime} `{MemcachedNumbers} `{MemcachedControl MC}
  `{!MemcachedServers MC} `{!MemcachedCreate MC}.
#[local] Abbreviation M := (M (lworld MC)).
Implicit Types L : lworld MC.

(** "memcached:id=%s" in a buffer for all of the id: when the id has a NUL in it,
    what follows the text is whatever the buffer held. *)
Definition plist_key (persistent_id : string) : string :=
  let text := ("memcached:id=" ++ c_str persistent_id)%string in
  let size := 13 + zstr_len persistent_id in
  if zstr_len text =? size then text
  else overlay (text ++ String (chr 0) "")%string size.

(** The fields of a new [php_memc_user_data_t]. *)
Definition new_user_data (g : memc_globals) (is_persistent : bool) : php_memc_user_data_t :=
  mkUserData is_persistent true false (g_serializer_type g) (g_compression_type g)
    (g_compression_level g) (g_store_retry_count g) (-1) (g_item_size_limit g) false.

Definition default_behavior (p : nat) (b : memcached_behavior) (v : Z) (failed : string) : M unit :=
  rc ← on_handle p (λ m, memcached_behavior_set m (behavior_num b) v);
  when (negb (bool_decide (rc = MEMCACHED_SUCCESS))) (lwarn failed).

Definition set_default_behaviors (p : nat) (g : memc_globals) : M unit :=
  when (g_consistent_hash_enabled g)
    (default_behavior p BEHAVIOR_DISTRIBUTION MEMCACHED_DISTRIBUTION_CONSISTENT
       "Failed to turn on consistent hash: %s");;
  when (g_binary_protocol_enabled g)
    (default_behavior p BEHAVIOR_BINARY_PROTOCOL 1 "Failed to turn on binary protocol: %s";;
     default_behavior p BEHAVIOR_TCP_NODELAY 1 "Failed to set TCP_NODELAY: %s");;
  when (negb (g_connect_timeout g =? 0))
    (default_behavior p BEHAVIOR_CONNECT_TIMEOUT (u64 (g_connect_timeout g))
       "Failed to set connect timeout: %s").

(** A callback gets the object and the persistent id; it answers whether it could
    be called, and may leave an exception. *)
Definition on_new_callback : Type := nat → option string → M bool.

(** The call of [on_new] and the clean-up when it fails: [true] to go on. *)
Definition s_invoke_new_instance_cb (cb : on_new_callback) (o : nat)
    (persistent_id : option string) : M bool :=
  ok ← cb o persistent_id;
  when (negb ok) (lwarn "Failed to invoke 'on_new' callback %s()");;
  mret ok.

Definition run_on_new (on_new : option on_new_callback) (o p : nat)
    (persistent_id : option string) : M bool :=
  match on_new with
  | None => mret true
  | Some cb =>
      ok ← s_invoke_new_instance_cb cb o persistent_id;
      exn ← gets l_exception;
      if negb ok || exn then
        memc ← object_memc o;
        (* the handle is freed with the user data made above: they belong together
           unless the callback constructed the object again *)
        (if bool_decide (memc = Some p) then php_memc_destroy p else undef);;
        L ← get;
        set_object o (mkSlot None (match l_objects L !! o with
                                   | Some slot => o_pristine slot | None => true end));;
        mret false
      else mret true
  end.

Definition Memcached_construct (o : nat) (persistent_id : option string)
    (on_new : option on_new_callback) (conn_str : option string) : M unit :=
  memc ← object_memc o;
  set_object o (mkSlot memc true);;
  let key := match persistent_id with
             | Some id => if zstr_len id =? 0 then None else Some (plist_key id)
             | None => None
             end in
  L ← get;
  match (k ← key; l_plist L !! k) with
  | Some (le_memc, p) => set_object o (mkSlot (Some p) false)
  | _ =>
      let is_persistent := bool_decide (is_Some key) in
      let config := match conn_str with
                    | Some s => if zstr_len s >? 0 then Some s else None
                    | None => None
                    end in
      m ← match memcached config with
          | Some m => mret m
          | None => lwarn "Failed to allocate memory for memcached structure";; fatal
          end;
      p ← alloc (m, new_user_data (l_globals L) is_persistent);
      set_object o (mkSlot (Some p) true);;
      set_default_behaviors p (l_globals L);;
      go_on ← run_on_new on_new o p persistent_id;
      if negb go_on then mret tt
      else
        match key with
        | None => mret tt
        | Some k =>
            memc ← object_memc o;
            match memc with
            | Some q => plist_update k (le_memc, q)
            | None => undef
            end
        end
  end.

(** [php_memc_object_new]: an object that is not constructed yet. *)
Definition php_memc_object_new (o : nat) : M unit := set_object o (mkSlot None false).

(** [php_memc_object_free_storage]; the object itself goes too. *)
Definition php_memc_object_free_storage (o : nat) : M unit :=
  memc ← object_memc o;
  match memc with
  | Some p =>
      h ← get_handle p;
      if is_persistent h.2 then mret tt else php_memc_destroy p
  | None => mret tt
  end;;
  modify (λ L, with_objects (delete o (l_objects L)) L).

(** [MEMC_METHOD_FETCH_OBJECT] and a method body on the handle: an object that was
    not constructed throws. *)
Definition memc_method (o : nat)
    (body : MC * php_memc_user_data_t → MC * php_memc_user_data_t) : M bool :=
  memc ← object_memc o;
  match memc with
  | None => mret false
  | Some p =>
      h ← get_handle p;
      modify (λ L, with_heap (<[p := body h]> (l_heap L)) L);; mret true
  end.

Definition Memcached_isPersistent (o : nat) : M (option bool) :=
  memc ← object_memc o;
  match memc with
  | None => mret None
  | Some p => h ← get_handle p; mret (Some (is_persistent h.2))
  end.

Definition Memcached_isPristine (o : nat) : M (option bool) :=
  L ← get;
  mret (match l_objects L !! o with
        | Some (mkSlot (Some _) pristine) => Some pristine
        | _ => None
        end).
End Lifecycle.
