(* ===== verification/LifecycleProofs.v ===== *)
(** * Object lifecycles: no handle is used after it was freed

    The invariant of the heap of handles, that every operation keeps it, and
    where the constructor's callback can break it. *)

From S2P Require Import Prelude CLib Zend LibMemcached World Toy Keys Payload ServersProofs Lifecycle.
#[local] Open Scope Z_scope.

Section Safety.
Context {MC : Type} `{ZendRuntime} `{MemcachedNumbers} `{MemcachedControl MC}
  `{!MemcachedServers MC} `{!MemcachedCreate MC}.
Implicit Types L : lworld MC.

(** [Some b]: the cell is there and its user data say [is_persistent = b]. *)
Definition live L (p : nat) : option bool :=
  (λ h : MC * php_memc_user_data_t, is_persistent h.2) <$> l_heap L !! p.

(** Every object's handle is there; a handle two objects share is persistent, and
    so is every handle in the persistent list; fresh cells are not in use. *)
Record lc_inv L : Prop := {
  inv_live o slot p :
    l_objects L !! o = Some slot → o_memc slot = Some p → is_Some (live L p);
  inv_plist k p : l_plist L !! k = Some (le_memc, p) → live L p = Some true;
  inv_shared o1 o2 s1 s2 p :
    o1 ≠ o2 → l_objects L !! o1 = Some s1 → l_objects L !! o2 = Some s2 →
    o_memc s1 = Some p → o_memc s2 = Some p → live L p = Some true;
  inv_fresh p : is_Some (live L p) → (p < l_next L)%nat
}.

(** What a callback or a method may do: change handles, not their lifetimes. *)
Definition same_shape L L' : Prop :=
  l_objects L' = l_objects L ∧ l_plist L' = l_plist L ∧ l_next L' = l_next L
  ∧ ∀ p, live L' p = live L p.

#[local] Instance same_shape_preorder : PreOrder same_shape.
Proof.
  split; [by intros L|]. intros L1 L2 L3 (? & ? & ? & Hl1) (? & ? & ? & Hl2).
  repeat split; congruence.
Qed.

Lemma lc_inv_shape L L' : same_shape L L' → lc_inv L → lc_inv L'.
Proof.
  intros (Ho & Hp & Hn & Hl) [I1 I2 I3 I4]. split.
  - intros o slot p. rewrite Ho, Hl. apply I1.
  - intros k p. rewrite Hp, Hl. apply I2.
  - intros o1 o2 s1 s2 p. rewrite Ho, Hl. apply I3.
  - intros p. rewrite Hn, Hl. apply I4.
Qed.

(** *** Cells *)
Lemma live_insert L p h q :
  live (with_heap (<[p := h]> (l_heap L)) L) q
  = if decide (p = q) then Some (is_persistent h.2) else live L q.
Proof.
  unfold live, with_heap. cbn. case_decide as E; [subst; by rewrite lookup_insert_eq|].
  by rewrite lookup_insert_ne.
Qed.

Lemma live_delete L p q :
  live (with_heap (delete p (l_heap L)) L) q = if decide (p = q) then None else live L q.
Proof.
  unfold live, with_heap. cbn. case_decide as E; [subst; by rewrite lookup_delete_eq|].
  by rewrite lookup_delete_ne.
Qed.

Lemma wp_get_handle p (Q : MC * php_memc_user_data_t → lworld MC → Prop) L b :
  live L p = Some b →
  (∀ h, l_heap L !! p = Some h → is_persistent h.2 = b → Q h L) → wp (get_handle p) Q L.
Proof.
  unfold live, get_handle, wp. mrun. destruct (l_heap L !! p) as [h|]; [|done].
  intros [= <-] HQ. by apply HQ.
Qed.

Lemma put_same_shape L p (h h' : MC * php_memc_user_data_t) :
  l_heap L !! p = Some h → is_persistent h'.2 = is_persistent h.2 →
  same_shape L (with_heap (<[p := h']> (l_heap L)) L).
Proof.
  intros Hp Hh. repeat split. intros q. rewrite live_insert. case_decide as E; [|done].
  subst. unfold live. by rewrite Hp, Hh.
Qed.

Lemma wp_on_handle {A} p (f : MC → A * MC) (Q : A → lworld MC → Prop) L :
  is_Some (live L p) → (∀ a L', same_shape L L' → Q a L') → wp (on_handle p f) Q L.
Proof.
  intros [b Hb] HQ. unfold on_handle. apply wp_bind. eapply wp_get_handle; [exact Hb|].
  intros h Hh _. destruct (f h.1) as [a m]. apply wp_bind, wp_modify, wp_ret, HQ.
  by eapply put_same_shape.
Qed.

Lemma wp_destroy p (Q : unit → lworld MC → Prop) L :
  is_Some (live L p) → Q tt (with_heap (delete p (l_heap L)) L) → wp (php_memc_destroy p) Q L.
Proof.
  intros [b Hb] HQ. unfold php_memc_destroy. apply wp_bind. eapply wp_get_handle; [exact Hb|].
  intros h _ _. by apply wp_modify.
Qed.

Lemma wp_warn x (Q : unit → lworld MC → Prop) L :
  (∀ L', same_shape L L' → Q tt L') → wp (lwarn x) Q L.
Proof. intros HQ. apply wp_modify, HQ. by repeat split. Qed.

(** *** The default behaviors only touch the handle *)
Lemma wp_default_behavior p b v x (Q : unit → lworld MC → Prop) L :
  is_Some (live L p) → (∀ L', same_shape L L' → Q tt L') → wp (default_behavior p b v x) Q L.
Proof.
  intros Hp HQ. unfold default_behavior. apply wp_bind, wp_on_handle; [done|].
  intros rc L1 H1'. apply wp_when; intros _; [|by apply HQ].
  apply wp_warn. intros L2 H2'. apply HQ. by etrans.
Qed.

Lemma shape_live L L' p : same_shape L L' → is_Some (live L p) → is_Some (live L' p).
Proof. intros (_ & _ & _ & Hl). by rewrite Hl. Qed.

Lemma wp_set_default_behaviors p g (Q : unit → lworld MC → Prop) L :
  is_Some (live L p) → (∀ L', same_shape L L' → Q tt L') → wp (set_default_behaviors p g) Q L.
Proof.
  intros Hp HQ. unfold set_default_behaviors.
  assert (∀ b v x (R : unit → lworld MC → Prop) L1,
    same_shape L L1 → (∀ L2, same_shape L L2 → R tt L2) → wp (default_behavior p b v x) R L1) as Hone.
  { intros b v x R L1 HL1 HR. apply wp_default_behavior; [by eapply shape_live|].
    intros L2 HL2. apply HR. by etrans. }
  assert (∀ c m (R : unit → lworld MC → Prop) L1, same_shape L L1 →
    (∀ R', (∀ L2, same_shape L L2 → R' tt L2) → wp m R' L1) →
    (∀ L2, same_shape L L2 → R tt L2) → wp (when c m) R L1) as Hwhen.
  { intros c m R L1 HL1 Hm HR. apply wp_when; intros _; [by apply Hm|by apply HR]. }
  apply wp_bind, (Hwhen _ _ _ L); [done|intros R HR; by apply Hone|]. intros L1 HL1.
  apply wp_bind, Hwhen; [done| |].
  { intros R HR. apply wp_bind, Hone; [done|]. intros L2 HL2. by apply Hone. }
  intros L2 HL2. apply Hwhen; [done|intros R HR; by apply Hone|done].
Qed.

(** *** Objects and the persistent list *)
Lemma wp_object_memc o (Q : option nat → lworld MC → Prop) L :
  Q (slot ← l_objects L !! o; o_memc slot) L → wp (object_memc o) Q L.
Proof. unfold object_memc, wp. mrun. by destruct (l_objects L !! o). Qed.

(** The handle of [o] is nobody else's. *)
Definition sole_owner L (o p : nat) : Prop :=
  (∀ o' slot, o' ≠ o → l_objects L !! o' = Some slot → o_memc slot ≠ Some p)
  ∧ ∀ k, l_plist L !! k ≠ Some (le_memc, p).

Lemma sole_owner_shape L L' o p : same_shape L L' → sole_owner L o p → sole_owner L' o p.
Proof. intros (Ho & Hp & _) [H1' H2']. split; [by rewrite Ho|by rewrite Hp]. Qed.

Lemma lc_inv_set_object L o slot :
  lc_inv L →
  (∀ p, o_memc slot = Some p → is_Some (live L p)) →
  (∀ p o' s', o_memc slot = Some p → o' ≠ o → l_objects L !! o' = Some s' →
     o_memc s' = Some p → live L p = Some true) →
  lc_inv (with_objects (<[o := slot]> (l_objects L)) L).
Proof.
  intros [I1 I2 I3 I4] Hlive Hshare. split; cbn; [| exact I2 | | exact I4].
  - intros o' s' p [[<- <-]|[_ Ho]]%lookup_insert_Some Hp; [by apply Hlive|by eapply I1].
  - intros o1 o2 s1 s2 p Hne [[<- <-]|[Hn1 Ho1]]%lookup_insert_Some
      [[<- <-]|[Hn2 Ho2]]%lookup_insert_Some Hp1 Hp2.
    + done.
    + by eapply Hshare.
    + by eapply (Hshare p o1).
    + by eapply (I3 o1 o2).
Qed.

(** Freeing the handle of its only owner, who forgets it. *)
Lemma lc_inv_free L o p objs :
  lc_inv L → sole_owner L o p →
  (∀ o' s', objs !! o' = Some s' → o_memc s' ≠ Some p ∧ (o_memc s' = None ∨ l_objects L !! o' = Some s')) →
  lc_inv (with_objects objs (with_heap (delete p (l_heap L)) L)).
Proof.
  intros [I1 I2 I3 I4] [Hown Hpl] Hobjs.
  assert (∀ q, live (with_objects objs (with_heap (delete p (l_heap L)) L)) q
               = if decide (p = q) then None else live L q) as Hl by apply live_delete.
  split; cbn.
  - intros o' s' q Ho Hq. rewrite Hl. destruct (Hobjs o' s' Ho) as [Hne [Hn|Hs]]; [congruence|].
    rewrite decide_False by congruence. by eapply I1.
  - intros k q Hk. rewrite Hl, decide_False by (intros ->; by apply (Hpl k)). by eapply I2.
  - intros o1 o2 s1 s2 q Hne Ho1 Ho2 Hq1 Hq2. rewrite Hl.
    destruct (Hobjs o1 s1 Ho1) as [Hn1 [?|Hs1]]; [congruence|].
    destruct (Hobjs o2 s2 Ho2) as [Hn2 [?|Hs2]]; [congruence|].
    rewrite decide_False by congruence. by eapply (I3 o1 o2).
  - intros q. rewrite Hl. case_decide; [by intros [? ?]|apply I4].
Qed.

(** *** Constructions in progress

    While [on_new] runs, the object under construction owns a handle that nobody
    else knows, and its persistent id has no entry yet.  [busy] lists the objects
    under construction with the keys they will be registered under. *)
Record keeps L L' (x : nat * option string) : Prop := {
  kept_object slot p :
    l_objects L !! x.1 = Some slot → o_memc slot = Some p → sole_owner L x.1 p →
    l_objects L' !! x.1 = Some slot ∧ sole_owner L' x.1 p ∧ live L' p = live L p;
  kept_key k :
    x.2 = Some k → (∀ q, l_plist L !! k ≠ Some (le_memc, q)) →
    ∀ q, l_plist L' !! k ≠ Some (le_memc, q)
}.

Definition calm (busy : list (nat * option string)) L L' : Prop :=
  lc_inv L' ∧ Forall (keeps L L') busy.

Lemma keeps_trans x L1 L2 L3 : keeps L1 L2 x → keeps L2 L3 x → keeps L1 L3 x.
Proof.
  intros [O1 K1] [O2 K2]. split; [|eauto]. intros slot p Ho Hp Hown.
  destruct (O1 slot p Ho Hp Hown) as (Ho2 & Hown2 & Hl2).
  destruct (O2 slot p Ho2 Hp Hown2) as (Ho3 & Hown3 & Hl3). by rewrite Hl3.
Qed.

Lemma keeps_shape x L L' : same_shape L L' → keeps L L' x.
Proof.
  intros HL. pose proof HL as (Ho & Hp & _ & Hl). split.
  - intros slot p Hs Hm Hown. rewrite Ho. split; [done|].
    split; [by eapply sole_owner_shape|done].
  - intros k _ Hk q. by rewrite Hp.
Qed.

Lemma calm_trans busy L1 L2 L3 : calm busy L1 L2 → calm busy L2 L3 → calm busy L1 L3.
Proof.
  intros [_ K1] [I K2]. split; [done|]. rewrite !Forall_forall in *.
  intros x Hx. by eapply keeps_trans; [apply K1|apply K2].
Qed.

Lemma calm_shape busy L L' : lc_inv L → same_shape L L' → calm busy L L'.
Proof.
  intros Hinv HL. split; [by eapply lc_inv_shape|]. apply Forall_forall. intros x _.
  by apply keeps_shape.
Qed.

Lemma calm_cons x busy L L' : calm (x :: busy) L L' → calm busy L L'.
Proof. intros [I K]. split; [done|]. by apply Forall_cons in K as [_ K]. Qed.

(** Giving another object a slot whose handle the object under construction does
    not own, on a heap that has its handle as before. *)
Lemma keeps_set_object x L L' o slot :
  x.1 ≠ o → l_objects L' = <[o := slot]> (l_objects L) → l_plist L' = l_plist L →
  (∀ s p, l_objects L !! x.1 = Some s → o_memc s = Some p → sole_owner L x.1 p →
     o_memc slot ≠ Some p ∧ live L' p = live L p) →
  keeps L L' x.
Proof.
  intros Hne Ho Hpl Hown. split; [|by rewrite Hpl]. intros s p Hs Hp Hsole.
  destruct (Hown s p Hs Hp Hsole) as [Hslot Hl]. destruct Hsole as [S1 S2].
  split; [by rewrite Ho, lookup_insert_ne|]. split; [|done]. split; [|by rewrite Hpl].
  intros o' s' Hne'. rewrite Ho. intros [[<- <-]|[_ Ho']]%lookup_insert_Some; [done|by eapply S1].
Qed.

(** Two objects that own their handles alone own different ones. *)
Lemma sole_owners_differ L o1 o2 s2 p1 p2 :
  o2 ≠ o1 → l_objects L !! o2 = Some s2 → o_memc s2 = Some p2 → sole_owner L o1 p1 → p1 ≠ p2.
Proof. intros Hne Ho Hp [Hs _] ->. by eapply Hs. Qed.

(** *** The constructor *)
Lemma wp_run_on_new on_new o p id key busy slot (Q : bool → lworld MC → Prop) L :
  (∀ cb, on_new = Some cb → wp (cb o id) (λ _, calm ((o, key) :: busy) L) L) →
  lc_inv L → sole_owner L o p → l_objects L !! o = Some slot → o_memc slot = Some p →
  (∀ x, x ∈ busy → x.1 ≠ o) →
  (∀ L', calm busy L L' → Q false L') → (∀ L', calm ((o, key) :: busy) L L' → Q true L') →
  wp (run_on_new on_new o p id) Q L.
Proof.
  intros Hcb Hinv Hown Ho Hp Hbusy Hfail Hgo. unfold run_on_new.
  destruct on_new as [cb|]; [|by apply wp_ret, Hgo, calm_shape]. unfold s_invoke_new_instance_cb.
  apply wp_bind, wp_bind. eapply wp_mono; [by apply Hcb|]. intros ok L1 HL1. cbn beta in HL1.
  assert (∀ L2, same_shape L1 L2 →
    wp (exn ← gets l_exception;
        if negb ok || exn then
          memc ← object_memc o;
          (if bool_decide (memc = Some p) then php_memc_destroy p else undef);;
          L3 ← get;
          set_object o (mkSlot None (match l_objects L3 !! o with
                                     | Some slot => o_pristine slot | None => true end));;
          mret false
        else mret true) Q L2) as Hrest.
  { intros L2 HL2. assert (calm ((o, key) :: busy) L L2) as HL
      by (eapply calm_trans; [exact HL1|]; apply calm_shape; [by destruct HL1|done]).
    apply wp_bind, wp_gets. destruct (negb ok || _); [|by apply wp_ret, Hgo].
    pose proof HL as [Hinv2 [[Hobj _] Hothers]%Forall_cons].
    destruct (Hobj slot p Ho Hp Hown) as (Ho2 & Hown2 & _). cbn [fst] in Ho2, Hown2.
    apply wp_bind, wp_object_memc. rewrite Ho2. cbn [mbind option_bind].
    rewrite Hp, bool_decide_true by done.
    apply wp_bind, wp_destroy; [by eapply inv_live|].
    apply wp_bind, wp_get, wp_bind, wp_modify, wp_ret, Hfail. split.
    - apply (lc_inv_free L2 o p); [done|done|]. cbn.
      intros o' s' [[<- <-]|[Hne Ho']]%lookup_insert_Some; [split; [done|by left]|].
      split; [by eapply Hown2|by right].
    - rewrite Forall_forall in Hothers |- *. intros x Hx. eapply keeps_trans; [by apply Hothers|].
      eapply (keeps_set_object x L2 _ o); [by apply Hbusy|done|done|].
      intros s q Hs Hq Hsole. cbn. split; [done|].
      etransitivity; [apply (live_delete L2 p q)|]. rewrite decide_False; [done|].
      intros ->. eapply (sole_owners_differ L2 x.1 o); [|done..]. intros E. by apply (Hbusy x). }
  apply wp_bind, wp_when; intros _.
  - apply wp_warn. intros L2 HL2. apply wp_ret. by apply Hrest.
  - apply wp_ret. by apply Hrest.
Qed.

(** Registering a new persistent handle under a key without an entry of ours. *)
Lemma wp_plist_update k p o slot busy (Q : unit → lworld MC → Prop) L :
  lc_inv L → live L p = Some true → (∀ q, l_plist L !! k ≠ Some (le_memc, q)) →
  l_objects L !! o = Some slot → o_memc slot = Some p →
  (∀ x, x ∈ busy → x.1 ≠ o ∧ x.2 ≠ Some k) →
  (∀ L', calm busy L L' → Q tt L') → wp (plist_update k (le_memc, p)) Q L.
Proof.
  intros Hinv Hp Hk Ho Hslot Hbusy HQ. unfold plist_update. apply wp_bind, wp_get, wp_bind.
  assert (wp (match l_plist L !! k with Some old => php_memc_dtor old | None => mret tt end)
             (λ _ L', wp (modify (λ L, with_plist (<[k := (le_memc, p)]> (l_plist L)) L)) Q L') L)
    as Hw; [|exact Hw].
  assert (wp (modify (λ L, with_plist (<[k := (le_memc, p)]> (l_plist L)) L)) Q L) as Hput.
  { apply wp_modify, HQ. destruct Hinv as [I1 I2 I3 I4]. split.
    - split; cbn; [exact I1| |exact I3|exact I4].
      intros k' q [[_ [= <-]]|[_ Hq]]%lookup_insert_Some; [exact Hp|by eapply I2].
    - apply Forall_forall. intros x Hx. destruct (Hbusy x Hx) as [Hne Hkey]. split; cbn.
      + intros s q Hs Hq Hsole. split; [done|]. split; [|done]. split; [by apply Hsole|].
        intros k' Hk'. cbn in Hk'.
        apply lookup_insert_Some in Hk' as [[_ [= E]]|[_ Hk']]; [|by eapply Hsole].
        assert (q ≠ p) as Hqp by (eapply (sole_owners_differ L x.1 o); [|done..]; congruence).
        by apply Hqp.
      + intros k' Ek' Hk' q Hq. apply lookup_insert_Some in Hq as [[<- _]|[_ Hq]]; [done|].
        by eapply Hk'. }
  destruct (l_plist L !! k) as [[[] q]|] eqn:E; [by destruct (Hk q)|exact Hput..].
Qed.


(** A new handle for an object. *)
Lemma alloc_inv L h o :
  lc_inv L →
  let L1 := with_objects (<[o := mkSlot (Some (l_next L)) true]> (l_objects L))
              (mkLifecycle (<[l_next L := h]> (l_heap L)) (S (l_next L)) (l_plist L) (l_objects L)
                 (l_globals L) (l_warnings L) (l_exception L)) in
  lc_inv L1 ∧ sole_owner L1 o (l_next L) ∧ live L1 (l_next L) = Some (is_persistent h.2).
Proof.
  intros Hinv L1. pose proof Hinv as [I1 I2 I3 I4]. set (p := l_next L) in *.
  assert (∀ q, live L1 q = if decide (p = q) then Some (is_persistent h.2) else live L q) as Hl
    by (intros q; apply (live_insert L p h)).
  assert (∀ q, is_Some (live L q) → q ≠ p) as Hold.
  { intros q Hq ->. apply I4 in Hq. unfold p in Hq. lia. }
  assert (∀ q b, live L q = Some b → live L1 q = Some b) as Hkeep.
  { intros q b Hq. rewrite Hl, decide_False; [done|]. intros <-. by apply (Hold p). }
  assert (sole_owner L1 o p) as Hown.
  { split; cbn.
    - intros o' slot Hne. rewrite lookup_insert_ne by done. intros Ho Hp.
      by apply (Hold p); [eapply I1|].
    - intros k Hk. apply (Hold p); [|done]. rewrite (I2 _ _ Hk). done. }
  split; [|split; [exact Hown|by rewrite Hl, decide_True]].
  apply (lc_inv_set_object (with_objects (l_objects L) L1)); cbn.
  - split; cbn.
    + intros o' slot q Ho Hq. destruct (I1 _ _ _ Ho Hq) as [b Hb]. exists b. by apply Hkeep.
    + intros k q Hk. by apply Hkeep, (I2 k).
    + intros o1 o2 s1 s2 q Hne H1' H2' Hq1 Hq2. by eapply Hkeep, (I3 o1 o2).
    + intros q. change (live _ q) with (live L1 q). rewrite Hl. case_decide as E; [intros _; lia|].
      intros Hq%I4. unfold p. lia.
  - intros q [= <-]. change (live _ p) with (live L1 p). by rewrite Hl, decide_True.
  - intros q o' s' [= <-] Hne Ho' Hq. exfalso. by apply (Hold p); [eapply I1|].
Qed.

Lemma alloc_calm L h o busy :
  lc_inv L → (∀ x, x ∈ busy → x.1 ≠ o) →
  let L1 := with_objects (<[o := mkSlot (Some (l_next L)) true]> (l_objects L))
              (mkLifecycle (<[l_next L := h]> (l_heap L)) (S (l_next L)) (l_plist L) (l_objects L)
                 (l_globals L) (l_warnings L) (l_exception L)) in
  calm busy L L1.
Proof.
  intros Hinv Hbusy L1. split; [by apply alloc_inv|]. apply Forall_forall. intros x Hx.
  eapply (keeps_set_object x L L1 o); [by apply Hbusy|done|done|]. intros s p Hs Hp _. cbn.
  assert (p < l_next L)%nat by (by eapply inv_fresh, inv_live). split; [intros [= E]; lia|].
  etransitivity; [apply (live_insert L (l_next L) h p)|]. rewrite decide_False; [done|lia].
Qed.

(** The key an id is registered under. *)
Definition persistent_key (id : option string) : option string :=
  match id with
  | Some id => if zstr_len id =? 0 then None else Some (plist_key id)
  | None => None
  end.

(** An object and an id that are not those of a construction in progress. *)
Definition not_busy (busy : list (nat * option string)) (o : nat) (id : option string) : Prop :=
  ∀ x, x ∈ busy → x.1 ≠ o ∧ (persistent_key id = None ∨ x.2 ≠ persistent_key id).

(** From the creation of the handle on; [key] has no entry of ours. *)
Lemma wp_construct_new o id on_new conn busy key g Lb L :
  (∀ cb L', on_new = Some cb → lc_inv L' →
     wp (cb o id) (λ _, calm ((o, key) :: busy) L') L') →
  (∀ x, x ∈ busy → x.1 ≠ o ∧ (key = None ∨ x.2 ≠ key)) → calm busy Lb L →
  (∀ k, key = Some k → ∀ q, l_plist L !! k ≠ Some (le_memc, q)) →
  wp (m ← match memcached conn with
          | Some m => mret m
          | None => lwarn "Failed to allocate memory for memcached structure";; fatal
          end;
      p ← alloc (m, new_user_data g (bool_decide (is_Some key)));
      set_object o (mkSlot (Some p) true);;
      set_default_behaviors p g;;
      go_on ← run_on_new on_new o p id;
      if negb go_on then mret tt
      else match key with
           | None => mret tt
           | Some k => memc ← object_memc o;
                       match memc with Some q => plist_update k (le_memc, q) | None => undef end
           end) (λ _, calm busy Lb) L.
Proof.
  intros Hcb Hbusy Hcalm0 Hkey. pose proof (proj1 Hcalm0) as Hinv. apply wp_bind.
  destruct (memcached _) as [m|]; [|by apply wp_bind, wp_warn; intros; apply wp_fatal].
  apply wp_ret. apply wp_bind. unfold wp at 1, alloc. apply wp_bind, wp_modify.
  set (h := (m, new_user_data _ _)).
  destruct (alloc_inv L h o Hinv) as (Hinv1 & Hown1 & Hl1).
  pose proof (alloc_calm L h o busy Hinv (λ x Hx, proj1 (Hbusy x Hx))) as Hcalm1. cbv zeta in *.
  set (L1 := with_objects _ _) in *.
  apply wp_bind, wp_set_default_behaviors; [eexists; exact Hl1|]. intros L2 HL2.
  pose proof HL2 as (Ho2 & Hp2 & _ & Hlive2).
  assert (lc_inv L2) as Hinv2 by (by eapply lc_inv_shape).
  assert (calm busy Lb L2) as Hcalm2.
  { eapply calm_trans; [exact Hcalm0|]. eapply calm_trans; [exact Hcalm1|by apply calm_shape]. }
  assert (l_objects L2 !! o = Some (mkSlot (Some (l_next L)) true)) as Hobj2
    by (rewrite Ho2; apply lookup_insert_eq).
  assert (sole_owner L2 o (l_next L)) as Hown2 by (by eapply sole_owner_shape).
  apply wp_bind, (wp_run_on_new on_new o (l_next L) id key busy _ _ L2 (λ cb E, Hcb cb L2 E Hinv2)
    Hinv2 Hown2 Hobj2 eq_refl (λ x Hx, proj1 (Hbusy x Hx))).
  - intros L3 HL3. apply wp_ret. by eapply calm_trans.
  - intros L3 HL3. cbn [negb]. pose proof HL3 as [Hinv3 [[Hobj3 Hkey3] _]%Forall_cons].
    apply calm_cons in HL3.
    destruct (Hobj3 _ _ Hobj2 eq_refl Hown2) as (Ho3 & Hown3 & Hlive3). cbn in Ho3.
    destruct key as [k|]; [|by apply wp_ret; eapply calm_trans].
    apply wp_bind, wp_object_memc. rewrite Ho3. cbn [mbind option_bind o_memc].
    eapply wp_plist_update; [done| | |exact Ho3|done| |].
    + rewrite Hlive3, Hlive2. exact Hl1.
    + apply (Hkey3 k eq_refl). rewrite Hp2. by apply Hkey.
    + intros x Hx. destruct (Hbusy x Hx) as [? [?|?]]; done.
    + intros L4 HL4. eapply calm_trans; [exact Hcalm2|]. by eapply calm_trans.
Qed.

Lemma wp_construct o id on_new conn slot busy L :
  (∀ cb L', on_new = Some cb → lc_inv L' →
     wp (cb o id) (λ _, calm ((o, persistent_key id) :: busy) L') L') →
  not_busy busy o id → lc_inv L → l_objects L !! o = Some slot →
  wp (Memcached_construct o id on_new conn) (λ _, calm busy L) L.
Proof.
  intros Hcb Hbusy Hinv Ho. unfold Memcached_construct. cbv zeta.
  apply wp_bind, wp_object_memc. rewrite Ho. cbn [mbind option_bind].
  apply wp_bind, wp_modify. apply wp_bind, wp_get.
  set (L0 := with_objects _ L).
  assert (calm busy L L0) as Hcalm0.
  { split.
    - apply lc_inv_set_object; [done|cbn; intros p Hp; by eapply inv_live|].
      cbn. intros p o' s' Hp Hne Ho' Hp'. by eapply (inv_shared L Hinv o' o).
    - apply Forall_forall. intros x Hx. destruct (Hbusy x Hx) as [Hne _].
      eapply (keeps_set_object x L L0 o); [done..|]. cbn. intros s p Hs Hp [Hsole _].
      split; [|done]. intros E. by eapply (Hsole o slot). }
  pose proof (proj1 Hcalm0) as Hinv0. fold (persistent_key id).
  unfold not_busy in Hbusy. revert Hcb Hbusy. generalize (persistent_key id) as key.
  intros key Hcb Hbusy.
  pose proof (λ conn Hkey,
    wp_construct_new o id on_new conn busy key (l_globals L0) L L0 Hcb Hbusy Hcalm0 Hkey) as Hnew.
  destruct key as [k|]; cbn [mbind option_bind]; [|by apply Hnew].
  destruct (l_plist L0 !! k) as [[[] p]|] eqn:Epl;
    [|apply Hnew; intros ? [= <-]; by rewrite Epl..].
  apply wp_modify. pose proof (inv_plist L0 Hinv0 _ _ Epl) as Hl.
  eapply calm_trans; [exact Hcalm0|]. split.
  - apply lc_inv_set_object; [done|intros q [= <-]; by rewrite Hl|].
    intros q o' s' [= <-] _ _ _. exact Hl.
  - apply Forall_forall. intros x Hx. destruct (Hbusy x Hx) as [Hne _].
    eapply (keeps_set_object x L0 _ o); [done..|]. cbn. intros s q Hs Hq [_ Hsole].
    split; [|done]. intros [= ->]. by eapply Hsole.
Qed.

(** *** The other operations *)
Lemma wp_object_new o busy L :
  lc_inv L → l_objects L !! o = None → wp (php_memc_object_new o) (λ _, calm busy L) L.
Proof.
  intros Hinv Ho. apply wp_modify. split; [by apply lc_inv_set_object|].
  apply Forall_forall. intros x _. split; [|done]. cbn. intros s p Hs Hp [S1 S2].
  assert (o ≠ x.1) by congruence. split; [by rewrite lookup_insert_ne|]. split; [|done].
  split; [|done]. cbn. intros o' s' Hne [[<- <-]|[_ Ho']]%lookup_insert_Some; [done|by eapply S1].
Qed.

Lemma wp_free_storage o slot busy L :
  lc_inv L → l_objects L !! o = Some slot → (∀ x, x ∈ busy → x.1 ≠ o) →
  wp (php_memc_object_free_storage o) (λ _, calm busy L) L.
Proof.
  intros Hinv Ho Hbusy. unfold php_memc_object_free_storage.
  apply wp_bind, wp_object_memc. rewrite Ho. cbn [mbind option_bind].
  assert (∀ h, (∀ x s q, x ∈ busy → l_objects L !! x.1 = Some s → o_memc s = Some q →
      sole_owner L x.1 q → h !! q = l_heap L !! q) →
    Forall (keeps L (with_objects (delete o (l_objects L)) (with_heap h L))) busy) as Hkeeps.
  { intros h Hh. apply Forall_forall. intros x Hx. split; [|done]. cbn. intros s q Hs Hq Hsole.
    rewrite lookup_delete_ne by (apply not_eq_sym, Hbusy, Hx). split; [done|].
    split; [|unfold live; cbn; by rewrite (Hh x s q)]. destruct Hsole as [S1 S2]. split; [|done].
    cbn. intros o' s' Hne [_ Ho']%lookup_delete_Some. by eapply S1. }
  assert (calm busy L (with_objects (delete o (l_objects L)) L)) as Hdel.
  { split; [|by apply (Hkeeps (l_heap L))]. destruct Hinv as [I1 I2 I3 I4].
    split; cbn; [| exact I2 | | exact I4].
    - intros o' s' p [_ Ho']%lookup_delete_Some. by eapply I1.
    - intros o1 o2 s1 s2 p Hne [_ Ho1]%lookup_delete_Some [_ Ho2]%lookup_delete_Some. by eapply I3. }
  destruct (o_memc slot) as [p|] eqn:Hp; [|by apply wp_bind, wp_ret, wp_modify].
  destruct (inv_live L Hinv o slot p Ho Hp) as [b Hb].
  apply wp_bind, wp_bind. eapply wp_get_handle; [exact Hb|]. intros h _ ->.
  destruct b; [by apply wp_ret, wp_modify|].
  apply wp_destroy; [by eexists|]. apply wp_modify.
  assert (∀ o' s', o' ≠ o → l_objects L !! o' = Some s' → o_memc s' ≠ Some p) as Hsole.
  { intros o' s' Hne Ho' Hp'. rewrite (inv_shared L Hinv o' o s' slot p) in Hb; done. }
  split.
  - apply (lc_inv_free L o p); [done| |].
    + split; [exact Hsole|]. intros k Hk. by rewrite (inv_plist L Hinv k p Hk) in Hb.
    + intros o' s' [Hne Ho']%lookup_delete_Some. split; [by eapply Hsole|by right].
  - apply Hkeeps. intros x s q Hx Hs Hq Hown. rewrite lookup_delete_ne; [done|]. intros <-.
    by eapply (Hsole x.1 s); [apply Hbusy|..].
Qed.

Lemma wp_method o body busy L :
  (∀ h, is_persistent (body h).2 = is_persistent h.2) → lc_inv L →
  wp (memc_method o body) (λ _, calm busy L) L.
Proof.
  intros Hbody Hinv. unfold memc_method. apply wp_bind, wp_object_memc.
  destruct (l_objects L !! o) as [slot|] eqn:Ho; cbn [mbind option_bind];
    [|by apply wp_ret, calm_shape].
  destruct (o_memc slot) as [p|] eqn:Hp; [|by apply wp_ret, calm_shape].
  destruct (inv_live L Hinv o slot p Ho Hp) as [b Hb].
  apply wp_bind. eapply wp_get_handle; [exact Hb|]. intros h Hh _.
  apply wp_bind, wp_modify, wp_ret, calm_shape; [done|]. by eapply put_same_shape.
Qed.

(** *** Programs *)

(** What a script can do with objects.  The [on_new] callback of a constructor call
    is itself a script, with whether it could be called; an exception is left or
    caught. *)
Inductive lc_op : Type :=
| OpNew (o : nat)
| OpConstruct (o : nat) (id : option string) (on_new : option (list lc_op * bool))
    (conn : option string)
| OpFree (o : nat)
| OpMethod (o : nat) (body : MC * php_memc_user_data_t → MC * php_memc_user_data_t)
| OpException (raised : bool).

Definition set_exception (b : bool) L : lworld MC :=
  mkLifecycle (l_heap L) (l_next L) (l_plist L) (l_objects L) (l_globals L) (l_warnings L) b.

(** An operation on an object that exists; a new object has a name of its own. *)
Fixpoint run_op (op : lc_op) : M (lworld MC) unit :=
  L ← get;
  match op with
  | OpNew o => match l_objects L !! o with Some _ => mret tt | None => php_memc_object_new o end
  | OpConstruct o id on_new conn =>
      let cb := match on_new with
                | Some (script, ok) =>
                    Some (λ _ _, foldr (λ op rest, run_op op;; rest) (mret ok) script)
                | None => None
                end in
      match l_objects L !! o with
      | Some _ => Memcached_construct o id cb conn | None => mret tt end
  | OpFree o =>
      match l_objects L !! o with Some _ => php_memc_object_free_storage o | None => mret tt end
  | OpMethod o body => memc_method o body;; mret tt
  | OpException raised => modify (set_exception raised)
  end.

Definition run_ops (ops : list lc_op) : M (lworld MC) unit :=
  foldr (λ op rest, run_op op;; rest) (mret tt) ops.

(** While the constructions [busy] are in progress, a script neither constructs nor
    destroys their objects, and constructs no object with one of their persistent
    ids; the callbacks in it do not either, nor for the construction they belong
    to.  Methods leave [is_persistent] as it is. *)
Fixpoint considerate (busy : list (nat * option string)) (op : lc_op) : Prop :=
  match op with
  | OpNew _ | OpException _ => True
  | OpConstruct o id on_new _ =>
      not_busy busy o id ∧
      match on_new with
      | Some (script, _) =>
          foldr (λ op P, considerate ((o, persistent_key id) :: busy) op ∧ P) True script
      | None => True
      end
  | OpFree o => ∀ x, x ∈ busy → x.1 ≠ o
  | OpMethod _ body => ∀ h, is_persistent (body h).2 = is_persistent h.2
  end.

(** Induction on scripts in scripts. *)
Lemma lc_op_nested_ind (P : lc_op → Prop) :
  (∀ o, P (OpNew o)) →
  (∀ o id on_new conn, (∀ script ok, on_new = Some (script, ok) → Forall P script) →
     P (OpConstruct o id on_new conn)) →
  (∀ o, P (OpFree o)) → (∀ o body, P (OpMethod o body)) → (∀ b, P (OpException b)) →
  ∀ op, P op.
Proof.
  intros Hn Hc Hf Hm Hx. fix IH 1. intros [o|o id on_new conn|o|o body|b]; [apply Hn| |apply Hf|apply Hm|apply Hx].
  apply Hc. destruct on_new as [[script ok]|]; [|done]. intros script' ok' [= <- <-].
  induction script as [|op script IHs]; [apply List.Forall_nil|].
  apply List.Forall_cons; [apply IH|exact IHs].
Qed.

Lemma wp_script {A} (a : A) busy script :
  Forall (λ op, considerate busy op → ∀ L, lc_inv L → wp (run_op op) (λ _, calm busy L) L) script →
  foldr (λ op P, considerate busy op ∧ P) True script →
  ∀ L, lc_inv L → wp (foldr (λ op rest, run_op op;; rest) (mret a) script) (λ _, calm busy L) L.
Proof.
  induction 1 as [|op script Hop _ IH]; intros Hs L Hinv.
  - by apply wp_ret, calm_shape.
  - destruct Hs as [Hc Hs]. apply wp_bind. eapply wp_mono; [by apply Hop|]. intros [] L1 HL1.
    eapply wp_mono; [apply IH; [done|by destruct HL1]|]. intros r L2 HL2. by eapply calm_trans.
Qed.

Lemma wp_run_op op busy L :
  considerate busy op → lc_inv L → wp (run_op op) (λ _, calm busy L) L.
Proof.
  revert busy L. induction op as [o|o id on_new conn IH|o|o body|b] using lc_op_nested_ind;
    intros busy L Hop Hinv; cbn [run_op]; apply wp_bind, wp_get; cbn in Hop.
  - destruct (l_objects L !! o) eqn:Ho; [by apply wp_ret, calm_shape|]. by apply wp_object_new.
  - destruct (l_objects L !! o) eqn:Ho; [|by apply wp_ret, calm_shape].
    destruct Hop as [Hfree Hscript]. eapply wp_construct; [|done..].
    intros cb L' Hcb Hinv'. destruct on_new as [[script ok]|]; [|done]. injection Hcb as <-.
    apply wp_script; [|done..]. specialize (IH script ok eq_refl).
    rewrite Forall_forall in IH |- *. intros op Hop Hcons L1 HL1. by apply IH.
  - destruct (l_objects L !! o) eqn:Ho; [|by apply wp_ret, calm_shape]. by eapply wp_free_storage.
  - apply wp_bind. eapply wp_mono; [by apply wp_method|]. intros r L' HL'.
    apply wp_ret. exact HL'.
  - by apply wp_modify, calm_shape.
Qed.
End Safety.

Arguments lc_op : clear implicits.

(** A process before any object was made. *)
Definition lc_start {MC} (g : memc_globals) : lworld MC := mkLifecycle ∅ 0 ∅ ∅ g [] false.

(** C9: no handle is used after it was freed or freed twice.  Whatever sequence of
    creations, constructor calls (also repeated ones, with or without persistent
    ids, connection strings and callbacks), method calls and destructions a
    script makes, it runs into no undefined behaviour.  The [on_new] callbacks may
    do all of that too, nested to any depth, with one exception: while an object is
    under construction they do not construct or destroy it, and construct no other
    object with its persistent id, or one of the same key.  At the end every object and every persistent
    entry points to a live handle, which objects share only when it is persistent. *)
Theorem lifecycle_safe {MC} `{ZendRuntime} `{MemcachedNumbers} `{MemcachedControl MC}
    `{!MemcachedServers MC} `{!MemcachedCreate MC} (g : memc_globals) (ops : list (lc_op MC)) :
  Forall (considerate []) ops →
  match run_ops ops (lc_start g) with
  | Ret _ L => lc_inv L
  | Bailout _ => True
  | Undef | NoFuel => False
  end.
Proof.
  intros Hops.
  assert (lc_inv (MC := MC) (lc_start g)) as Hinv by (split; cbn; try done; by intros p [? ?]).
  assert (wp (run_ops ops) (λ _, calm [] (lc_start g)) (lc_start g)) as Hw.
  { apply wp_script; [|by induction Hops|done].
    apply Forall_forall. intros op _ Hc L HL. by apply wp_run_op. }
  unfold wp in Hw. destruct (run_ops ops (lc_start g)); [by destruct Hw|done..].
Qed.

(** ** The toy library's constructors *)
#[export] Instance ToyCreate : MemcachedCreate toy := {|
  memcached c := Some toy_new;
  memcached_create := Some toy_new;
  memcached_servers_parse s := Some [(s, 11211, 0)]
|}.

(** The callback of the first constructor constructs an object of its own under
    another id, and destroys it. *)
Lemma lifecycle_safe_witness :
  let ops : list (lc_op toy) :=
    [OpNew 0;
     OpConstruct 0 (Some "pool"%string)
       (Some ([OpNew 1; OpConstruct 1 (Some "other"%string) None None; OpMethod 0 id; OpFree 1], true)) None;
     OpNew 1; OpConstruct 1 (Some "pool"%string) None None; OpFree 0;
     OpMethod 1 id; OpFree 1] in
  Forall (considerate []) ops
  ∧ match run_ops ops (lc_start toy_globals) with
    | Ret _ L => lc_inv L
    | Bailout _ => True
    | Undef | NoFuel => False
    end.
Proof.
  intros ops. assert (Forall (considerate []) ops) as Hops.
  { assert (∀ o i, not_busy [] o i) as Hfree by (by intros o i x ?%elem_of_nil).
    repeat (apply List.Forall_cons || apply List.Forall_nil); cbn; try done;
      try (by intros x ?%elem_of_nil); split; try apply Hfree; try done.
    split; [done|]. split; [split; [|done]|split; [done|split; [|done]]].
    - intros x [->|[]%elem_of_nil]%elem_of_cons. split; [done|]. right. vm_compute. discriminate.
    - intros x [->|[]%elem_of_nil]%elem_of_cons. done. }
  split; [exact Hops|]. exact (lifecycle_safe toy_globals ops Hops).
Defined.

(** ** Where a callback is not considerate *)

(** An [on_new] callback that constructs a second object with the persistent id
    under construction leaves that object with a freed handle: registering the
    outer handle destroys the entry the inner constructor made, and with it the
    inner object's handle.  The next method call on the inner object uses it, and
    so does its destruction. *)
Theorem nested_persistent_construction_dangles :
  let nested := [OpNew 1; OpConstruct 1 (Some "pool"%string) None None] in
  let ops : list (lc_op toy) := [OpNew 0; OpConstruct 0 (Some "pool"%string) (Some (nested, true)) None] in
  (∃ L, run_ops ops (lc_start toy_globals) = Ret tt L
        ∧ (slot ← l_objects L !! 1%nat; o_memc slot) = Some 1%nat ∧ l_heap L !! 1%nat = None)
  ∧ run_ops (ops ++ [OpMethod 1 (λ h, h)]) (lc_start toy_globals) = Undef
  ∧ run_ops (ops ++ [OpFree 1]) (lc_start toy_globals) = Undef.
Proof.
  split; [|split; vm_compute; reflexivity].
  eexists. split; [vm_compute; reflexivity|split; vm_compute; reflexivity].
Qed.
