(* ===== verification/SessionHandles.v ===== *)
(** * Session handles: opening, configuring, closing

    The rest of php_memcached_session.c.  A session handle ([memcached_st] with
    its [php_memcached_user_data]) is a heap cell; the module data of the session
    and the entries of the engine's persistent list point to cells.  The session
    functions of Session run on the cell of the module data. *)

From S2P Require Import Prelude CLib Zend LibMemcached World Session.
#[local] Open Scope Z_scope.

(** [le->type] of a persistent list entry: ours, or another one. *)
Inductive sess_entry_type : Type := le_memc_sess | le_sess_other.

#[global] Instance sess_entry_type_eq_dec : EqDecision sess_entry_type.
Proof. solve_decision. Defined.

(** [h_mod] is [PS_GET_MOD_DATA()], NULL when there is none. *)
Record hworld (MC : Type) : Type := mkHandles {
  h_heap : gmap nat (MC * php_memcached_user_data);
  h_next : nat;
  h_plist : gmap string (sess_entry_type * nat);
  h_mod : option nat;
  h_ini : session_ini;
  h_time : Z;
  h_max_execution_time : Z;
  h_warnings : list string;
  h_slept : list Z
}.
Arguments mkHandles {MC} _ _ _ _ _ _ _ _ _.
Arguments h_heap {MC} _.
Arguments h_next {MC} _.
Arguments h_plist {MC} _.
Arguments h_mod {MC} _.
Arguments h_ini {MC} _.
Arguments h_time {MC} _.
Arguments h_max_execution_time {MC} _.
Arguments h_warnings {MC} _.
Arguments h_slept {MC} _.

Section HandleWorld.
Context {MC : Type}.
#[local] Abbreviation M := (M (hworld MC)).
Implicit Types H : hworld MC.

Definition with_cells c H : hworld MC :=
  mkHandles c (h_next H) (h_plist H) (h_mod H) (h_ini H) (h_time H) (h_max_execution_time H)
    (h_warnings H) (h_slept H).
Definition with_list l H : hworld MC :=
  mkHandles (h_heap H) (h_next H) l (h_mod H) (h_ini H) (h_time H) (h_max_execution_time H)
    (h_warnings H) (h_slept H).
Definition with_mod m H : hworld MC :=
  mkHandles (h_heap H) (h_next H) (h_plist H) m (h_ini H) (h_time H) (h_max_execution_time H)
    (h_warnings H) (h_slept H).
Definition with_hwarning x H : hworld MC :=
  mkHandles (h_heap H) (h_next H) (h_plist H) (h_mod H) (h_ini H) (h_time H)
    (h_max_execution_time H) (h_warnings H ++ [x]) (h_slept H).

Definition hwarn (x : string) : M unit := modify (with_hwarning x).
Definition PS_SET_MOD_DATA (m : option nat) : M unit := modify (with_mod m).

(** A new cell. *)
Definition new_cell (c : MC * php_memcached_user_data) : M nat :=
  λ H, Ret (h_next H)
         (mkHandles (<[h_next H := c]> (h_heap H)) (S (h_next H)) (h_plist H) (h_mod H) (h_ini H)
            (h_time H) (h_max_execution_time H) (h_warnings H) (h_slept H)).

(** The session world of a cell, and what a run on it leaves of the heap. *)
Definition session_of (c : MC * php_memcached_user_data) H : sworld MC :=
  mkSession c.1 c.2 (h_ini H) (h_time H) (h_max_execution_time H) (h_warnings H) (h_slept H).
Definition put_session (p : nat) (s : sworld MC) H : hworld MC :=
  mkHandles (<[p := (s_memc s, s_data s)]> (h_heap H)) (h_next H) (h_plist H) (h_mod H) (h_ini H)
    (h_time H) (h_max_execution_time H) (s_warnings s) (s_slept s).

(** Runs a session function on a cell; a freed cell is [Undef]. *)
Definition on_cell {A} (p : nat) (op : Prelude.M (sworld MC) A) : M A :=
  λ H, match h_heap H !! p with
       | None => Undef
       | Some c =>
           match op (session_of c H) with
           | Ret a s => Ret a (put_session p s H)
           | Bailout s => Bailout (put_session p s H)
           | Undef => Undef
           | NoFuel => NoFuel
           end
       end.

(** [s_destroy_mod_data]: the credentials, the handle and the user data go. *)
Definition s_destroy_mod_data (p : nat) : M unit :=
  H ← get;
  match h_heap H !! p with
  | None => undef
  | Some _ => modify (λ H, with_cells (delete p (h_heap H)) H)
  end.

(** The destructor of our persistent list entries. *)
Definition php_memc_sess_dtor (e : sess_entry_type * nat) : M unit :=
  match e with (le_memc_sess, p) => s_destroy_mod_data p | (le_sess_other, _) => mret tt end.

(** [zend_hash_str_del] and [zend_hash_str_update_mem] on the persistent list. *)
Definition plist_del (key : string) : M unit :=
  H ← get;
  match h_plist H !! key with
  | Some old =>
      modify (λ H, with_list (delete key (h_plist H)) H);; php_memc_sess_dtor old
  | None => mret tt
  end.

Definition plist_put (key : string) (e : sess_entry_type * nat) : M unit :=
  H ← get;
  match h_plist H !! key with Some old => php_memc_sess_dtor old | None => mret tt end;;
  modify (λ H, with_list (<[key := e]> (h_plist H)) H).
End HandleWorld.

Section Configuration.
Context {MC : Type} `{BuildConfig} `{MemcachedNumbers} `{MemcachedControl MC} `{MemcachedAuth MC}.
#[local] Abbreviation M := (M (sworld MC)).

(** The macro [check_set_behavior]: it returns 0 from the function it is used in
    when the behavior cannot be set; [k] is the rest of that function. *)
Definition check_set_behavior (silent : bool) (behavior value : Z) (k : M bool) : M bool :=
  m ← gets s_memc;
  if u64 value =? memcached_behavior_get m behavior then k
  else
    rc ← smemc_call (λ m, memcached_behavior_set m behavior (u64 value));
    if bool_decide (rc = MEMCACHED_SUCCESS) then k
    else
      when (negb silent) (swarn "failed to initialise session memcached configuration: %s");;
      mret false.

(** The credentials, the last part. *)
Definition configure_sasl (silent : bool) : M bool :=
  ini ← gets s_ini;
  match MEMC_SESS_STR_INI (sasl_username ini), MEMC_SESS_STR_INI (sasl_password ini) with
  | Some user, Some password =>
      ok ← php_memc_init_sasl_if_needed MC swarn;
      if negb ok then mret false
      else
        check_set_behavior silent (behavior_num BEHAVIOR_BINARY_PROTOCOL) 1 (
          rc ← smemc_call (λ m, memcached_set_sasl_auth_data m user password);
          if bool_decide (rc = MEMCACHED_FAILURE) then
            swarn "failed to set memcached session sasl credentials";; mret false
          else
            modify (λ s, with_sdata (mkSessionData (sess_is_persistent (s_data s)) true
                                       (is_locked (s_data s)) (lock_key (s_data s))) s);;
            mret true)
  | _, _ => mret true
  end.

(** A setting that is only looked at when [c] holds. *)
Definition check_setting (silent c : bool) (behavior value : Z) (k : M bool) : M bool :=
  if c then check_set_behavior silent behavior value k else k.

Definition configure_prefix : M unit :=
  ini ← gets s_ini;
  match MEMC_SESS_STR_INI (prefix ini) with
  | Some p => _ ← smemc_call (λ m, memcached_prefix_set m (Some p)); mret tt
  | None => mret tt
  end.

Definition s_configure_from_ini_values (silent : bool) : M bool :=
  ini ← gets s_ini;
  check_setting silent (binary_protocol_enabled ini) (behavior_num BEHAVIOR_BINARY_PROTOCOL) 1 (
  check_setting silent (binary_protocol_enabled ini) (behavior_num BEHAVIOR_TCP_NODELAY) 1 (
  check_setting silent (consistent_hash_enabled ini) (consistent_hash_type ini) 1 (
  check_setting silent (negb (server_failure_limit ini =? 0))
    (behavior_num BEHAVIOR_SERVER_FAILURE_LIMIT) (server_failure_limit ini) (
  check_setting silent (negb (number_of_replicas ini =? 0))
    (behavior_num BEHAVIOR_NUMBER_OF_REPLICAS) (number_of_replicas ini) (
  check_setting silent (randomize_replica_read_enabled ini)
    (behavior_num BEHAVIOR_RANDOMIZE_REPLICA_READ) 1 (
  check_setting silent (remove_failed_servers_enabled ini)
    (behavior_num BEHAVIOR_REMOVE_FAILED_SERVERS) 1 (
  check_setting silent (negb (connect_timeout ini =? 0))
    (behavior_num BEHAVIOR_CONNECT_TIMEOUT) (connect_timeout ini) (
  configure_prefix;;
  configure_sasl silent)))))))).
End Configuration.

Section Handles.
Context {MC : Type} `{BuildConfig} `{MemcachedNumbers} `{MemcachedControl MC}
  `{MemcachedStorage MC} `{MemcachedGet MC} `{MemcachedAuth MC}
  `{!MemcachedServers MC} `{!MemcachedCreate MC}.
#[local] Abbreviation M := (M (hworld MC)).
Implicit Types H : hworld MC.

Definition s_init_mod_data (servers : memcached_server_st) (persistent : bool) : M nat :=
  m ← match memcached_create with
      | Some m => mret m
      | None => hwarn "failed to allocate memcached structure";; fatal
      end;
  p ← new_cell (m, mkSessionData persistent false false None);
  on_cell p (
    smemc_call (λ m, memcached_server_push m (Some servers));;
    smemc_call (λ m, memcached_behavior_set m (behavior_num BEHAVIOR_VERIFY_KEY) 1));;
  mret p.

(** The session's key in the persistent list. *)
Definition sess_plist_key (save_path : string) : string :=
  ("memc-session:" ++ c_str save_path)%string.

(** The persistent handle of a key: [None] when there is none of ours; one that
    cannot be configured anew is removed from the list, which destroys it. *)
Definition reuse_handle (key : string) : M (option nat) :=
  H ← get;
  match h_plist H !! key with
  | Some (le_memc_sess, p) =>
      ok ← on_cell p (s_configure_from_ini_values true);
      if ok : bool then mret (Some p) else plist_del key;; mret None
  | _ => mret None
  end.

(** A new handle, configured and, with a key, registered. *)
Definition open_handle (servers : memcached_server_st) (key : option string) : M ps_result :=
  persistent ← gets (λ H, persistent_enabled (h_ini H));
  p ← s_init_mod_data servers persistent;
  ok ← on_cell p (s_configure_from_ini_values false);
  if negb ok then
    s_destroy_mod_data p;; PS_SET_MOD_DATA None;; mret FAILURE
  else
    match key with Some k => plist_put k (le_memc_sess, p) | None => mret tt end;;
    PS_SET_MOD_DATA (Some p);; mret SUCCESS.

Definition ps_open (save_path : string) : M ps_result :=
  match String.index 0 "PERSISTENT=" (c_str save_path) with
  | Some _ =>
      hwarn "failed to parse session.save_path: PERSISTENT is replaced by memcached.sess_persistent = On";;
      PS_SET_MOD_DATA None;; mret FAILURE
  | None =>
      match memcached_servers_parse (c_str save_path) with
      | None =>
          hwarn "failed to parse session.save_path";; PS_SET_MOD_DATA None;; mret FAILURE
      | Some servers =>
          persistent ← gets (λ H, persistent_enabled (h_ini H));
          let key := if persistent : bool then Some (sess_plist_key save_path) else None in
          found ← match key with Some k => reuse_handle k | None => mret None end;
          match found with
          | Some p => PS_SET_MOD_DATA (Some p);; mret SUCCESS
          | None => open_handle servers key
          end
      end
  end.

(** The guard most session functions start with. *)
Definition with_mod_data {A} (refused : A) (op : Prelude.M (sworld MC) A) : M A :=
  memc ← gets h_mod;
  match memc with
  | None =>
      hwarn "Session is not allocated, check session.save_path value";; mret refused
  | Some p => on_cell p op
  end.

Definition ps_close : M ps_result :=
  memc ← gets h_mod;
  match memc with
  | None =>
      hwarn "Session is not allocated, check session.save_path value";; mret FAILURE
  | Some p =>
      user_data ← on_cell p (
        d ← gets s_data;
        (if is_locked d then s_unlock_session else mret tt);;
        gets s_data);
      (if sess_is_persistent user_data then mret tt else s_destroy_mod_data p);;
      PS_SET_MOD_DATA None;; mret SUCCESS
  end.

(** The session functions on the module data.  [PS_VALIDATE_SID_FUNC] and
    [PS_UPDATE_TIMESTAMP_FUNC] have no guard: they hand libmemcached a NULL. *)
Definition PS_READ (key : string) : M (ps_result * string) :=
  with_mod_data (FAILURE, ""%string) (ps_read key).
Definition PS_WRITE (key val : string) (maxlifetime : Z) : M ps_result :=
  with_mod_data FAILURE (ps_write key val maxlifetime).
Definition PS_DESTROY (key : string) : M ps_result := with_mod_data FAILURE (ps_destroy key).
Definition PS_CREATE_SID (create_id : Prelude.M (sworld MC) string) (fresh_id : string)
    : M (option string) :=
  memc ← gets h_mod;
  match memc with
  | None => mret (Some fresh_id)
  | Some p => on_cell p (ps_create_sid create_id)
  end.
Definition unguarded {A} (op : Prelude.M (sworld MC) A) : M A :=
  memc ← gets h_mod;
  match memc with None => undef | Some p => on_cell p op end.
Definition PS_VALIDATE_SID (key : string) : M ps_result := unguarded (ps_validate_sid key).
Definition PS_UPDATE_TIMESTAMP (key : string) (maxlifetime : Z) : M ps_result :=
  unguarded (ps_update_timestamp key maxlifetime).
End Handles.
