(* ===== verification/SessionHandlesProofs.v ===== *)
(** * Session handles: lifetimes

    No session function uses a handle after it was freed, none is leaked, and a
    handle that no session uses holds no lock. *)

From S2P Require Import Prelude CLib Zend LibMemcached World Toy Session SessionHandles ServersProofs SessionProofs LifecycleProofs.
#[local] Open Scope Z_scope.

(** ** Session functions and the user data of their handle

    [wkeeps P op]: from user data in [P], [op] does nothing undefined, does not
    run out of fuel, and leaves user data in [P] if it returns. *)
Definition wkeeps {MC A} (P : php_memcached_user_data → Prop) (op : M (sworld MC) A) : Prop :=
  ∀ s, P (s_data s) → wp op (λ _ s', P (s_data s')) s.

(** A handle that counts as locked knows the key of its lock. *)
Definition lock_known (d : php_memcached_user_data) : Prop :=
  is_locked d = true → is_Some (lock_key d).

Section Wkeeps.
Context {MC : Type} (P : php_memcached_user_data → Prop).
Implicit Types s : sworld MC.

Lemma wkeeps_ret {A} (a : A) : wkeeps (MC := MC) P (mret a).
Proof. intros s Hs. exact Hs. Qed.

Lemma wkeeps_bind {A B} (m : M (sworld MC) A) (k : A → M (sworld MC) B) :
  wkeeps P m → (∀ a, wkeeps P (k a)) → wkeeps P (m ≫= k).
Proof. intros Hm Hk s Hs. apply wp_bind. eapply wp_mono; [by apply Hm|]. intros a s'. apply Hk. Qed.

Lemma wkeeps_gets {A} (f : sworld MC → A) : wkeeps P (gets f).
Proof. intros s Hs. exact Hs. Qed.

Lemma wkeeps_get : wkeeps (MC := MC) P get.
Proof. intros s Hs. exact Hs. Qed.

Lemma wkeeps_fatal {A} : wkeeps (MC := MC) (A := A) P fatal.
Proof. intros s Hs. exact I. Qed.

Lemma wkeeps_modify f : (∀ s, P (s_data s) → P (s_data (f s))) → wkeeps (MC := MC) P (modify f).
Proof. intros Hf s Hs. by apply Hf. Qed.

Lemma wkeeps_when b m : wkeeps (MC := MC) P m → wkeeps P (when b m).
Proof. intros Hm. destruct b; [done|apply wkeeps_ret]. Qed.

Lemma wkeeps_call {A} (f : MC → A * MC) : wkeeps P (smemc_call f).
Proof. intros s Hs. unfold wp, smemc_call. by destruct (f (s_memc s)). Qed.

Lemma wkeeps_swarn x : wkeeps (MC := MC) P (swarn x).
Proof. by apply wkeeps_modify. Qed.

Lemma wkeeps_usleep us : wkeeps (MC := MC) P (usleep us).
Proof. by apply wkeeps_modify. Qed.
End Wkeeps.
#[export] Hint Resolve wkeeps_ret wkeeps_gets wkeeps_get wkeeps_fatal wkeeps_call wkeeps_swarn
  wkeeps_usleep : memc.

(** Proves [wkeeps] of a composition. *)
Ltac wkeep :=
  repeat (first
    [ solve [auto with memc]
    | lazymatch goal with |- wkeeps _ (_ ≫= _) => apply wkeeps_bind; [|intros ?] end
    | lazymatch goal with |- wkeeps _ (when _ _) => apply wkeeps_when end
    | case_match ]).

Section Operations.
Context {MC : Type} `{BuildConfig} `{MemcachedNumbers} `{MemcachedControl MC}
  `{MemcachedStorage MC} `{MemcachedGet MC} `{MemcachedAuth MC}.

(** The invariant of a handle in use: its persistence does not change. *)
Definition handle_ok (persistent : bool) (d : php_memcached_user_data) : Prop :=
  lock_known d ∧ sess_is_persistent d = persistent.

Lemma wkeeps_lock_loop b fuel key e wait retries :
  (Z.to_nat retries < fuel)%nat →
  wkeeps (MC := MC) (handle_ok b) (lock_loop fuel key e wait retries).
Proof.
  revert wait retries. induction fuel as [|f IH]; intros wait retries Hf; [lia|]. cbn [lock_loop].
  apply wkeeps_bind; [|intros wait'].
  - unfold lock_attempt. wkeep. apply wkeeps_modify. intros s [Hk Hb]. split; [|exact Hb].
    intros _. by eexists.
  - apply wkeeps_bind; [auto with memc|]. intros locked. destruct (negb locked && (retries >? 0)) eqn:E.
    + apply andb_true_iff in E as [_ E]. apply IH. lia.
    + auto with memc.
Qed.

Lemma wkeeps_lock_session b sid : wkeeps (MC := MC) (handle_ok b) (s_lock_session sid).
Proof.
  unfold s_lock_session, s_lock_expiration. wkeep. apply wkeeps_lock_loop. lia.
Qed.

Lemma wp_unlock_session b (s : sworld MC) :
  handle_ok b (s_data s) →
  wp s_unlock_session (λ _ s', handle_ok b (s_data s') ∧ is_locked (s_data s') = false) s.
Proof.
  intros [Hk Hb]. unfold s_unlock_session. apply wp_bind, wp_gets.
  destruct (is_locked (s_data s)) eqn:Hl; [|by apply wp_ret].
  destruct (Hk Hl) as [key Hkey]. rewrite Hkey. apply wp_bind. unfold wp at 1, smemc_call.
  destruct (memcached_delete _ _ _). by apply wp_modify.
Qed.

Lemma wkeeps_unlock_session b : wkeeps (MC := MC) (handle_ok b) s_unlock_session.
Proof. intros s Hs. eapply wp_mono; [by apply wp_unlock_session|]. by intros _ s' [? _]. Qed.

Lemma wkeeps_write_loop b fuel key val e retries :
  (Z.to_nat (retries - 1) < fuel)%nat →
  wkeeps (MC := MC) (handle_ok b) (write_loop fuel key val e retries).
Proof.
  revert retries. induction fuel as [|f IH]; intros retries Hf; [lia|]. cbn [write_loop].
  apply wkeeps_bind; [auto with memc|]. intros rc. case_bool_decide; [auto with memc|].
  apply wkeeps_bind; [auto with memc|]. intros _.
  destruct (retries - 1 >? 0) eqn:E; [apply IH; lia|auto with memc].
Qed.

Lemma wkeeps_create_sid b n create_id :
  wkeeps (handle_ok b) create_id → wkeeps (MC := MC) (handle_ok b) (create_sid_loop n create_id).
Proof.
  intros Hc. induction n as [|n IH]; cbn [create_sid_loop]; [auto with memc|].
  unfold s_lock_expiration. apply wkeeps_bind; [done|]. intros sid. wkeep.
Qed.
End Operations.
#[export] Hint Resolve wkeeps_lock_session wkeeps_unlock_session wkeeps_create_sid : memc.

Section Functions.
Context {MC : Type} `{BuildConfig} `{MemcachedNumbers} `{MemcachedControl MC}
  `{MemcachedStorage MC} `{MemcachedGet MC} `{MemcachedAuth MC} (b : bool).

Lemma wkeeps_ps_read key : wkeeps (MC := MC) (handle_ok b) (ps_read key).
Proof. unfold ps_read, read_item. wkeep. Qed.

Lemma wkeeps_ps_write key val life : wkeeps (MC := MC) (handle_ok b) (ps_write key val life).
Proof. unfold ps_write, s_session_expiration. wkeep. apply wkeeps_write_loop. lia. Qed.

Lemma wkeeps_ps_destroy key : wkeeps (MC := MC) (handle_ok b) (ps_destroy key).
Proof. unfold ps_destroy. wkeep. Qed.

Lemma wkeeps_ps_validate key : wkeeps (MC := MC) (handle_ok b) (ps_validate_sid key).
Proof. unfold ps_validate_sid. wkeep. Qed.

Lemma wkeeps_ps_touch key life : wkeeps (MC := MC) (handle_ok b) (ps_update_timestamp key life).
Proof. unfold ps_update_timestamp, s_session_expiration. wkeep. Qed.

(** The configuration changes the credentials flag and nothing else. *)
Lemma wkeeps_check_set (P : php_memcached_user_data → Prop) silent n v (k : M (sworld MC) bool) :
  wkeeps P k → wkeeps P (check_set_behavior silent n v k).
Proof. intros Hk. unfold check_set_behavior. wkeep. Qed.

Lemma wkeeps_check_setting (P : php_memcached_user_data → Prop) silent c n v
    (k : M (sworld MC) bool) :
  wkeeps P k → wkeeps P (check_setting silent c n v k).
Proof. unfold check_setting. destruct c; [apply wkeeps_check_set|done]. Qed.

Lemma wkeeps_configure l silent :
  wkeeps (MC := MC) (λ d, handle_ok b d ∧ is_locked d = l) (s_configure_from_ini_values silent).
Proof.
  unfold s_configure_from_ini_values. apply wkeeps_bind; [auto with memc|]. intros ini.
  repeat apply wkeeps_check_setting.
  unfold configure_prefix, configure_sasl, php_memc_init_sasl_if_needed. wkeep.
  all: apply wkeeps_check_set; wkeep; by apply wkeeps_modify.
Qed.
End Functions.
#[export] Hint Resolve wkeeps_ps_read wkeeps_ps_write wkeeps_ps_destroy wkeeps_ps_validate
  wkeeps_ps_touch : memc.

(** ** The heap of handles *)
Section Heap.
Context {MC : Type}.
Implicit Types H : hworld MC.

(** A persistent list entry of ours points to the cell. *)
Definition listed H (p : nat) : Prop := ∃ k, h_plist H !! k = Some (le_memc_sess, p).

(** [cur] is the handle in hand: the open session's, or the one that is being
    opened.  Entries point to persistent handles, no two to the same one; every
    handle is in hand or listed, and only the one in hand may be locked. *)
Record handles_inv (cur : option nat) H : Prop := {
  hi_cur p : cur = Some p → is_Some (h_heap H !! p);
  hi_list k p : h_plist H !! k = Some (le_memc_sess, p) →
    ∃ c, h_heap H !! p = Some c ∧ sess_is_persistent c.2 = true;
  hi_inj k1 k2 p : h_plist H !! k1 = Some (le_memc_sess, p) →
    h_plist H !! k2 = Some (le_memc_sess, p) → k1 = k2;
  hi_cells p c : h_heap H !! p = Some c →
    (p < h_next H)%nat ∧ lock_known c.2
    ∧ (cur = Some p ∨ is_locked c.2 = false ∧ listed H p)
}.

(** Between two session functions: the handle in hand is the module data, and it
    is listed if it is persistent. *)
Definition session_inv H : Prop :=
  handles_inv (h_mod H) H
  ∧ ∀ p c, h_mod H = Some p → h_heap H !! p = Some c → sess_is_persistent c.2 = true → listed H p.

(** Fields the invariant does not look at. *)
Lemma handles_inv_same cur H H' :
  h_heap H' = h_heap H → h_plist H' = h_plist H → h_next H' = h_next H →
  handles_inv cur H → handles_inv cur H'.
Proof.
  intros Hh Hp Hn [I1 I2 I3 I4]. split; unfold listed; rewrite ?Hh, ?Hp, ?Hn; try done.
Qed.

Lemma put_session_inv cur p c s H :
  handles_inv cur H → h_heap H !! p = Some c → lock_known (s_data s) →
  sess_is_persistent (s_data s) = sess_is_persistent c.2 →
  cur = Some p ∨ is_locked (s_data s) = is_locked c.2 →
  handles_inv cur (put_session p s H).
Proof.
  intros [I1 I2 I3 I4] Hp Hk Hb Hl. split; cbn.
  - intros q Hq. destruct (decide (p = q)) as [->|Hne]; [rewrite lookup_insert_eq; eauto|].
    rewrite lookup_insert_ne by done. by apply I1.
  - intros k q Hq. destruct (I2 k q Hq) as (c' & Hc' & Hb').
    destruct (decide (p = q)) as [->|Hne]; [|rewrite lookup_insert_ne by done; eauto].
    rewrite lookup_insert_eq. eexists. split; [done|]. cbn. congruence.
  - done.
  - intros q c' [[<- <-]|[Hne Hq]]%lookup_insert_Some; cbn; [|by apply I4].
    destruct (I4 p c Hp) as (Hlt & _ & Hcur). split; [done|]. split; [done|].
    destruct Hl as [Hl|Hl]; [by left|]. rewrite Hl. exact Hcur.
Qed.

Lemma wp_cell {A} p c (op : Prelude.M (sworld MC) A) (R : A → sworld MC → Prop)
    (Q : A → hworld MC → Prop) H :
  h_heap H !! p = Some c → wp op R (session_of c H) →
  (∀ a s, R a s → Q a (put_session p s H)) → wp (on_cell p op) Q H.
Proof.
  intros Hp Hop HQ. unfold wp, on_cell in *. rewrite Hp.
  destruct (op (session_of c H)); try done. by apply HQ.
Qed.

Lemma wp_on_cell {A} P p c (op : Prelude.M (sworld MC) A) (Q : A → hworld MC → Prop) H :
  h_heap H !! p = Some c → P c.2 → wkeeps P op →
  (∀ a s, P (s_data s) → Q a (put_session p s H)) → wp (on_cell p op) Q H.
Proof. intros Hp HP Hop HQ. eapply wp_cell; [exact Hp|by apply Hop|exact HQ]. Qed.

(** A handle that is in hand but not listed can go. *)
Lemma wp_destroy_cell p c (Q : unit → hworld MC → Prop) H :
  handles_inv (Some p) H → h_heap H !! p = Some c → ¬ listed H p →
  (handles_inv None (with_cells (delete p (h_heap H)) H) →
   Q tt (with_cells (delete p (h_heap H)) H)) →
  wp (s_destroy_mod_data p) Q H.
Proof.
  intros [I1 I2 I3 I4] Hp Hun HQ. unfold s_destroy_mod_data. apply wp_bind, wp_get. rewrite Hp.
  apply wp_modify, HQ. split; cbn; [done| |done|].
  - intros k q Hq. destruct (I2 k q Hq) as (c' & Hc' & Hb). exists c'.
    rewrite lookup_delete_ne; [done|]. intros <-. apply Hun. by exists k.
  - intros q c' [Hne Hq]%lookup_delete_Some. destruct (I4 q c' Hq) as (? & ? & Hcur).
    split; [done|]. split; [done|]. right. destruct Hcur as [[= <-]|Hcur]; done.
Qed.

(** Removing an entry of ours destroys its handle. *)
Lemma wp_plist_del k p (Q : unit → hworld MC → Prop) H :
  handles_inv None H → h_plist H !! k = Some (le_memc_sess, p) →
  (∀ H', handles_inv None H' → h_plist H' = delete k (h_plist H) → h_mod H' = h_mod H → Q tt H') →
  wp (plist_del k) Q H.
Proof.
  intros [I1 I2 I3 I4] Hk HQ. destruct (I2 k p Hk) as (c & Hc & _).
  unfold plist_del. apply wp_bind, wp_get. rewrite Hk. apply wp_bind, wp_modify.
  unfold php_memc_sess_dtor, s_destroy_mod_data. apply wp_bind, wp_get. cbn. rewrite Hc.
  apply wp_modify, HQ; [|done|done]. split; cbn; [done| | |].
  - intros k' q [Hne Hq]%lookup_delete_Some. destruct (I2 k' q Hq) as (c' & Hc' & Hb).
    exists c'. rewrite lookup_delete_ne; [done|]. intros <-. by apply Hne, (I3 k k' p).
  - intros k1 k2 q [_ H1']%lookup_delete_Some [_ H2']%lookup_delete_Some. by apply (I3 k1 k2 q).
  - intros q c' [Hne Hq]%lookup_delete_Some. destruct (I4 q c' Hq) as (? & ? & [?|[Hl [k' Hk']]]); [done|].
    split; [done|]. split; [done|]. right. split; [done|]. exists k'. cbn.
    rewrite lookup_delete_ne; [done|]. intros <-. congruence.
Qed.

(** Registering the handle in hand under a key without an entry of ours. *)
Lemma wp_plist_put k p c (Q : unit → hworld MC → Prop) H :
  handles_inv (Some p) H → h_heap H !! p = Some c → sess_is_persistent c.2 = true →
  ¬ listed H p → (∀ q, h_plist H !! k ≠ Some (le_memc_sess, q)) →
  (∀ H', handles_inv (Some p) H' → h_heap H' = h_heap H → listed H' p → Q tt H') →
  wp (plist_put k (le_memc_sess, p)) Q H.
Proof.
  intros [I1 I2 I3 I4] Hp Hb Hun Hk HQ. unfold plist_put. apply wp_bind, wp_get, wp_bind.
  set (put := modify _).
  assert (wp put Q H) as Hput.
  { apply wp_modify, HQ; [|done|exists k; cbn; apply lookup_insert_eq]. split; cbn; [done| | |].
    - intros k' q [[_ [= <-]]|[_ Hq]]%lookup_insert_Some; eauto.
    - intros k1 k2 q Hq1%lookup_insert_Some Hq2%lookup_insert_Some. destruct_or!; destruct_and!;
        simplify_eq; eauto; exfalso; apply Hun; by eexists.
    - intros q c' Hq. destruct (I4 q c' Hq) as (? & ? & Hcur). split; [done|]. split; [done|].
      destruct Hcur as [?|[Hl [k' Hk']]]; [by left|]. right. split; [done|]. exists k'. cbn.
      rewrite lookup_insert_ne; [done|]. intros <-. by apply (Hk q). }
  destruct (h_plist H !! k) as [[[] q]|] eqn:E; [by destruct (Hk q)|exact Hput..].
Qed.

(** A new cell is in hand and not listed. *)
Lemma new_cell_inv m b H :
  handles_inv None H →
  let H1 := mkHandles (<[h_next H := (m, mkSessionData b false false None)]> (h_heap H))
              (S (h_next H)) (h_plist H) (h_mod H) (h_ini H) (h_time H) (h_max_execution_time H)
              (h_warnings H) (h_slept H) in
  handles_inv (Some (h_next H)) H1 ∧ ¬ listed H1 (h_next H).
Proof.
  intros [I1 I2 I3 I4] H1. set (p := h_next H) in *.
  assert (∀ k, h_plist H !! k ≠ Some (le_memc_sess, p)) as Hun.
  { intros k Hk. destruct (I2 k p Hk) as (c & Hc & _). destruct (I4 p c Hc) as [Hlt _]. lia. }
  split; [|intros [k Hk]; by apply (Hun k)]. split; cbn.
  - intros q [= <-]. rewrite lookup_insert_eq. eauto.
  - intros k q Hq. destruct (I2 k q Hq) as (c & Hc & Hb). exists c.
    rewrite lookup_insert_ne; [done|]. intros E. apply (Hun k). by rewrite E.
  - exact I3.
  - intros q c [[<- <-]|[Hne Hq]]%lookup_insert_Some; cbn.
    { split; [lia|]. split; [done|by left]. }
    destruct (I4 q c Hq) as (? & ? & [?|Hcur]); [done|].
    split; [unfold p; lia|]. split; [done|]. by right.
Qed.
End Heap.

Section Safety.
Context {MC : Type} `{Cfg : BuildConfig} `{Num : MemcachedNumbers} `{Ctl : MemcachedControl MC}
  `{Sto : MemcachedStorage MC} `{Get : MemcachedGet MC} `{Auth : MemcachedAuth MC}
  `{!MemcachedServers MC} `{!MemcachedCreate MC}.
Implicit Types H : hworld MC.

(** What configuring a handle leaves alone. *)
Definition same_frame H H' : Prop :=
  h_plist H' = h_plist H ∧ h_mod H' = h_mod H ∧ h_ini H' = h_ini H.

Lemma wp_configure cur p c silent (Q : bool → hworld MC → Prop) H :
  handles_inv cur H → h_heap H !! p = Some c →
  (∀ ok c' H', handles_inv cur H' → h_heap H' !! p = Some c' →
     sess_is_persistent c'.2 = sess_is_persistent c.2 → same_frame H H' → Q ok H') →
  wp (on_cell p (s_configure_from_ini_values silent)) Q H.
Proof.
  intros Hinv Hp HQ. destruct (hi_cells _ _ Hinv p c Hp) as (_ & Hk & _).
  eapply wp_on_cell; [exact Hp| |apply wkeeps_configure|]; [by split|].
  intros ok s [[Hk' Hb] Hl]. eapply HQ; [by eapply put_session_inv; eauto
    |apply lookup_insert_eq|exact Hb|by repeat split].
Qed.

Lemma handles_inv_take p H : handles_inv None H → listed H p → handles_inv (Some p) H.
Proof.
  intros [I1 I2 I3 I4] [k Hk]. split; [|done..|].
  - intros q [= <-]. destruct (I2 k p Hk) as (c & -> & _). eauto.
  - intros q c Hq. destruct (I4 q c Hq) as (? & ? & [?|?]); [done|]. eauto.
Qed.

Lemma set_mod_data_inv cur H :
  handles_inv cur H → (∀ p, cur = Some p → listed H p ∨
    ∀ c, h_heap H !! p = Some c → sess_is_persistent c.2 = false) →
  session_inv (with_mod cur H).
Proof.
  intros Hinv Hcur. split; [by apply (handles_inv_same _ H)|]. cbn. intros p c -> Hp Hb.
  destruct (Hcur p eq_refl) as [?|Hn]; [done|]. specialize (Hn c Hp). congruence.
Qed.

Lemma wp_reuse key (Q : option nat → hworld MC → Prop) H :
  handles_inv None H →
  (∀ p H', handles_inv None H' → listed H' p → Q (Some p) H') →
  (∀ H', handles_inv None H' → (∀ q, h_plist H' !! key ≠ Some (le_memc_sess, q)) →
     h_ini H' = h_ini H → Q None H') →
  wp (reuse_handle key) Q H.
Proof.
  intros Hinv Hsome Hnone. unfold reuse_handle. apply wp_bind, wp_get.
  destruct (h_plist H !! key) as [[[] p]|] eqn:Hk.
  - destruct (hi_list _ _ Hinv key p Hk) as (c & Hc & _).
    apply wp_bind. eapply wp_configure; [done|exact Hc|].
    intros ok c' H1 Hinv1 _ _ (Hp1 & _ & Hi1). destruct ok.
    + apply wp_ret, Hsome; [done|]. exists key. by rewrite Hp1.
    + apply wp_bind. unfold plist_del. apply wp_bind, wp_get. rewrite Hp1, Hk.
      assert (wp (plist_del key) (λ _ H', handles_inv None H'
        ∧ (∀ q, h_plist H' !! key ≠ Some (le_memc_sess, q))) H1) as Hdel.
      { eapply wp_plist_del; [done|by rewrite Hp1|]. intros H' Hinv' Hp' _. split; [done|].
        intros q. by rewrite Hp', lookup_delete_eq. }
      unfold plist_del, wp in Hdel. rewrite get_bind, Hp1, Hk in Hdel.
      unfold wp. revert Hdel. unfold php_memc_sess_dtor, s_destroy_mod_data. mrun. cbn.
      destruct (h_heap H1 !! p); [|done]. cbn. intros [Hinv2 Hun]. by apply Hnone.
  - apply wp_ret, Hnone; [done|congruence|done].
  - apply wp_ret, Hnone; [done|congruence|done].
Qed.

Lemma wp_init_mod_data servers b (Q : nat → hworld MC → Prop) H :
  handles_inv None H →
  (∀ p c H', handles_inv (Some p) H' → h_heap H' !! p = Some c → sess_is_persistent c.2 = b →
     ¬ listed H' p → same_frame H H' → Q p H') →
  wp (s_init_mod_data servers b) Q H.
Proof.
  intros Hinv HQ. unfold s_init_mod_data. apply wp_bind.
  destruct memcached_create as [m|]; [|by apply wp_bind, wp_modify; apply wp_fatal].
  apply wp_ret. apply wp_bind. unfold wp at 1, new_cell.
  destruct (new_cell_inv m b H Hinv) as [Hinv1 Hun]. set (H1 := mkHandles _ _ _ _ _ _ _ _ _) in *.
  apply wp_bind. eapply (wp_on_cell (λ d, d = mkSessionData b false false None)).
  - cbn. apply lookup_insert_eq.
  - done.
  - wkeep.
  - intros _ s Hs. apply wp_ret. eapply HQ; [|apply lookup_insert_eq|by cbn; rewrite Hs|exact Hun|by repeat split].
    eapply put_session_inv; [done|cbn; apply lookup_insert_eq|by rewrite Hs|by rewrite Hs|by left].
Qed.

Lemma wp_open_handle servers key (Q : ps_result → hworld MC → Prop) H :
  handles_inv None H → (∀ k, key = Some k → ∀ q, h_plist H !! k ≠ Some (le_memc_sess, q)) →
  bool_decide (is_Some key) = persistent_enabled (h_ini H) →
  (∀ r H', session_inv H' → Q r H') →
  wp (open_handle servers key) Q H.
Proof.
  intros Hinv Hkey Hper HQ. unfold open_handle. apply wp_bind, wp_gets, wp_bind.
  apply wp_init_mod_data; [done|]. intros p c H1 Hinv1 Hc Hb Hun (Hp1 & Hm1 & Hi1).
  apply wp_bind. eapply wp_configure; [done|exact Hc|].
  intros ok c2 H2 Hinv2 Hc2 Hb2 (Hp2 & Hm2 & Hi2).
  assert (¬ listed H2 p) as Hun2 by (unfold listed; by rewrite Hp2).
  destruct ok; cbn [negb].
  - apply wp_bind. destruct key as [k|].
    + eapply wp_plist_put; [done|exact Hc2| |done| |].
      * rewrite Hb2, Hb, <- Hper. by apply bool_decide_true.
      * intros q. rewrite Hp2, Hp1. by apply Hkey.
      * intros H3 Hinv3 _ Hl3. apply wp_bind, wp_modify, wp_ret, HQ, set_mod_data_inv; [done|].
        intros q [= <-]. by left.
    + apply wp_ret. apply wp_bind, wp_modify, wp_ret, HQ, set_mod_data_inv; [done|].
      intros q [= <-]. right. intros c' Hc'. assert (c' = c2) as -> by congruence.
      by rewrite Hb2, Hb, <- Hper.
  - apply wp_bind. eapply wp_destroy_cell; [done|exact Hc2|done|]. intros Hinv3.
    apply wp_bind, wp_modify, wp_ret, HQ, set_mod_data_inv; done.
Qed.

Lemma wp_ps_open path (Q : ps_result → hworld MC → Prop) H :
  session_inv H → h_mod H = None → (∀ r H', session_inv H' → Q r H') → wp (ps_open path) Q H.
Proof.
  intros [Hinv _] Hm HQ. rewrite Hm in Hinv. unfold ps_open.
  assert (∀ x, wp (hwarn x;; PS_SET_MOD_DATA None;; mret FAILURE) Q H) as Hfail.
  { intros x. apply wp_bind, wp_modify, wp_bind, wp_modify, wp_ret, HQ, set_mod_data_inv; [|done].
    by apply (handles_inv_same _ H). }
  destruct (String.index 0 "PERSISTENT=" (c_str path)); [apply Hfail|].
  destruct (memcached_servers_parse (c_str path)) as [servers|]; [|apply Hfail].
  apply wp_bind, wp_gets. destruct (persistent_enabled (h_ini H)) eqn:Hp; cbv zeta.
  - apply wp_bind, wp_reuse; [done| |].
    + intros p H' Hinv' Hl. apply wp_bind, wp_modify, wp_ret, HQ, set_mod_data_inv.
      * by apply handles_inv_take.
      * intros q [= <-]. by left.
    + intros H' Hinv' Hun Hi. apply wp_open_handle; [done| |by rewrite Hi, Hp|done].
      by intros k [= <-].
  - apply wp_bind, wp_ret. apply wp_open_handle; [done|done|by rewrite Hp|done].
Qed.
End Safety.

(** ** Sessions of a script *)
Section Run.
Context {MC : Type} `{Cfg : BuildConfig} `{Num : MemcachedNumbers} `{Ctl : MemcachedControl MC}
  `{Sto : MemcachedStorage MC} `{Get : MemcachedGet MC} `{Auth : MemcachedAuth MC}
  `{!MemcachedServers MC} `{!MemcachedCreate MC}.
Implicit Types H : hworld MC.

(** What the engine may ask of the session module; between the requests settings
    and the clock change. *)
Inductive sess_op : Type :=
| SOpen (save_path : string)
| SClose
| SRead (key : string)
| SWrite (key val : string) (maxlifetime : Z)
| SDestroy (key : string)
| SCreateSid (create_id : M (sworld MC) string) (fresh_id : string)
| SValidate (key : string)
| STouch (key : string) (maxlifetime : Z)
| SSettings (ini : session_ini) (now max_execution_time : Z).

Definition answered {A} (op : M (hworld MC) A) : M (hworld MC) unit := _ ← op; mret tt.

(** The engine opens a session that is not open, and validates ids and touches
    sessions only when one is. *)
Definition run_sess_op (op : sess_op) : M (hworld MC) unit :=
  memc ← gets h_mod;
  let opened := bool_decide (is_Some memc) in
  match op with
  | SOpen path => if opened then mret tt else answered (ps_open path)
  | SClose => answered ps_close
  | SRead key => answered (PS_READ key)
  | SWrite key val life => answered (PS_WRITE key val life)
  | SDestroy key => answered (PS_DESTROY key)
  | SCreateSid create_id fresh_id => answered (PS_CREATE_SID create_id fresh_id)
  | SValidate key => if opened then answered (PS_VALIDATE_SID key) else mret tt
  | STouch key life => if opened then answered (PS_UPDATE_TIMESTAMP key life) else mret tt
  | SSettings ini now max =>
      modify (λ H, mkHandles (h_heap H) (h_next H) (h_plist H) (h_mod H) ini now max
                     (h_warnings H) (h_slept H))
  end.

Fixpoint run_sess_ops (ops : list sess_op) : M (hworld MC) unit :=
  match ops with [] => mret tt | op :: rest => run_sess_op op;; run_sess_ops rest end.

(** The generator of ids leaves the handle alone. *)
Definition sess_tame (op : sess_op) : Prop :=
  match op with
  | SCreateSid create_id _ => ∀ s, ∃ id, create_id s = Ret id s
  | _ => True
  end.

Definition hs_start (ini : session_ini) (now max : Z) : hworld MC :=
  mkHandles ∅ 0 ∅ None ini now max [] [].

Lemma session_inv_start ini now max : session_inv (hs_start ini now max).
Proof. split; [split|]; cbn; try done; intros *; by rewrite lookup_empty. Qed.

Lemma wp_on_mod {A} p (op : M (sworld MC) A) H :
  session_inv H → h_mod H = Some p → (∀ b, wkeeps (handle_ok b) op) →
  wp (answered (on_cell p op)) (λ _ H', session_inv H') H.
Proof.
  intros [Hinv Hl] Hm Hop. destruct (hi_cur _ _ Hinv p Hm) as [c Hc].
  destruct (hi_cells _ _ Hinv p c Hc) as (_ & Hk & _). apply wp_bind.
  eapply (wp_on_cell (handle_ok (sess_is_persistent c.2))); [exact Hc|by split|apply Hop|].
  intros a s [Hk' Hb']. apply wp_ret. split.
  - eapply put_session_inv; eauto.
  - intros q c' Hq Hc' Hper. cbn in Hq, Hc'. assert (q = p) as -> by congruence.
    rewrite lookup_insert_eq in Hc'. injection Hc' as <-. apply (Hl p c); [done|done|].
    cbn in Hper. congruence.
Qed.

Lemma wp_answered_warning {A} x (a : A) H :
  session_inv H → wp (answered (hwarn x;; mret a)) (λ _ H', session_inv H') H.
Proof.
  intros [Hinv Hl]. apply wp_bind, wp_bind, wp_modify, wp_ret, wp_ret.
  split; [by apply (handles_inv_same _ H)|exact Hl].
Qed.

Lemma wp_guarded {A} (r : A) (op : M (sworld MC) A) H :
  session_inv H → (∀ b, wkeeps (handle_ok b) op) →
  wp (answered (with_mod_data r op)) (λ _ H', session_inv H') H.
Proof.
  intros Hinv Hop. unfold wp, answered, with_mod_data. rewrite bind_assoc, gets_bind.
  destruct (h_mod H) as [p|] eqn:Hm; [by apply wp_on_mod|by apply wp_answered_warning].
Qed.

Lemma wp_unguarded {A} (op : M (sworld MC) A) H :
  session_inv H → (∀ b, wkeeps (handle_ok b) op) → is_Some (h_mod H) →
  wp (answered (unguarded op)) (λ _ H', session_inv H') H.
Proof.
  intros Hinv Hop [p Hm]. unfold wp, answered, unguarded. rewrite bind_assoc, gets_bind, Hm.
  by apply wp_on_mod.
Qed.

(** Closing unlocks the handle in hand and lets go of it. *)
Lemma wp_unlock_data b (s : sworld MC) :
  handle_ok b (s_data s) →
  wp (d ← gets s_data; (if is_locked d then s_unlock_session else mret tt);; gets s_data)
    (λ d s', d = s_data s' ∧ handle_ok b d ∧ is_locked d = false) s.
Proof.
  intros Hs. apply wp_bind, wp_gets, wp_bind. destruct (is_locked (s_data s)) eqn:Hl.
  - eapply wp_mono; [by apply wp_unlock_session|]. intros _ s' [? ?]. by apply wp_gets.
  - apply wp_ret, wp_gets. by split.
Qed.

Lemma handles_inv_release p s H :
  handles_inv (Some p) (put_session p s H) → listed H p → is_locked (s_data s) = false →
  handles_inv None (put_session p s H).
Proof.
  intros [I1 I2 I3 I4] Hl Hun. split; [done|done|done|]. intros q c Hq.
  destruct (I4 q c Hq) as (? & ? & Hcur). split; [done|]. split; [done|]. right.
  destruct Hcur as [[= <-]|Hcur]; [|done]. cbn in Hq. rewrite lookup_insert_eq in Hq.
  injection Hq as <-. done.
Qed.

Lemma wp_close H : session_inv H → wp (answered ps_close) (λ _ H', session_inv H') H.
Proof.
  intros Hs. pose proof Hs as [Hinv Hl]. unfold wp, answered, ps_close. rewrite bind_assoc, gets_bind.
  destruct (h_mod H) as [p|] eqn:Hm; [|by apply wp_answered_warning].
  destruct (hi_cur _ _ Hinv p eq_refl) as [c Hc].
  destruct (hi_cells _ _ Hinv p c Hc) as (_ & Hk & _).
  assert (wp ps_close (λ _ H', session_inv H') H) as Hclose.
  { unfold ps_close. apply wp_bind, wp_gets. rewrite Hm. apply wp_bind.
    eapply wp_cell; [exact Hc|by apply wp_unlock_data|]. intros d s (-> & [Hk1 Hb] & Hun).
    assert (handles_inv (Some p) (put_session p s H)) as Hinv1 by (eapply put_session_inv; eauto).
    apply wp_bind. destruct (sess_is_persistent (s_data s)) eqn:Hper.
    - apply wp_ret. apply wp_bind, wp_modify, wp_ret, set_mod_data_inv; [|done].
      eapply handles_inv_release; [exact Hinv1| |exact Hun].
      eapply (Hl p c); [done|exact Hc|cbn in Hb; congruence].
    - eapply wp_destroy_cell; [done|cbn; apply lookup_insert_eq| |].
      + intros [k Hk2]. destruct (hi_list _ _ Hinv1 k p Hk2) as (c' & Hc' & Hb').
        cbn in Hc'. rewrite lookup_insert_eq in Hc'. injection Hc' as <-. cbn in Hb'. congruence.
      + intros Hinv2. apply wp_bind, wp_modify, wp_ret, set_mod_data_inv; done. }
  unfold wp, ps_close in Hclose. rewrite gets_bind, Hm in Hclose. by apply wp_bind.
Qed.

Lemma wp_run_sess_op op H :
  sess_tame op → session_inv H → wp (run_sess_op op) (λ _ H', session_inv H') H.
Proof.
  intros Ht Hs. apply wp_bind, wp_gets. cbv zeta. destruct op; cbn [sess_tame] in Ht.
  - case_bool_decide as Hm; [exact Hs|]. apply wp_bind, wp_ps_open; [done| |].
    + by apply eq_None_not_Some.
    + intros r H' Hs'. by apply wp_ret.
  - by apply wp_close.
  - apply wp_guarded; auto with memc.
  - apply wp_guarded; auto with memc.
  - apply wp_guarded; auto with memc.
  - unfold wp, answered, PS_CREATE_SID. rewrite bind_assoc, gets_bind.
    destruct (h_mod H) as [p|] eqn:Hm; [|exact Hs]. apply wp_on_mod; [done|done|].
    intros b. apply wkeeps_create_sid. intros s Hs'. destruct (Ht s) as [id Hid].
    unfold wp. by rewrite Hid.
  - case_bool_decide as Hm; [|exact Hs]. apply wp_unguarded; auto with memc.
  - case_bool_decide as Hm; [|exact Hs]. apply wp_unguarded; auto with memc.
  - destruct Hs as [Hinv Hl]. split; [by apply (handles_inv_same _ H)|exact Hl].
Qed.

Lemma wp_run_sess_ops ops H :
  Forall sess_tame ops → session_inv H → wp (run_sess_ops ops) (λ _ H', session_inv H') H.
Proof.
  intros Ht. revert H. induction Ht as [|op ops Hop Hops IH].
  - intros H0 Hs. exact Hs.
  - intros H0 Hs. apply wp_bind. eapply wp_mono; [by apply wp_run_sess_op|].
    intros [] H'. apply IH.
Qed.
End Run.
Arguments sess_op : clear implicits.


(** Settings with persistent handles. *)
Definition toy_persistent_ini : session_ini :=
  mkSessionIni true 150 150 5 0 true true 3 2 1 false false 0 (Some "memc.sess.key."%string) true
    None None.

(** A script with two sessions on one persistent handle and one on its own. *)
Definition toy_sessions : list (sess_op toy) :=
  [SOpen "localhost"; SRead "abc"; SWrite "abc" "x|i:1;" 1440; SClose;
   SOpen "localhost"; SRead "abc"; SSettings toy_session_ini 1700000000 30; SDestroy "abc"; SClose;
   SOpen "localhost"; SClose; SClose].

