(* ===== verification/SessionMemory.v ===== *)
(** * The memory of a session handle

    The allocators that libmemcached uses for a session handle ([s_pemalloc_fn],
    [s_pefree_fn], [s_perealloc_fn], [s_pecalloc_fn]), which find out from the user data
    whether the handle is persistent, and the making and the end of a handle as far as
    memory is concerned.  What libmemcached asks for, and when, is any list of
    requests; of what it holds nothing is assumed but that it frees and resizes only
    that. *)

From S2P Require Import Prelude.
#[local] Open Scope nat_scope.

(** The live blocks, persistent or of the request, the [is_persistent] that starts each
    block of user data, the user data of the handle, and what the library holds. *)
Record session_memory : Type := mkSessionMemory {
  sm_blocks : gmap nat bool;
  sm_next : nat;
  sm_is_persistent : gmap nat bool;
  sm_user_data : option nat;
  sm_library : list nat
}.

Definition with_sm_blocks b (s : session_memory) : session_memory :=
  mkSessionMemory b (sm_next s) (sm_is_persistent s) (sm_user_data s) (sm_library s).
Definition with_sm_library l (s : session_memory) : session_memory :=
  mkSessionMemory (sm_blocks s) (sm_next s) (sm_is_persistent s) (sm_user_data s) l.
Definition with_sm_user_data u (s : session_memory) : session_memory :=
  mkSessionMemory (sm_blocks s) (sm_next s) (sm_is_persistent s) u (sm_library s).

#[local] Abbreviation SM := (M session_memory).

(** ** The allocator of PHP *)
Definition pemalloc (persistent : bool) : SM nat :=
  n ← gets sm_next;
  modify (λ s, mkSessionMemory (<[n := persistent]> (sm_blocks s)) (S n) (sm_is_persistent s)
                 (sm_user_data s) (sm_library s));;
  mret n.

Definition pecalloc := pemalloc.

(** Freeing what is not live, or with the wrong allocator, is undefined. *)
Definition pefree (b : nat) (persistent : bool) : SM unit :=
  s ← get;
  if decide (sm_blocks s !! b = Some persistent)
  then modify (with_sm_blocks (delete b (sm_blocks s))) else undef.

(** A block that is resized moves. *)
Definition perealloc (b : nat) (persistent : bool) : SM nat :=
  pefree b persistent;; pemalloc persistent.

(** What the engine does at the end of a request. *)
Definition request_end : SM unit :=
  modify (λ s, with_sm_blocks (filter (λ kv, kv.2 = true) (sm_blocks s)) s).

(** ** The allocators of the handle *)

(** [*(zend_bool * ) memcached_get_user_data(memc)]: undefined without user data, and
    when they are freed. *)
Definition is_persistent : SM bool :=
  s ← get;
  match sm_user_data s with
  | None => undef
  | Some u =>
      if decide (is_Some (sm_blocks s !! u))
      then match sm_is_persistent s !! u with Some p => mret p | None => undef end
      else undef
  end.

Definition s_pemalloc_fn : SM nat := p ← is_persistent; pemalloc p.
Definition s_pefree_fn (mem : nat) : SM unit := p ← is_persistent; pefree mem p.
Definition s_perealloc_fn (mem : nat) : SM nat := p ← is_persistent; perealloc mem p.
Definition s_pecalloc_fn : SM nat := p ← is_persistent; pecalloc p.

(** ** What libmemcached does with them *)
Inductive request : Type :=
  | Malloc
  | Calloc
  | Free (i : nat)      (* the [i]-th of the blocks it holds *)
  | Realloc (i : nat).

Definition library_holds (b : nat) : SM unit :=
  modify (λ s, with_sm_library (b :: sm_library s) s).

Definition serve_request (r : request) : SM unit :=
  l ← gets sm_library;
  match r with
  | Malloc => b ← s_pemalloc_fn; library_holds b
  | Calloc => b ← s_pecalloc_fn; library_holds b
  | Free i =>
      match l !! i with
      | Some b => s_pefree_fn b;; modify (with_sm_library (delete i l))
      | None => mret tt
      end
  | Realloc i =>
      match l !! i with
      | Some b => b' ← s_perealloc_fn b; modify (with_sm_library (b' :: delete i l))
      | None => mret tt
      end
  end.

Fixpoint serve (rs : list request) : SM unit :=
  match rs with
  | [] => mret tt
  | r :: rs' => serve_request r;; serve rs'
  end.

Fixpoint free_all (l : list nat) : SM unit :=
  match l with
  | [] => mret tt
  | b :: l' => s_pefree_fn b;; modify (with_sm_library l');; free_all l'
  end.

(** Everything the library holds for the handle goes with it. *)
Definition memcached_free : SM unit := l ← gets sm_library; free_all l.

(** ** The handle *)

(** [memcached_create] with a buffer of the caller; [servers] are the requests of
    [memcached_server_push] and [memcached_behavior_set]. *)
Definition s_init_mod_data (servers : list request) (persistent : bool) : SM nat :=
  buffer ← pecalloc persistent;
  modify (with_sm_user_data None);; modify (with_sm_library []);;
  user_data ← pecalloc persistent;
  modify (λ s, mkSessionMemory (sm_blocks s) (sm_next s)
                 (<[user_data := persistent]> (sm_is_persistent s)) (sm_user_data s) (sm_library s));;
  modify (with_sm_user_data (Some user_data));;
  serve servers;;
  mret buffer.

(** The flag is read from the user data, last to free them. *)
Definition s_destroy_mod_data (memc : nat) : SM unit :=
  u ← gets sm_user_data;
  memcached_free;;
  p ← is_persistent; pefree memc p;;
  p ← is_persistent;
  match u with Some u => pefree u p | None => undef end.

(** [PS_READ_FUNC]: the library hands the value over, to be freed with the handle's
    allocator. *)
Definition read_payload : SM unit :=
  payload ← s_pemalloc_fn; p ← is_persistent; pefree payload p.

(** The life of a handle: requests of the library, reads of a session, and for a
    persistent handle the ends of requests. *)
Inductive event : Type := Serve (rs : list request) | ReadPayload | RequestEnd.

Definition run_event (e : event) : SM unit :=
  match e with
  | Serve rs => serve rs
  | ReadPayload => read_payload
  | RequestEnd => request_end
  end.

Fixpoint run_events (es : list event) : SM unit :=
  match es with
  | [] => mret tt
  | e :: es' => run_event e;; run_events es'
  end.

Definition session_life (servers : list request) (persistent : bool) (es : list event) : SM unit :=
  memc ← s_init_mod_data servers persistent;
  run_events es;;
  s_destroy_mod_data memc.

(** ** Proofs *)

(** The blocks are those of [b0] and those of [l], which have the kind [p]. *)
Record held (p : bool) (l : list nat) (b0 b : gmap nat bool) : Prop := {
  held_nodup : NoDup l;
  held_new : ∀ i, i ∈ l → b0 !! i = None;
  held_in : ∀ i, i ∈ l → b !! i = Some p;
  held_out : ∀ i, i ∉ l → b !! i = b0 !! i
}.

Lemma held_nil p b : held p [] b b.
Proof. split; [constructor|by intros ? ?%elem_of_nil..|done]. Qed.

Lemma held_nil_inv p b0 b : held p [] b0 b → b = b0.
Proof. intros Hh. apply map_eq. intros i. apply (held_out _ _ _ _ Hh). apply not_elem_of_nil. Qed.

Lemma held_perm p l l' b0 b : l ≡ₚ l' → held p l b0 b → held p l' b0 b.
Proof. intros E [H1 H2 H3 H4]. split; setoid_rewrite <- E; done. Qed.

Lemma held_alloc p l b0 b i : b !! i = None → held p l b0 b → held p (i :: l) b0 (<[i := p]> b).
Proof.
  intros Hi [H1 H2 H3 H4]. assert (i ∉ l) as Hl by (intros Hl; by rewrite H3 in Hi).
  split.
  - by constructor.
  - intros j [-> | Hj]%elem_of_cons; [by rewrite <- H4|auto].
  - intros j Hj. destruct (decide (i = j)) as [-> | Hij]; [by rewrite lookup_insert_eq|].
    rewrite lookup_insert_ne by done. apply H3. set_solver.
  - intros j Hj. rewrite lookup_insert_ne by set_solver. apply H4. set_solver.
Qed.

Lemma held_free p l b0 b i : held p (i :: l) b0 b → held p l b0 (delete i b).
Proof.
  intros [H1 H2 H3 H4]. apply NoDup_cons in H1 as [Hi H1]. split.
  - done.
  - intros j Hj. apply H2. by right.
  - intros j Hj. rewrite lookup_delete_ne by (intros ->; done). apply H3. by right.
  - intros j Hj. destruct (decide (i = j)) as [-> | Hij].
    + rewrite lookup_delete_eq. symmetry. apply H2. by left.
    + rewrite lookup_delete_ne by done. apply H4. set_solver.
Qed.

Definition survivors (b : gmap nat bool) : gmap nat bool := filter (λ kv, kv.2 = true) b.

Lemma survivors_lookup b i :
  survivors b !! i = match b !! i with Some true => Some true | _ => None end.
Proof.
  unfold survivors. rewrite map_lookup_filter. destruct (b !! i) as [[]|]; [..|done]; cbn.
  - by rewrite option_guard_True.
  - by rewrite option_guard_False.
Qed.

Lemma held_request_end l b0 b : held true l b0 b → held true l (survivors b0) (survivors b).
Proof.
  intros [H1 H2 H3 H4]. split.
  - done.
  - intros i Hi. by rewrite survivors_lookup, H2.
  - intros i Hi. by rewrite survivors_lookup, H3.
  - intros i Hi. by rewrite !survivors_lookup, H4.
Qed.

Section Runs.
(** [m] returns, and [Q] holds. *)
Definition runs {A} (m : SM A) (Q : A → session_memory → Prop) (s : session_memory) : Prop :=
  ∃ a s', m s = Ret a s' ∧ Q a s'.

Lemma runs_bind {A B} (m : SM A) (k : A → SM B) Q s :
  runs m (λ a s', runs (k a) Q s') s → runs (m ≫= k) Q s.
Proof.
  intros (a & s1 & E1 & b & s2 & E2 & HQ). exists b, s2. by rewrite (bind_Ret _ _ _ _ _ E1).
Qed.

Lemma runs_mono {A} (m : SM A) (Q Q' : A → session_memory → Prop) s :
  runs m Q s → (∀ a s', Q a s' → Q' a s') → runs m Q' s.
Proof. intros (a & s' & E & HQ) HQQ. exists a, s'. auto. Qed.

Lemma runs_ret {A} (a : A) (Q : A → session_memory → Prop) s : Q a s → runs (mret a) Q s.
Proof. by exists a, s. Qed.

Lemma runs_gets {A} (f : session_memory → A) (Q : A → session_memory → Prop) s :
  Q (f s) s → runs (gets f) Q s.
Proof. by exists (f s), s. Qed.

Lemma runs_modify f (Q : unit → session_memory → Prop) s : Q tt (f s) → runs (modify f) Q s.
Proof. by exists tt, (f s). Qed.
End Runs.

Definition fresh (s : session_memory) : Prop :=
  ∀ i, is_Some (sm_blocks s !! i) → i < sm_next s.

Section Handle.
Context (p : bool) (u : nat).
Implicit Types (s : session_memory) (l : list nat).

(** The blocks of the handle are [l], and its user data, in block [u], say [p]. *)
Record ours l b0 s : Prop := {
  ours_held : held p l b0 (sm_blocks s);
  ours_data : sm_user_data s = Some u;
  ours_flag : sm_is_persistent s !! u = Some p;
  ours_fresh : fresh s
}.

Lemma ours_perm l l' b0 s : l ≡ₚ l' → ours l b0 s → ours l' b0 s.
Proof. intros E [H1 H2 H3 H4]. split; [by eapply held_perm|done..]. Qed.

Lemma ours_library l b0 s k : ours l b0 s → ours l b0 (with_sm_library k s).
Proof. by intros [H1 H2 H3 H4]. Qed.

Lemma is_persistent_run l b0 s : ours l b0 s → u ∈ l → is_persistent s = Ret p s.
Proof.
  intros [H1 H2 H3 _] Hu. unfold is_persistent. rewrite get_bind, H2, H3, decide_True; [done|].
  by rewrite (held_in _ _ _ _ H1).
Qed.

Lemma pemalloc_runs l b0 s :
  ours l b0 s →
  runs (pemalloc p) (λ b s', ours (b :: l) b0 s' ∧ sm_library s' = sm_library s) s.
Proof.
  intros [H1 H2 H3 H4]. unfold pemalloc.
  apply runs_bind, runs_gets, runs_bind, runs_modify, runs_ret. split; [|done].
  split; [|done|done|].
  - apply held_alloc; [|done]. apply eq_None_not_Some. intros Hi%H4. lia.
  - intros i. cbn. destruct (decide (sm_next s = i)) as [<- | Hi]; [lia|].
    rewrite lookup_insert_ne by done. intros Hs%H4. lia.
Qed.

Lemma pefree_runs l b0 s b :
  ours (b :: l) b0 s →
  runs (pefree b p) (λ _ s', ours l b0 s' ∧ sm_library s' = sm_library s) s.
Proof.
  intros [H1 H2 H3 H4]. unfold pefree. apply runs_bind. exists s, s. split; [done|].
  rewrite decide_True by (apply (held_in _ _ _ _ H1); by left).
  apply runs_modify. split; [|done]. split; [by apply held_free|done..|].
  intros i Hi. cbn in Hi. apply lookup_delete_is_Some in Hi as [_ Hi]. by apply H4.
Qed.

(** The allocators of the handle are those of its kind. *)
Lemma with_flag_runs {A} (k : bool → SM A) Q l b0 s :
  ours l b0 s → u ∈ l → runs (k p) Q s → runs (p' ← is_persistent; k p') Q s.
Proof.
  intros Ho Hu Hk. apply runs_bind. exists p, s. split; [by eapply is_persistent_run|done].
Qed.

Lemma s_pemalloc_fn_runs l b0 s :
  ours l b0 s → u ∈ l →
  runs s_pemalloc_fn (λ b s', ours (b :: l) b0 s' ∧ sm_library s' = sm_library s) s.
Proof. intros Ho Hu. eapply with_flag_runs; [done..|]. by apply pemalloc_runs. Qed.

Lemma s_pefree_fn_runs l b0 s b :
  ours (b :: l) b0 s → u ∈ b :: l →
  runs (s_pefree_fn b) (λ _ s', ours l b0 s' ∧ sm_library s' = sm_library s) s.
Proof. intros Ho Hu. eapply with_flag_runs; [done..|]. by apply pefree_runs. Qed.

Lemma s_perealloc_fn_runs l b0 s b :
  ours (b :: l) b0 s → u ∈ b :: l →
  runs (s_perealloc_fn b) (λ b' s', ours (b' :: l) b0 s' ∧ sm_library s' = sm_library s) s.
Proof.
  intros Ho Hu. eapply with_flag_runs; [done..|]. apply runs_bind.
  eapply runs_mono; [by apply (pefree_runs l b0)|]. intros _ s1 [Ho1 El1].
  eapply runs_mono; [by apply (pemalloc_runs l b0)|]. intros b' s2 [Ho2 El2].
  by rewrite El2.
Qed.

(** The state between two operations of a handle. *)
Definition alive (memc : nat) b0 s : Prop := ours (memc :: u :: sm_library s) b0 s.

Lemma serve_request_runs r memc b0 s :
  alive memc b0 s → runs (serve_request r) (λ _ s', alive memc b0 s') s.
Proof.
  intros Ho. assert (u ∈ memc :: u :: sm_library s) as Hu by set_solver.
  assert (∀ b s', ours (b :: memc :: u :: sm_library s) b0 s' ∧ sm_library s' = sm_library s →
            runs (library_holds b) (λ _ s', alive memc b0 s') s') as Hhold.
  { intros b s' [Ho' El]. apply runs_modify. rewrite El. apply ours_library.
    cbn. eapply ours_perm; [|exact Ho']. solve_Permutation. }
  assert (∀ i b, sm_library s !! i = Some b →
            ours (b :: memc :: u :: delete i (sm_library s)) b0 s) as Hpick.
  { intros i b Hi. eapply ours_perm; [|exact Ho].
    rewrite (delete_Permutation _ _ _ Hi) at 1. solve_Permutation. }
  unfold serve_request. apply runs_bind, runs_gets. destruct r as [| |i|i].
  - apply runs_bind. eapply runs_mono; [by eapply s_pemalloc_fn_runs|exact Hhold].
  - apply runs_bind. eapply runs_mono; [by eapply s_pemalloc_fn_runs|exact Hhold].
  - destruct (sm_library s !! i) as [b|] eqn:Hi; [|by apply runs_ret].
    apply runs_bind. eapply runs_mono; [eapply s_pefree_fn_runs; [by apply Hpick|set_solver]|].
    intros _ s' [Ho' _]. apply runs_modify. by apply ours_library.
  - destruct (sm_library s !! i) as [b|] eqn:Hi; [|by apply runs_ret].
    apply runs_bind. eapply runs_mono; [eapply s_perealloc_fn_runs; [by apply Hpick|set_solver]|].
    intros b' s' [Ho' _]. apply runs_modify, ours_library.
    cbn. eapply ours_perm; [|exact Ho']. solve_Permutation.
Qed.

Lemma serve_runs rs memc b0 s : alive memc b0 s → runs (serve rs) (λ _ s', alive memc b0 s') s.
Proof.
  revert s. induction rs as [|r rs IH]; intros s Ho; cbn [serve]; [by apply runs_ret|].
  apply runs_bind. eapply runs_mono; [by apply serve_request_runs|]. intros [] s' Ho'. by apply IH.
Qed.

Lemma read_payload_runs memc b0 s : alive memc b0 s → runs read_payload (λ _ s', alive memc b0 s') s.
Proof.
  intros Ho. assert (u ∈ memc :: u :: sm_library s) as Hu by set_solver.
  unfold read_payload. apply runs_bind.
  eapply runs_mono; [by eapply s_pemalloc_fn_runs|]. intros b s1 [Ho1 El1].
  eapply with_flag_runs; [exact Ho1|by right|].
  eapply runs_mono; [by apply pefree_runs|]. intros _ s2 [Ho2 El2].
  unfold alive. by rewrite El2, El1.
Qed.

Lemma free_all_runs l memc b0 s :
  ours (memc :: u :: l) b0 s → runs (free_all l) (λ _ s', ours [memc; u] b0 s') s.
Proof.
  revert s. induction l as [|b l IH]; intros s Ho; cbn [free_all]; [by apply runs_ret|].
  apply runs_bind. eapply runs_mono.
  { eapply (s_pefree_fn_runs (memc :: u :: l)); [|set_solver].
    eapply ours_perm; [|exact Ho]. solve_Permutation. }
  intros _ s1 [Ho1 _]. apply runs_bind, runs_modify. by apply IH, ours_library.
Qed.

Lemma s_destroy_mod_data_runs memc b0 s :
  alive memc b0 s → runs (s_destroy_mod_data memc) (λ _ s', sm_blocks s' = b0) s.
Proof.
  intros Ho. unfold s_destroy_mod_data, memcached_free.
  apply runs_bind, runs_gets. rewrite (ours_data _ _ _ Ho).
  apply runs_bind, runs_bind, runs_gets. eapply runs_mono; [by apply free_all_runs|].
  intros [] s1 Ho1. eapply with_flag_runs; [exact Ho1|set_solver|].
  apply runs_bind. eapply runs_mono; [by apply (pefree_runs [u])|]. intros _ s2 [Ho2 _].
  eapply with_flag_runs; [exact Ho2|set_solver|].
  eapply runs_mono; [by apply (pefree_runs [])|]. intros _ s3 [Ho3 _].
  by eapply held_nil_inv, ours_held.
Qed.
End Handle.

Lemma s_init_mod_data_runs servers p s :
  fresh s →
  runs (s_init_mod_data servers p) (λ memc s', ∃ u, alive p u memc (sm_blocks s) s') s.
Proof.
  intros Hf. set (n := sm_next s).
  unfold s_init_mod_data, pecalloc, pemalloc.
  apply runs_bind, runs_bind, runs_gets, runs_bind, runs_modify, runs_ret.
  apply runs_bind, runs_modify, runs_bind, runs_modify.
  apply runs_bind, runs_bind, runs_gets, runs_bind, runs_modify, runs_ret.
  apply runs_bind, runs_modify, runs_bind, runs_modify, runs_bind.
  assert (∀ i, n <= i → sm_blocks s !! i = None) as Hn.
  { intros i Hi. apply eq_None_not_Some. intros Hs%Hf. unfold n in Hi. lia. }
  eapply runs_mono.
  { apply (serve_runs p (S n) servers n (sm_blocks s)). split; cbn.
    - eapply held_perm; [apply perm_swap|]. apply held_alloc.
      + rewrite lookup_insert_ne by (unfold n; lia). apply Hn. lia.
      + apply held_alloc; [apply Hn; lia|]. apply held_nil.
    - done.
    - by rewrite lookup_insert_eq.
    - intros i. cbn. rewrite !lookup_insert_is_Some. intros [<- | [_ [<- | [_ Hi%Hf]]]]; lia. }
  intros [] s' Hs'. apply runs_ret. by exists (S n).
Qed.

Lemma request_end_runs u memc b0 s :
  alive true u memc b0 s → runs request_end (λ _ s', alive true u memc (survivors b0) s') s.
Proof.
  intros [H1 H2 H3 H4]. apply runs_modify. split; [|done|done|].
  - by apply held_request_end.
  - intros i. cbn. intros [b Hb]. apply H4. exists b. by apply map_lookup_filter_Some in Hb as [Hb _].
Qed.

(** What a life leaves of the other blocks: the ends of requests take the ones of the
    request. *)
Fixpoint remains (es : list event) (b : gmap nat bool) : gmap nat bool :=
  match es with
  | [] => b
  | RequestEnd :: es' => remains es' (survivors b)
  | _ :: es' => remains es' b
  end.

Lemma run_events_runs p u memc es b0 s :
  (p = false → RequestEnd ∉ es) → alive p u memc b0 s →
  runs (run_events es) (λ _ s', alive p u memc (remains es b0) s') s.
Proof.
  revert b0 s. induction es as [|e es IH]; intros b0 s Hp Ho; cbn [run_events]; [by apply runs_ret|].
  assert (p = false → RequestEnd ∉ es) as Hp' by (intros E Hi; apply (Hp E); by right).
  apply runs_bind. destruct e as [rs| |]; cbn [run_event remains].
  - eapply runs_mono; [by apply serve_runs|]. intros [] s' Ho'. by apply IH.
  - eapply runs_mono; [by apply read_payload_runs|]. intros [] s' Ho'. by apply IH.
  - destruct p; [|by exfalso; apply Hp; [|left]].
    eapply runs_mono; [by apply request_end_runs|]. intros [] s' Ho'. by apply IH.
Qed.

(** C12: the memory of a session handle comes from and goes back to the right allocator:
    whatever libmemcached asks for while the handle is made and used, and through the
    ends of any number of requests if the handle is persistent, no block is freed
    twice, with the allocator of the other kind or after its request, the user data
    are there whenever an allocator looks at them, and when the handle is destroyed
    exactly the blocks of others are left. *)
Theorem session_memory_is_given_back servers p es s :
  fresh s → (p = false → RequestEnd ∉ es) →
  ∃ s', session_life servers p es s = Ret tt s' ∧ sm_blocks s' = remains es (sm_blocks s).
Proof.
  intros Hf Hp.
  assert (runs (session_life servers p es) (λ _ s', sm_blocks s' = remains es (sm_blocks s)) s)
    as ([] & s' & E & Hs'); [|by exists s'].
  apply runs_bind. eapply runs_mono; [by apply s_init_mod_data_runs|]. intros memc s1 [u Ho].
  apply runs_bind. eapply runs_mono; [by apply run_events_runs|]. intros [] s2 Ho2.
  by eapply s_destroy_mod_data_runs.
Qed.

(** Another block of the request and a persistent one; two requests. *)
Definition some_memory : session_memory :=
  mkSessionMemory {[ 1 := false; 2 := true ]} 3 ∅ None [].

Definition some_life : list event :=
  [Serve [Malloc; Calloc; Realloc 0]; ReadPayload; RequestEnd; Serve [Free 1; Malloc]; ReadPayload].

Lemma session_memory_is_given_back_witness :
  ∃ s', session_life [Calloc; Malloc] true some_life some_memory = Ret tt s'
    ∧ sm_blocks s' = {[ 2 := true ]}.
Proof.
  assert (remains some_life (sm_blocks some_memory) = {[ 2 := true ]}) as <- by (by vm_compute).
  apply (session_memory_is_given_back [Calloc; Malloc] true some_life some_memory); [|done].
  intros i. unfold some_memory. cbn. rewrite lookup_insert_is_Some, lookup_singleton_is_Some. lia.
Defined.

(** A handle of the request cannot be used or destroyed after it: [PS_CLOSE_FUNC] has
    to come first. *)
Example request_handle_ends_with_its_request :
  session_life [Malloc] false [RequestEnd] some_memory = Undef.
Proof. reflexivity. Qed.
