(* ===== verification/SessionConfig.v ===== *)
(** * What configuring a session handle sets

    [s_configure_from_ini_values] against the settings it is given. *)

From S2P Require Import Prelude CLib Zend LibMemcached World Toy Session SessionHandles SessionProofs.
#[local] Open Scope Z_scope.

(** The behaviors the session settings are about: the flags and numbers, and the
    two that choose the hash. *)
Definition is_ketama (b : memcached_behavior) : bool :=
  match b with BEHAVIOR_KETAMA | BEHAVIOR_KETAMA_WEIGHTED => true | _ => false end.
Definition settable (b : memcached_behavior) : bool :=
  match b with
  | BEHAVIOR_BINARY_PROTOCOL | BEHAVIOR_TCP_NODELAY | BEHAVIOR_SERVER_FAILURE_LIMIT
  | BEHAVIOR_NUMBER_OF_REPLICAS | BEHAVIOR_RANDOMIZE_REPLICA_READ
  | BEHAVIOR_REMOVE_FAILED_SERVERS | BEHAVIOR_CONNECT_TIMEOUT => true
  | _ => is_ketama b
  end.

(** The values a behavior takes: 0 and 1 for a flag, small numbers for the rest. *)
Definition takes (b : memcached_behavior) (v : Z) : Prop :=
  match b with
  | BEHAVIOR_SERVER_FAILURE_LIMIT | BEHAVIOR_NUMBER_OF_REPLICAS | BEHAVIOR_CONNECT_TIMEOUT =>
      0 <= v < 2 ^ 31
  | _ => v = 0 ∨ v = 1
  end.

Lemma takes_range b v : takes b v → 0 <= v < 2 ^ 31.
Proof. destruct b; simpl; lia. Qed.

Lemma takes_one b : takes b 1.
Proof. destruct b; simpl; lia. Qed.

(** libmemcached's documentation of [memcached_behavior_set]: these behaviors are
    settings of their own, apart from the two for the hash, and have the value
    they were set to, when it is one they take.  The namespace and credentials are no behaviors. *)
Class SessionBehaviors (MC : Type) `{MemcachedNumbers} `{MemcachedControl MC} `{MemcachedAuth MC}
    : Prop := {
  set_behavior_get m b v m' :
    settable b = true → takes b v →
    memcached_behavior_set m (behavior_num b) v = (MEMCACHED_SUCCESS, m') →
    memcached_behavior_get m' (behavior_num b) = v;
  set_behavior_other m b b' v rc m' :
    settable b = true → settable b' = true → b ≠ b' → is_ketama b && is_ketama b' = false →
    memcached_behavior_set m (behavior_num b) v = (rc, m') →
    memcached_behavior_get m' (behavior_num b') = memcached_behavior_get m (behavior_num b');
  prefix_no_behavior m p rc m' n :
    memcached_prefix_set m p = (rc, m') → memcached_behavior_get m' n = memcached_behavior_get m n;
  sasl_no_behavior m user password rc m' n :
    memcached_set_sasl_auth_data m user password = (rc, m') →
    memcached_behavior_get m' n = memcached_behavior_get m n
}.

(** The value a setting asks for, if it asks for one. *)
Definition session_setting (ini : session_ini) (b : memcached_behavior) : option Z :=
  let on (c : bool) v := if c then Some v else None in
  let nonzero z := on (negb (z =? 0)) z in
  match b with
  | BEHAVIOR_BINARY_PROTOCOL =>
      on (binary_protocol_enabled ini
          || (bool_decide (is_Some (MEMC_SESS_STR_INI (sasl_username ini)))
              && bool_decide (is_Some (MEMC_SESS_STR_INI (sasl_password ini))))) 1
  | BEHAVIOR_TCP_NODELAY => on (binary_protocol_enabled ini) 1
  | BEHAVIOR_KETAMA | BEHAVIOR_KETAMA_WEIGHTED => on (consistent_hash_enabled ini) 1
  | BEHAVIOR_SERVER_FAILURE_LIMIT => nonzero (server_failure_limit ini)
  | BEHAVIOR_NUMBER_OF_REPLICAS => nonzero (number_of_replicas ini)
  | BEHAVIOR_RANDOMIZE_REPLICA_READ => on (randomize_replica_read_enabled ini) 1
  | BEHAVIOR_REMOVE_FAILED_SERVERS => on (remove_failed_servers_enabled ini) 1
  | BEHAVIOR_CONNECT_TIMEOUT => nonzero (connect_timeout ini)
  | _ => None
  end.

(** Settings of a sensible size; the hash is one of the two. *)
Record sane_settings `{MemcachedNumbers} (ini : session_ini) (hash : memcached_behavior) : Prop := {
  sane_hash : consistent_hash_type ini = behavior_num hash ∧ is_ketama hash = true;
  sane_limit : 0 <= server_failure_limit ini < 2 ^ 31;
  sane_replicas : 0 <= number_of_replicas ini < 2 ^ 31;
  sane_timeout : 0 <= connect_timeout ini < 2 ^ 31
}.

(** The values of the settings are taken. *)
Ltac takes_tac := first [apply takes_one|done|simpl; lia].

Section Configured.
Context {MC : Type} `{Cfg : BuildConfig} `{Num : MemcachedNumbers} `{Ctl : MemcachedControl MC}
  `{Auth : MemcachedAuth MC} `{!SessionBehaviors MC}.
Implicit Types s : sworld MC.

Definition value_of s (b : memcached_behavior) : Z :=
  memcached_behavior_get (s_memc s) (behavior_num b).

(** After one [check_set_behavior] that did not fail. *)
Lemma check_set_inv silent b v (k : M (sworld MC) bool) s s' :
  settable b = true → takes b v →
  check_set_behavior silent (behavior_num b) v k s = Ret true s' →
  ∃ s1, k s1 = Ret true s' ∧ s_ini s1 = s_ini s ∧ s_data s1 = s_data s
    ∧ ∀ b', settable b' = true → is_ketama b && is_ketama b' = false ∨ b = b' →
        value_of s1 b' = if bool_decide (b = b') then v else value_of s b'.
Proof.
  intros Hb Hv R. unfold check_set_behavior in R. rewrite gets_bind, u64_id in R
    by (apply takes_range in Hv; unfold is_u64; lia).
  destruct (Z.eqb_spec v (memcached_behavior_get (s_memc s) (behavior_num b))) as [E|E].
  - exists s. split; [done|]. split; [done|]. split; [done|]. intros b' _ _.
    case_bool_decide; [subst; by unfold value_of|done].
  - unfold smemc_call, mbind, M_bind in R.
    destruct (memcached_behavior_set _ _ _) as [rc m] eqn:Es. case_bool_decide as Hrc.
    + subst rc. exists (with_smemc m s). split; [done|]. split; [done|]. split; [done|].
      intros b' Hb' Hk. unfold value_of, with_smemc. cbn. case_bool_decide as Ebb.
      * subst b'. by eapply set_behavior_get.
      * eapply set_behavior_other; [exact Hb|done|done| |done]. by destruct Hk as [?|<-].
    + destruct silent; discriminate R.
Qed.

Lemma check_setting_inv (c : bool) silent b v (k : M (sworld MC) bool) s s' :
  settable b = true → takes b v →
  check_setting silent c (behavior_num b) v k s = Ret true s' →
  ∃ s1, k s1 = Ret true s' ∧ s_ini s1 = s_ini s ∧ s_data s1 = s_data s
    ∧ ∀ b', settable b' = true → is_ketama b && is_ketama b' = false ∨ b = b' →
        value_of s1 b' = if bool_decide (b = b') && c then v else value_of s b'.
Proof.
  intros Hb Hv. unfold check_setting. destruct c; [|intros R; exists s; split_and!; [done..|]; intros; by rewrite andb_false_r].
  intros (s1 & R & Hi & Hd & Hs)%check_set_inv; [|done..]. exists s1. split_and!; [done..|].
  intros b' Hb' Hk. by rewrite andb_true_r, Hs.
Qed.

Lemma configure_sasl_inv silent s s' :
  configure_sasl silent s = Ret true s' →
  ∀ b', settable b' = true → value_of s' b'
    = if bool_decide (b' = BEHAVIOR_BINARY_PROTOCOL)
         && bool_decide (is_Some (MEMC_SESS_STR_INI (sasl_username (s_ini s))))
         && bool_decide (is_Some (MEMC_SESS_STR_INI (sasl_password (s_ini s)))) then 1
      else value_of s b'.
Proof.
  unfold configure_sasl. rewrite gets_bind. intros R b' Hb'.
  destruct (MEMC_SESS_STR_INI (sasl_username (s_ini s))) as [user|];
    destruct (MEMC_SESS_STR_INI (sasl_password (s_ini s))) as [password|];
    rewrite ?andb_false_r; try (injection R as <-; done).
  apply bind_inv in R as (ok & s0 & R0 & R).
  assert (s0 = s) as ->.
  { unfold php_memc_init_sasl_if_needed in R0.
    destruct HAVE_MEMCACHED_SASL, sasl_client_init; [by injection R0|discriminate R0..]. }
  destruct ok; [|done]. cbn [negb] in R.
  apply check_set_inv in R as (s1 & R & _ & _ & Hs1); [|done|takes_tac].
  unfold smemc_call, mbind, M_bind in R. destruct (memcached_set_sasl_auth_data _ _ _) as [rc m] eqn:Es.
  case_bool_decide; [done|]. injection R as <-.
  transitivity (value_of s1 b'); [by unfold value_of; cbn; eapply sasl_no_behavior|].
  rewrite (Hs1 b' Hb') by (left; done). rewrite (bool_decide_true (is_Some (Some user))), (bool_decide_true (is_Some (Some password)))
    by eauto.
  rewrite !andb_true_r. by repeat case_bool_decide; subst.
Qed.
End Configured.

(** C34: configuring a session handle sets exactly what the settings ask for: after
    it succeeded, every behavior a setting is on or non-zero for has that value,
    with the binary protocol also on when there are credentials.  A setting that
    is off or zero leaves the behavior as it was: on a persistent handle it keeps
    the value an earlier request gave it. *)
Theorem configuration_sets_what_is_on {MC} `{Cfg : BuildConfig} `{Num : MemcachedNumbers}
    `{Ctl : MemcachedControl MC} `{Auth : MemcachedAuth MC} `{!SessionBehaviors MC}
    silent (s s' : sworld MC) hash b :
  sane_settings (s_ini s) hash → settable b = true → is_ketama b = false ∨ b = hash →
  s_configure_from_ini_values silent s = Ret true s' →
  value_of s' b = default (value_of s b) (session_setting (s_ini s) b).
Proof.
  intros [[Hh Hk] Hl Hr Ht] Hb Hkb R. unfold s_configure_from_ini_values in R.
  rewrite gets_bind, Hh in R.
  set (ini := s_ini s) in *.
  assert (∀ b1, is_ketama b1 = false → is_ketama b1 && is_ketama b = false ∨ b1 = b) as Hind
    by (intros b1 ->; by left).
  assert (is_ketama hash && is_ketama b = false ∨ hash = b) as Hindh.
  { destruct Hkb as [-> | ->]; [left; by rewrite andb_false_r|by right]. }
  assert (settable hash = true) as Hsh by (by destruct hash).
  apply check_setting_inv in R as (s1 & R & I1 & _ & V1); [|done|takes_tac].
  apply check_setting_inv in R as (s2 & R & I2 & _ & V2); [|done|takes_tac].
  apply check_setting_inv in R as (s3 & R & I3 & _ & V3); [|done|takes_tac].
  apply check_setting_inv in R as (s4 & R & I4 & _ & V4); [|done|takes_tac].
  apply check_setting_inv in R as (s5 & R & I5 & _ & V5); [|done|takes_tac].
  apply check_setting_inv in R as (s6 & R & I6 & _ & V6); [|done|takes_tac].
  apply check_setting_inv in R as (s7 & R & I7 & _ & V7); [|done|takes_tac].
  apply check_setting_inv in R as (s8 & R & I8 & _ & V8); [|done|takes_tac].
  apply bind_inv in R as (u & s9 & R9 & R).
  assert (value_of s9 b = value_of s8 b ∧ s_ini s9 = s_ini s8) as [V9 I9].
  { unfold configure_prefix in R9. rewrite gets_bind in R9.
    destruct (MEMC_SESS_STR_INI (prefix (s_ini s8))) as [p|]; [|by injection R9 as _ <-].
    unfold smemc_call, mbind, M_bind in R9. destruct (memcached_prefix_set _ _) as [rc m] eqn:Ep.
    injection R9 as _ <-. split; [|done]. unfold value_of; cbn. by eapply prefix_no_behavior. }
  rewrite (configure_sasl_inv _ _ _ R b Hb), V9.
  rewrite (V8 b Hb), (V7 b Hb), (V6 b Hb), (V5 b Hb), (V4 b Hb), (V3 b Hb), (V2 b Hb), (V1 b Hb)
    by auto.
  assert (s_ini s9 = ini) as -> by (unfold ini; congruence).
  assert (bool_decide (hash = b) = is_ketama b) as ->.
  { destruct Hkb as [Hkb | ->]; [|by rewrite bool_decide_true].
    rewrite Hkb. apply bool_decide_false. intros ->. congruence. }
  clearbody ini. clear - Hb. destruct b; try discriminate Hb; unfold session_setting;
    repeat match goal with |- context[bool_decide (?x = ?y :> memcached_behavior)] =>
      let r := eval vm_compute in (bool_decide (x = y)) in change (bool_decide (x = y)) with r end;
    cbn [is_ketama andb orb]; repeat case_match; rewrite ?orb_true_r, ?orb_false_r in *;
    try done; congruence.
Qed.

#[export] Instance ToySessionBehaviors : SessionBehaviors toy.
Proof.
  constructor.
  - intros m b v m' _ _ [= <-]. cbn. by rewrite lookup_insert_eq.
  - intros m b b' v rc m' _ _ Hne _ [= _ <-]. cbn. rewrite lookup_insert_ne; [done|].
    intros E. by apply Hne, (inj behavior_num).
  - intros m p rc m' n. simpl. by case_match; intros [= _ <-].
  - by intros m user password rc m' n [= _ <-].
Qed.

(** A persistent handle from a request with one failure allowed; this one allows
    none, and the limit stays. *)
Lemma configuration_sets_what_is_on_witness :
  let m := t_set_behaviors {[21 := 1]} toy_new in
  let s := mkSession m (mkSessionData true false false None) toy_session_ini 1700000000 30 [] [] in
  let s' := match s_configure_from_ini_values true s with Ret _ s' => s' | _ => s end in
  server_failure_limit (s_ini s) = 0 ∧ s_configure_from_ini_values true s = Ret true s'
  ∧ value_of s' BEHAVIOR_SERVER_FAILURE_LIMIT = 1.
Proof.
  intros m s s'. split; [reflexivity|].
  assert (s_configure_from_ini_values true s = Ret true s') as R by reflexivity.
  split; [exact R|].
  transitivity (default (value_of s BEHAVIOR_SERVER_FAILURE_LIMIT)
    (session_setting (s_ini s) BEHAVIOR_SERVER_FAILURE_LIMIT)); [|by vm_compute].
  apply (configuration_sets_what_is_on true s s' BEHAVIOR_KETAMA BEHAVIOR_SERVER_FAILURE_LIMIT);
    [constructor; repeat split; done|reflexivity|by left|exact R].
Defined.
