(* ===== verification/Results.v ===== *)
(** * Credentials, the encoding key, and the result of the last command

    [setSaslAuthData], [setEncodingKey], [getResultCode] and [getResultMessage]
    of php_memcached.c. *)

From S2P Require Import Prelude CLib Zend LibMemcached World Keys.
#[local] Open Scope Z_scope.

Definition set_has_sasl_data (b : bool) (u : php_memc_user_data_t) : php_memc_user_data_t :=
  mkUserData (is_persistent u) (compression_enabled u) (encoding_enabled u) (serializer u)
    (compression_type u) (compression_level u) (store_retry_count u) (set_udf_flags u)
    (item_size_limit u) b.
Definition set_encoding_enabled (b : bool) (u : php_memc_user_data_t) : php_memc_user_data_t :=
  mkUserData (is_persistent u) (compression_enabled u) b (serializer u)
    (compression_type u) (compression_level u) (store_retry_count u) (set_udf_flags u)
    (item_size_limit u) (has_sasl_data u).

Section Results.
Context {MC : Type} `{BuildConfig} `{MemcachedNumbers} `{MemcachedControl MC} `{MemcachedAuth MC}
  `{MemcachedErrors MC}.
#[local] Abbreviation M := (M (world MC)).

(** The credentials flag is set before the library is asked. *)
Definition Memcached_setSaslAuthData (user pass : string) : M zval :=
  ok ← php_memc_init_sasl_if_needed MC warn;
  if negb ok then mret ZFalse
  else
    binary ← gets (λ w, behavior_get (w_memc w) BEHAVIOR_BINARY_PROTOCOL);
    if binary =? 0 then
      warn "SASL is only supported with binary protocol";; mret ZFalse
    else
      modify (λ w, with_ud (set_has_sasl_data true (w_ud w)) w);;
      status ← memc_call (λ m, memcached_set_sasl_auth_data m (c_str user) (c_str pass));
      ok ← s_memc_status_handle_result_code status;
      mret (ZBool ok).

Definition Memcached_setEncodingKey (key : string) : M zval :=
  enabled ← gets (λ w, encoding_enabled (w_ud w));
  if (LIBMEMCACHED_VERSION_HEX <? 16777240) && enabled then
    warn "libmemcached versions less than 1.0.18 cannot change encoding key";; mret ZFalse
  else
    status ← memc_call (λ m, memcached_set_encoding_key m key);
    ok ← s_memc_status_handle_result_code status;
    if ok : bool then
      modify (λ w, with_ud (set_encoding_enabled true (w_ud w)) w);; mret ZTrue
    else mret ZFalse.

Definition Memcached_getResultCode : M zval :=
  gets (λ w, ZLong (return_num (rescode (w_obj w)))).

Definition Memcached_getResultMessage : M zval :=
  gets (λ w,
    let text := memcached_strerror (w_memc w) (rescode (w_obj w)) in
    let with_errno := (text ++ ": " ++ strerror (memc_errno (w_obj w)))%string in
    ZStr match rescode (w_obj w) with
         | MEMC_RES_PAYLOAD_FAILURE => "PAYLOAD FAILURE"%string
         | MEMCACHED_ERRNO | MEMCACHED_CONNECTION_SOCKET_CREATE_FAILURE
         | MEMCACHED_UNKNOWN_READ_FAILURE =>
             if negb (memc_errno (w_obj w) =? 0) then with_errno else text
         | _ => text
         end).
End Results.
