(* ===== verification/Ini.v ===== *)
(** * Configuration settings

    The INI entries of php_memcached.c with their handlers, and the module
    globals (php_memcached_private.h) as [PHP_GINIT_FUNCTION] leaves them.  The
    handlers the engine brings along ([OnUpdateLong] and its like) are a type
    class. *)

From Stdlib Require Import Floats.SpecFloat.
From S2P Require Import Prelude CLib Zend LibMemcached World Keys Payload Session.
#[local] Open Scope Z_scope.

(** The engine's handlers: the value they store, [None] for FAILURE. *)
Class ZendIni : Type := {
  OnUpdateBool : option string → bool;
  OnUpdateLong : option string → Z;
  OnUpdateLongGEZero : option string → option Z;
  OnUpdateReal : option string → double
}.

Class ZendIniLaws `{ZendIni} : Prop := {
  on_update_long_range v : is_long (OnUpdateLong v);
  on_update_ge_zero v z : OnUpdateLongGEZero v = Some z → 0 <= z <= LONG_MAX
}.

(** The module globals, less the callbacks of the protocol server.
    [memc.sasl_initialised] is never set after [GINIT] and has no field. *)
Record php_memcached_globals : Type := mkModule {
  session : session_ini;
  consistent_hash_name : option string;
  memc : memc_globals;
  serializer_name : option string;
  compression_name : option string
}.

(** [SERIALIZER_DEFAULT] and [SERIALIZER_DEFAULT_NAME]. *)
Definition SERIALIZER_DEFAULT `{BuildConfig} : Z :=
  if HAVE_MEMCACHED_IGBINARY then SERIALIZER_IGBINARY
  else if HAVE_MEMCACHED_MSGPACK then SERIALIZER_MSGPACK else SERIALIZER_PHP.
Definition SERIALIZER_DEFAULT_NAME `{BuildConfig} : string :=
  if HAVE_MEMCACHED_IGBINARY then "igbinary"
  else if HAVE_MEMCACHED_MSGPACK then "msgpack" else "php".

(** The double nearest to 1.30. *)
Definition double_1_30 : double := SFdiv prec emax (double_of_Z 130) (double_of_Z 100).

(** [PHP_GINIT_FUNCTION(php_memcached)]. *)
Definition GINIT `{BuildConfig} `{MemcachedNumbers} : php_memcached_globals :=
  mkModule
    (mkSessionIni false 150 150 200 30 true true (behavior_num BEHAVIOR_KETAMA) 1 0 true true
       1000 None false None None)
    None
    (mkGlobals 2000 double_1_30 6 COMPRESSION_TYPE_FASTLZ SERIALIZER_DEFAULT 2 0 false false 0)
    None None.

(** The entries, by the field they are for. *)
Inductive ini_entry : Type :=
| sess_locking | sess_lock_wait_min | sess_lock_wait_max | sess_lock_retries | sess_lock_expire
| sess_binary_protocol | sess_consistent_hash | sess_consistent_hash_type
| sess_number_of_replicas | sess_randomize_replica_read | sess_remove_failed_servers
| sess_server_failure_limit | sess_connect_timeout | sess_sasl_username | sess_sasl_password
| sess_persistent | sess_prefix | sess_lock_wait | sess_lock_max_wait
| ini_compression_type | ini_compression_factor | ini_compression_level
| ini_compression_threshold | ini_serializer | ini_store_retry_count | ini_item_size_limit
| default_consistent_hash | default_binary_protocol | default_connect_timeout.

(** The value of an entry that the configuration does not mention. *)
Definition ini_default `{BuildConfig} (e : ini_entry) : string :=
  match e with
  | sess_locking => "1"
  | sess_lock_wait_min | sess_lock_wait_max => "150"
  | sess_lock_retries => "5"
  | sess_lock_expire => "0"
  | sess_binary_protocol => if LIBMEMCACHED_VERSION_HEX <? 16777240 then "0" else "1"
  | sess_consistent_hash => "1"
  | sess_consistent_hash_type => "ketama"
  | sess_number_of_replicas | sess_randomize_replica_read | sess_remove_failed_servers
  | sess_server_failure_limit | sess_connect_timeout => "0"
  | sess_sasl_username | sess_sasl_password => ""
  | sess_persistent => "0"
  | sess_prefix => "memc.sess.key."
  | sess_lock_wait | sess_lock_max_wait => "not set"
  | ini_compression_type => "fastlz"
  | ini_compression_factor => "1.3"
  | ini_compression_level => "3"
  | ini_compression_threshold => "2000"
  | ini_serializer => SERIALIZER_DEFAULT_NAME
  | ini_store_retry_count | ini_item_size_limit => "0"
  | default_consistent_hash | default_binary_protocol | default_connect_timeout => "0"
  end.

(** ** Fields *)

Record iworld : Type := mkIni { i_globals : php_memcached_globals; i_warnings : list string }.

Definition with_session (f : session_ini → session_ini) (i : iworld) : iworld :=
  let g := i_globals i in
  mkIni (mkModule (f (session g)) (consistent_hash_name g) (memc g) (serializer_name g)
           (compression_name g)) (i_warnings i).
Definition with_memc_globals (f : memc_globals → memc_globals) (i : iworld) : iworld :=
  let g := i_globals i in
  mkIni (mkModule (session g) (consistent_hash_name g) (f (memc g)) (serializer_name g)
           (compression_name g)) (i_warnings i).
Definition with_names (hash ser comp : option string) (i : iworld) : iworld :=
  let g := i_globals i in mkIni (mkModule (session g) hash (memc g) ser comp) (i_warnings i).

Definition iwarn (x : string) : M iworld unit :=
  modify (λ i, mkIni (i_globals i) (i_warnings i ++ [x])).

#[export] Instance ini_entry_eq_dec : EqDecision ini_entry.
Proof. solve_decision. Defined.

(** The field of the entry [e] gets the value of its type. *)
Definition store_session (e : ini_entry) (b : bool) (z : Z) (str : option string)
    (s : session_ini) : session_ini :=
  let put {A} (e' : ini_entry) (new old : A) : A := if decide (e = e') then new else old in
  mkSessionIni
    (put sess_locking b (lock_enabled s))
    (put sess_lock_wait_max z (lock_wait_max s))
    (put sess_lock_wait_min z (lock_wait_min s))
    (put sess_lock_retries z (lock_retries s))
    (put sess_lock_expire z (lock_expiration s))
    (put sess_binary_protocol b (binary_protocol_enabled s))
    (put sess_consistent_hash b (consistent_hash_enabled s))
    (put sess_consistent_hash_type z (consistent_hash_type s))
    (put sess_server_failure_limit z (server_failure_limit s))
    (put sess_number_of_replicas z (number_of_replicas s))
    (put sess_randomize_replica_read b (randomize_replica_read_enabled s))
    (put sess_remove_failed_servers b (remove_failed_servers_enabled s))
    (put sess_connect_timeout z (connect_timeout s))
    (put sess_prefix str (prefix s))
    (put sess_persistent b (persistent_enabled s))
    (put sess_sasl_username str (sasl_username s))
    (put sess_sasl_password str (sasl_password s)).

Definition store_memc (e : ini_entry) (b : bool) (z : Z) (d : double) (g : memc_globals)
    : memc_globals :=
  let put {A} (e' : ini_entry) (new old : A) : A := if decide (e = e') then new else old in
  mkGlobals
    (put ini_compression_threshold z (g_compression_threshold g))
    (put ini_compression_factor d (g_compression_factor g))
    (put ini_compression_level z (g_compression_level g))
    (put ini_compression_type z (g_compression_type g))
    (put ini_serializer z (g_serializer_type g))
    (put ini_store_retry_count z (g_store_retry_count g))
    (put ini_item_size_limit z (g_item_size_limit g))
    (put default_consistent_hash b (g_consistent_hash_enabled g))
    (put default_binary_protocol b (g_binary_protocol_enabled g))
    (put default_connect_timeout z (g_connect_timeout g)).

Section Handlers.
Context `{ZendIni} `{BuildConfig} `{MemcachedNumbers}.

(** [OnUpdateString] on one of the three names. *)
Definition store_name (e : ini_entry) (v : option string) : M iworld bool :=
  g ← gets i_globals;
  let put e' old := if decide (e = e') then v else old in
  modify (with_names (put sess_consistent_hash_type (consistent_hash_name g))
            (put ini_serializer (serializer_name g))
            (put ini_compression_type (compression_name g)));;
  mret true.

Definition set_session_field (e : ini_entry) (b : bool) (z : Z) (str : option string)
    : M iworld bool :=
  modify (with_session (store_session e b z str));; mret true.
Definition set_memc_field (e : ini_entry) (b : bool) (z : Z) (d : double) : M iworld bool :=
  modify (with_memc_globals (store_memc e b z d));; mret true.

(** The number a name stands for; [None] when it is not one of the names. *)
Definition compression_named (v : option string) : option Z :=
  match v with
  | None => Some COMPRESSION_TYPE_FASTLZ
  | Some s =>
      if String.eqb (c_str s) "fastlz" then Some COMPRESSION_TYPE_FASTLZ
      else if String.eqb (c_str s) "zlib" then Some COMPRESSION_TYPE_ZLIB
      else if HAVE_ZSTD_H && String.eqb (c_str s) "zstd" then Some COMPRESSION_TYPE_ZSTD
      else None
  end.

Definition OnUpdateCompressionType (v : option string) : M iworld bool :=
  match compression_named v with
  | Some z =>
      set_memc_field ini_compression_type false z (double_of_Z 0);;
      store_name ini_compression_type v
  | None => mret false
  end.

Definition serializer_named (v : option string) : option Z :=
  match v with
  | None => Some SERIALIZER_DEFAULT
  | Some s =>
      if String.eqb (c_str s) "php" then Some SERIALIZER_PHP
      else if HAVE_MEMCACHED_IGBINARY && String.eqb (c_str s) "igbinary"
      then Some SERIALIZER_IGBINARY
      else if HAVE_JSON_API && String.eqb (c_str s) "json" then Some SERIALIZER_JSON
      else if HAVE_JSON_API && String.eqb (c_str s) "json_array" then Some SERIALIZER_JSON_ARRAY
      else if HAVE_MEMCACHED_MSGPACK && String.eqb (c_str s) "msgpack"
      then Some SERIALIZER_MSGPACK
      else None
  end.

Definition OnUpdateSerializer (v : option string) : M iworld bool :=
  match serializer_named v with
  | Some z =>
      set_memc_field ini_serializer false z (double_of_Z 0);; store_name ini_serializer v
  | None => mret false
  end.

(** The handler reads [new_value] without asking whether it is NULL. *)
Definition OnUpdateDeprecatedLockValue (v : option string) : M iworld bool :=
  match v with
  | None => undef
  | Some s =>
      when ((zstr_len s >? 0) && negb (String.eqb (c_str s) "not set"))
        (iwarn "memcached.sess_lock_wait and memcached.sess_lock_max_wait are deprecated. Please update your configuration to use memcached.sess_lock_wait_min, memcached.sess_lock_wait_max and memcached.sess_lock_retries");;
      mret false
  end.

Definition OnUpdateSessionPrefixString (v : option string) : M iworld bool :=
  let store := set_session_field sess_prefix false 0 v in
  match v with
  | Some s =>
      if zstr_len s >? 0 then
        if zstr_len s >? MEMCACHED_MAX_KEY then
          iwarn "memcached.sess_prefix too long (max: %d)";; mret false
        else if negb (s_memc_valid_key_ascii s 1) then
          iwarn "memcached.sess_prefix cannot contain whitespace or control characters";; mret false
        else store
      else store
  | None => store
  end.

Definition hash_named (v : option string) : option Z :=
  match v with
  | None => Some (behavior_num BEHAVIOR_KETAMA)
  | Some s =>
      if String.eqb (c_str s) "ketama" then Some (behavior_num BEHAVIOR_KETAMA)
      else if String.eqb (c_str s) "ketama_weighted"
      then Some (behavior_num BEHAVIOR_KETAMA_WEIGHTED)
      else None
  end.

Definition OnUpdateConsistentHash (v : option string) : M iworld bool :=
  match hash_named v with
  | Some z =>
      set_session_field sess_consistent_hash_type false z None;;
      store_name sess_consistent_hash_type v
  | None =>
      iwarn "memcached.sess_consistent_hash_type must be ketama or ketama_weighted";; mret false
  end.

(** An entry gets a new value: the table between [PHP_INI_BEGIN] and [PHP_INI_END]. *)
Definition ini_update (e : ini_entry) (v : option string) : M iworld bool :=
  let ge_zero (store : Z → M iworld bool) :=
    match OnUpdateLongGEZero v with Some z => store z | None => mret false end in
  let session_long z := set_session_field e false z None in
  let memc_long z := set_memc_field e false z (double_of_Z 0) in
  match e with
  | sess_locking | sess_binary_protocol | sess_consistent_hash | sess_randomize_replica_read
  | sess_remove_failed_servers | sess_persistent =>
      set_session_field e (OnUpdateBool v) 0 None
  | sess_lock_wait_min | sess_lock_wait_max | sess_lock_expire | sess_number_of_replicas
  | sess_server_failure_limit => ge_zero session_long
  | sess_lock_retries | sess_connect_timeout => session_long (OnUpdateLong v)
  | sess_consistent_hash_type => OnUpdateConsistentHash v
  | sess_sasl_username | sess_sasl_password => set_session_field e false 0 v
  | sess_prefix => OnUpdateSessionPrefixString v
  | sess_lock_wait | sess_lock_max_wait => OnUpdateDeprecatedLockValue v
  | ini_compression_type => OnUpdateCompressionType v
  | ini_compression_factor => set_memc_field e false 0 (OnUpdateReal v)
  | ini_compression_level | ini_compression_threshold | ini_store_retry_count
  | default_connect_timeout => memc_long (OnUpdateLong v)
  | ini_serializer => OnUpdateSerializer v
  | ini_item_size_limit => ge_zero memc_long
  | default_consistent_hash | default_binary_protocol =>
      set_memc_field e (OnUpdateBool v) 0 (double_of_Z 0)
  end.

(** A run of updates: those of the configuration files, of [ini_set] and so on. *)
Fixpoint ini_updates (l : list (ini_entry * option string)) : M iworld unit :=
  match l with
  | [] => mret tt
  | (e, v) :: l' => _ ← ini_update e v; ini_updates l'
  end.
End Handlers.
