(* ===== verification/IniProofs.v ===== *)
(** * Settings: whatever is configured, objects and sessions start out valid *)

From Stdlib Require Import Floats.SpecFloat.
From S2P Require Import Prelude CLib Flags Zend LibMemcached World Toy Keys Payload Options OptionsProofs Lifecycle Session Ini.
#[local] Open Scope Z_scope.

(** A session prefix the key check would let through. *)
Definition prefix_ok `{MemcachedNumbers} (p : option string) : Prop :=
  match p with
  | Some s => zstr_len s <= MEMCACHED_MAX_KEY ∧ s_memc_valid_key_ascii s 1 = true
  | None => True
  end.

(** What the session code takes for granted of its settings. *)
Record session_ok `{MemcachedNumbers} (s : session_ini) : Prop := {
  ok_wait_min : 0 <= lock_wait_min s <= LONG_MAX;
  ok_wait_max : 0 <= lock_wait_max s <= LONG_MAX;
  ok_replicas : 0 <= number_of_replicas s <= LONG_MAX;
  ok_limit : 0 <= server_failure_limit s <= LONG_MAX;
  ok_hash : consistent_hash_type s = behavior_num BEHAVIOR_KETAMA
            ∨ consistent_hash_type s = behavior_num BEHAVIOR_KETAMA_WEIGHTED;
  ok_prefix : prefix_ok (prefix s)
}.

Section IniProofs.
Context `{ZendIniLaws} `{BuildConfig} `{MemcachedNumbersLaws}.

(** What construction takes from the globals. *)
Definition memc_ok (g : memc_globals) : bool :=
  compression_type_ok (g_compression_type g) && serializer_ok (g_serializer_type g)
  && (0 <=? g_item_size_limit g) && (g_item_size_limit g <=? LONG_MAX).

Definition settings_ok (i : iworld) : Prop :=
  memc_ok (memc (i_globals i)) = true ∧ session_ok (session (i_globals i)).

Lemma new_user_data_ok g p : memc_ok g = true → ud_ok (new_user_data g p) = true.
Proof.
  unfold memc_ok, ud_ok, new_user_data. cbn. intros Hg. rewrite Hg. by vm_compute.
Qed.

Lemma compression_named_ok v z : compression_named v = Some z → compression_type_ok z = true.
Proof.
  unfold compression_named, compression_type_ok. intros Hz.
  destruct HAVE_ZSTD_H; cbn [andb] in Hz; repeat case_match; simplify_eq; reflexivity.
Qed.

Lemma serializer_named_ok v z : serializer_named v = Some z → serializer_ok z = true.
Proof.
  unfold serializer_named, serializer_ok, SERIALIZER_DEFAULT. intros Hz.
  destruct HAVE_MEMCACHED_IGBINARY, HAVE_JSON_API, HAVE_MEMCACHED_MSGPACK;
    cbn [andb] in Hz; repeat case_match; simplify_eq; reflexivity.
Qed.

Lemma hash_named_ok v z :
  hash_named v = Some z →
  z = behavior_num BEHAVIOR_KETAMA ∨ z = behavior_num BEHAVIOR_KETAMA_WEIGHTED.
Proof. unfold hash_named. intros Hz. repeat case_match; simplify_eq; auto. Qed.

Lemma GINIT_ok : settings_ok (mkIni GINIT []).
Proof.
  split.
  - unfold memc_ok, GINIT, serializer_ok, compression_type_ok, SERIALIZER_DEFAULT. cbn.
    destruct HAVE_MEMCACHED_IGBINARY, HAVE_MEMCACHED_MSGPACK, HAVE_JSON_API, HAVE_ZSTD_H; reflexivity.
  - constructor; cbn; auto; by vm_compute.
Qed.

(** Every update returns; a refused one changes no setting, and an accepted one
    leaves valid settings. *)
Definition update_ok (m : M iworld bool) : Prop :=
  ∀ i, settings_ok i → ∃ b i', m i = Ret b i' ∧ settings_ok i'
    ∧ (b = false → i_globals i' = i_globals i).

Lemma update_refused x : update_ok (iwarn x;; mret false).
Proof. intros i [Hm Hs]. eexists _, _. split; [reflexivity|]. by split. Qed.

Lemma update_false : update_ok (mret false).
Proof. intros i Hi. eexists _, _. split; [reflexivity|]. by split. Qed.

Lemma update_session e b z str :
  (∀ s, session_ok s → session_ok (store_session e b z str s)) →
  update_ok (set_session_field e b z str).
Proof.
  intros Hk i [Hm Hs]. eexists _, _. split; [reflexivity|]. split; [|done]. split; [exact Hm|].
  by apply Hk.
Qed.

Lemma update_memc e b z d :
  (∀ g, memc_ok g = true → memc_ok (store_memc e b z d g) = true) →
  update_ok (set_memc_field e b z d).
Proof.
  intros Hk i [Hm Hs]. eexists _, _. split; [reflexivity|]. split; [|done]. split; [|exact Hs].
  by apply Hk.
Qed.

Lemma update_named e (m : M iworld bool) v :
  (∀ i, ∃ i', m i = Ret true i' ∧ (settings_ok i → settings_ok i')) →
  update_ok (m;; store_name e v).
Proof.
  intros Hm i Hi. destruct (Hm i) as (i' & E & Hk). rewrite (bind_Ret _ _ _ _ _ E).
  unfold store_name. rewrite gets_bind, modify_bind.
  eexists _, _. split; [reflexivity|]. split; [|done]. by apply Hk.
Qed.

Lemma ini_update_ok e v :
  (e = sess_lock_wait ∨ e = sess_lock_max_wait → v ≠ None) → update_ok (ini_update e v).
Proof.
  intros Hdep. unfold ini_update.
  destruct e eqn:Ee; try (apply update_session; intros s [? ? ? ? ? ?]; by constructor);
    try (apply update_memc; intros g Hg; exact Hg).
  all: try (destruct (OnUpdateLongGEZero v) as [z|] eqn:Ez; [|apply update_false];
    apply on_update_ge_zero in Ez).
  all: try (apply update_session; intros s [? ? ? ? ? ?]; by constructor).
  - unfold OnUpdateConsistentHash. destruct (hash_named v) as [z|] eqn:Ez; [|apply update_refused].
    apply hash_named_ok in Ez. apply update_named. intros i. eexists. split; [reflexivity|].
    intros [Hm [? ? ? ? ? ?]]. split; [exact Hm|]. by constructor.
  - unfold OnUpdateSessionPrefixString.
    assert (∀ s, v = Some s → zstr_len s <= MEMCACHED_MAX_KEY → s_memc_valid_key_ascii s 1 = true →
      update_ok (set_session_field sess_prefix false 0 v)) as Hput.
    { intros s -> Hl Hk. apply update_session. intros s0 [? ? ? ? ? ?]. by constructor. }
    destruct v as [s|]; [|apply update_session; intros s0 [? ? ? ? ? ?]; by constructor].
    destruct (Z.gtb_spec (zstr_len s) 0) as [Hs|Hs].
    + destruct (Z.gtb_spec (zstr_len s) MEMCACHED_MAX_KEY); [apply update_refused|].
      destruct (s_memc_valid_key_ascii s 1) eqn:Hk; [by apply (Hput s)|apply update_refused].
    + apply (Hput s); [done| |].
      * rewrite max_key_251. lia.
      * destruct s; [done|]. unfold zstr_len in Hs. cbn in Hs. lia.
  - destruct v as [s|]; [|by destruct Hdep; auto]. cbn. destruct (_ && _); [apply update_refused|].
    apply update_false.
  - destruct v as [s|]; [|by destruct Hdep; auto]. cbn. destruct (_ && _); [apply update_refused|].
    apply update_false.
  - unfold OnUpdateCompressionType. destruct (compression_named v) as [z|] eqn:Ez; [|apply update_false].
    apply compression_named_ok in Ez. apply update_named. intros i. eexists. split; [reflexivity|].
    intros [Hm Hs]. split; [|exact Hs]. unfold memc_ok in *. cbn.
    repeat case_decide; try done. rewrite Ez.
    destruct (compression_type_ok (g_compression_type _)); [exact Hm|done].
  - unfold OnUpdateSerializer. destruct (serializer_named v) as [z|] eqn:Ez; [|apply update_false].
    apply serializer_named_ok in Ez. apply update_named. intros i. eexists. split; [reflexivity|].
    intros [Hm Hs]. split; [|exact Hs]. unfold memc_ok in *. cbn.
    repeat case_decide; try done. rewrite Ez.
    destruct (compression_type_ok (g_compression_type _)), (serializer_ok (g_serializer_type _)); done.
  - apply update_memc. intros g Hg. unfold memc_ok in *. cbn.
    repeat case_decide; try done.
    apply andb_true_iff in Hg as [[Hg _]%andb_true_iff _]. rewrite Hg. lia.
Qed.

Lemma ini_updates_ok l :
  (∀ e v, (e, v) ∈ l → e = sess_lock_wait ∨ e = sess_lock_max_wait → v ≠ None) →
  ∀ i, settings_ok i → ∃ i', ini_updates l i = Ret tt i' ∧ settings_ok i'.
Proof.
  induction l as [|[e v] l IH]; intros Hl i Hi; [by exists i|]. cbn [ini_updates].
  destruct (ini_update_ok e v (Hl e v (list_elem_of_here _ _)) i Hi) as (b & i1 & E & Hi1 & _).
  rewrite (bind_Ret _ _ _ _ _ E). apply IH; [|done]. intros e' v' Hin. by apply Hl, list_elem_of_further.
Qed.
End IniProofs.

(** C22: whatever the configuration files and [ini_set] ask for, the settings stay
    usable: every update returns, a refused one changes no setting, and the
    settings that result give every new object valid user data and every session
    non-negative waits, counts and limits, one of the two hashes and a prefix the
    key check accepts. *)
Theorem settings_stay_valid `{ZendIniLaws} `{BuildConfig} `{MemcachedNumbersLaws}
    (l : list (ini_entry * option string)) :
  (∀ e v, (e, v) ∈ l → e = sess_lock_wait ∨ e = sess_lock_max_wait → v ≠ None) →
  ∃ i, ini_updates l (mkIni GINIT []) = Ret tt i
    ∧ (∀ persistent, ud_ok (new_user_data (memc (i_globals i)) persistent) = true)
    ∧ session_ok (session (i_globals i))
    ∧ ∀ e v i', (e = sess_lock_wait ∨ e = sess_lock_max_wait → v ≠ None) →
        ini_update e v i = Ret false i' → i_globals i' = i_globals i.
Proof.
  intros Hl. destruct (ini_updates_ok l Hl _ GINIT_ok) as (i & R & Hi). exists i.
  split; [exact R|]. split; [intros p; by apply new_user_data_ok, Hi|]. split; [apply Hi|].
  intros e v i' Hdep R'. destruct (ini_update_ok e v Hdep i Hi) as (b & i2 & E & _ & Hf).
  rewrite E in R'. injection R' as -> ->. by apply Hf.
Qed.

(** ** A concrete engine *)
Definition toy_ini_long (v : option string) : Z := s64 (strtol 10 (default "" v)%string).1.1.1.

#[export] Instance ToyIni : ZendIni := {|
  OnUpdateBool v := bool_decide (v = Some "1"%string);
  OnUpdateLong := toy_ini_long;
  OnUpdateLongGEZero v := if 0 <=? toy_ini_long v then Some (toy_ini_long v) else None;
  OnUpdateReal v := double_of_Z (toy_ini_long v)
|}.

#[export] Instance ToyIniLaws : ZendIniLaws.
Proof.
  constructor.
  - intros v. apply s64_range.
  - intros v z. cbn. destruct (Z.leb_spec 0 (toy_ini_long v)); [|done]. intros [= <-].
    pose proof (s64_range (strtol 10 (default "" v)%string).1.1.1) as Hr.
    unfold is_long, toy_ini_long in *. lia.
Qed.

(** A prefix with a blank in it is refused, the rest is taken. *)
Definition toy_settings : list (ini_entry * option string) :=
  [(sess_prefix, Some "my prefix"); (ini_serializer, Some "json"); (ini_item_size_limit, Some "1000");
   (sess_lock_wait, Some "not set")]%string.

Lemma settings_stay_valid_witness :
  ∃ i, ini_updates toy_settings (mkIni GINIT []) = Ret tt i
    ∧ (∀ persistent, ud_ok (new_user_data (memc (i_globals i)) persistent) = true)
    ∧ session_ok (session (i_globals i))
    ∧ ∀ e v i', (e = sess_lock_wait ∨ e = sess_lock_max_wait → v ≠ None) →
        ini_update e v i = Ret false i' → i_globals i' = i_globals i.
Proof.
  apply (settings_stay_valid toy_settings). intros e v Hin Hdep.
  repeat (apply elem_of_cons in Hin as [[= -> ->]|Hin]; [by destruct Hdep|]).
  by apply elem_of_nil in Hin.
Defined.
