(* ===== verification/ProtoServer.v ===== *)
(** * The protocol server: callbacks and protocol handlers

    The handlers of php_memcached_server.c, which answer the commands of a
    client with a PHP callback, and the registration of callbacks
    ([MemcachedServer::on], php_memcached.c).  The event loop is in ProtoLoop.

    A callable is a reference-counted cell of the engine; calling or releasing
    one that was freed is [Undef]. *)

From S2P Require Import Prelude CLib Zend.
#[local] Open Scope Z_scope.

(** [php_memc_event_t], with its numbers; MIN is -1 and MAX 15. *)
Inductive php_memc_event_t : Type :=
| MEMC_SERVER_ON_CONNECT | MEMC_SERVER_ON_ADD | MEMC_SERVER_ON_APPEND
| MEMC_SERVER_ON_DECREMENT | MEMC_SERVER_ON_DELETE | MEMC_SERVER_ON_FLUSH
| MEMC_SERVER_ON_GET | MEMC_SERVER_ON_INCREMENT | MEMC_SERVER_ON_NOOP
| MEMC_SERVER_ON_PREPEND | MEMC_SERVER_ON_QUIT | MEMC_SERVER_ON_REPLACE
| MEMC_SERVER_ON_SET | MEMC_SERVER_ON_STAT | MEMC_SERVER_ON_VERSION.

Definition event_num (e : php_memc_event_t) : Z :=
  match e with
  | MEMC_SERVER_ON_CONNECT => 0 | MEMC_SERVER_ON_ADD => 1 | MEMC_SERVER_ON_APPEND => 2
  | MEMC_SERVER_ON_DECREMENT => 3 | MEMC_SERVER_ON_DELETE => 4 | MEMC_SERVER_ON_FLUSH => 5
  | MEMC_SERVER_ON_GET => 6 | MEMC_SERVER_ON_INCREMENT => 7 | MEMC_SERVER_ON_NOOP => 8
  | MEMC_SERVER_ON_PREPEND => 9 | MEMC_SERVER_ON_QUIT => 10 | MEMC_SERVER_ON_REPLACE => 11
  | MEMC_SERVER_ON_SET => 12 | MEMC_SERVER_ON_STAT => 13 | MEMC_SERVER_ON_VERSION => 14
  end.
Definition MEMC_SERVER_ON_MIN : Z := -1.
Definition MEMC_SERVER_ON_MAX : Z := 15.

(** libmemcached's protocol status codes. *)
Class ProtocolNumbers : Type := {
  PROTOCOL_BINARY_RESPONSE_SUCCESS : Z;
  PROTOCOL_BINARY_RESPONSE_KEY_ENOENT : Z;
  PROTOCOL_BINARY_RESPONSE_UNKNOWN_COMMAND : Z
}.

Class ProtocolNumbersLaws `{ProtocolNumbers} : Prop := {
  success_zero : PROTOCOL_BINARY_RESPONSE_SUCCESS = 0;
  unknown_command_u32 : 0 < PROTOCOL_BINARY_RESPONSE_UNKNOWN_COMMAND < 2 ^ 32;
  key_enoent_u32 : 0 < PROTOCOL_BINARY_RESPONSE_KEY_ENOENT < 2 ^ 32
}.

(** A client: its socket, and [on_connect_invoked]. *)
Record php_memc_client_t : Type := mkClient { cl_sock : nat; on_connect_invoked : bool }.

(** [p_callbacks] holds the slots whose [fci.size] is positive; [p_refs] the
    reference counts of the callables that are alive.  The rest is the event
    loop's: the client structures, the sockets that are open, and the clients
    that wait for an event. *)
Record pworld : Type := mkServer {
  p_callbacks : gmap Z nat;
  p_refs : gmap nat nat;
  p_warnings : list string;
  p_clients : gmap nat php_memc_client_t;
  p_next : nat;
  p_open : gset nat;
  p_pending : list nat
}.

#[local] Abbreviation M := (M pworld).

Definition with_callbacks c (w : pworld) : pworld :=
  mkServer c (p_refs w) (p_warnings w) (p_clients w) (p_next w) (p_open w) (p_pending w).
Definition with_refs r (w : pworld) : pworld :=
  mkServer (p_callbacks w) r (p_warnings w) (p_clients w) (p_next w) (p_open w) (p_pending w).
Definition with_pwarning x (w : pworld) : pworld :=
  mkServer (p_callbacks w) (p_refs w) (p_warnings w ++ [x]) (p_clients w) (p_next w) (p_open w)
    (p_pending w).
Definition with_clients c (w : pworld) : pworld :=
  mkServer (p_callbacks w) (p_refs w) (p_warnings w) c (p_next w) (p_open w) (p_pending w).
Definition with_open o (w : pworld) : pworld :=
  mkServer (p_callbacks w) (p_refs w) (p_warnings w) (p_clients w) (p_next w) o (p_pending w).
Definition with_pending l (w : pworld) : pworld :=
  mkServer (p_callbacks w) (p_refs w) (p_warnings w) (p_clients w) (p_next w) (p_open w) l.

Definition pwarn (x : string) : M unit := modify (with_pwarning x).

(** What a call of a callable gives: whether it could be called, its return value
    ([None] when it left none), and what the parameters that are references
    hold afterwards. *)
Record call_result : Type := mkCallResult {
  call_ok : bool;
  call_return : option zval;
  call_refs : list zval
}.

(** The code of the script's callables, and the properties of its objects. *)
Class UserFunctions : Type := {
  user_function : nat → list zval → M call_result;
  object_properties : Z → zarray
}.

(** A variable of a handler: made a reference with [ZVAL_MAKE_REF] or not.  The
    type of a reference is IS_REFERENCE, whatever it refers to. *)
Inductive slot : Type := Plain (v : zval) | Reference (v : zval).

Definition is_null (z : slot) : bool := match z with Plain ZNull => true | _ => false end.
Definition is_string (z : slot) : bool := match z with Plain (ZStr _) => true | _ => false end.
Definition slot_value (z : slot) : zval := match z with Plain v | Reference v => v end.

Section Callbacks.
Context `{ZendRuntime} `{ProtocolNumbers} `{UserFunctions}.

(** [MEMC_HAS_CB]. *)
Definition MEMC_HAS_CB (e : php_memc_event_t) (w : pworld) : bool :=
  bool_decide (is_Some (p_callbacks w !! event_num e)).

(** [zend_call_function]; [MEMC_GET_CB] is only used when there is a callback. *)
Definition zend_call_function (e : php_memc_event_t) (params : list zval) : M call_result :=
  w ← get;
  match p_callbacks w !! event_num e with
  | None => undef
  | Some f => match p_refs w !! f with None => undef | Some _ => user_function f params end
  end.

(** The status, a [long] that the handlers store in the 32-bit status type, and
    the contents of the reference parameters. *)
Definition s_invoke_php_callback (e : php_memc_event_t) (params : list zval)
    : M (Z * list zval) :=
  r ← zend_call_function e params;
  when (negb (call_ok r)) (pwarn "Failed to invoke callback %s()");;
  mret (match call_return r with
        | None => PROTOCOL_BINARY_RESPONSE_UNKNOWN_COMMAND
        | Some v => u32 (zval_get_long v)
        end, call_refs r).

(** The guard every handler starts with. *)
Definition with_callback {A} (e : php_memc_event_t) (none : Z → A) (k : M A) : M A :=
  has ← gets (MEMC_HAS_CB e);
  if has : bool then k else mret (none PROTOCOL_BINARY_RESPONSE_UNKNOWN_COMMAND).

(** The [i]-th reference parameter after the call; it held [v] before. *)
Definition ref_after (refs : list zval) (i : nat) (v : zval) : zval := default v (refs !! i).

(** [MEMC_MAKE_RESULT_CAS]: the CAS value comes back as a double. *)
Definition MEMC_MAKE_RESULT_CAS (v : zval) : Z := double_to_u64 (zval_get_double v).

(** Handlers answer their status and what they wrote through their pointers
    ([None]: nothing).  [cookie] is the text of the client's pointer. *)
Definition s_add_handler (cookie key data : string) (flags exptime : Z) : M (Z * option Z) :=
  with_callback MEMC_SERVER_ON_ADD (λ s, (s, None)) (
    r ← s_invoke_php_callback MEMC_SERVER_ON_ADD
          [ZStr cookie; ZStr key; ZStr data; ZLong flags; ZLong exptime; ZNull];
    mret (r.1, Some (MEMC_MAKE_RESULT_CAS (ref_after r.2 0 ZNull)))).

Definition s_append_prepend_handler (event : php_memc_event_t) (cookie key data : string)
    (cas : Z) : M (Z * option Z) :=
  with_callback event (λ s, (s, None)) (
    r ← s_invoke_php_callback event
          [ZStr cookie; ZStr key; ZStr data; ZDouble (double_of_Z cas); ZNull];
    mret (r.1, Some (MEMC_MAKE_RESULT_CAS (ref_after r.2 0 ZNull)))).

Definition s_append_handler := s_append_prepend_handler MEMC_SERVER_ON_APPEND.
Definition s_prepend_handler := s_append_prepend_handler MEMC_SERVER_ON_PREPEND.

(** Answers the status, the new value of the counter and its CAS value. *)
Definition s_incr_decr_handler (event : php_memc_event_t) (cookie key : string)
    (delta initial expiration : Z) : M (Z * option (Z * Z)) :=
  with_callback event (λ s, (s, None)) (
    r ← s_invoke_php_callback event
          [ZStr cookie; ZStr key; ZLong (s64 delta); ZLong (s64 initial); ZLong expiration;
           ZLong 0; ZNull];
    mret (r.1, Some (u64 (zval_get_long (ref_after r.2 0 (ZLong 0))),
                     MEMC_MAKE_RESULT_CAS (ref_after r.2 1 ZNull)))).

Definition s_increment_handler := s_incr_decr_handler MEMC_SERVER_ON_INCREMENT.
Definition s_decrement_handler := s_incr_decr_handler MEMC_SERVER_ON_DECREMENT.

Definition s_delete_handler (cookie key : string) (cas : Z) : M Z :=
  with_callback MEMC_SERVER_ON_DELETE id (
    r ← s_invoke_php_callback MEMC_SERVER_ON_DELETE
          [ZStr cookie; ZStr key; ZDouble (double_of_Z cas)];
    mret r.1).

Definition s_flush_handler (cookie : string) (when_ : Z) : M Z :=
  with_callback MEMC_SERVER_ON_FLUSH id (
    r ← s_invoke_php_callback MEMC_SERVER_ON_FLUSH [ZStr cookie; ZLong when_]; mret r.1).

(** The bytes a response handler sees: it takes a 16-bit or 32-bit length. *)
Definition cut16 (s : string) : string := String.substring 0 (Z.to_nat (u16 (zstr_len s))) s.
Definition cut32 (s : string) : string := String.substring 0 (Z.to_nat (u32 (zstr_len s))) s.

(** [response] gets the key, the value, the flags and the CAS value. *)
Definition s_get_handler (cookie key : string)
    (response : string → string → Z → Z → M Z) : M Z :=
  with_callback MEMC_SERVER_ON_GET id (
    r ← s_invoke_php_callback MEMC_SERVER_ON_GET [ZStr cookie; ZStr key; ZNull; ZNull; ZNull];
    let zvalue := Reference (ref_after r.2 0 ZNull) in
    let zflags := Reference (ref_after r.2 1 ZNull) in
    let zresult_cas := Reference (ref_after r.2 2 ZNull) in
    if r.1 =? PROTOCOL_BINARY_RESPONSE_SUCCESS then
      if is_null zvalue then mret PROTOCOL_BINARY_RESPONSE_KEY_ENOENT
      else
        let text := if is_string zvalue then match zvalue with Plain (ZStr s) => s | _ => "" end
                    else zval_get_string (slot_value zvalue) in
        let flags := match zflags with Plain (ZLong l) => u32 l | _ => 0 end in
        response key (cut32 text) flags (MEMC_MAKE_RESULT_CAS (slot_value zresult_cas))
    else mret r.1).

Definition s_noop_handler (cookie : string) : M Z :=
  with_callback MEMC_SERVER_ON_NOOP id (
    r ← s_invoke_php_callback MEMC_SERVER_ON_NOOP [ZStr cookie]; mret r.1).

Definition s_quit_handler (cookie : string) : M Z :=
  with_callback MEMC_SERVER_ON_QUIT id (
    r ← s_invoke_php_callback MEMC_SERVER_ON_QUIT [ZStr cookie]; mret r.1).

Definition s_set_replace_handler (event : php_memc_event_t) (cookie key data : string)
    (flags expiration cas : Z) : M (Z * option Z) :=
  with_callback event (λ s, (s, None)) (
    r ← s_invoke_php_callback event
          [ZStr cookie; ZStr key; ZStr data; ZLong flags; ZLong expiration;
           ZDouble (double_of_Z cas); ZNull];
    mret (r.1, Some (MEMC_MAKE_RESULT_CAS (ref_after r.2 0 ZNull)))).

Definition s_replace_handler := s_set_replace_handler MEMC_SERVER_ON_REPLACE.
Definition s_set_handler := s_set_replace_handler MEMC_SERVER_ON_SET.

(** [convert_to_array]. *)
Definition convert_to_array (v : zval) : zarray :=
  match v with
  | ZArr a => a
  | ZNull => []
  | ZObj h => object_properties h
  | _ => [(KInt 0, v)]
  end.

(** The loop over the statistics: it stops at the first response that fails. *)
Fixpoint send_stats (stats : zarray) (response : string → string → M Z) (retval : Z) : M Z :=
  match stats with
  | [] => mret retval
  | (key, val) :: rest =>
      let name := match key with KStr s => s | KInt idx => ldec idx end in
      retval ← response (cut16 name) (cut32 (zval_get_string val));
      if negb (retval =? PROTOCOL_BINARY_RESPONSE_SUCCESS) then mret retval
      else send_stats rest response retval
  end.

(** [key] is [None] when the client sent none, or an empty one. *)
Definition s_stat_handler (cookie : string) (key : option string)
    (response : string → string → M Z) : M Z :=
  with_callback MEMC_SERVER_ON_STAT id (
    let zkey := match key with
                | Some k => if zstr_len k =? 0 then ZNull else ZStr k
                | None => ZNull
                end in
    r ← s_invoke_php_callback MEMC_SERVER_ON_STAT [ZStr cookie; zkey; ZArr []];
    if r.1 =? PROTOCOL_BINARY_RESPONSE_SUCCESS
    then send_stats (convert_to_array (ref_after r.2 0 (ZArr []))) response r.1
    else mret r.1).

Definition s_version_handler (cookie : string) (response : string → M Z) : M Z :=
  with_callback MEMC_SERVER_ON_VERSION id (
    r ← s_invoke_php_callback MEMC_SERVER_ON_VERSION [ZStr cookie; ZNull];
    if r.1 =? PROTOCOL_BINARY_RESPONSE_SUCCESS
    then response (cut32 (zval_get_string (ref_after r.2 0 ZNull)))
    else mret r.1).

(** ** Registration *)

(** One reference to a callable less; the last one frees it. *)
Definition release (f : nat) : M unit :=
  w ← get;
  match p_refs w !! f with
  | None | Some O => undef
  | Some (S O) => modify (λ w, with_refs (delete f (p_refs w)) w)
  | Some (S n) => modify (λ w, with_refs (<[f := n]> (p_refs w)) w)
  end.

Definition addref (f : nat) : M unit :=
  w ← get;
  match p_refs w !! f with
  | None => undef
  | Some n => modify (λ w, with_refs (<[f := S n]> (p_refs w)) w)
  end.

(** [s_destroy_cb]: the slot keeps its [fci]. *)
Definition s_destroy_cb (event : Z) : M unit :=
  w ← get;
  match p_callbacks w !! event with Some f => release f | None => mret tt end.

(** [MemcachedServer::on]; [fci] is [None] when the script passes NULL.  [rc] is 0
    on every path. *)
Definition MemcachedServer_on (event : Z) (fci : option nat) : M zval :=
  if (event <=? MEMC_SERVER_ON_MIN) || (event >=? MEMC_SERVER_ON_MAX) then mret ZFalse
  else
    match fci with
    | Some f =>
        s_destroy_cb event;;
        modify (λ w, with_callbacks (<[event := f]> (p_callbacks w)) w);;
        addref f
    | None => mret tt
    end;;
    mret ZFalse.

Fixpoint destroy_cbs (events : list Z) : M unit :=
  match events with [] => mret tt | e :: rest => s_destroy_cb e;; destroy_cbs rest end.

(** [MemcachedServer::run]: [serve] is [php_memc_proto_handler_run]; the loop over
    the events destroys every callback. *)
Definition MemcachedServer_run (serve : M bool) : M zval :=
  rc ← serve; destroy_cbs (Z.of_nat <$> seq 0 15);; mret (ZBool rc).
End Callbacks.

(** ** The table of handlers

    [php_memc_proto_handler_new] gives libmemcached a handler for each command; a
    command comes with the client's arguments and, for some, a function that
    sends responses. *)
Inductive command : Type :=
| Add (key data : string) (flags exptime : Z)
| Append (key data : string) (cas : Z)
| Prepend (key data : string) (cas : Z)
| Increment (key : string) (delta initial expiration : Z)
| Decrement (key : string) (delta initial expiration : Z)
| Delete (key : string) (cas : Z)
| Flush (when_ : Z)
| Get (key : string) (response : string → string → Z → Z → M Z)
| Noop
| Quit
| Replace (key data : string) (flags expiration cas : Z)
| SetCmd (key data : string) (flags expiration cas : Z)
| Stat (key : option string) (response : string → string → M Z)
| Version (response : string → M Z).

Section Table.
Context `{ZendRuntime} `{ProtocolNumbers} `{UserFunctions}.

(** The status, and the numbers written through the pointers. *)
Definition reply : Type := Z * list Z.

Definition no_output (m : M Z) : M reply := s ← m; mret (s, []).
Definition cas_output (m : M (Z * option Z)) : M reply :=
  r ← m; mret (r.1, match r.2 with Some cas => [cas] | None => [] end).
Definition counter_output (m : M (Z * option (Z * Z))) : M reply :=
  r ← m; mret (r.1, match r.2 with Some (v, cas) => [v; cas] | None => [] end).

Definition php_memc_proto_handler_new (cookie : string) (c : command) : M reply :=
  match c with
  | Add key data flags exptime => cas_output (s_add_handler cookie key data flags exptime)
  | Append key data cas => cas_output (s_append_handler cookie key data cas)
  | Decrement key delta initial exp =>
      counter_output (s_decrement_handler cookie key delta initial exp)
  | Delete key cas => no_output (s_delete_handler cookie key cas)
  | Flush when_ => no_output (s_flush_handler cookie when_)
  | Get key response => no_output (s_get_handler cookie key response)
  | Increment key delta initial exp =>
      counter_output (s_increment_handler cookie key delta initial exp)
  | Noop => no_output (s_noop_handler cookie)
  | Prepend key data cas => cas_output (s_prepend_handler cookie key data cas)
  | Quit => no_output (s_quit_handler cookie)
  | Replace key data flags exp cas => cas_output (s_replace_handler cookie key data flags exp cas)
  | SetCmd key data flags exp cas => cas_output (s_set_handler cookie key data flags exp cas)
  | Stat key response => no_output (s_stat_handler cookie key response)
  | Version response => no_output (s_version_handler cookie response)
  end.
End Table.
