(* ===== verification/ProtoLoop.v ===== *)
(** * The protocol server: sockets, clients and the event loop

    The libevent part of php_memcached_server.c.  What the operating system and
    the libraries answer is part of an event: whether [accept] gives a socket,
    whether libmemcached makes a client for it, what [client_work] does (it runs
    the handlers of ProtoServer) and whether libevent takes an event.

    A client structure is a cell; using one that was freed is [Undef]. *)

From S2P Require Import Prelude CLib Zend ProtoServer.
#[local] Open Scope Z_scope.
#[local] Abbreviation M := (M pworld).

(** The bits of [memcached_protocol_event_t]. *)
Record work_result : Type := mkWork { ev_error : bool; ev_write : bool; ev_read : bool }.

Section Loop.
Context `{ZendRuntime} `{ProtocolNumbers} `{UserFunctions}.

Definition get_client (c : nat) : M php_memc_client_t :=
  w ← get; match p_clients w !! c with Some cl => mret cl | None => undef end.

(** [memcached_protocol_client_destroy], [efree], [evutil_closesocket]. *)
Definition close_client (c : nat) : M unit :=
  cl ← get_client c;
  modify (λ w, with_open (p_open w ∖ {[cl_sock cl]}) (with_clients (delete c (p_clients w)) w)).

(** [event_base_once]: libevent takes the event when [ok]. *)
Definition schedule (c : nat) (ok : bool) (failed : M unit) : M unit :=
  if ok then modify (λ w, with_pending (c :: p_pending w) w) else failed.

(** The ON_CONNECT callback; [peer] is the peer's name if it has one. *)
Definition connect_callback (peer : option string) : M bool :=
  has ← gets (MEMC_HAS_CB MEMC_SERVER_ON_CONNECT);
  if has : bool then
    zremoteaddr ← match peer with
                  | Some name => mret (ZStr name)
                  | None => pwarn "getpeername failed: %s";; mret ZNull
                  end;
    r ← s_invoke_php_callback MEMC_SERVER_ON_CONNECT [zremoteaddr];
    mret (r.1 =? PROTOCOL_BINARY_RESPONSE_SUCCESS)
  else mret true.

(** [once flags] says whether libevent takes the one-shot event with these flags,
    for writing and for reading. *)
Definition s_handle_memcached_event (c : nat) (peer : option string) (work : M work_result)
    (once : bool → bool → bool) : M unit :=
  cl ← get_client c;
  go_on ← (if on_connect_invoked cl then mret true
           else
             ok ← connect_callback peer;
             if ok : bool then
               cl ← get_client c;
               modify (λ w, with_clients
                              (<[c := mkClient (cl_sock cl) true]> (p_clients w)) w);;
               mret true
             else mret false);
  if negb go_on then close_client c
  else
    _ ← get_client c;
    events ← work;
    if ev_error events then close_client c
    else schedule c (once (ev_write events) (ev_read events)) (pwarn "Failed to schedule events").

(** [sock] is what [accept] gives, [created] whether libmemcached makes a client. *)
Definition s_accept_cb (sock : option nat) (created : bool) (once : bool) : M unit :=
  match sock with
  | None => pwarn "Failed to accept the client: %s"
  | Some fd =>
      modify (λ w, with_open ({[fd]} ∪ p_open w) w);;
      if negb created then
        pwarn "Failed to allocate protocol client";;
        modify (λ w, with_open (p_open w ∖ {[fd]}) w)
      else
        w ← get;
        let c := p_next w in
        modify (λ w, mkServer (p_callbacks w) (p_refs w) (p_warnings w)
                       (<[c := mkClient fd false]> (p_clients w)) (S c) (p_open w) (p_pending w));;
        schedule c once (pwarn "Failed to add event for client";; close_client c)
  end.

(** What libevent finds when it looks: a connection to accept, or a client whose
    one-shot event has come. *)
Inductive loop_event : Type :=
| Accept (sock : option nat) (created once : bool)
| Ready (c : nat) (peer : option string) (work : M work_result) (once : bool → bool → bool).

(** One event of [event_base_dispatch]: a one-shot event is removed before its
    callback runs. *)
Definition run_event (ev : loop_event) : M unit :=
  match ev with
  | Accept sock created once => s_accept_cb sock created once
  | Ready c peer work once =>
      w ← get;
      if bool_decide (c ∈ p_pending w) then
        modify (λ w, with_pending (filter (λ c', c' ≠ c) (p_pending w)) w);;
        s_handle_memcached_event c peer work once
      else mret tt
  end.

Fixpoint dispatch (events : list loop_event) : M unit :=
  match events with [] => mret tt | ev :: rest => run_event ev;; dispatch rest end.

(** [s_create_listening_socket]: the steps up to the first that fails; the socket
    stays open whatever comes after [socket]. *)
Record listening : Type := mkListening {
  address_parsed : bool; socket_made : option nat; socket_bound : bool; socket_listens : bool;
  set_nonblocking : bool; set_reuseable : bool; set_closeonexec : bool
}.

Definition s_create_listening_socket (l : listening) : M (option nat) :=
  if negb (address_parsed l) then pwarn "Failed to parse bind address: %s";; mret None
  else
    match socket_made l with
    | None => pwarn "socket failed: %s";; mret None
    | Some fd =>
        modify (λ w, with_open ({[fd]} ∪ p_open w) w);;
        if negb (socket_bound l) then pwarn "bind failed: %s";; mret None
        else if negb (socket_listens l) then pwarn "listen failed: %s";; mret None
        else if negb (set_nonblocking l)
        then pwarn "failed to make socket non-blocking: %s";; mret None
        else if negb (set_reuseable l)
        then pwarn "failed to make socket reuseable: %s";; mret None
        else if negb (set_closeonexec l)
        then pwarn "failed to make socket closeonexec: %s";; mret None
        else mret (Some fd)
    end.

(** [php_memc_proto_handler_run]: [allocated] says whether libevent could allocate
    its base and event, [result] is what [event_base_dispatch] answers at the
    end. *)
Definition php_memc_proto_handler_run (l : listening) (allocated : bool)
    (events : list loop_event) (result : Z) : M bool :=
  sock ← s_create_listening_socket l;
  match sock with
  | None => mret false
  | Some _ =>
      when (negb allocated) (pwarn "failed to allocate memory: %s";; fatal);;
      dispatch events;;
      if result =? -1 then pwarn "event_base_dispatch() failed: %s";; fatal
      else if result =? 1 then pwarn "no events registered";; fatal
      else mret true
  end.
End Loop.
