(* ===== verification/ProtoServerProofs.v ===== *)
(** * The protocol server: what a callback sees, and how long it lives *)

From Stdlib Require Import Floats.SpecFloat.
From S2P Require Import Prelude CLib Zend GFmt LibMemcached World Toy DoubleBounds ProtoServer.
#[local] Open Scope Z_scope.
#[local] Abbreviation M := (M pworld).

(** ** Commands and callbacks *)

(** The event of a command, and the parameters of its callback. *)
Definition command_event (c : command) : php_memc_event_t :=
  match c with
  | Add _ _ _ _ => MEMC_SERVER_ON_ADD
  | Append _ _ _ => MEMC_SERVER_ON_APPEND
  | Prepend _ _ _ => MEMC_SERVER_ON_PREPEND
  | Increment _ _ _ _ => MEMC_SERVER_ON_INCREMENT
  | Decrement _ _ _ _ => MEMC_SERVER_ON_DECREMENT
  | Delete _ _ => MEMC_SERVER_ON_DELETE
  | Flush _ => MEMC_SERVER_ON_FLUSH
  | Get _ _ => MEMC_SERVER_ON_GET
  | Noop => MEMC_SERVER_ON_NOOP
  | Quit => MEMC_SERVER_ON_QUIT
  | Replace _ _ _ _ _ => MEMC_SERVER_ON_REPLACE
  | SetCmd _ _ _ _ _ => MEMC_SERVER_ON_SET
  | Stat _ _ => MEMC_SERVER_ON_STAT
  | Version _ => MEMC_SERVER_ON_VERSION
  end.

Definition command_params `{ZendRuntime} (cookie : string) (c : command) : list zval :=
  let cas n := ZDouble (double_of_Z n) in
  ZStr cookie ::
  match c with
  | Add key data flags exptime => [ZStr key; ZStr data; ZLong flags; ZLong exptime; ZNull]
  | Append key data n | Prepend key data n => [ZStr key; ZStr data; cas n; ZNull]
  | Increment key delta initial exp | Decrement key delta initial exp =>
      [ZStr key; ZLong (s64 delta); ZLong (s64 initial); ZLong exp; ZLong 0; ZNull]
  | Delete key n => [ZStr key; cas n]
  | Flush when_ => [ZLong when_]
  | Get key _ => [ZStr key; ZNull; ZNull; ZNull]
  | Noop | Quit => []
  | Replace key data flags exp n | SetCmd key data flags exp n =>
      [ZStr key; ZStr data; ZLong flags; ZLong exp; cas n; ZNull]
  | Stat (Some key) _ => [if zstr_len key =? 0 then ZNull else ZStr key; ZArr []]
  | Stat None _ => [ZNull; ZArr []]
  | Version _ => [ZNull]
  end.

(** What a callback that left [refs] in its reference parameters makes the handler
    write, and whether the command is answered by responses. *)
Definition command_outputs `{ZendRuntime} (c : command) (refs : list zval) : list Z :=
  let cas v := double_to_u64 (zval_get_double v) in
  match c with
  | Add _ _ _ _ | Append _ _ _ | Prepend _ _ _ | Replace _ _ _ _ _ | SetCmd _ _ _ _ _ =>
      [cas (default ZNull (refs !! 0%nat))]
  | Increment _ _ _ _ | Decrement _ _ _ _ =>
      [u64 (zval_get_long (default (ZLong 0) (refs !! 0%nat))); cas (default ZNull (refs !! 1%nat))]
  | _ => []
  end.

Definition sends_responses (c : command) : bool :=
  match c with Get _ _ | Stat _ _ | Version _ => true | _ => false end.

(** The responses such a command is answered by when its callback says SUCCESS: one
    with the value of a get, with flags 0 whatever the callback left as the flags;
    one for each statistic, in the order of the array; one with the version. *)
Definition command_responses `{ZendRuntime} `{UserFunctions} (c : command) (refs : list zval)
    : list (M Z) :=
  let text v := cut32 (zval_get_string v) in
  match c with
  | Get key response =>
      [response key (text (default ZNull (refs !! 0%nat))) 0
         (double_to_u64 (zval_get_double (default ZNull (refs !! 2%nat))))]
  | Stat _ response =>
      (λ kv, response (cut16 (match kv.1 with KStr s => s | KInt i => ldec i end)) (text kv.2))
        <$> convert_to_array (default (ZArr []) (refs !! 0%nat))
  | Version response => [response (text (default ZNull (refs !! 0%nat)))]
  | _ => []
  end.

(** Responses are sent until one fails; the last status is the answer. *)
Fixpoint send_all `{ProtocolNumbers} (ms : list (M Z)) : M Z :=
  match ms with
  | [] => mret PROTOCOL_BINARY_RESPONSE_SUCCESS
  | m :: ms =>
      s ← m;
      if s =? PROTOCOL_BINARY_RESPONSE_SUCCESS then send_all ms else mret s
  end.

Section Commands.
Context `{ZendRuntime} `{ProtocolNumbersLaws} `{UserFunctions}.

Lemma with_callback_none {A} e (none : Z → A) (k : M A) w :
  p_callbacks w !! event_num e = None →
  with_callback e none k w = Ret (none PROTOCOL_BINARY_RESPONSE_UNKNOWN_COMMAND) w.
Proof.
  intros Hn. unfold with_callback, MEMC_HAS_CB. rewrite gets_bind, Hn.
  rewrite bool_decide_false; [done|]. by intros [? ?].
Qed.

Lemma with_callback_some {A} e (none : Z → A) (k : M A) f w :
  p_callbacks w !! event_num e = Some f → with_callback e none k w = k w.
Proof.
  intros Hn. unfold with_callback, MEMC_HAS_CB. rewrite gets_bind, Hn.
  by rewrite bool_decide_true by eauto.
Qed.

(** The callback of an event: a live callable that returns. *)
Definition callback_answers (e : php_memc_event_t) (params : list zval) (r : call_result)
    (w w' : pworld) : Prop :=
  ∃ f, p_callbacks w !! event_num e = Some f ∧ is_Some (p_refs w !! f)
    ∧ user_function f params w = Ret r w' ∧ call_ok r = true.

Definition status_of (r : call_result) : Z :=
  match call_return r with
  | None => PROTOCOL_BINARY_RESPONSE_UNKNOWN_COMMAND
  | Some v => u32 (zval_get_long v)
  end.

Lemma invoke_run e params r w w' :
  callback_answers e params r w w' →
  s_invoke_php_callback e params w = Ret (status_of r, call_refs r) w'.
Proof.
  intros (f & Hf & [n Hn] & R & Hok). unfold s_invoke_php_callback, zend_call_function.
  rewrite bind_assoc, get_bind, Hf, Hn, (bind_Ret _ _ _ _ _ R). by rewrite Hok.
Qed.

(** Every handler with a callback calls it first. *)
Lemma handler_run {A} e (none : Z → A) params k r w w' :
  callback_answers e params r w w' →
  with_callback e none (s_invoke_php_callback e params ≫= k) w = k (status_of r, call_refs r) w'.
Proof.
  intros Hr. pose proof (invoke_run _ _ _ _ _ Hr) as E. destruct Hr as (f & Hf & _).
  rewrite (with_callback_some _ _ _ f) by done. by rewrite (bind_Ret _ _ _ _ _ E).
Qed.

Lemma send_all_one m w : send_all [m] w = m w.
Proof.
  unfold send_all, mbind, M_bind. destruct (m w) as [s w'| | |]; [|done..].
  by destruct (Z.eqb_spec s PROTOCOL_BINARY_RESPONSE_SUCCESS) as [->|].
Qed.

Lemma send_stats_all response stats w :
  send_stats stats response PROTOCOL_BINARY_RESPONSE_SUCCESS w
  = send_all ((λ kv, response (cut16 (match kv.1 with KStr s => s | KInt i => ldec i end))
                       (cut32 (zval_get_string kv.2))) <$> stats) w.
Proof.
  revert w. induction stats as [|[k v] stats IH]; intros w; [done|].
  cbn [send_stats fmap list_fmap send_all]. unfold mbind, M_bind. cbn [fst snd].
  destruct (response _ _ w) as [s w'| | |]; [|done..].
  destruct (Z.eqb_spec s PROTOCOL_BINARY_RESPONSE_SUCCESS) as [->|]; [|done]. apply IH.
Qed.

Lemma no_output_run (m m' : M Z) w w' : m w = m' w' → no_output m w = no_output m' w'.
Proof. intros E. unfold no_output, mbind, M_bind. by rewrite E. Qed.

(** A command answered by responses. *)
Lemma responding_run cookie c r w w' :
  callback_answers (command_event c) (command_params cookie c) r w w' →
  sends_responses c = true → status_of r = PROTOCOL_BINARY_RESPONSE_SUCCESS →
  php_memc_proto_handler_new cookie c w
  = no_output (send_all (command_responses c (call_refs r))) w'.
Proof.
  intros Hr Hc Hs. destruct c as [| | | | | | |? ?| | | | |[key|] ?|?]; try discriminate Hc;
    cbn [command_event] in Hr; apply no_output_run;
    (etransitivity; [apply handler_run; exact Hr|]); cbn [fst snd command_responses];
    rewrite Hs, Z.eqb_refl, ?send_all_one, ?send_stats_all; reflexivity.
Qed.

(** C25: Every command of a client is its callback's.  Without a callback for the
    event the handler answers UNKNOWN_COMMAND and does nothing.  Otherwise the
    callback gets the client's arguments.  The reply is the integer it returns
    (UNKNOWN_COMMAND if it returns none) with the numbers it left in its reference
    parameters, except for get, stat and version when that integer is SUCCESS: they
    send what the callback left as responses, until one fails, and the status of
    the last one is the reply.  A get sends flags 0 whatever the callback left. *)
Theorem commands_are_answered_by_callbacks cookie c w :
  (p_callbacks w !! event_num (command_event c) = None →
   php_memc_proto_handler_new cookie c w = Ret (PROTOCOL_BINARY_RESPONSE_UNKNOWN_COMMAND, []) w) ∧
  (∀ r w', callback_answers (command_event c) (command_params cookie c) r w w' →
     php_memc_proto_handler_new cookie c w
     = if sends_responses c && (status_of r =? PROTOCOL_BINARY_RESPONSE_SUCCESS)
       then (s ← send_all (command_responses c (call_refs r)); mret (s, [])) w'
       else Ret (status_of r, command_outputs c (call_refs r)) w').
Proof.
  split.
  - intros Hn. destruct c; cbn in Hn |- *; unfold no_output, cas_output, counter_output;
      erewrite bind_Ret by (by apply with_callback_none); reflexivity.
  - intros r w' Hr. destruct (sends_responses c && _) eqn:Hs.
    { apply andb_true_iff in Hs as [Hc Hs]. by apply responding_run, Z.eqb_eq. }
    apply andb_false_iff in Hs.
    destruct c as [| | | | | | |? ?| | | | |[key|] ?|?]; cbn [command_event] in Hr; cbn in Hs;
      unfold php_memc_proto_handler_new, no_output, cas_output, counter_output;
      (erewrite bind_Ret;
        [|etransitivity; [apply handler_run; exact Hr|]; cbn [fst snd];
          first [reflexivity|destruct Hs as [Hs|Hs]; [done|]; rewrite Hs; reflexivity]]);
      reflexivity.
Qed.

(** Whatever the callback of a get leaves as the value, null included, the
    handler sends it as a string, with flags 0 whatever the callback left as the
    flags, and its answer is that of the response: it never says by itself that the
    key does not exist. *)
Theorem get_always_responds cookie key response r w w' :
  callback_answers MEMC_SERVER_ON_GET (command_params cookie (Get key response)) r w w' →
  status_of r = PROTOCOL_BINARY_RESPONSE_SUCCESS →
  s_get_handler cookie key response w
    = response key (cut32 (zval_get_string (default ZNull (call_refs r !! 0%nat)))) 0
        (double_to_u64 (zval_get_double (default ZNull (call_refs r !! 2%nat)))) w'.
Proof.
  intros Hr Hs. unfold s_get_handler. etransitivity; [apply handler_run; exact Hr|].
  cbn [fst snd]. by rewrite Hs, Z.eqb_refl.
Qed.
End Commands.

(** ** A concrete protocol *)
#[export] Instance ToyProtocol : ProtocolNumbers := {|
  PROTOCOL_BINARY_RESPONSE_SUCCESS := 0;
  PROTOCOL_BINARY_RESPONSE_KEY_ENOENT := 1;
  PROTOCOL_BINARY_RESPONSE_UNKNOWN_COMMAND := 129
|}.

#[export] Instance ToyProtocolLaws : ProtocolNumbersLaws.
Proof. by split. Qed.

(** Every callable answers [answer] and leaves [refs] in its reference parameters. *)
Definition answering (answer : zval) (refs : list zval) : UserFunctions := {|
  user_function _ _ := mret (mkCallResult true (Some answer) refs);
  object_properties _ := []
|}.

Definition idle_server : pworld := mkServer ∅ ∅ [] ∅ 0 ∅ [].

(** ** CAS values are doubles on their way through a callback *)
Class CasDoubleLaws `{ZendRuntime} : Prop := {
  zval_get_double_double d : zval_get_double (ZDouble d) = d;
  double_to_u64_exact n : 0 <= n < 2 ^ 53 → double_to_u64 (double_of_Z n) = n
}.

#[export] Instance ToyCasDoubleLaws : CasDoubleLaws.
Proof.
  split; [done|]. intros n Hn. destruct (Z.eq_dec n 0) as [-> | Hn0]; [done|].
  destruct (double_of_Z_exact n) as (m & e & -> & He & Hm); [lia|].
  cbn. rewrite Hm, Z.shiftl_div_pow2, Z.div_mul by lia. unfold u64. apply Z.mod_small. lia.
Qed.

(** The CAS value of a set reaches the callback as a double: two values below
    2^53 never look the same, and one that the callback hands back unchanged is the
    one the client sent; but 2^53 and 2^53 + 1 look the same to every callback. *)
Theorem cas_through_a_callback `{ZendRuntime} `{!CasDoubleLaws} cookie key data flags exp cas :
  0 <= cas < 2 ^ 53 →
  command_outputs (SetCmd key data flags exp cas) [ZDouble (double_of_Z cas)] = [cas] ∧
  (∀ cas', 0 <= cas' < 2 ^ 53 →
     command_params cookie (SetCmd key data flags exp cas)
       = command_params cookie (SetCmd key data flags exp cas') → cas = cas') ∧
  command_params cookie (SetCmd key data flags exp (2 ^ 53))
    = command_params cookie (SetCmd key data flags exp (2 ^ 53 + 1)).
Proof.
  intros Hc. split_and!.
  - cbn. by rewrite zval_get_double_double, double_to_u64_exact.
  - intros cas' Hc' E. injection E as E. by apply double_of_Z_inj.
  - cbn [command_params]. by replace (double_of_Z (2 ^ 53 + 1)) with (double_of_Z (2 ^ 53)) by (by vm_compute).
Qed.

Lemma cas_through_a_callback_witness :
  command_outputs (SetCmd "k" "v" 0 0 77) [ZDouble (double_of_Z 77)] = [77].
Proof. apply (cas_through_a_callback "0x1" "k" "v" 0 0 77). lia. Defined.

(** A callback for get and set that says SUCCESS and leaves null and 7. *)
#[local] Instance example_functions : UserFunctions := answering (ZLong 0) [ZNull; ZLong 7].

Definition example_server : pworld := mkServer {[6 := 1%nat; 12 := 1%nat]} {[1%nat := 2%nat]} [] ∅ 0 ∅ [].

Lemma example_answers e params :
  event_num e = 6 ∨ event_num e = 12 →
  callback_answers e params (mkCallResult true (Some (ZLong 0)) [ZNull; ZLong 7]) example_server
    example_server.
Proof. intros [E | E]; exists 1%nat; rewrite E; repeat split; by vm_compute; eauto. Qed.

Definition example_response (key value : string) (flags cas : Z) : M Z := mret (zstr_len value + flags).

Lemma commands_are_answered_by_callbacks_witness :
  php_memc_proto_handler_new "0x1" Noop example_server = Ret (129, []) example_server
  ∧ php_memc_proto_handler_new "0x1" (SetCmd "k" "v" 0 0 77) example_server
    = Ret (0, [0]) example_server
  ∧ php_memc_proto_handler_new "0x1" (Get "k" example_response) example_server
    = Ret (0, []) example_server.
Proof.
  split; [|split].
  - destruct (commands_are_answered_by_callbacks "0x1" Noop example_server) as [Hnone _].
    by apply Hnone.
  - destruct (commands_are_answered_by_callbacks "0x1" (SetCmd "k" "v" 0 0 77) example_server)
      as [_ Hset].
    by rewrite (Hset _ _ (example_answers MEMC_SERVER_ON_SET _ (or_intror eq_refl))).
  - destruct (commands_are_answered_by_callbacks "0x1" (Get "k" example_response) example_server)
      as [_ Hget].
    by rewrite (Hget _ _ (example_answers MEMC_SERVER_ON_GET _ (or_introl eq_refl))).
Defined.

Lemma get_always_responds_witness :
  s_get_handler "0x1" "k" example_response example_server = Ret 0 example_server.
Proof.
  pose proof (get_always_responds "0x1" "k" example_response _ _ _
    (example_answers MEMC_SERVER_ON_GET _ (or_introl eq_refl))) as Hget.
  by apply Hget.
Defined.
