(* ===== verification/ServerCallbacks.v ===== *)
(** * The protocol server: how long callbacks live

    Registering, releasing and destroying callbacks keeps the reference counts of
    the callables right, until [MemcachedServer::run] has returned. *)

From S2P Require Import Prelude CLib Zend GFmt LibMemcached World Toy ProtoServer ProtoLoop.
#[local] Open Scope Z_scope.
#[local] Abbreviation M := (M pworld).

(** ** The slots that hold a callable *)
Definition uses (cb : gmap Z nat) (f : nat) : nat := size (filter (λ p : Z * nat, p.2 = f) cb).

Lemma uses_delete cb e f g :
  cb !! e = Some f → uses cb g = ((if decide (g = f) then 1 else 0) + uses (delete e cb) g)%nat.
Proof.
  intros He. rewrite <- (insert_delete_id cb e f He) at 1. unfold uses.
  case_decide as E.
  - subst. rewrite map_filter_insert_True by done.
    rewrite map_size_insert_None; [done|]. rewrite map_lookup_filter_None. left. apply lookup_delete_eq.
  - rewrite map_filter_insert_False by (cbn; congruence). by rewrite delete_delete_eq.
Qed.

Lemma uses_insert cb e f g :
  uses (<[e := f]> cb) g = ((if decide (g = f) then 1 else 0) + uses (delete e cb) g)%nat.
Proof.
  rewrite (uses_delete (<[e := f]> cb) e f g) by apply lookup_insert_eq.
  by rewrite delete_insert_eq.
Qed.

Lemma delete_none_id (cb : gmap Z nat) e : cb !! e = None → delete e cb = cb.
Proof. apply delete_id. Qed.

(** A count as it is stored: nothing for 0. *)
Definition count (n : nat) : option nat := match n with O => None | S _ => Some n end.

(** The references to [f]: the script's own, and those of the slots. *)
Definition total (held : nat → nat) (cb : gmap Z nat) (f : nat) : nat := (held f + uses cb f)%nat.

Definition counted_as (held : nat → nat) (cb : gmap Z nat) (w : pworld) : Prop :=
  ∀ f, p_refs w !! f = count (total held cb f).
Definition counted (held : nat → nat) (w : pworld) : Prop := counted_as held (p_callbacks w) w.

Section Counting.
Context `{ZendRuntime} `{ProtocolNumbers} `{UserFunctions}.

Lemma release_spec held held' cb cb' f w :
  counted_as held cb w → total held cb f = S (total held' cb' f) →
  (∀ g, g ≠ f → total held cb g = total held' cb' g) →
  ∃ R, release f w = Ret tt (with_refs R w) ∧ counted_as held' cb' (with_refs R w).
Proof.
  intros Hc Hf Hg. unfold release. rewrite get_bind, (Hc f), Hf. cbn [count].
  destruct (total held' cb' f) as [|n] eqn:E; eexists; (split; [reflexivity|]); intros g; cbn.
  - destruct (decide (g = f)) as [->|Hne]; [by rewrite lookup_delete_eq, E|].
    rewrite lookup_delete_ne by done. by rewrite (Hc g), Hg.
  - destruct (decide (g = f)) as [->|Hne]; [by rewrite lookup_insert_eq, E|].
    rewrite lookup_insert_ne by done. by rewrite (Hc g), Hg.
Qed.

Lemma addref_spec held held' cb cb' f w :
  counted_as held cb w → (0 < held f)%nat → total held' cb' f = S (total held cb f) →
  (∀ g, g ≠ f → total held' cb' g = total held cb g) →
  ∃ R, addref f w = Ret tt (with_refs R w) ∧ counted_as held' cb' (with_refs R w).
Proof.
  intros Hc Hin Hf Hg. unfold addref. rewrite get_bind, (Hc f).
  assert (∃ n, total held cb f = S n) as [n E] by (unfold total; destruct (held f); [lia|cbn; eauto]).
  rewrite E. cbn [count]. eexists. split; [reflexivity|]. intros g. cbn.
  destruct (decide (g = f)) as [->|Hne]; [by rewrite lookup_insert_eq, Hf, E|].
  rewrite lookup_insert_ne by done. by rewrite (Hc g), Hg.
Qed.

(** Destroying a slot's callback accounts for the slot being empty. *)
Lemma destroy_cb_spec held cb e w :
  counted_as held cb w → cb !! e = p_callbacks w !! e →
  ∃ R, s_destroy_cb e w = Ret tt (with_refs R w) ∧ counted_as held (delete e cb) (with_refs R w).
Proof.
  intros Hc He. unfold s_destroy_cb. rewrite get_bind, <- He.
  destruct (cb !! e) as [f|] eqn:Hf.
  - apply (release_spec held held cb); [done| |]; unfold total.
    + rewrite (uses_delete cb e f f Hf), (decide_True (P := f = f)) by done. lia.
    + intros g Hne. rewrite (uses_delete cb e f g Hf), (decide_False (P := g = f)) by done. lia.
  - exists (p_refs w). rewrite delete_none_id by done. destruct w. split; [reflexivity|exact Hc].
Qed.

Lemma on_spec held event fci w :
  counted held w → (∀ f, fci = Some f → (0 < held f)%nat) →
  ∃ w', MemcachedServer_on event fci w = Ret ZFalse w' ∧ counted held w'.
Proof.
  intros Hc Hh. unfold MemcachedServer_on. destruct (_ || _); [by exists w|].
  destruct fci as [f|]; [|by exists w]. specialize (Hh f eq_refl).
  destruct (destroy_cb_spec held _ event w Hc eq_refl) as (R & E & Hc1).
  rewrite bind_assoc, (bind_Ret _ _ _ _ _ E), bind_assoc, modify_bind. cbn [with_refs p_callbacks].
  set (w1 := with_callbacks _ _).
  destruct (addref_spec held held (delete event (p_callbacks w)) (<[event := f]> (p_callbacks w)) f w1)
    as (R2 & E2 & Hc2); [exact Hc1|done| | |].
  - unfold total. rewrite (uses_insert _ event f f), (decide_True (P := f = f)) by done. lia.
  - intros g Hne. unfold total. rewrite (uses_insert _ event f g), (decide_False (P := g = f)) by done. lia.
  - rewrite (bind_Ret _ _ _ _ _ E2). eexists. split; [reflexivity|]. exact Hc2.
Qed.

(** The slots without those of some events. *)
Definition without (events : list Z) (cb : gmap Z nat) : gmap Z nat :=
  foldr delete cb events.

Lemma without_lookup events cb e : e ∉ events → without events cb !! e = cb !! e.
Proof.
  induction events as [|e' events IH]; [done|]. intros [Hne Hin]%not_elem_of_cons. cbn.
  rewrite lookup_delete_ne by done. by apply IH.
Qed.

Lemma without_in events cb e : e ∈ events → without events cb !! e = None.
Proof.
  induction events as [|e' events IH]; [by intros ?%elem_of_nil|]. cbn.
  intros [->|Hin]%elem_of_cons; [apply lookup_delete_eq|].
  destruct (decide (e' = e)) as [->|Hne]; [apply lookup_delete_eq|].
  rewrite lookup_delete_ne by done. by apply IH.
Qed.

Lemma destroy_cbs_spec held cb events w :
  NoDup events → counted_as held cb w → (∀ e, e ∈ events → cb !! e = p_callbacks w !! e) →
  ∃ w', destroy_cbs events w = Ret tt w' ∧ p_callbacks w' = p_callbacks w
    ∧ counted_as held (without (reverse events) cb) w'.
Proof.
  intros Hnd. revert cb w. induction Hnd as [|e events Hin Hnd IH]; intros cb w Hc He; [by exists w|].
  destruct (destroy_cb_spec held cb e w Hc (He e (list_elem_of_here _ _))) as (R & E & Hc1).
  cbn [destroy_cbs]. rewrite (bind_Ret _ _ _ _ _ E).
  destruct (IH (delete e cb) (with_refs R w) Hc1) as (w' & E' & Hcb & Hc').
  - intros e' Hin'. rewrite lookup_delete_ne by congruence. cbn. by apply He, list_elem_of_further.
  - exists w'. split; [exact E'|]. split; [exact Hcb|].
    unfold without in *. rewrite reverse_cons, foldr_app. exact Hc'.
Qed.
End Counting.

(** ** Live callbacks *)

(** The references to [f] that are not a slot's: those of the script. *)
Definition own (w : pworld) (f : nat) : nat :=
  (default 0 (p_refs w !! f) - uses (p_callbacks w) f)%nat.

(** Every reference is accounted for; in particular each slot has its own. *)
Definition live (w : pworld) : Prop := counted (own w) w.

Lemma counted_own held w : counted held w → ∀ f, own w f = held f.
Proof.
  intros Hc f. unfold own. rewrite (Hc f). unfold total, count. destruct (held f + _)%nat eqn:E; cbn; lia.
Qed.

Lemma counted_ext held held' cb w :
  (∀ f, held f = held' f) → counted_as held cb w → counted_as held' cb w.
Proof. intros He Hc f. rewrite (Hc f). unfold total. by rewrite He. Qed.

Lemma counted_live held w : counted held w → live w.
Proof. intros Hc. eapply counted_ext, Hc. intros f. by rewrite (counted_own held w Hc). Qed.

Lemma live_slot w e f : live w → p_callbacks w !! e = Some f → is_Some (p_refs w !! f).
Proof.
  intros Hl Hf. rewrite (Hl f). unfold total. rewrite (uses_delete _ e f f Hf).
  rewrite (decide_True (P := f = f)) by done. rewrite Nat.add_comm. cbn. eauto.
Qed.

(** What the event loop keeps of its clients. *)
Definition same_clients (w w' : pworld) : Prop :=
  p_clients w' = p_clients w ∧ p_next w' = p_next w ∧ p_open w' = p_open w
  ∧ p_pending w' = p_pending w.

Lemma same_clients_refl w : same_clients w w.
Proof. done. Qed.

Lemma same_clients_trans w1 w2 w3 : same_clients w1 w2 → same_clients w2 w3 → same_clients w1 w3.
Proof. unfold same_clients. intuition congruence. Qed.

(** Code that keeps the references right and leaves the event loop alone. *)
Definition tame {A} (m : M A) : Prop :=
  ∀ w, live w → wp m (λ _ w', live w' ∧ same_clients w w') w.

Lemma tame_ret {A} (a : A) : tame (mret a).
Proof. intros w Hw. apply wp_ret. by split. Qed.

Lemma tame_bind {A B} (m : M A) (k : A → M B) : tame m → (∀ a, tame (k a)) → tame (m ≫= k).
Proof.
  intros Hm Hk w Hw. apply wp_bind. eapply wp_mono; [by apply Hm|]. intros a w1 [Hw1 Hs].
  eapply wp_mono; [by apply Hk|]. intros b w2 [Hw2 Hs2]. split; [done|]. by eapply same_clients_trans.
Qed.

Lemma tame_warn x : tame (pwarn x).
Proof. intros w Hw. apply wp_modify. split; [exact Hw|done]. Qed.

Lemma tame_fatal {A} : tame (fatal : M A).
Proof. done. Qed.

Lemma tame_when b m : tame m → tame (when b m).
Proof. intros Hm. destruct b; [done|apply tame_ret]. Qed.
#[export] Hint Resolve tame_ret tame_warn tame_fatal tame_when : memc.

(** Proves [tame] of a composition. *)
Ltac tamed :=
  repeat (first
    [ solve [auto with memc]
    | lazymatch goal with |- tame (_ ≫= _) => apply tame_bind; [|intros ?] end
    | case_match ]).

(** ** Handlers are tame when the script's functions are *)
Section Handlers.
Context `{ZendRuntime} `{ProtocolNumbers} `{UserFunctions}.
Hypothesis functions_tame : ∀ f params, tame (user_function f params).

Lemma wp_invoke e params w :
  live w → is_Some (p_callbacks w !! event_num e) →
  wp (s_invoke_php_callback e params) (λ _ w', live w' ∧ same_clients w w') w.
Proof.
  intros Hl [f Hf]. destruct (live_slot w _ f Hl Hf) as [n Hn].
  unfold s_invoke_php_callback, zend_call_function. apply wp_bind, wp_bind, wp_get. rewrite Hf, Hn.
  eapply wp_mono; [by apply functions_tame|]. intros r w1 [Hl1 Hs].
  eapply wp_mono; [apply (tame_bind (when _ _) (λ _, mret _)); [|intros ?|exact Hl1]; auto with memc|].
  intros a w2 [Hl2 Hs2]. split; [done|]. by eapply same_clients_trans.
Qed.

Lemma tame_with_callback {A} e (none : Z → A) params (k : Z * list zval → M A) :
  (∀ r, tame (k r)) → tame (with_callback e none (s_invoke_php_callback e params ≫= k)).
Proof.
  intros Hk w Hl. unfold with_callback, MEMC_HAS_CB. apply wp_bind, wp_gets.
  case_bool_decide as E; [|by apply tame_ret].
  apply wp_bind. eapply wp_mono; [by apply wp_invoke|]. intros r w1 [Hl1 Hs].
  eapply wp_mono; [by apply Hk|]. intros a w2 [Hl2 Hs2]. split; [done|]. by eapply same_clients_trans.
Qed.

(** What libmemcached gives to a handler to send its responses with. *)
Definition tame_command (c : command) : Prop :=
  match c with
  | Get _ response => ∀ k v flags cas, tame (response k v flags cas)
  | Stat _ response => ∀ k v, tame (response k v)
  | Version response => ∀ v, tame (response v)
  | _ => True
  end.

Lemma tame_send_stats stats response s :
  (∀ k v, tame (response k v)) → tame (send_stats stats response s).
Proof.
  intros Hr. revert s. induction stats as [|[k v] rest IH]; intros s; cbn [send_stats]; [auto with memc|].
  apply tame_bind; [apply Hr|]. intros r. case_match; auto with memc.
Qed.

Lemma tame_handler cookie c : tame_command c → tame (php_memc_proto_handler_new cookie c).
Proof.
  intros Hc. destruct c; cbn [php_memc_proto_handler_new];
    unfold no_output, cas_output, counter_output;
    (apply tame_bind; [apply tame_with_callback; intros r|intros ?; apply tame_ret]);
    cbn in Hc; tamed; cbv zeta; tamed; eauto using tame_send_stats.
Qed.

Lemma tame_connect peer : tame (connect_callback peer).
Proof.
  intros w Hl. unfold connect_callback, MEMC_HAS_CB. apply wp_bind, wp_gets.
  case_bool_decide as E; [|by apply tame_ret].
  apply wp_bind. eapply (wp_mono _ (λ _ w', live w' ∧ same_clients w w' ∧ p_callbacks w' = p_callbacks w)).
  - destruct peer; [by apply wp_ret|]. by apply wp_bind, wp_modify, wp_ret.
  - intros z w1 (Hl1 & Hs & Hcb). rewrite <- Hcb in E. apply wp_bind.
    eapply wp_mono; [by apply wp_invoke|]. intros r w2 [Hl2 Hs2]. apply wp_ret.
    split; [done|]. by eapply same_clients_trans.
Qed.
End Handlers.
