(* ===== verification/ServerLoop.v ===== *)
(** * The protocol server: the event loop

    Between two events of the loop every callback in a slot is alive, every client
    that waits for an event exists, and while libevent takes the events no client
    or socket is leaked. *)

From S2P Require Import Prelude CLib Zend GFmt LibMemcached World Toy ProtoServer ProtoLoop ServerCallbacks.
#[local] Open Scope Z_scope.
#[local] Abbreviation M := (M pworld).

(** The clients that wait for an event exist, and the next one is fresh. *)
Definition clients_ok (w : pworld) : Prop :=
  (∀ c, c ∈ p_pending w → is_Some (p_clients w !! c))
  ∧ ∀ c, is_Some (p_clients w !! c) → (c < p_next w)%nat.

(** Nothing is leaked: each client waits for an event, and the sockets that are
    open are those of [base] and one of each client. *)
Definition tidy (base : gset nat) (w : pworld) : Prop :=
  (∀ c, is_Some (p_clients w !! c) → c ∈ p_pending w)
  ∧ (∀ fd, fd ∈ p_open w ↔ fd ∈ base ∨ ∃ c cl, p_clients w !! c = Some cl ∧ cl_sock cl = fd)
  ∧ (∀ c cl, p_clients w !! c = Some cl → cl_sock cl ∉ base)
  ∧ ∀ c d cl dl, p_clients w !! c = Some cl → p_clients w !! d = Some dl →
      cl_sock cl = cl_sock dl → c = d.

Definition server_ok (w : pworld) : Prop := live w ∧ clients_ok w.

(** The system's part of an event: a descriptor that [accept] gives is not open
    yet; [client_work] calls the handlers, which are tame. *)
Definition admissible (ev : loop_event) (w : pworld) : Prop :=
  match ev with
  | Accept (Some fd) _ _ => fd ∉ p_open w
  | Accept None _ _ => True
  | Ready _ _ work _ => tame work
  end.

(** libevent takes the events of the clients. *)
Definition taken (ev : loop_event) : Prop :=
  match ev with
  | Accept _ _ _ => True
  | Ready _ _ _ once => ∀ w r, once w r = true
  end.

Lemma open_and_close (fd : nat) (o : gset nat) : fd ∉ o → ({[fd]} ∪ o) ∖ {[fd]} = o.
Proof. set_solver. Qed.

Section Events.
Context `{ZendRuntime} `{ProtocolNumbers} `{UserFunctions}.
Hypothesis functions_tame : ∀ f params, tame (user_function f params).

Lemma wp_get_client c (Q : php_memc_client_t → pworld → Prop) w :
  is_Some (p_clients w !! c) → (∀ cl, p_clients w !! c = Some cl → Q cl w) → wp (get_client c) Q w.
Proof. intros [cl Hcl] HQ. unfold get_client. apply wp_bind, wp_get. rewrite Hcl. by apply HQ. Qed.

(** Closing a client that waits for nothing. *)
Lemma wp_close_client c w :
  live w → clients_ok w → c ∉ p_pending w → is_Some (p_clients w !! c) →
  wp (close_client c) (λ _ w', server_ok w' ∧
    ∃ cl, p_clients w !! c = Some cl ∧ p_clients w' = delete c (p_clients w)
      ∧ p_open w' = p_open w ∖ {[cl_sock cl]} ∧ p_pending w' = p_pending w) w.
Proof.
  intros Hl [Hp Hn] Hc Hcl. unfold close_client. apply wp_bind, wp_get_client; [done|].
  intros cl E. apply wp_modify. split; [|by exists cl]. split; [exact Hl|]. split; cbn.
  - intros d Hd. rewrite lookup_delete_ne by congruence. by apply Hp.
  - intros d [dl Hd]. apply lookup_delete_Some in Hd as [_ Hd]. apply Hn. eauto.
Qed.

(** The clients but [c], and the open sockets but its own. *)
Lemma tidy_without base w w' c cl :
  tidy base w → p_clients w !! c = Some cl → p_clients w' = delete c (p_clients w) →
  p_open w' = p_open w ∖ {[cl_sock cl]} →
  (∀ d, d ≠ c → d ∈ p_pending w → d ∈ p_pending w') → tidy base w'.
Proof.
  intros (Hp & Ho & Hb & Hd) Hc Ec Eo Hpe. unfold tidy. rewrite Ec, Eo. split_and!.
  - intros d [dl Hdl]. apply lookup_delete_Some in Hdl as [Hne Hdl]. apply Hpe; [done|]. apply Hp. eauto.
  - intros fd. rewrite elem_of_difference, Ho, not_elem_of_singleton. split.
    + intros [[Hin|(d & dl & Hdl & Hs)] Hne]; [by left|]. right. exists d, dl.
      rewrite lookup_delete_ne; [done|]. intros <-. apply Hne. congruence.
    + intros [Hin|(d & dl & Hdl & Hs)].
      * split; [by left|]. intros ->. by apply (Hb c cl Hc).
      * apply lookup_delete_Some in Hdl as [Hne Hdl]. split; [right; eauto|].
        intros ->. apply Hne. by apply (Hd c d cl dl).
  - intros d dl Hdl. apply lookup_delete_Some in Hdl as [_ Hdl]. by apply (Hb d).
  - intros d1 d2 l1 l2 H1' H2'. apply lookup_delete_Some in H1' as [_ ?], H2' as [_ ?]. by apply Hd.
Qed.

(** While the client [c] of [w] is served: its event is gone, and nothing else has
    changed but its flag and the callbacks. *)
Definition serving (c : nat) (w w' : pworld) : Prop :=
  live w' ∧ p_next w' = p_next w ∧ p_open w' = p_open w
  ∧ p_pending w' = filter (λ d, d ≠ c) (p_pending w)
  ∧ ∃ cl b, p_clients w !! c = Some cl ∧ p_clients w' = <[c := mkClient (cl_sock cl) b]> (p_clients w).

Lemma serving_same c w w1 w2 : serving c w w1 → live w2 → same_clients w1 w2 → serving c w w2.
Proof. unfold serving, same_clients. intros (_ & En & Eo & Ep & cl & b & Hc & Ec) Hl Hs.
  destruct Hs as (Ec2 & En2 & Eo2 & Ep2). rewrite Ec2, En2, Eo2, Ep2. eauto 10. Qed.

Lemma serving_clients c w w' d :
  serving c w w' → is_Some (p_clients w' !! d) ↔ is_Some (p_clients w !! d).
Proof.
  intros (_ & _ & _ & _ & cl & b & Hc & ->). destruct (decide (d = c)) as [-> | Hne].
  - rewrite lookup_insert_eq, Hc. split; eauto.
  - by rewrite lookup_insert_ne by done.
Qed.

Lemma serving_ok c w w' : clients_ok w → serving c w w' → clients_ok w' ∧ c ∉ p_pending w'.
Proof.
  intros [Hp Hn] Hs. split; [split|].
  - intros d. rewrite (serving_clients c w w') by done. destruct Hs as (_ & _ & _ & -> & _).
    intros [_ Hin]%list_elem_of_filter. by apply Hp.
  - intros d Hd. rewrite (serving_clients c w w') in Hd by done. destruct Hs as (_ & -> & _). by apply Hn.
  - destruct Hs as (_ & _ & _ & -> & _). by intros [? _]%list_elem_of_filter.
Qed.

Lemma serving_close base c w w' :
  clients_ok w → serving c w w' →
  wp (close_client c) (λ _ w2, server_ok w2 ∧ (tidy base w → tidy base w2)) w'.
Proof.
  intros Hok Hs. destruct (serving_ok c w w' Hok Hs) as [Hok' Hc].
  assert (is_Some (p_clients w' !! c)) as Hcl.
  { rewrite (serving_clients c w w') by done. destruct Hs as (_ & _ & _ & _ & cl & _ & E & _). eauto. }
  eapply wp_mono; [apply wp_close_client; [apply Hs|done..]|].
  intros _ w2 [Hok2 (cl2 & Hcl2 & Ec2 & Eo2 & Ep2)]. split; [done|]. intros Ht.
  destruct Hs as (_ & _ & Eo & Ep & cl & b & Hcl' & Ec).
  rewrite Ec, lookup_insert_eq in Hcl2. injection Hcl2 as <-.
  eapply tidy_without; [exact Ht|exact Hcl'| | |].
  - rewrite Ec2, Ec. apply delete_insert_eq.
  - by rewrite Eo2, Eo.
  - intros d Hne Hd. rewrite Ep2, Ep. by apply list_elem_of_filter.
Qed.

Lemma serving_wait base c w w' ok :
  clients_ok w → serving c w w' →
  wp (schedule c ok (pwarn "Failed to schedule events"))
    (λ _ w2, server_ok w2 ∧ (ok = true → tidy base w → tidy base w2)) w'.
Proof.
  intros Hok Hs. destruct (serving_ok c w w' Hok Hs) as [[Hp Hn] Hc].
  assert (∀ d, is_Some (p_clients w' !! d) ↔ is_Some (p_clients w !! d)) as Hd
    by (intros d; by apply (serving_clients c)).
  destruct Hs as (Hl & En & Eo & Ep & cl & b & Hcl & Ec). unfold schedule. destruct ok; apply wp_modify.
  - split; [split; [exact Hl|split; [|exact Hn]]|]; cbn.
    + intros d [-> | Hin]%elem_of_cons; [|by apply Hp]. rewrite Hd. eauto.
    + intros _ (Tp & To & Tb & Td). unfold tidy. cbn.
      assert (∀ d dl, p_clients w' !! d = Some dl →
                ∃ dl', p_clients w !! d = Some dl' ∧ cl_sock dl' = cl_sock dl) as Hback.
      { intros d dl. rewrite Ec. destruct (decide (d = c)) as [-> | Hne].
        - rewrite lookup_insert_eq. intros [= <-]. eauto.
        - rewrite lookup_insert_ne by done. eauto. }
      assert (∀ d dl, p_clients w !! d = Some dl →
                ∃ dl', p_clients w' !! d = Some dl' ∧ cl_sock dl' = cl_sock dl) as Hforth.
      { intros d dl Hdl. rewrite Ec. destruct (decide (d = c)) as [-> | Hne].
        - rewrite lookup_insert_eq. eexists. split; [done|]. cbn. congruence.
        - rewrite lookup_insert_ne by done. eauto. }
      split_and!.
      * intros d Hsome. destruct (decide (d = c)) as [-> | Hne]; [by left|]. right. rewrite Ep.
        apply list_elem_of_filter. split; [done|]. by apply Tp, Hd.
      * intros fd. rewrite Eo, To. split; (intros [?|(d & dl & Hdl & Hsk)]; [by left|right]).
        -- destruct (Hforth _ _ Hdl) as (dl' & ? & ?). exists d, dl'. split; [done|congruence].
        -- destruct (Hback _ _ Hdl) as (dl' & ? & ?). exists d, dl'. split; [done|congruence].
      * intros d dl (dl' & Hdl & <-)%Hback. by apply (Tb d).
      * intros d1 d2 l1 l2 (l1' & H1' & <-)%Hback (l2' & H2' & <-)%Hback. by apply Td.
  - split; [|done]. split; [exact Hl|]. by split.
Qed.

Lemma wp_handle base c peer work once w w' :
  tame work → clients_ok w → serving c w w' →
  wp (s_handle_memcached_event c peer work once)
    (λ _ w2, server_ok w2 ∧ ((∀ f r, once f r = true) → tidy base w → tidy base w2)) w'.
Proof.
  intros Hw Hok Hs. unfold s_handle_memcached_event.
  assert (∀ v, serving c w v → is_Some (p_clients v !! c)) as Hlive.
  { intros v Hv. rewrite (serving_clients c w v) by done. destruct Hv as (_ & _ & _ & _ & cl & _ & E & _). eauto. }
  apply wp_bind, wp_get_client; [by apply Hlive|]. intros cl Hcl. apply wp_bind.
  eapply (wp_mono _ (λ _ v, serving c w v)).
  - destruct (on_connect_invoked cl); [by apply wp_ret|]. apply wp_bind.
    eapply wp_mono; [apply (tame_connect functions_tame); apply Hs|]. intros ok v [Hlv Hsv].
    assert (serving c w v) as Hv by (by eapply serving_same). destruct ok; [|by apply wp_ret].
    apply wp_bind, wp_get_client; [by apply Hlive|]. intros cl' Hcl'.
    apply wp_bind, wp_modify. destruct Hv as (_ & En & Eo & Ep & k & b & Hk & Ec).
    split; [exact Hlv|]. split; [exact En|]. split; [exact Eo|]. split; [exact Ep|]. cbn. exists k, true. split; [done|].
    rewrite Ec in *. rewrite lookup_insert_eq in Hcl'. injection Hcl' as <-. by rewrite insert_insert_eq.
  - intros go v Hv. destruct (negb go).
    + eapply wp_mono; [by apply (serving_close base c w)|]. cbn. intros _ v2 [? ?]. auto.
    + apply wp_bind, wp_get_client; [by apply Hlive|]. intros _ _. apply wp_bind.
      eapply wp_mono; [apply Hw, Hv|]. intros events v2 [Hl2 Hs2].
      assert (serving c w v2) as Hv2 by (by eapply serving_same).
      destruct (ev_error events).
      * eapply wp_mono; [by apply (serving_close base c w)|]. cbn. intros _ v3 [? ?]. auto.
      * eapply wp_mono; [by apply (serving_wait base c w)|]. cbn. intros _ v3 [? Ht]. split; [done|].
        intros Hon. apply Ht, Hon.
Qed.

Lemma wp_accept base sock created once w :
  admissible (Accept sock created once) w → server_ok w →
  wp (s_accept_cb sock created once) (λ _ w2, server_ok w2 ∧ (tidy base w → tidy base w2)) w.
Proof.
  intros Ha [Hl [Hp Hn]]. unfold s_accept_cb. destruct sock as [fd|]; [|by apply wp_modify].
  cbn in Ha. apply wp_bind, wp_modify. destruct created; cbn [negb].
  2: { apply wp_bind, wp_modify, wp_modify. split; [split; [exact Hl|by split]|].
       intros (Tp & To & Tb & Td). split; [exact Tp|]. split; [|by split]. intros i. cbn.
       by rewrite (open_and_close fd (p_open w)). }
  apply wp_bind, wp_get. cbn. apply wp_bind, wp_modify.
  assert (p_clients w !! p_next w = None) as Hnone.
  { apply eq_None_not_Some. intros Hsome. specialize (Hn _ Hsome). lia. }
  remember (p_next w) as c eqn:Ec. unfold schedule. destruct once.
  - apply wp_modify. split; [split; [exact Hl|split]|]; cbn.
    + intros d [-> | Hin]%elem_of_cons; [rewrite lookup_insert_eq; eauto|].
      rewrite lookup_insert_ne; [by apply Hp|]. intros <-. apply Hp in Hin as [? ?]. congruence.
    + intros d [dl Hd]. apply lookup_insert_Some in Hd as [[<- _]|[_ Hd]]; [lia|].
      apply Nat.lt_lt_succ_r. apply Hn. eauto.
    + intros (Tp & To & Tb & Td). unfold tidy. cbn. split_and!.
      * intros d [dl Hd]. apply lookup_insert_Some in Hd as [[<- _]|[_ Hd]]; [by left|].
        right. apply Tp. eauto.
      * intros i. rewrite elem_of_union, elem_of_singleton, To. split.
        -- intros [-> | [?|(d & dl & Hd & Hs)]]; [|by left|]; right.
           ++ exists c, (mkClient fd false). by rewrite lookup_insert_eq.
           ++ exists d, dl. rewrite lookup_insert_ne; [done|]. intros <-. congruence.
        -- intros [?|(d & dl & Hd & Hs)]; [by eauto|].
           apply lookup_insert_Some in Hd as [[_ <-]|[_ Hd]]; [by left|]. right; right. eauto.
      * intros d dl Hd. apply lookup_insert_Some in Hd as [[_ <-]|[_ Hd]]; [|by apply (Tb d)].
        cbn. intros Hin. apply Ha, To. by left.
      * assert (∀ d dl, p_clients w !! d = Some dl → cl_sock dl ≠ fd) as Hne.
        { intros d dl Hd <-. apply Ha, To. right. eauto. }
        intros d1 d2 l1 l2 H1' H2' Hs.
        apply lookup_insert_Some in H1' as [[<- <-]|[? H1']], H2' as [[<- <-]|[? H2']]; cbn in Hs.
        -- done.
        -- by destruct (Hne _ _ H2').
        -- by destruct (Hne _ _ H1').
        -- by apply (Td d1 d2 l1 l2).
  - apply wp_bind, wp_modify. unfold close_client. apply wp_bind, wp_get_client; cbn.
    { rewrite lookup_insert_eq. eauto. }
    intros cl. rewrite lookup_insert_eq. intros [= <-].
    split; [split; [exact Hl|split]|]; cbn; rewrite ?(delete_insert_id _ c) by done.
    + exact Hp.
    + intros d Hd. apply Nat.lt_lt_succ_r. by apply Hn.
    + intros (Tp & To & Tb & Td). unfold tidy. cbn.
      split; [exact Tp|]. split; [|by split]. intros i.
      by rewrite (open_and_close fd (p_open w)).
Qed.

Lemma wp_run_event base ev w :
  admissible ev w → server_ok w →
  wp (run_event ev) (λ _ w2, server_ok w2 ∧ (taken ev → tidy base w → tidy base w2)) w.
Proof.
  intros Ha [Hl Hc]. destruct ev as [sock created once|c peer work once]; cbn [run_event].
  - eapply wp_mono; [by apply wp_accept|]. cbn. intros _ w2 [? ?]. auto.
  - apply wp_bind, wp_get. case_bool_decide as Hin; [|by apply wp_ret].
    apply wp_bind, wp_modify. eapply wp_mono; [apply (wp_handle base c peer work once w)|].
    + exact Ha.
    + exact Hc.
    + split; [exact Hl|]. destruct (proj1 Hc c Hin) as [cl Hcl]. split_and!; [done..|].
      exists cl, (on_connect_invoked cl). split; [done|]. cbn. rewrite insert_id; [done|]. by destruct cl.
    + cbn. intros _ w2 [? ?]. auto.
Qed.
End Events.
