(* ===== verification/ServerScript.v ===== *)
(** * The protocol server: a script and its server

    What a script does with callables and a server, interleaved with the events of
    the loop, and what [MemcachedServer::run] leaves behind. *)

From S2P Require Import Prelude CLib Zend GFmt LibMemcached World Toy ProtoServer ProtoLoop.
From S2P Require Import ProtoServerProofs ServerCallbacks ServerLoop.
#[local] Open Scope Z_scope.
#[local] Abbreviation M := (M pworld).

Section Reach.
Context `{ZendRuntime} `{ProtocolNumbers} `{UserFunctions}.

(** The states of a server whose process has the descriptors [base] open.  [ok]
    says that libevent has taken every event of a client so far.  A script makes a
    closure, copies or drops a reference that is its own, and registers callbacks
    it has. *)
Inductive server_reach (base : gset nat) : bool → pworld → Prop :=
| reach_start w :
    p_callbacks w = ∅ → p_refs w = ∅ → p_clients w = ∅ → p_pending w = [] → p_open w = base →
    server_reach base true w
| reach_new ok w f :
    server_reach base ok w → p_refs w !! f = None →
    server_reach base ok (with_refs (<[f := 1%nat]> (p_refs w)) w)
| reach_copy ok w f w' :
    server_reach base ok w → (0 < own w f)%nat → addref f w = Ret tt w' → server_reach base ok w'
| reach_drop ok w f w' :
    server_reach base ok w → (0 < own w f)%nat → release f w = Ret tt w' → server_reach base ok w'
| reach_on ok w event fci v w' :
    server_reach base ok w → (∀ f, fci = Some f → (0 < own w f)%nat) →
    MemcachedServer_on event fci w = Ret v w' → server_reach base ok w'
| reach_event ok all_taken w ev w' :
    server_reach base ok w → admissible ev w → (all_taken = true → taken ev) →
    run_event ev w = Ret tt w' → server_reach base (ok && all_taken) w'.

Lemma tidy_same base w w' :
  p_clients w' = p_clients w → p_open w' = p_open w → p_pending w' = p_pending w →
  tidy base w → tidy base w'.
Proof. unfold tidy. by intros -> -> ->. Qed.

Lemma clients_ok_same w w' :
  p_clients w' = p_clients w → p_next w' = p_next w → p_pending w' = p_pending w →
  clients_ok w → clients_ok w'.
Proof. unfold clients_ok. by intros -> -> ->. Qed.

(** A reference of the script's more or less. *)
Lemma live_copy f w :
  live w → (0 < own w f)%nat → ∃ R, addref f w = Ret tt (with_refs R w) ∧ live (with_refs R w).
Proof.
  intros Hl Ho.
  destruct (addref_spec (own w) (λ g, (if decide (g = f) then 1 else 0) + own w g)%nat
    (p_callbacks w) (p_callbacks w) f w Hl Ho) as (R & E & Hc).
  - unfold total. by rewrite (decide_True (P := f = f)) by done.
  - intros g Hg. unfold total. by rewrite (decide_False (P := g = f)) by done.
  - exists R. split; [done|]. by eapply counted_live.
Qed.

Lemma live_drop f w :
  live w → (0 < own w f)%nat → ∃ R, release f w = Ret tt (with_refs R w) ∧ live (with_refs R w).
Proof.
  intros Hl Ho.
  destruct (release_spec (own w) (λ g, own w g - (if decide (g = f) then 1 else 0))%nat
    (p_callbacks w) (p_callbacks w) f w Hl) as (R & E & Hc).
  - unfold total. rewrite (decide_True (P := f = f)) by done. lia.
  - intros g Hg. unfold total. rewrite (decide_False (P := g = f)) by done. lia.
  - exists R. split; [done|]. by eapply counted_live.
Qed.

Lemma live_new f w :
  live w → p_refs w !! f = None → live (with_refs (<[f := 1%nat]> (p_refs w)) w).
Proof.
  intros Hl Hf. apply (counted_live (λ g, (if decide (g = f) then 1 else 0) + own w g)%nat).
  pose proof (Hl f) as E. rewrite Hf in E. unfold total, count in E.
  destruct (own w f + uses (p_callbacks w) f)%nat eqn:Ez; [|done].
  intros g. cbn. unfold total. case_decide as Hg; [subst|].
  - rewrite lookup_insert_eq. unfold count. by replace (1 + own w f + uses (p_callbacks w) f)%nat with 1%nat by lia.
  - rewrite lookup_insert_ne by done. by rewrite (Hl g).
Qed.

(** [on] leaves the loop alone. *)
Lemma on_live event fci w :
  live w → (∀ f, fci = Some f → (0 < own w f)%nat) →
  ∃ w', MemcachedServer_on event fci w = Ret ZFalse w' ∧ live w' ∧ same_clients w w'.
Proof.
  intros Hl Hf. destruct (on_spec (own w) event fci w Hl Hf) as (w' & E & Hc).
  exists w'. split; [done|]. split; [by eapply counted_live|].
  revert E. unfold MemcachedServer_on, s_destroy_cb, release, addref. mrun.
  repeat case_match; intros E; simplify_eq; repeat split.
Qed.

Lemma reach_inv base ok w :
  (∀ f params, tame (user_function f params)) →
  server_reach base ok w → server_ok w ∧ (ok = true → tidy base w).
Proof.
  intros Hu Hr. induction Hr as
    [w Ecb Er Ec Ep Eo
    |ok w f Hr IH Hf|ok w f w' Hr IH Hf R|ok w f w' Hr IH Hf R|ok w event fci v w' Hr IH Hf R
    |ok b w ev w' Hr IH Ha Hb R].
  - split; [split; [|split]|intros _; unfold tidy].
    + apply (counted_live (λ _, 0%nat)). intros f. unfold total, uses. rewrite Er, Ecb. done.
    + rewrite Ep. by intros ? ?%elem_of_nil.
    + rewrite Ec. by intros ? [? ?].
    + rewrite Ec, Eo. split_and!; [by intros ? [? ?]| |done|done]. intros fd. split; [by left|].
      by intros [?|(? & ? & ? & _)].
  - destruct IH as [[Hl Hc] Ht]. split; [split; [by apply live_new|exact Hc]|exact Ht].
  - destruct IH as [[Hl Hc] Ht]. destruct (live_copy f w Hl Hf) as (W & E & Hl').
    rewrite E in R. injection R as <-. split; [split; [exact Hl'|exact Hc]|exact Ht].
  - destruct IH as [[Hl Hc] Ht]. destruct (live_drop f w Hl Hf) as (W & E & Hl').
    rewrite E in R. injection R as <-. split; [split; [exact Hl'|exact Hc]|exact Ht].
  - destruct IH as [[Hl Hc] Ht]. destruct (on_live event fci w Hl Hf) as (W & E & Hl' & Hs).
    rewrite E in R. injection R as <- <-. destruct Hs as (E1 & E2 & E3 & E4).
    split; [split; [exact Hl'|]|].
    + by eapply clients_ok_same.
    + intros Hok. by eapply tidy_same; [..|apply Ht].
  - destruct IH as [Hok Ht]. pose proof (wp_run_event Hu base ev w Ha Hok) as Hw.
    unfold wp in Hw. rewrite R in Hw. destruct Hw as [Hok' Ht']. split; [done|].
    intros [-> ->]%andb_true_iff. auto.
Qed.

(** C10: The server never uses freed memory. Whatever the script does with its
    callables and whatever happens on the sockets, every callback in a slot is
    alive, every client that waits for an event exists, [MemcachedServer::on] with a
    callback of the script's returns (false), and no handler and no event of the
    loop does anything undefined. As long as libevent takes the clients' events,
    every client waits for one, and the sockets that are open are those of the
    process and one of each client. *)
Theorem server_safe base ok w :
  (∀ f params, tame (user_function f params)) →
  server_reach base ok w →
  (∀ e f, p_callbacks w !! e = Some f → is_Some (p_refs w !! f)) ∧
  (∀ c, c ∈ p_pending w → is_Some (p_clients w !! c)) ∧
  (∀ event fci, (∀ f, fci = Some f → (0 < own w f)%nat) →
     ∃ w', MemcachedServer_on event fci w = Ret ZFalse w') ∧
  (∀ cookie c, tame_command c → wp (php_memc_proto_handler_new cookie c) (λ _ _, True) w) ∧
  (∀ ev, admissible ev w → wp (run_event ev) (λ _ _, True) w) ∧
  (ok = true → tidy base w).
Proof.
  intros Hu Hr. destruct (reach_inv base ok w Hu Hr) as [[Hl [Hp Hn]] Ht]. split_and!; [| | | | |exact Ht].
  - intros e f. by apply live_slot.
  - exact Hp.
  - intros event fci Hf. destruct (on_live event fci w Hl Hf) as (w' & E & _). eauto.
  - intros cookie c Hc. eapply wp_mono; [by apply (tame_handler Hu)|done].
  - intros ev Ha. eapply wp_mono; [apply (wp_run_event Hu base)|done]; [done|by split].
Qed.

(** Destroying a slot whose callable is freed is undefined, whichever slots come first. *)
Lemma destroy_cbs_freed events e f w :
  e ∈ events → p_callbacks w !! e = Some f → p_refs w !! f = None → destroy_cbs events w = Undef.
Proof.
  revert w. induction events as [|e' events IH]; intros w He Hf Hr; [by apply elem_of_nil in He|].
  cbn [destroy_cbs]. unfold s_destroy_cb at 1. rewrite bind_assoc, get_bind.
  destruct (decide (e' = e)) as [-> | Hne].
  - rewrite Hf. unfold release. by rewrite bind_assoc, get_bind, Hr.
  - apply elem_of_cons in He as [-> | He]; [done|].
    destruct (p_callbacks w !! e') as [f'|]; [|rewrite ret_bind; by apply IH].
    unfold release. rewrite bind_assoc, get_bind.
    destruct (p_refs w !! f') as [[|[|n]]|] eqn:E; [done| | |done];
      rewrite modify_bind; apply IH; cbn; try done.
    + destruct (decide (f' = f)) as [-> | ?]; [apply lookup_delete_eq|by rewrite lookup_delete_ne].
    + rewrite lookup_insert_ne; [done|congruence].
Qed.

Lemma without_all events cb :
  (∀ e, is_Some (cb !! e) → e ∈ events) → without events cb = ∅.
Proof.
  intros Hall. apply map_eq. intros e. rewrite lookup_empty.
  destruct (decide (e ∈ events)); [by apply without_in|]. rewrite without_lookup by done.
  apply eq_None_not_Some. auto.
Qed.

(** [MemcachedServer::run] takes exactly one reference from each callback for
    each slot it is in, so that the script's own references are all that is left;
    but the slots keep their pointers. Where the script held no reference itself,
    the callback is freed, and registering another one for the event, serving a
    command for it or a second run that gets no socket uses it again. *)
Theorem run_leaves_freed_callbacks serve w w1 rc :
  serve w = Ret rc w1 → live w1 →
  (∀ e, is_Some (p_callbacks w1 !! e) → 0 <= e < MEMC_SERVER_ON_MAX) →
  ∃ w2, MemcachedServer_run serve w = Ret (ZBool rc) w2 ∧
    p_callbacks w2 = p_callbacks w1 ∧
    (∀ f, p_refs w2 !! f = count (own w1 f)) ∧
    ∀ e f, p_callbacks w1 !! e = Some f → own w1 f = 0%nat →
      (∀ g, MemcachedServer_on e (Some g) w2 = Undef) ∧
      (∀ ev params, event_num ev = e → s_invoke_php_callback ev params w2 = Undef) ∧
      (∀ l allocated events result, address_parsed l = false →
         MemcachedServer_run (php_memc_proto_handler_run l allocated events result) w2 = Undef).
Proof.
  intros Hs Hl He. set (events := Z.of_nat <$> seq 0 15).
  assert (∀ e, e ∈ events ↔ 0 <= e < 15) as Hev.
  { intros e. unfold events. rewrite list_elem_of_fmap. split.
    - intros (n & -> & Hn%elem_of_seq). lia.
    - intros He'. exists (Z.to_nat e). rewrite elem_of_seq. lia. }
  destruct (destroy_cbs_spec (own w1) (p_callbacks w1) events w1) as (w2 & E & Hcb & Hc);
    [|exact Hl|done|].
  { apply NoDup_fmap_2; [apply _|apply NoDup_seq]. }
  rewrite (without_all (reverse events)) in Hc by (intros e ?; apply elem_of_reverse, Hev, He; done).
  exists w2. unfold MemcachedServer_run at 1. rewrite (bind_Ret _ _ _ _ _ Hs), (bind_Ret _ _ _ _ _ E).
  assert (∀ f, p_refs w2 !! f = count (own w1 f)) as Hrefs.
  { intros f. rewrite (Hc f). unfold total. by rewrite Nat.add_0_r. }
  split_and!; [done|done|done|]. intros e f Hf Hown. rewrite <- Hcb in Hf, He.
  assert (p_refs w2 !! f = None) as Hnone by by rewrite Hrefs, Hown.
  assert (0 <= e < 15) as Hrange by (apply He; eauto). split_and!.
  - intros g. unfold MemcachedServer_on, MEMC_SERVER_ON_MIN, MEMC_SERVER_ON_MAX.
    replace (_ || _) with false by lia. unfold s_destroy_cb, release.
    by rewrite !bind_assoc, get_bind, Hf, bind_assoc, get_bind, Hnone.
  - intros ev params <-. unfold s_invoke_php_callback, zend_call_function.
    by rewrite bind_assoc, get_bind, Hf, Hnone.
  - intros l allocated evs result Hl'. unfold MemcachedServer_run, php_memc_proto_handler_run.
    unfold s_create_listening_socket. rewrite Hl'. cbn [negb]. unfold pwarn.
    rewrite !bind_assoc, modify_bind, !ret_bind. fold events.
    unfold mbind at 1, M_bind at 1.
    by rewrite (destroy_cbs_freed events e f) by (first [by apply Hev|done]).
Qed.
End Reach.

(** ** Examples *)
#[local] Instance example_functions : UserFunctions := answering (ZLong 0) [].

Lemma answering_tame v refs f params : tame (user_function (UserFunctions := answering v refs) f params).
Proof. apply tame_ret. Qed.

(** A script that registers a closure for GET and forgets it, and a client. *)
Definition example_world : pworld :=
  mkServer {[6 := 1%nat]} {[1%nat := 1%nat]} [] {[0%nat := mkClient 5 false]} 1 {[5%nat]} [0%nat].

Definition example_registered (refs : nat) : pworld :=
  mkServer {[6 := 1%nat]} {[1%nat := refs]} [] ∅ 0 ∅ [].

Lemma example_reached : server_reach ∅ true example_world.
Proof.
  pose proof (reach_new ∅ true idle_server 1%nat (reach_start ∅ idle_server eq_refl eq_refl eq_refl eq_refl eq_refl)
                eq_refl) as H1.
  apply (reach_on _ _ _ 6 (Some 1%nat) ZFalse (example_registered 2)) in H1;
    [|by intros f [= <-]; apply Nat.ltb_lt|reflexivity].
  apply (reach_drop _ _ _ 1%nat (example_registered 1)) in H1; [|by apply Nat.ltb_lt|reflexivity].
  apply (reach_event _ _ true _ (Accept (Some 5%nat) true true) example_world) in H1;
    [exact H1|by apply not_elem_of_empty|done|reflexivity].
Qed.

Lemma server_safe_witness :
  is_Some (p_refs example_world !! 1%nat) ∧ tidy ∅ example_world.
Proof.
  destruct (server_safe ∅ true example_world (answering_tame _ _) example_reached)
    as (Hslot & _ & _ & _ & _ & Htidy).
  split; [by apply (Hslot 6)|by apply Htidy].
Defined.

Definition bad_address : listening := mkListening false None false false false false false.

(** A server on an address that cannot be parsed: [run] gives false and leaves the
    freed closure in its slot, so that the script cannot even replace it. *)
Lemma run_leaves_freed_callbacks_witness :
  ∃ w2, MemcachedServer_run (php_memc_proto_handler_run bad_address true [] 0) example_world = Ret ZFalse w2
    ∧ MemcachedServer_on 6 (Some 2%nat) w2 = Undef.
Proof.
  assert (live example_world) as Hl by (by eapply reach_inv, example_reached; apply answering_tame).
  destruct (run_leaves_freed_callbacks (php_memc_proto_handler_run bad_address true [] 0) example_world
    (with_pwarning "Failed to parse bind address: %s" example_world) false eq_refl Hl)
    as (w2 & E & _ & _ & Hfreed).
  - intros e. cbn. intros [f [<- _]%lookup_singleton_Some]. by unfold MEMC_SERVER_ON_MAX.
  - exists w2. split; [exact E|]. by apply (Hfreed 6 1%nat).
Defined.
