(* ===== verification/ServerObject.v ===== *)
(** * The protocol server: its objects

    Creation and destruction of [MemcachedServer] objects (php_memcached.c) and of
    the protocol handlers behind them (php_memcached_server.c). A handler, the
    protocol instance of libmemcached and the event base of libevent that it points
    to are cells; using or freeing one that was freed is [Undef]. *)

From S2P Require Import Prelude.
#[local] Open Scope Z_scope.

(** [php_memc_proto_handler_t], less its table of callbacks, which never changes. *)
Record php_memc_proto_handler_t : Type := mkHandler {
  protocol_handle : nat;
  event_base : option nat
}.

(** The objects with their handlers, and the blocks that are allocated. *)
Record servers : Type := mkServers {
  so_objects : gmap nat nat;
  so_handlers : gmap nat php_memc_proto_handler_t;
  so_instances : gset nat;
  so_bases : gset nat;
  so_next : nat
}.

#[local] Abbreviation M := (M servers).

(** A new block; [put] stores it and moves [so_next] on. *)
Definition alloc (put : nat → servers → servers) : M nat :=
  λ w, Ret (so_next w) (put (so_next w) w).

Definition get_handler (h : nat) : M php_memc_proto_handler_t :=
  w ← get; match so_handlers w !! h with Some c => mret c | None => undef end.

(** [php_memc_proto_handler_new]: [created] says whether libmemcached could make an
    instance; an [assert] is all that stands between a NULL and its use. *)
Definition proto_handler_new (created : bool) : M nat :=
  if negb created then undef
  else alloc (λ h w, mkServers (so_objects w) (<[h := mkHandler h None]> (so_handlers w))
                       ({[h]} ∪ so_instances w) (so_bases w) (S h)).

(** [php_memc_server_new]. *)
Definition php_memc_server_new (created : bool) : M nat :=
  h ← proto_handler_new created;
  alloc (λ o w, mkServers (<[o := h]> (so_objects w)) (so_handlers w) (so_instances w) (so_bases w)
                  (S o)).

(** [php_memc_proto_handler_destroy]: the event base stays. *)
Definition php_memc_proto_handler_destroy (h : nat) : M unit :=
  c ← get_handler h;
  w ← get;
  if decide (protocol_handle c ∈ so_instances w) then
    modify (λ w, mkServers (so_objects w) (delete h (so_handlers w))
                   (so_instances w ∖ {[protocol_handle c]}) (so_bases w) (so_next w))
  else undef.

(** [php_memc_server_free_storage], of an object of the engine's. *)
Definition php_memc_server_free_storage (o : nat) : M unit :=
  w ← get;
  match so_objects w !! o with
  | None => undef
  | Some h =>
      php_memc_proto_handler_destroy h;;
      modify (λ w, mkServers (delete o (so_objects w)) (so_handlers w) (so_instances w) (so_bases w)
                     (so_next w))
  end.

(** What [php_memc_proto_handler_run] does to the handler of an object: with a
    socket to listen on, [listens], it makes a new event base. *)
Definition run_handler (o : nat) (listens : bool) : M unit :=
  w ← get;
  match so_objects w !! o with
  | None => undef
  | Some h =>
      c ← get_handler h;
      if listens then
        _ ← alloc (λ b w,
              mkServers (so_objects w)
                (<[h := mkHandler (protocol_handle c) (Some b)]> (so_handlers w))
                (so_instances w) ({[b]} ∪ so_bases w) (S b));
        mret tt
      else mret tt
  end.

(** What a script makes the engine do: an object is freed once, and used before. *)
Inductive object_op : Type := NewServer | RunServer (o : nat) (listens : bool) | FreeServer (o : nat).

Definition object_step (op : object_op) : M unit :=
  w ← get;
  match op with
  | NewServer => _ ← php_memc_server_new true; mret tt
  | RunServer o listens =>
      if decide (is_Some (so_objects w !! o)) then run_handler o listens else mret tt
  | FreeServer o =>
      if decide (is_Some (so_objects w !! o)) then php_memc_server_free_storage o else mret tt
  end.

Fixpoint object_steps (ops : list object_op) : M unit :=
  match ops with [] => mret tt | op :: rest => object_step op;; object_steps rest end.

Definition no_servers : servers := mkServers ∅ ∅ ∅ ∅ 0.

(** ** Safety *)

(** Objects and handlers, handlers and instances go in pairs; [so_next] is fresh. *)
Record paired (w : servers) : Prop := {
  pr_handler o h : so_objects w !! o = Some h → is_Some (so_handlers w !! h);
  pr_object h : is_Some (so_handlers w !! h) → ∃ o, so_objects w !! o = Some h;
  pr_inj o o' h : so_objects w !! o = Some h → so_objects w !! o' = Some h → o = o';
  pr_own h c : so_handlers w !! h = Some c → protocol_handle c = h;
  pr_instance i : i ∈ so_instances w ↔ is_Some (so_handlers w !! i);
  pr_fresh o : is_Some (so_objects w !! o) ∨ is_Some (so_handlers w !! o) ∨ o ∈ so_bases w →
               (o < so_next w)%nat
}.

Lemma paired_new w : paired w → wp (php_memc_server_new true) (λ _, paired) w.
Proof.
  intros [Hh Ho Hi Hc Hin Hf]. unfold php_memc_server_new. apply wp_bind. cbn.
  set (n := so_next w) in *.
  assert (so_handlers w !! n = None) as Hn.
  { apply eq_None_not_Some. intros Hs. specialize (Hf n (or_intror (or_introl Hs))). lia. }
  assert (so_objects w !! S n = None) as Hsn.
  { apply eq_None_not_Some. intros Hs. specialize (Hf (S n) (or_introl Hs)). lia. }
  split; cbn.
  - intros o h Hl. rewrite lookup_insert_is_Some. apply lookup_insert_Some in Hl as [[_ <-]|[_ Hl]]; [by left|].
    destruct (decide (n = h)) as [<-|]; [by left|]. right. split; [done|]. by apply (Hh o).
  - intros h. rewrite lookup_insert_is_Some. intros [<-|[Hne Hs]].
    + exists (S n). by rewrite lookup_insert, decide_True.
    + destruct (Ho h Hs) as [o Hl]. exists o. rewrite lookup_insert_ne; [done|]. intros <-. congruence.
  - intros o o' h Hl Hl'. apply lookup_insert_Some in Hl as [[<- <-]|[Hne Hl]];
      apply lookup_insert_Some in Hl' as [[<- E]|[Hne' Hl']]; [done| | |by apply (Hi o o' h)].
    + destruct (Hh _ _ Hl') as [? ?]; congruence.
    + subst. destruct (Hh _ _ Hl) as [? ?]; congruence.
  - intros h c Hl. apply lookup_insert_Some in Hl as [[<- <-]|[_ Hl]]; [done|by apply Hc].
  - intros i. rewrite elem_of_union, elem_of_singleton, Hin, lookup_insert_is_Some.
    destruct (decide (n = i)) as [<-|]; intuition congruence.
  - intros o. rewrite !lookup_insert_is_Some. intros [[<-|[_ Hs]]|[[<-|[_ Hs]]|Hs]]; [lia| |lia| |].
    + specialize (Hf o (or_introl Hs)). lia.
    + specialize (Hf o (or_intror (or_introl Hs))). lia.
    + specialize (Hf o (or_intror (or_intror Hs))). lia.
Qed.

Lemma wp_get_handler h c (Q : php_memc_proto_handler_t → servers → Prop) w :
  so_handlers w !! h = Some c → Q c w → wp (get_handler h) Q w.
Proof. intros Hc HQ. unfold get_handler. apply wp_bind, wp_get. rewrite Hc. by apply wp_ret. Qed.

Lemma paired_run o listens w :
  paired w → is_Some (so_objects w !! o) → wp (run_handler o listens) (λ _, paired) w.
Proof.
  intros Hw [h Ho]. destruct (pr_handler w Hw o h Ho) as [c Hc].
  unfold run_handler. apply wp_bind, wp_get. rewrite Ho.
  apply wp_bind, (wp_get_handler h c); [done|]. destruct listens; [|by apply wp_ret].
  apply wp_bind. unfold alloc, wp at 1. apply wp_ret.
  destruct Hw as [Hh Hob Hi Hp Hin Hf]. pose proof (Hp h c Hc) as Hhc.
  assert (∀ i, is_Some (<[h := mkHandler (protocol_handle c) (Some (so_next w))]> (so_handlers w) !! i)
               ↔ is_Some (so_handlers w !! i)) as Hsame.
  { intros i. rewrite lookup_insert_is_Some. destruct (decide (h = i)) as [<-|]; [|by intuition].
    rewrite Hc. split; eauto. }
  split; cbn.
  - intros o' h' Hl. rewrite Hsame. by apply (Hh o').
  - intros h'. rewrite Hsame. apply Hob.
  - exact Hi.
  - intros h' c' Hl. apply lookup_insert_Some in Hl as [[<- <-]|[_ Hl]]; [done|by apply Hp].
  - intros i. rewrite Hsame. apply Hin.
  - intros i. rewrite Hsame, elem_of_union, elem_of_singleton.
    intros [Hs|[Hs|[->|Hs]]]; [| |lia|].
    all: enough (i < so_next w)%nat by lia; apply Hf; tauto.
Qed.

Lemma paired_free o w :
  paired w → is_Some (so_objects w !! o) → wp (php_memc_server_free_storage o) (λ _, paired) w.
Proof.
  intros Hw [h Ho]. destruct (pr_handler w Hw o h Ho) as [c Hc].
  pose proof (pr_own w Hw h c Hc) as Hhc.
  unfold php_memc_server_free_storage, php_memc_proto_handler_destroy.
  apply wp_bind, wp_get. rewrite Ho. apply wp_bind, wp_bind, (wp_get_handler h c); [done|].
  apply wp_bind, wp_get. rewrite Hhc, decide_True by (apply (pr_instance w Hw); eauto).
  apply wp_modify, wp_modify. destruct Hw as [Hh Hob Hi Hp Hin Hf]. split; cbn.
  - intros o' h' [Hne Hl]%lookup_delete_Some. rewrite lookup_delete_is_Some. split; [|by apply (Hh o')].
    intros <-. by apply Hne, (Hi o o' h).
  - intros h' [Hne Hs]%lookup_delete_is_Some. destruct (Hob h' Hs) as [o' Hl]. exists o'.
    apply lookup_delete_Some. split; [|done]. intros <-. congruence.
  - intros o1 o2 h' [_ H1]%lookup_delete_Some [_ H2]%lookup_delete_Some. by apply (Hi o1 o2 h').
  - intros h' c' [_ Hl]%lookup_delete_Some. by apply Hp.
  - intros i. rewrite elem_of_difference, elem_of_singleton, lookup_delete_is_Some, Hin. intuition congruence.
  - intros i. rewrite !lookup_delete_is_Some. intros [[_ Hs]|[[_ Hs]|Hs]]; apply Hf; tauto.
Qed.

Lemma paired_step op w : paired w → wp (object_step op) (λ _, paired) w.
Proof.
  intros Hw. unfold object_step. apply wp_bind, wp_get. destruct op as [|o listens|o].
  - apply wp_bind. eapply wp_mono; [by apply paired_new|]. auto with memc.
  - case_decide; [by apply paired_run|by apply wp_ret].
  - case_decide; [by apply paired_free|by apply wp_ret].
Qed.

Lemma paired_steps ops w : paired w → wp (object_steps ops) (λ _, paired) w.
Proof.
  revert w. induction ops as [|op ops IH]; intros w Hw; cbn [object_steps]; [by apply wp_ret|].
  apply wp_bind. eapply wp_mono; [by apply paired_step|]. auto.
Qed.

Lemma paired_no_servers : paired no_servers.
Proof. split; cbn; try set_solver; intros *; rewrite ?lookup_empty; try done; by intros [? ?] || set_solver. Qed.

(** The event bases stay. *)
Lemma bases_kept op w w' : object_step op w = Ret tt w' → so_bases w ⊆ so_bases w'.
Proof.
  unfold object_step. rewrite get_bind. destruct op as [|o listens|o]; [by intros [= <-]|..].
  - case_decide; [|by intros [= <-]]. unfold run_handler. rewrite get_bind.
    destruct (so_objects w !! o) as [h|]; [|done]. unfold get_handler. rewrite bind_assoc, get_bind.
    destruct (so_handlers w !! h) as [c|]; [|done]. rewrite ret_bind.
    destruct listens; intros [= <-]; cbn; [apply union_subseteq_r|done].
  - case_decide; [|by intros [= <-]].
    unfold php_memc_server_free_storage, php_memc_proto_handler_destroy, get_handler.
    rewrite get_bind. destruct (so_objects w !! o) as [h|]; [|done].
    rewrite !bind_assoc, get_bind. destruct (so_handlers w !! h) as [c|]; [|done].
    rewrite ret_bind, bind_assoc, get_bind. case_decide; [|done]. by intros [= <-].
Qed.

(** Whatever objects a script makes, runs and drops, and in whatever order, no
    handler or protocol instance is used or freed twice; every object has its own
    and none outlives its object. The event base of a run is never freed: a step
    keeps those there are, also the step that destroys the object. *)
Theorem server_objects_safe ops :
  wp (object_steps ops) (λ _ w,
      (∀ o h, so_objects w !! o = Some h → is_Some (so_handlers w !! h) ∧ h ∈ so_instances w)
      ∧ (∀ h, is_Some (so_handlers w !! h) ∨ h ∈ so_instances w → ∃ o, so_objects w !! o = Some h)
      ∧ ∀ op w', object_step op w = Ret tt w' → so_bases w ⊆ so_bases w')
    no_servers.
Proof.
  eapply wp_mono; [apply paired_steps, paired_no_servers|]. intros [] w Hw. split_and!.
  - intros o h Ho. pose proof (pr_handler w Hw o h Ho) as Hh. split; [done|]. by apply (pr_instance w Hw).
  - intros h [Hh|Hh]; [|apply (pr_instance w Hw) in Hh]; by apply (pr_object w Hw).
  - intros op w'. apply bases_kept.
Qed.
