(* ===== verification/ArgInfo.v ===== *)
(** * The methods of the classes: names, arguments and return types

    php_memcached_arginfo.h, which PHP 8 and later registers the classes with.
    The header is generated from php_memcached.stub.php; the definitions here have
    its macros' names and arguments. *)

From S2P Require Import Prelude Zend.

(** The types of arguments and return values; [ArgType t b] allows null when [b],
    and [NoType] is a declaration without a type. *)
Inductive type_code : Type :=
| IS_LONG | IS_STRING | IS_ARRAY | IS_CALLABLE | IS_MIXED | IS_BOOL.
Inductive may_be : Type := MAY_BE_ARRAY | MAY_BE_LONG | MAY_BE_FALSE | MAY_BE_STRING | MAY_BE_DOUBLE.
Inductive zend_type : Type :=
| NoType
| ArgType (t : type_code) (allow_null : bool)
| TypeMask (mask : list may_be).

Record zend_arg : Type := ZendArg {
  pass_by_ref : bool;
  arg_name : string;
  arg_type : zend_type;
  default_value : option string
}.

Record zend_arg_info : Type := ArgInfo {
  return_reference : bool;
  required_num_args : nat;
  return_type : zend_type;
  arg_list : list zend_arg
}.

(** Of what the build may leave out. *)
Class OptionalMethods : Type := { HAVE_MEMCACHED_SET_ENCODING_KEY : bool }.

Definition arginfo_class_Memcached___construct : zend_arg_info :=
  ArgInfo false 0 NoType
  [ZendArg false "persistent_id" (ArgType IS_STRING true) (Some "null");
   ZendArg false "callback" (ArgType IS_CALLABLE true) (Some "null");
   ZendArg false "connection_str" (ArgType IS_STRING true) (Some "null")].

Definition arginfo_class_Memcached_getResultCode : zend_arg_info :=
  ArgInfo false 0 (ArgType IS_LONG false) [].

Definition arginfo_class_Memcached_getResultMessage : zend_arg_info :=
  ArgInfo false 0 (ArgType IS_STRING false) [].

Definition arginfo_class_Memcached_get : zend_arg_info :=
  ArgInfo false 1 (ArgType IS_MIXED false)
  [ZendArg false "key" (ArgType IS_STRING false) None;
   ZendArg false "cache_cb" (ArgType IS_CALLABLE true) (Some "null");
   ZendArg false "get_flags" (ArgType IS_LONG false) (Some "0")].

Definition arginfo_class_Memcached_getByKey : zend_arg_info :=
  ArgInfo false 2 (ArgType IS_MIXED false)
  [ZendArg false "server_key" (ArgType IS_STRING false) None;
   ZendArg false "key" (ArgType IS_STRING false) None;
   ZendArg false "cache_cb" (ArgType IS_CALLABLE true) (Some "null");
   ZendArg false "get_flags" (ArgType IS_LONG false) (Some "0")].

Definition arginfo_class_Memcached_getMulti : zend_arg_info :=
  ArgInfo false 1 (TypeMask [MAY_BE_ARRAY; MAY_BE_FALSE])
  [ZendArg false "keys" (ArgType IS_ARRAY false) None;
   ZendArg false "get_flags" (ArgType IS_LONG false) (Some "0")].

Definition arginfo_class_Memcached_getMultiByKey : zend_arg_info :=
  ArgInfo false 2 (TypeMask [MAY_BE_ARRAY; MAY_BE_FALSE])
  [ZendArg false "server_key" (ArgType IS_STRING false) None;
   ZendArg false "keys" (ArgType IS_ARRAY false) None;
   ZendArg false "get_flags" (ArgType IS_LONG false) (Some "0")].

Definition arginfo_class_Memcached_getDelayed : zend_arg_info :=
  ArgInfo false 1 (ArgType IS_BOOL false)
  [ZendArg false "keys" (ArgType IS_ARRAY false) None;
   ZendArg false "with_cas" (ArgType IS_BOOL false) (Some "false");
   ZendArg false "value_cb" (ArgType IS_CALLABLE true) (Some "null")].

Definition arginfo_class_Memcached_getDelayedByKey : zend_arg_info :=
  ArgInfo false 2 (ArgType IS_BOOL false)
  [ZendArg false "server_key" (ArgType IS_STRING false) None;
   ZendArg false "keys" (ArgType IS_ARRAY false) None;
   ZendArg false "with_cas" (ArgType IS_BOOL false) (Some "false");
   ZendArg false "value_cb" (ArgType IS_CALLABLE true) (Some "null")].

Definition arginfo_class_Memcached_fetch : zend_arg_info :=
  ArgInfo false 0 (TypeMask [MAY_BE_ARRAY; MAY_BE_FALSE]) [].

Definition arginfo_class_Memcached_fetchAll := arginfo_class_Memcached_fetch.

Definition arginfo_class_Memcached_set : zend_arg_info :=
  ArgInfo false 2 (ArgType IS_BOOL false)
  [ZendArg false "key" (ArgType IS_STRING false) None;
   ZendArg false "value" (ArgType IS_MIXED false) None;
   ZendArg false "expiration" (ArgType IS_LONG false) (Some "0")].

Definition arginfo_class_Memcached_setByKey : zend_arg_info :=
  ArgInfo false 3 (ArgType IS_BOOL false)
  [ZendArg false "server_key" (ArgType IS_STRING false) None;
   ZendArg false "key" (ArgType IS_STRING false) None;
   ZendArg false "value" (ArgType IS_MIXED false) None;
   ZendArg false "expiration" (ArgType IS_LONG false) (Some "0")].

Definition arginfo_class_Memcached_touch : zend_arg_info :=
  ArgInfo false 1 (ArgType IS_BOOL false)
  [ZendArg false "key" (ArgType IS_STRING false) None;
   ZendArg false "expiration" (ArgType IS_LONG false) (Some "0")].

Definition arginfo_class_Memcached_touchByKey : zend_arg_info :=
  ArgInfo false 2 (ArgType IS_BOOL false)
  [ZendArg false "server_key" (ArgType IS_STRING false) None;
   ZendArg false "key" (ArgType IS_STRING false) None;
   ZendArg false "expiration" (ArgType IS_LONG false) (Some "0")].

Definition arginfo_class_Memcached_setMulti : zend_arg_info :=
  ArgInfo false 1 (ArgType IS_BOOL false)
  [ZendArg false "items" (ArgType IS_ARRAY false) None;
   ZendArg false "expiration" (ArgType IS_LONG false) (Some "0")].

Definition arginfo_class_Memcached_setMultiByKey : zend_arg_info :=
  ArgInfo false 2 (ArgType IS_BOOL false)
  [ZendArg false "server_key" (ArgType IS_STRING false) None;
   ZendArg false "items" (ArgType IS_ARRAY false) None;
   ZendArg false "expiration" (ArgType IS_LONG false) (Some "0")].

Definition arginfo_class_Memcached_cas : zend_arg_info :=
  ArgInfo false 3 (ArgType IS_BOOL false)
  [ZendArg false "cas_token" (TypeMask [MAY_BE_STRING; MAY_BE_LONG; MAY_BE_DOUBLE]) None;
   ZendArg false "key" (ArgType IS_STRING false) None;
   ZendArg false "value" (ArgType IS_MIXED false) None;
   ZendArg false "expiration" (ArgType IS_LONG false) (Some "0")].

Definition arginfo_class_Memcached_casByKey : zend_arg_info :=
  ArgInfo false 4 (ArgType IS_BOOL false)
  [ZendArg false "cas_token" (TypeMask [MAY_BE_STRING; MAY_BE_LONG; MAY_BE_DOUBLE]) None;
   ZendArg false "server_key" (ArgType IS_STRING false) None;
   ZendArg false "key" (ArgType IS_STRING false) None;
   ZendArg false "value" (ArgType IS_MIXED false) None;
   ZendArg false "expiration" (ArgType IS_LONG false) (Some "0")].

Definition arginfo_class_Memcached_add := arginfo_class_Memcached_set.

Definition arginfo_class_Memcached_addByKey := arginfo_class_Memcached_setByKey.

Definition arginfo_class_Memcached_append : zend_arg_info :=
  ArgInfo false 2 (ArgType IS_BOOL true)
  [ZendArg false "key" (ArgType IS_STRING false) None;
   ZendArg false "value" (ArgType IS_STRING false) None].

Definition arginfo_class_Memcached_appendByKey : zend_arg_info :=
  ArgInfo false 3 (ArgType IS_BOOL true)
  [ZendArg false "server_key" (ArgType IS_STRING false) None;
   ZendArg false "key" (ArgType IS_STRING false) None;
   ZendArg false "value" (ArgType IS_STRING false) None].

Definition arginfo_class_Memcached_prepend := arginfo_class_Memcached_append.

Definition arginfo_class_Memcached_prependByKey := arginfo_class_Memcached_appendByKey.

Definition arginfo_class_Memcached_replace := arginfo_class_Memcached_set.

Definition arginfo_class_Memcached_replaceByKey := arginfo_class_Memcached_setByKey.

Definition arginfo_class_Memcached_delete : zend_arg_info :=
  ArgInfo false 1 (ArgType IS_BOOL false)
  [ZendArg false "key" (ArgType IS_STRING false) None;
   ZendArg false "time" (ArgType IS_LONG false) (Some "0")].

Definition arginfo_class_Memcached_deleteMulti : zend_arg_info :=
  ArgInfo false 1 (ArgType IS_ARRAY false)
  [ZendArg false "keys" (ArgType IS_ARRAY false) None;
   ZendArg false "time" (ArgType IS_LONG false) (Some "0")].

Definition arginfo_class_Memcached_deleteByKey : zend_arg_info :=
  ArgInfo false 2 (ArgType IS_BOOL false)
  [ZendArg false "server_key" (ArgType IS_STRING false) None;
   ZendArg false "key" (ArgType IS_STRING false) None;
   ZendArg false "time" (ArgType IS_LONG false) (Some "0")].

Definition arginfo_class_Memcached_deleteMultiByKey : zend_arg_info :=
  ArgInfo false 2 (ArgType IS_ARRAY false)
  [ZendArg false "server_key" (ArgType IS_STRING false) None;
   ZendArg false "keys" (ArgType IS_ARRAY false) None;
   ZendArg false "time" (ArgType IS_LONG false) (Some "0")].

Definition arginfo_class_Memcached_increment : zend_arg_info :=
  ArgInfo false 1 (TypeMask [MAY_BE_LONG; MAY_BE_FALSE])
  [ZendArg false "key" (ArgType IS_STRING false) None;
   ZendArg false "offset" (ArgType IS_LONG false) (Some "1");
   ZendArg false "initial_value" (ArgType IS_LONG false) (Some "0");
   ZendArg false "expiry" (ArgType IS_LONG false) (Some "0")].

Definition arginfo_class_Memcached_decrement := arginfo_class_Memcached_increment.

Definition arginfo_class_Memcached_incrementByKey : zend_arg_info :=
  ArgInfo false 2 (TypeMask [MAY_BE_LONG; MAY_BE_FALSE])
  [ZendArg false "server_key" (ArgType IS_STRING false) None;
   ZendArg false "key" (ArgType IS_STRING false) None;
   ZendArg false "offset" (ArgType IS_LONG false) (Some "1");
   ZendArg false "initial_value" (ArgType IS_LONG false) (Some "0");
   ZendArg false "expiry" (ArgType IS_LONG false) (Some "0")].

Definition arginfo_class_Memcached_decrementByKey := arginfo_class_Memcached_incrementByKey.

Definition arginfo_class_Memcached_addServer : zend_arg_info :=
  ArgInfo false 2 (ArgType IS_BOOL false)
  [ZendArg false "host" (ArgType IS_STRING false) None;
   ZendArg false "port" (ArgType IS_LONG false) None;
   ZendArg false "weight" (ArgType IS_LONG false) (Some "0")].

Definition arginfo_class_Memcached_addServers : zend_arg_info :=
  ArgInfo false 1 (ArgType IS_BOOL false)
  [ZendArg false "servers" (ArgType IS_ARRAY false) None].

Definition arginfo_class_Memcached_getServerList : zend_arg_info :=
  ArgInfo false 0 (ArgType IS_ARRAY false) [].

Definition arginfo_class_Memcached_getServerByKey : zend_arg_info :=
  ArgInfo false 1 (TypeMask [MAY_BE_ARRAY; MAY_BE_FALSE])
  [ZendArg false "server_key" (ArgType IS_STRING false) None].

Definition arginfo_class_Memcached_resetServerList : zend_arg_info :=
  ArgInfo false 0 (ArgType IS_BOOL false) [].

Definition arginfo_class_Memcached_quit := arginfo_class_Memcached_resetServerList.

Definition arginfo_class_Memcached_flushBuffers := arginfo_class_Memcached_resetServerList.

Definition arginfo_class_Memcached_getLastErrorMessage := arginfo_class_Memcached_getResultMessage.

Definition arginfo_class_Memcached_getLastErrorCode := arginfo_class_Memcached_getResultCode.

Definition arginfo_class_Memcached_getLastErrorErrno := arginfo_class_Memcached_getResultCode.

Definition arginfo_class_Memcached_getLastDisconnectedServer := arginfo_class_Memcached_fetch.

Definition arginfo_class_Memcached_getStats : zend_arg_info :=
  ArgInfo false 0 (TypeMask [MAY_BE_ARRAY; MAY_BE_FALSE])
  [ZendArg false "type" (ArgType IS_STRING true) (Some "null")].

Definition arginfo_class_Memcached_getVersion := arginfo_class_Memcached_fetch.

Definition arginfo_class_Memcached_getAllKeys := arginfo_class_Memcached_fetch.

Definition arginfo_class_Memcached_flush : zend_arg_info :=
  ArgInfo false 0 (ArgType IS_BOOL false)
  [ZendArg false "delay" (ArgType IS_LONG false) (Some "0")].

Definition arginfo_class_Memcached_getOption : zend_arg_info :=
  ArgInfo false 1 (ArgType IS_MIXED false)
  [ZendArg false "option" (ArgType IS_LONG false) None].

Definition arginfo_class_Memcached_setOption : zend_arg_info :=
  ArgInfo false 2 (ArgType IS_BOOL false)
  [ZendArg false "option" (ArgType IS_LONG false) None;
   ZendArg false "value" (ArgType IS_MIXED false) None].

Definition arginfo_class_Memcached_setOptions : zend_arg_info :=
  ArgInfo false 1 (ArgType IS_BOOL false)
  [ZendArg false "options" (ArgType IS_ARRAY false) None].

Definition arginfo_class_Memcached_setBucket : zend_arg_info :=
  ArgInfo false 3 (ArgType IS_BOOL false)
  [ZendArg false "host_map" (ArgType IS_ARRAY false) None;
   ZendArg false "forward_map" (ArgType IS_ARRAY true) None;
   ZendArg false "replicas" (ArgType IS_LONG false) None].

Definition arginfo_class_Memcached_setSaslAuthData : zend_arg_info :=
  ArgInfo false 2 (ArgType IS_BOOL false)
  [ZendArg false "username" (ArgType IS_STRING false) None;
   ZendArg false "password" (ArgType IS_STRING false) None].

Definition arginfo_class_Memcached_setEncodingKey : zend_arg_info :=
  ArgInfo false 1 (ArgType IS_BOOL false)
  [ZendArg false "key" (ArgType IS_STRING false) None].

Definition arginfo_class_Memcached_isPersistent := arginfo_class_Memcached_resetServerList.

Definition arginfo_class_Memcached_isPristine := arginfo_class_Memcached_resetServerList.

Definition arginfo_class_Memcached_checkKey : zend_arg_info :=
  ArgInfo false 1 (ArgType IS_BOOL false)
  [ZendArg false "key" (ArgType IS_STRING false) None].

Definition arginfo_class_MemcachedServer_run : zend_arg_info :=
  ArgInfo false 1 (ArgType IS_BOOL false)
  [ZendArg false "address" (ArgType IS_STRING false) None].

Definition arginfo_class_MemcachedServer_on : zend_arg_info :=
  ArgInfo false 2 (ArgType IS_BOOL false)
  [ZendArg false "event" (ArgType IS_LONG false) None;
   ZendArg false "callback" (ArgType IS_CALLABLE false) None].

Definition class_Memcached_methods `{BuildConfig} `{OptionalMethods} : list (string * zend_arg_info) :=
  [("__construct", arginfo_class_Memcached___construct);
     ("getResultCode", arginfo_class_Memcached_getResultCode);
     ("getResultMessage", arginfo_class_Memcached_getResultMessage);
     ("get", arginfo_class_Memcached_get); ("getByKey", arginfo_class_Memcached_getByKey);
     ("getMulti", arginfo_class_Memcached_getMulti);
     ("getMultiByKey", arginfo_class_Memcached_getMultiByKey);
     ("getDelayed", arginfo_class_Memcached_getDelayed);
     ("getDelayedByKey", arginfo_class_Memcached_getDelayedByKey);
     ("fetch", arginfo_class_Memcached_fetch); ("fetchAll", arginfo_class_Memcached_fetchAll);
     ("set", arginfo_class_Memcached_set); ("setByKey", arginfo_class_Memcached_setByKey);
     ("touch", arginfo_class_Memcached_touch);
     ("touchByKey", arginfo_class_Memcached_touchByKey);
     ("setMulti", arginfo_class_Memcached_setMulti);
     ("setMultiByKey", arginfo_class_Memcached_setMultiByKey);
     ("cas", arginfo_class_Memcached_cas); ("casByKey", arginfo_class_Memcached_casByKey);
     ("add", arginfo_class_Memcached_add); ("addByKey", arginfo_class_Memcached_addByKey);
     ("append", arginfo_class_Memcached_append);
     ("appendByKey", arginfo_class_Memcached_appendByKey);
     ("prepend", arginfo_class_Memcached_prepend);
     ("prependByKey", arginfo_class_Memcached_prependByKey);
     ("replace", arginfo_class_Memcached_replace);
     ("replaceByKey", arginfo_class_Memcached_replaceByKey);
     ("delete", arginfo_class_Memcached_delete);
     ("deleteMulti", arginfo_class_Memcached_deleteMulti);
     ("deleteByKey", arginfo_class_Memcached_deleteByKey);
     ("deleteMultiByKey", arginfo_class_Memcached_deleteMultiByKey);
     ("increment", arginfo_class_Memcached_increment);
     ("decrement", arginfo_class_Memcached_decrement);
     ("incrementByKey", arginfo_class_Memcached_incrementByKey);
     ("decrementByKey", arginfo_class_Memcached_decrementByKey);
     ("addServer", arginfo_class_Memcached_addServer);
     ("addServers", arginfo_class_Memcached_addServers);
     ("getServerList", arginfo_class_Memcached_getServerList);
     ("getServerByKey", arginfo_class_Memcached_getServerByKey);
     ("resetServerList", arginfo_class_Memcached_resetServerList);
     ("quit", arginfo_class_Memcached_quit);
     ("flushBuffers", arginfo_class_Memcached_flushBuffers);
     ("getLastErrorMessage", arginfo_class_Memcached_getLastErrorMessage);
     ("getLastErrorCode", arginfo_class_Memcached_getLastErrorCode);
     ("getLastErrorErrno", arginfo_class_Memcached_getLastErrorErrno);
     ("getLastDisconnectedServer", arginfo_class_Memcached_getLastDisconnectedServer);
     ("getStats", arginfo_class_Memcached_getStats);
     ("getVersion", arginfo_class_Memcached_getVersion);
     ("getAllKeys", arginfo_class_Memcached_getAllKeys);
     ("flush", arginfo_class_Memcached_flush); ("getOption", arginfo_class_Memcached_getOption);
     ("setOption", arginfo_class_Memcached_setOption);
     ("setOptions", arginfo_class_Memcached_setOptions);
     ("setBucket", arginfo_class_Memcached_setBucket)]
  ++ (if HAVE_MEMCACHED_SASL then [("setSaslAuthData", arginfo_class_Memcached_setSaslAuthData)] else [])
  ++ (if HAVE_MEMCACHED_SET_ENCODING_KEY then [("setEncodingKey", arginfo_class_Memcached_setEncodingKey)] else [])
  ++ [("isPersistent", arginfo_class_Memcached_isPersistent);
     ("isPristine", arginfo_class_Memcached_isPristine);
     ("checkKey", arginfo_class_Memcached_checkKey)].

Definition class_MemcachedServer_methods : list (string * zend_arg_info) :=
  [("run", arginfo_class_MemcachedServer_run); ("on", arginfo_class_MemcachedServer_on)].
