(* ===== verification/LegacyArgInfo.v ===== *)
(** * The methods of the classes, for PHP 7

    php_memcached_legacy_arginfo.h: the same methods, without types. *)

From S2P Require Import Prelude Zend ArgInfo.

Definition arginfo_class_Memcached___construct : zend_arg_info :=
  ArgInfo false 0 NoType
  [ZendArg false "persistent_id" NoType None;
   ZendArg false "callback" NoType None;
   ZendArg false "connection_str" NoType None].

Definition arginfo_class_Memcached_getResultCode : zend_arg_info :=
  ArgInfo false 0 NoType [].

Definition arginfo_class_Memcached_getResultMessage := arginfo_class_Memcached_getResultCode.

Definition arginfo_class_Memcached_get : zend_arg_info :=
  ArgInfo false 1 NoType
  [ZendArg false "key" NoType None;
   ZendArg false "cache_cb" NoType None;
   ZendArg false "get_flags" NoType None].

Definition arginfo_class_Memcached_getByKey : zend_arg_info :=
  ArgInfo false 2 NoType
  [ZendArg false "server_key" NoType None;
   ZendArg false "key" NoType None;
   ZendArg false "cache_cb" NoType None;
   ZendArg false "get_flags" NoType None].

Definition arginfo_class_Memcached_getMulti : zend_arg_info :=
  ArgInfo false 1 NoType
  [ZendArg false "keys" NoType None;
   ZendArg false "get_flags" NoType None].

Definition arginfo_class_Memcached_getMultiByKey : zend_arg_info :=
  ArgInfo false 2 NoType
  [ZendArg false "server_key" NoType None;
   ZendArg false "keys" NoType None;
   ZendArg false "get_flags" NoType None].

Definition arginfo_class_Memcached_getDelayed : zend_arg_info :=
  ArgInfo false 1 NoType
  [ZendArg false "keys" NoType None;
   ZendArg false "with_cas" NoType None;
   ZendArg false "value_cb" NoType None].

Definition arginfo_class_Memcached_getDelayedByKey : zend_arg_info :=
  ArgInfo false 2 NoType
  [ZendArg false "server_key" NoType None;
   ZendArg false "keys" NoType None;
   ZendArg false "with_cas" NoType None;
   ZendArg false "value_cb" NoType None].

Definition arginfo_class_Memcached_fetch := arginfo_class_Memcached_getResultCode.

Definition arginfo_class_Memcached_fetchAll := arginfo_class_Memcached_getResultCode.

Definition arginfo_class_Memcached_set : zend_arg_info :=
  ArgInfo false 2 NoType
  [ZendArg false "key" NoType None;
   ZendArg false "value" NoType None;
   ZendArg false "expiration" NoType None].

Definition arginfo_class_Memcached_setByKey : zend_arg_info :=
  ArgInfo false 3 NoType
  [ZendArg false "server_key" NoType None;
   ZendArg false "key" NoType None;
   ZendArg false "value" NoType None;
   ZendArg false "expiration" NoType None].

Definition arginfo_class_Memcached_touch : zend_arg_info :=
  ArgInfo false 1 NoType
  [ZendArg false "key" NoType None;
   ZendArg false "expiration" NoType None].

Definition arginfo_class_Memcached_touchByKey : zend_arg_info :=
  ArgInfo false 2 NoType
  [ZendArg false "server_key" NoType None;
   ZendArg false "key" NoType None;
   ZendArg false "expiration" NoType None].

Definition arginfo_class_Memcached_setMulti : zend_arg_info :=
  ArgInfo false 1 NoType
  [ZendArg false "items" NoType None;
   ZendArg false "expiration" NoType None].

Definition arginfo_class_Memcached_setMultiByKey : zend_arg_info :=
  ArgInfo false 2 NoType
  [ZendArg false "server_key" NoType None;
   ZendArg false "items" NoType None;
   ZendArg false "expiration" NoType None].

Definition arginfo_class_Memcached_cas : zend_arg_info :=
  ArgInfo false 3 NoType
  [ZendArg false "cas_token" NoType None;
   ZendArg false "key" NoType None;
   ZendArg false "value" NoType None;
   ZendArg false "expiration" NoType None].

Definition arginfo_class_Memcached_casByKey : zend_arg_info :=
  ArgInfo false 4 NoType
  [ZendArg false "cas_token" NoType None;
   ZendArg false "server_key" NoType None;
   ZendArg false "key" NoType None;
   ZendArg false "value" NoType None;
   ZendArg false "expiration" NoType None].

Definition arginfo_class_Memcached_add := arginfo_class_Memcached_set.

Definition arginfo_class_Memcached_addByKey := arginfo_class_Memcached_setByKey.

Definition arginfo_class_Memcached_append : zend_arg_info :=
  ArgInfo false 2 NoType
  [ZendArg false "key" NoType None;
   ZendArg false "value" NoType None].

Definition arginfo_class_Memcached_appendByKey : zend_arg_info :=
  ArgInfo false 3 NoType
  [ZendArg false "server_key" NoType None;
   ZendArg false "key" NoType None;
   ZendArg false "value" NoType None].

Definition arginfo_class_Memcached_prepend := arginfo_class_Memcached_append.

Definition arginfo_class_Memcached_prependByKey := arginfo_class_Memcached_appendByKey.

Definition arginfo_class_Memcached_replace := arginfo_class_Memcached_set.

Definition arginfo_class_Memcached_replaceByKey := arginfo_class_Memcached_setByKey.

Definition arginfo_class_Memcached_delete : zend_arg_info :=
  ArgInfo false 1 NoType
  [ZendArg false "key" NoType None;
   ZendArg false "time" NoType None].

Definition arginfo_class_Memcached_deleteMulti : zend_arg_info :=
  ArgInfo false 1 NoType
  [ZendArg false "keys" NoType None;
   ZendArg false "time" NoType None].

Definition arginfo_class_Memcached_deleteByKey : zend_arg_info :=
  ArgInfo false 2 NoType
  [ZendArg false "server_key" NoType None;
   ZendArg false "key" NoType None;
   ZendArg false "time" NoType None].

Definition arginfo_class_Memcached_deleteMultiByKey : zend_arg_info :=
  ArgInfo false 2 NoType
  [ZendArg false "server_key" NoType None;
   ZendArg false "keys" NoType None;
   ZendArg false "time" NoType None].

Definition arginfo_class_Memcached_increment : zend_arg_info :=
  ArgInfo false 1 NoType
  [ZendArg false "key" NoType None;
   ZendArg false "offset" NoType None;
   ZendArg false "initial_value" NoType None;
   ZendArg false "expiry" NoType None].

Definition arginfo_class_Memcached_decrement := arginfo_class_Memcached_increment.

Definition arginfo_class_Memcached_incrementByKey : zend_arg_info :=
  ArgInfo false 2 NoType
  [ZendArg false "server_key" NoType None;
   ZendArg false "key" NoType None;
   ZendArg false "offset" NoType None;
   ZendArg false "initial_value" NoType None;
   ZendArg false "expiry" NoType None].

Definition arginfo_class_Memcached_decrementByKey := arginfo_class_Memcached_incrementByKey.

Definition arginfo_class_Memcached_addServer : zend_arg_info :=
  ArgInfo false 2 NoType
  [ZendArg false "host" NoType None;
   ZendArg false "port" NoType None;
   ZendArg false "weight" NoType None].

Definition arginfo_class_Memcached_addServers : zend_arg_info :=
  ArgInfo false 1 NoType
  [ZendArg false "servers" NoType None].

Definition arginfo_class_Memcached_getServerList := arginfo_class_Memcached_getResultCode.

Definition arginfo_class_Memcached_getServerByKey : zend_arg_info :=
  ArgInfo false 1 NoType
  [ZendArg false "server_key" NoType None].

Definition arginfo_class_Memcached_resetServerList := arginfo_class_Memcached_getResultCode.

Definition arginfo_class_Memcached_quit := arginfo_class_Memcached_getResultCode.

Definition arginfo_class_Memcached_flushBuffers := arginfo_class_Memcached_getResultCode.

Definition arginfo_class_Memcached_getLastErrorMessage := arginfo_class_Memcached_getResultCode.

Definition arginfo_class_Memcached_getLastErrorCode := arginfo_class_Memcached_getResultCode.

Definition arginfo_class_Memcached_getLastErrorErrno := arginfo_class_Memcached_getResultCode.

Definition arginfo_class_Memcached_getLastDisconnectedServer := arginfo_class_Memcached_getResultCode.

Definition arginfo_class_Memcached_getStats : zend_arg_info :=
  ArgInfo false 0 NoType
  [ZendArg false "type" NoType None].

Definition arginfo_class_Memcached_getVersion := arginfo_class_Memcached_getResultCode.

Definition arginfo_class_Memcached_getAllKeys := arginfo_class_Memcached_getResultCode.

Definition arginfo_class_Memcached_flush : zend_arg_info :=
  ArgInfo false 0 NoType
  [ZendArg false "delay" NoType None].

Definition arginfo_class_Memcached_getOption : zend_arg_info :=
  ArgInfo false 1 NoType
  [ZendArg false "option" NoType None].

Definition arginfo_class_Memcached_setOption : zend_arg_info :=
  ArgInfo false 2 NoType
  [ZendArg false "option" NoType None;
   ZendArg false "value" NoType None].

Definition arginfo_class_Memcached_setOptions : zend_arg_info :=
  ArgInfo false 1 NoType
  [ZendArg false "options" NoType None].

Definition arginfo_class_Memcached_setBucket : zend_arg_info :=
  ArgInfo false 3 NoType
  [ZendArg false "host_map" NoType None;
   ZendArg false "forward_map" NoType None;
   ZendArg false "replicas" NoType None].

Definition arginfo_class_Memcached_setSaslAuthData : zend_arg_info :=
  ArgInfo false 2 NoType
  [ZendArg false "username" NoType None;
   ZendArg false "password" NoType None].

Definition arginfo_class_Memcached_setEncodingKey : zend_arg_info :=
  ArgInfo false 1 NoType
  [ZendArg false "key" NoType None].

Definition arginfo_class_Memcached_isPersistent := arginfo_class_Memcached_getResultCode.

Definition arginfo_class_Memcached_isPristine := arginfo_class_Memcached_getResultCode.

Definition arginfo_class_Memcached_checkKey : zend_arg_info :=
  ArgInfo false 1 NoType
  [ZendArg false "key" NoType None].

Definition arginfo_class_MemcachedServer_run : zend_arg_info :=
  ArgInfo false 1 NoType
  [ZendArg false "address" NoType None].

Definition arginfo_class_MemcachedServer_on : zend_arg_info :=
  ArgInfo false 2 NoType
  [ZendArg false "event" NoType None;
   ZendArg false "callback" NoType None].

Definition class_Memcached_methods `{BuildConfig} `{OptionalMethods} : list (string * zend_arg_info) :=
  [("__construct", arginfo_class_Memcached___construct);
     ("getResultCode", arginfo_class_Memcached_getResultCode);
     ("getResultMessage", arginfo_class_Memcached_getResultMessage);
     ("get", arginfo_class_Memcached_get); ("getByKey", arginfo_class_Memcached_getByKey);
     ("getMulti", arginfo_class_Memcached_getMulti);
     ("getMultiByKey", arginfo_class_Memcached_getMultiByKey);
     ("getDelayed", arginfo_class_Memcached_getDelayed);
     ("getDelayedByKey", arginfo_class_Memcached_getDelayedByKey);
     ("fetch", arginfo_class_Memcached_fetch); ("fetchAll", arginfo_class_Memcached_fetchAll);
     ("set", arginfo_class_Memcached_set); ("setByKey", arginfo_class_Memcached_setByKey);
     ("touch", arginfo_class_Memcached_touch);
     ("touchByKey", arginfo_class_Memcached_touchByKey);
     ("setMulti", arginfo_class_Memcached_setMulti);
     ("setMultiByKey", arginfo_class_Memcached_setMultiByKey);
     ("cas", arginfo_class_Memcached_cas); ("casByKey", arginfo_class_Memcached_casByKey);
     ("add", arginfo_class_Memcached_add); ("addByKey", arginfo_class_Memcached_addByKey);
     ("append", arginfo_class_Memcached_append);
     ("appendByKey", arginfo_class_Memcached_appendByKey);
     ("prepend", arginfo_class_Memcached_prepend);
     ("prependByKey", arginfo_class_Memcached_prependByKey);
     ("replace", arginfo_class_Memcached_replace);
     ("replaceByKey", arginfo_class_Memcached_replaceByKey);
     ("delete", arginfo_class_Memcached_delete);
     ("deleteMulti", arginfo_class_Memcached_deleteMulti);
     ("deleteByKey", arginfo_class_Memcached_deleteByKey);
     ("deleteMultiByKey", arginfo_class_Memcached_deleteMultiByKey);
     ("increment", arginfo_class_Memcached_increment);
     ("decrement", arginfo_class_Memcached_decrement);
     ("incrementByKey", arginfo_class_Memcached_incrementByKey);
     ("decrementByKey", arginfo_class_Memcached_decrementByKey);
     ("addServer", arginfo_class_Memcached_addServer);
     ("addServers", arginfo_class_Memcached_addServers);
     ("getServerList", arginfo_class_Memcached_getServerList);
     ("getServerByKey", arginfo_class_Memcached_getServerByKey);
     ("resetServerList", arginfo_class_Memcached_resetServerList);
     ("quit", arginfo_class_Memcached_quit);
     ("flushBuffers", arginfo_class_Memcached_flushBuffers);
     ("getLastErrorMessage", arginfo_class_Memcached_getLastErrorMessage);
     ("getLastErrorCode", arginfo_class_Memcached_getLastErrorCode);
     ("getLastErrorErrno", arginfo_class_Memcached_getLastErrorErrno);
     ("getLastDisconnectedServer", arginfo_class_Memcached_getLastDisconnectedServer);
     ("getStats", arginfo_class_Memcached_getStats);
     ("getVersion", arginfo_class_Memcached_getVersion);
     ("getAllKeys", arginfo_class_Memcached_getAllKeys);
     ("flush", arginfo_class_Memcached_flush); ("getOption", arginfo_class_Memcached_getOption);
     ("setOption", arginfo_class_Memcached_setOption);
     ("setOptions", arginfo_class_Memcached_setOptions);
     ("setBucket", arginfo_class_Memcached_setBucket)]
  ++ (if HAVE_MEMCACHED_SASL then [("setSaslAuthData", arginfo_class_Memcached_setSaslAuthData)] else [])
  ++ (if HAVE_MEMCACHED_SET_ENCODING_KEY then [("setEncodingKey", arginfo_class_Memcached_setEncodingKey)] else [])
  ++ [("isPersistent", arginfo_class_Memcached_isPersistent);
     ("isPristine", arginfo_class_Memcached_isPristine);
     ("checkKey", arginfo_class_Memcached_checkKey)].

Definition class_MemcachedServer_methods : list (string * zend_arg_info) :=
  [("run", arginfo_class_MemcachedServer_run); ("on", arginfo_class_MemcachedServer_on)].
