(* ===== verification/Methods.v ===== *)
(** * The methods of [Memcached]

    Most methods are an implementation with an operation, a server key or none, and
    the defaults of the arguments that were left out ([None]).  Construction,
    isPersistent and isPristine are in Lifecycle. *)

From S2P Require Import Prelude CLib Zend LibMemcached World Keys Store Fetch Options Servers Results ArgInfo.
#[local] Open Scope Z_scope.

Section Methods.
Context {MC : Type} `{ZendRuntime} `{BuildConfig} `{CNumbers} `{MemcachedNumbers}
  `{MemcachedControl MC} `{MemcachedStorage MC} `{MemcachedCounters MC} `{MemcachedBuckets MC}
  `{!MemcachedServers MC} `{MemcachedErrors MC} `{MemcachedRetrieval MC} `{MemcachedAuth MC}.
#[local] Abbreviation M := (M (world MC)).

(** A call with the arguments the engine has parsed. *)
Inductive method_call : Type :=
| M_get (key : string) (cache_cb : option (cache_callback (MC := MC))) (get_flags : option Z)
| M_getByKey (server_key key : string) (cache_cb : option (cache_callback (MC := MC)))
    (get_flags : option Z)
| M_getMulti (keys : zarray) (get_flags : option Z)
| M_getMultiByKey (server_key : string) (keys : zarray) (get_flags : option Z)
| M_getDelayed (keys : zarray) (with_cas : option bool)
    (value_cb : option (result_callback (MC := MC)))
| M_getDelayedByKey (server_key : string) (keys : zarray) (with_cas : option bool)
    (value_cb : option (result_callback (MC := MC)))
| M_fetch | M_fetchAll
| M_set (key : string) (value : zval) (expiration : option Z)
| M_setByKey (server_key key : string) (value : zval) (expiration : option Z)
| M_touch (key : string) (expiration : option Z)
| M_touchByKey (server_key key : string) (expiration : option Z)
| M_setMulti (items : zarray) (expiration : option Z)
| M_setMultiByKey (server_key : string) (items : zarray) (expiration : option Z)
| M_cas (cas_token : zval) (key : string) (value : zval) (expiration : option Z)
| M_casByKey (cas_token : zval) (server_key key : string) (value : zval) (expiration : option Z)
| M_add (key : string) (value : zval) (expiration : option Z)
| M_addByKey (server_key key : string) (value : zval) (expiration : option Z)
| M_append (key value : string)
| M_appendByKey (server_key key value : string)
| M_prepend (key value : string)
| M_prependByKey (server_key key value : string)
| M_replace (key : string) (value : zval) (expiration : option Z)
| M_replaceByKey (server_key key : string) (value : zval) (expiration : option Z)
| M_delete (key : string) (time : option Z)
| M_deleteMulti (keys : zarray) (time : option Z)
| M_deleteByKey (server_key key : string) (time : option Z)
| M_deleteMultiByKey (server_key : string) (keys : zarray) (time : option Z)
| M_increment (key : string) (offset initial_value expiry : option Z)
| M_decrement (key : string) (offset initial_value expiry : option Z)
| M_incrementByKey (server_key key : string) (offset initial_value expiry : option Z)
| M_decrementByKey (server_key key : string) (offset initial_value expiry : option Z)
| M_addServer (host : string) (port : Z) (weight : option Z)
| M_addServers (servers : zarray)
| M_getServerList
| M_getServerByKey (server_key : string)
| M_resetServerList | M_quit | M_flushBuffers
| M_getLastErrorMessage | M_getLastErrorCode | M_getLastErrorErrno | M_getLastDisconnectedServer
| M_getStats (type : option string)
| M_getVersion | M_getAllKeys
| M_flush (delay : option Z)
| M_getOption (option_ : Z)
| M_setOption (option_ : Z) (value : zval)
| M_setOptions (options : zarray)
| M_setBucket (host_map : zarray) (forward_map : option zarray) (replicas : Z)
| M_setSaslAuthData (username password : string)
| M_setEncodingKey (key : string)
| M_getResultCode | M_getResultMessage
| M_checkKey (key : string).

(** append and prepend take a string; touch sends no value. *)
(** Whether the initial value was among the arguments is their number
    ([n_args < 3], or 4 with a server key). *)
Definition incdec_method (server_key : option string) (incr : bool) (key : string)
    (offset initial expiry : option Z) : M zval :=
  php_memc_incdec_impl server_key incr key (default 1 offset) (default 0 initial)
    (default 0 expiry) (bool_decide (is_Some initial ∨ is_Some expiry)).

Definition Memcached_get (key : string) (cache_cb : option (cache_callback (MC := MC))) (get_flags : option Z) : M zval :=
  php_memc_get_impl None key cache_cb (default 0 get_flags).
Definition Memcached_getByKey (server_key key : string) (cache_cb : option (cache_callback (MC := MC))) (get_flags : option Z) : M zval :=
  php_memc_get_impl (Some server_key) key cache_cb (default 0 get_flags).
Definition Memcached_getMulti (keys : zarray) (get_flags : option Z) : M zval :=
  php_memc_getMulti_impl None keys (default 0 get_flags).
Definition Memcached_getMultiByKey (server_key : string) (keys : zarray) (get_flags : option Z) : M zval :=
  php_memc_getMulti_impl (Some server_key) keys (default 0 get_flags).
Definition Memcached_getDelayed (keys : zarray) (with_cas : option bool)
    (value_cb : option (result_callback (MC := MC))) : M zval :=
  php_memc_getDelayed_impl None keys (default false with_cas) value_cb.
Definition Memcached_getDelayedByKey (server_key : string) (keys : zarray) (with_cas : option bool)
    (value_cb : option (result_callback (MC := MC))) : M zval :=
  php_memc_getDelayed_impl (Some server_key) keys (default false with_cas) value_cb.
Definition Memcached_set (key : string) (value : zval) (expiration : option Z) : M zval :=
  php_memc_store_impl MEMC_OP_SET None key (Some value) (default 0 expiration).
Definition Memcached_setByKey (server_key key : string) (value : zval) (expiration : option Z) : M zval :=
  php_memc_store_impl MEMC_OP_SET (Some server_key) key (Some value) (default 0 expiration).
Definition Memcached_add (key : string) (value : zval) (expiration : option Z) : M zval :=
  php_memc_store_impl MEMC_OP_ADD None key (Some value) (default 0 expiration).
Definition Memcached_addByKey (server_key key : string) (value : zval) (expiration : option Z) : M zval :=
  php_memc_store_impl MEMC_OP_ADD (Some server_key) key (Some value) (default 0 expiration).
Definition Memcached_replace (key : string) (value : zval) (expiration : option Z) : M zval :=
  php_memc_store_impl MEMC_OP_REPLACE None key (Some value) (default 0 expiration).
Definition Memcached_replaceByKey (server_key key : string) (value : zval) (expiration : option Z) : M zval :=
  php_memc_store_impl MEMC_OP_REPLACE (Some server_key) key (Some value) (default 0 expiration).
Definition Memcached_append (key value : string) : M zval :=
  php_memc_store_impl MEMC_OP_APPEND None key (Some (ZStr value)) 0.
Definition Memcached_appendByKey (server_key key value : string) : M zval :=
  php_memc_store_impl MEMC_OP_APPEND (Some server_key) key (Some (ZStr value)) 0.
Definition Memcached_prepend (key value : string) : M zval :=
  php_memc_store_impl MEMC_OP_PREPEND None key (Some (ZStr value)) 0.
Definition Memcached_prependByKey (server_key key value : string) : M zval :=
  php_memc_store_impl MEMC_OP_PREPEND (Some server_key) key (Some (ZStr value)) 0.
Definition Memcached_touch (key : string) (expiration : option Z) : M zval :=
  php_memc_store_impl MEMC_OP_TOUCH None key None (default 0 expiration).
Definition Memcached_touchByKey (server_key key : string) (expiration : option Z) : M zval :=
  php_memc_store_impl MEMC_OP_TOUCH (Some server_key) key None (default 0 expiration).
Definition Memcached_setMulti (items : zarray) (expiration : option Z) : M zval :=
  php_memc_setMulti_impl None items (default 0 expiration).
Definition Memcached_setMultiByKey (server_key : string) (items : zarray) (expiration : option Z) : M zval :=
  php_memc_setMulti_impl (Some server_key) items (default 0 expiration).
Definition Memcached_cas (cas_token : zval) (key : string) (value : zval) (expiration : option Z) : M zval :=
  php_memc_cas_impl cas_token None key value (default 0 expiration).
Definition Memcached_casByKey (cas_token : zval) (server_key key : string) (value : zval) (expiration : option Z) : M zval :=
  php_memc_cas_impl cas_token (Some server_key) key value (default 0 expiration).
Definition Memcached_delete (key : string) (time : option Z) : M zval :=
  php_memc_delete_impl None key (default 0 time).
Definition Memcached_deleteByKey (server_key key : string) (time : option Z) : M zval :=
  php_memc_delete_impl (Some server_key) key (default 0 time).
Definition Memcached_deleteMulti (keys : zarray) (time : option Z) : M zval :=
  php_memc_deleteMulti_impl None keys (default 0 time).
Definition Memcached_deleteMultiByKey (server_key : string) (keys : zarray) (time : option Z) : M zval :=
  php_memc_deleteMulti_impl (Some server_key) keys (default 0 time).
Definition Memcached_increment (key : string) (offset initial_value expiry : option Z) : M zval :=
  incdec_method None true key offset initial_value expiry.
Definition Memcached_incrementByKey (server_key key : string) (offset initial_value expiry : option Z) : M zval :=
  incdec_method (Some server_key) true key offset initial_value expiry.
Definition Memcached_decrement (key : string) (offset initial_value expiry : option Z) : M zval :=
  incdec_method None false key offset initial_value expiry.
Definition Memcached_decrementByKey (server_key key : string) (offset initial_value expiry : option Z) : M zval :=
  incdec_method (Some server_key) false key offset initial_value expiry.

(** [class_Memcached_methods]. *)
Definition run_method (c : method_call) : M zval :=
  match c with
  | M_get key cb flags => Memcached_get key cb flags
  | M_getByKey sk key cb flags => Memcached_getByKey sk key cb flags
  | M_getMulti keys flags => Memcached_getMulti keys flags
  | M_getMultiByKey sk keys flags => Memcached_getMultiByKey sk keys flags
  | M_getDelayed keys cas cb => Memcached_getDelayed keys cas cb
  | M_getDelayedByKey sk keys cas cb => Memcached_getDelayedByKey sk keys cas cb
  | M_fetch => Memcached_fetch
  | M_fetchAll => Memcached_fetchAll
  | M_set key v exp => Memcached_set key v exp
  | M_setByKey sk key v exp => Memcached_setByKey sk key v exp
  | M_touch key exp => Memcached_touch key exp
  | M_touchByKey sk key exp => Memcached_touchByKey sk key exp
  | M_setMulti items exp => Memcached_setMulti items exp
  | M_setMultiByKey sk items exp => Memcached_setMultiByKey sk items exp
  | M_cas tok key v exp => Memcached_cas tok key v exp
  | M_casByKey tok sk key v exp => Memcached_casByKey tok sk key v exp
  | M_add key v exp => Memcached_add key v exp
  | M_addByKey sk key v exp => Memcached_addByKey sk key v exp
  | M_append key v => Memcached_append key v
  | M_appendByKey sk key v => Memcached_appendByKey sk key v
  | M_prepend key v => Memcached_prepend key v
  | M_prependByKey sk key v => Memcached_prependByKey sk key v
  | M_replace key v exp => Memcached_replace key v exp
  | M_replaceByKey sk key v exp => Memcached_replaceByKey sk key v exp
  | M_delete key t => Memcached_delete key t
  | M_deleteMulti keys t => Memcached_deleteMulti keys t
  | M_deleteByKey sk key t => Memcached_deleteByKey sk key t
  | M_deleteMultiByKey sk keys t => Memcached_deleteMultiByKey sk keys t
  | M_increment key o i e => Memcached_increment key o i e
  | M_decrement key o i e => Memcached_decrement key o i e
  | M_incrementByKey sk key o i e => Memcached_incrementByKey sk key o i e
  | M_decrementByKey sk key o i e => Memcached_decrementByKey sk key o i e
  | M_addServer host port weight => Memcached_addServer host port (default 0 weight)
  | M_addServers servers => Memcached_addServers servers
  | M_getServerList => Memcached_getServerList
  | M_getServerByKey sk => Memcached_getServerByKey sk
  | M_resetServerList => Memcached_resetServerList
  | M_quit => Memcached_quit
  | M_flushBuffers => Memcached_flushBuffers
  | M_getLastErrorMessage => Memcached_getLastErrorMessage
  | M_getLastErrorCode => Memcached_getLastErrorCode
  | M_getLastErrorErrno => Memcached_getLastErrorErrno
  | M_getLastDisconnectedServer => Memcached_getLastDisconnectedServer
  | M_getStats type => Memcached_getStats type
  | M_getVersion => Memcached_getVersion
  | M_getAllKeys => Memcached_getAllKeys
  | M_flush delay => Memcached_flush (default 0 delay)
  | M_getOption o => Memcached_getOption o
  | M_setOption o v => Memcached_setOption o v
  | M_setOptions os => Memcached_setOptions os
  | M_setBucket hm fm r => Memcached_setBucket hm fm r
  | M_setSaslAuthData u p => Memcached_setSaslAuthData u p
  | M_setEncodingKey key => Memcached_setEncodingKey key
  | M_getResultCode => Memcached_getResultCode
  | M_getResultMessage => Memcached_getResultMessage
  | M_checkKey key => Memcached_checkKey key
  end.
(** The name of the method. *)
Definition method_name (c : method_call) : string :=
  match c with
  | M_get _ _ _ => "get"
  | M_getByKey _ _ _ _ => "getByKey"
  | M_getMulti _ _ => "getMulti"
  | M_getMultiByKey _ _ _ => "getMultiByKey"
  | M_getDelayed _ _ _ => "getDelayed"
  | M_getDelayedByKey _ _ _ _ => "getDelayedByKey"
  | M_fetch => "fetch"
  | M_fetchAll => "fetchAll"
  | M_set _ _ _ => "set"
  | M_setByKey _ _ _ _ => "setByKey"
  | M_touch _ _ => "touch"
  | M_touchByKey _ _ _ => "touchByKey"
  | M_setMulti _ _ => "setMulti"
  | M_setMultiByKey _ _ _ => "setMultiByKey"
  | M_cas _ _ _ _ => "cas"
  | M_casByKey _ _ _ _ _ => "casByKey"
  | M_add _ _ _ => "add"
  | M_addByKey _ _ _ _ => "addByKey"
  | M_append _ _ => "append"
  | M_appendByKey _ _ _ => "appendByKey"
  | M_prepend _ _ => "prepend"
  | M_prependByKey _ _ _ => "prependByKey"
  | M_replace _ _ _ => "replace"
  | M_replaceByKey _ _ _ _ => "replaceByKey"
  | M_delete _ _ => "delete"
  | M_deleteMulti _ _ => "deleteMulti"
  | M_deleteByKey _ _ _ => "deleteByKey"
  | M_deleteMultiByKey _ _ _ => "deleteMultiByKey"
  | M_increment _ _ _ _ => "increment"
  | M_decrement _ _ _ _ => "decrement"
  | M_incrementByKey _ _ _ _ _ => "incrementByKey"
  | M_decrementByKey _ _ _ _ _ => "decrementByKey"
  | M_addServer _ _ _ => "addServer"
  | M_addServers _ => "addServers"
  | M_getServerList => "getServerList"
  | M_getServerByKey _ => "getServerByKey"
  | M_resetServerList => "resetServerList"
  | M_quit => "quit"
  | M_flushBuffers => "flushBuffers"
  | M_getLastErrorMessage => "getLastErrorMessage"
  | M_getLastErrorCode => "getLastErrorCode"
  | M_getLastErrorErrno => "getLastErrorErrno"
  | M_getLastDisconnectedServer => "getLastDisconnectedServer"
  | M_getStats _ => "getStats"
  | M_getVersion => "getVersion"
  | M_getAllKeys => "getAllKeys"
  | M_flush _ => "flush"
  | M_getOption _ => "getOption"
  | M_setOption _ _ => "setOption"
  | M_setOptions _ => "setOptions"
  | M_setBucket _ _ _ => "setBucket"
  | M_setSaslAuthData _ _ => "setSaslAuthData"
  | M_setEncodingKey _ => "setEncodingKey"
  | M_getResultCode => "getResultCode"
  | M_getResultMessage => "getResultMessage"
  | M_checkKey _ => "checkKey"
  end.
End Methods.
