(* ===== verification/MethodTypes.v ===== *)
(** * What the methods return, and what they declare

    Every method returns a value of the type it is registered with. *)

From S2P Require Import Prelude CLib Zend LibMemcached World Toy Keys CasToken Payload Store Fetch Options Servers.
From S2P Require Import PayloadProofs StoreProofs ServersProofs Results ArgInfo Methods.
#[local] Open Scope Z_scope.

(** ** Values of a type *)
Definition code_accepts (t : type_code) (v : zval) : bool :=
  match t, v with
  | IS_LONG, ZLong _ | IS_STRING, ZStr _ | IS_ARRAY, ZArr _
  | IS_BOOL, (ZTrue | ZFalse) | IS_MIXED, _ => true
  | _, _ => false
  end.

Definition mask_accepts (m : may_be) (v : zval) : bool :=
  match m, v with
  | MAY_BE_ARRAY, ZArr _ | MAY_BE_LONG, ZLong _ | MAY_BE_FALSE, ZFalse
  | MAY_BE_STRING, ZStr _ | MAY_BE_DOUBLE, ZDouble _ => true
  | _, _ => false
  end.

Definition type_accepts (t : zend_type) (v : zval) : bool :=
  match t with
  | NoType => true
  | ArgType t allow_null => code_accepts t v || (allow_null && match v with ZNull => true | _ => false end)
  | TypeMask l => existsb (λ m, mask_accepts m v) l
  end.

(** How the table of the class declares a method. *)
Definition method_info `{BuildConfig} `{OptionalMethods} (name : string) : option zend_arg_info :=
  snd <$> find (λ p, String.eqb p.1 name) class_Memcached_methods.

(** ** Operations whose results have a type *)
Definition returns {W} (t : zend_type) (m : M W zval) : Prop :=
  ∀ w v w', m w = Ret v w' → type_accepts t v = true.

Section Returns.
Context {W : Type}.

Lemma returns_ret t (v : zval) : type_accepts t v = true → returns (W := W) t (mret v).
Proof. by intros Hv w v' w' [= <- _]. Qed.

Lemma returns_bind {A} t (m : M W A) k : (∀ a, returns t (k a)) → returns t (m ≫= k).
Proof. intros Hk w v w' R. apply bind_inv in R as (a & w1 & _ & R). by eapply Hk. Qed.

Lemma returns_gets t (f : W → zval) : (∀ w, type_accepts t (f w) = true) → returns t (gets f).
Proof. by intros Hf w v w' [= <- _]. Qed.

Lemma returns_mixed b (m : M W zval) : returns (ArgType IS_MIXED b) m.
Proof. done. Qed.

Lemma returns_zbool (b : bool) : returns (W := W) (ArgType IS_BOOL false) (mret (ZBool b)).
Proof. apply returns_ret. by destruct b. Qed.
End Returns.
#[local] Hint Resolve returns_mixed returns_zbool : memc.

(** Proves [returns] of a composition. *)
Ltac returning :=
  repeat (first
    [ solve [auto with memc]
    | lazymatch goal with
      | |- returns _ (mret _) => apply returns_ret; try reflexivity
      | |- returns _ (gets _) => apply returns_gets; intros ?; try reflexivity
      | |- returns _ (_ ≫= _) => apply returns_bind; intros ?
      end
    | case_match ]).

Section Types.
Context {MC : Type} `{ZendRuntime} `{BuildConfig} `{OptionalMethods} `{CNumbers} `{MemcachedNumbers}
  `{MemcachedControl MC} `{MemcachedStorage MC} `{MemcachedCounters MC} `{MemcachedBuckets MC}
  `{!MemcachedServers MC} `{MemcachedErrors MC} `{MemcachedRetrieval MC} `{MemcachedAuth MC}.

Lemma returns_store op sk key v exp :
  returns (ArgType IS_BOOL (bool_decide (op = MEMC_OP_APPEND ∨ op = MEMC_OP_PREPEND)))
    (php_memc_store_impl (MC := MC) op sk key v exp).
Proof.
  unfold php_memc_store_impl. returning; unfold type_accepts;
    repeat match goal with H : _ && _ = true |- _ => apply andb_true_iff in H as [? ->] end;
    try done; by destruct (bool_decide _).
Qed.

Lemma returns_getMulti sk keys flags : returns (TypeMask [MAY_BE_ARRAY; MAY_BE_FALSE]) (php_memc_getMulti_impl (MC := MC) sk keys flags ).
Proof. unfold php_memc_getMulti_impl. returning. Qed.

Lemma returns_getDelayed sk keys cas cb : returns (ArgType IS_BOOL false) (php_memc_getDelayed_impl (MC := MC) sk keys cas cb ).
Proof. unfold php_memc_getDelayed_impl. returning. Qed.

Lemma returns_fetch : returns (TypeMask [MAY_BE_ARRAY; MAY_BE_FALSE]) (Memcached_fetch (MC := MC) ).
Proof. unfold Memcached_fetch. returning. Qed.

Lemma returns_fetchAll : returns (TypeMask [MAY_BE_ARRAY; MAY_BE_FALSE]) (Memcached_fetchAll (MC := MC) ).
Proof. unfold Memcached_fetchAll. returning. Qed.

Lemma returns_setMulti sk items exp : returns (ArgType IS_BOOL false) (php_memc_setMulti_impl (MC := MC) sk items exp ).
Proof. unfold php_memc_setMulti_impl. returning. Qed.

Lemma returns_cas tok sk key v exp : returns (ArgType IS_BOOL false) (php_memc_cas_impl (MC := MC) tok sk key v exp ).
Proof. unfold php_memc_cas_impl. returning. Qed.

Lemma returns_delete sk key t : returns (ArgType IS_BOOL false) (php_memc_delete_impl (MC := MC) sk key t ).
Proof. unfold php_memc_delete_impl. returning. Qed.

Lemma returns_deleteMulti sk keys t : returns (ArgType IS_ARRAY false) (php_memc_deleteMulti_impl (MC := MC) sk keys t ).
Proof. unfold php_memc_deleteMulti_impl. returning. Qed.

Lemma returns_incdec sk b key o i e wi : returns (TypeMask [MAY_BE_LONG; MAY_BE_FALSE]) (php_memc_incdec_impl (MC := MC) sk b key o i e wi ).
Proof. unfold php_memc_incdec_impl. returning. Qed.

Lemma returns_bool_of_status s : returns (ArgType IS_BOOL false) (bool_of_status (MC := MC) s).
Proof. unfold bool_of_status. returning. Qed.
#[local] Hint Resolve returns_bool_of_status : memc.

Lemma returns_addServer h p wt : returns (ArgType IS_BOOL false) (Memcached_addServer (MC := MC) h p wt ).
Proof. unfold Memcached_addServer. returning. Qed.

Lemma returns_addServers l : returns (ArgType IS_BOOL false) (Memcached_addServers (MC := MC) l ).
Proof. unfold Memcached_addServers. returning. Qed.

Lemma returns_getServerByKey sk : returns (TypeMask [MAY_BE_ARRAY; MAY_BE_FALSE]) (Memcached_getServerByKey (MC := MC) sk ).
Proof. unfold Memcached_getServerByKey. returning. Qed.

Lemma returns_lastDisconnected : returns (TypeMask [MAY_BE_ARRAY; MAY_BE_FALSE]) (Memcached_getLastDisconnectedServer (MC := MC) ).
Proof. unfold Memcached_getLastDisconnectedServer. returning. Qed.

Lemma returns_getStats a : returns (TypeMask [MAY_BE_ARRAY; MAY_BE_FALSE]) (Memcached_getStats (MC := MC) a ).
Proof. unfold Memcached_getStats. returning. Qed.

Lemma returns_getVersion : returns (TypeMask [MAY_BE_ARRAY; MAY_BE_FALSE]) (Memcached_getVersion (MC := MC) ).
Proof. unfold Memcached_getVersion. returning. Qed.

Lemma returns_getAllKeys : returns (TypeMask [MAY_BE_ARRAY; MAY_BE_FALSE]) (Memcached_getAllKeys (MC := MC) ).
Proof. unfold Memcached_getAllKeys. returning. Qed.

Lemma returns_flush d : returns (ArgType IS_BOOL false) (Memcached_flush (MC := MC) d ).
Proof. unfold Memcached_flush. returning. Qed.

Lemma returns_setBucket a b r : returns (ArgType IS_BOOL false) (Memcached_setBucket (MC := MC) a b r ).
Proof. unfold Memcached_setBucket. returning. Qed.

Lemma returns_setSaslAuthData u p : returns (ArgType IS_BOOL false) (Memcached_setSaslAuthData (MC := MC) u p ).
Proof. unfold Memcached_setSaslAuthData. returning. Qed.

Lemma returns_setEncodingKey k : returns (ArgType IS_BOOL false) (Memcached_setEncodingKey (MC := MC) k ).
Proof. unfold Memcached_setEncodingKey. returning. Qed.

Lemma returns_checkKey k : returns (ArgType IS_BOOL false) (Memcached_checkKey (MC := MC) k ).
Proof. unfold Memcached_checkKey. returning. Qed.

Lemma returns_getServerList : returns (ArgType IS_ARRAY false) (Memcached_getServerList (MC := MC) ).
Proof. unfold Memcached_getServerList. returning. Qed.

Lemma returns_resetServerList : returns (ArgType IS_BOOL false) (Memcached_resetServerList (MC := MC) ).
Proof. unfold Memcached_resetServerList. returning. Qed.

Lemma returns_quit : returns (ArgType IS_BOOL false) (Memcached_quit (MC := MC) ).
Proof. unfold Memcached_quit. returning. Qed.

Lemma returns_flushBuffers : returns (ArgType IS_BOOL false) (Memcached_flushBuffers (MC := MC) ).
Proof. unfold Memcached_flushBuffers. returning. Qed.

Lemma returns_getLastErrorMessage : returns (ArgType IS_STRING false) (Memcached_getLastErrorMessage (MC := MC) ).
Proof. unfold Memcached_getLastErrorMessage. returning. Qed.

Lemma returns_getLastErrorCode : returns (ArgType IS_LONG false) (Memcached_getLastErrorCode (MC := MC) ).
Proof. unfold Memcached_getLastErrorCode. returning. Qed.

Lemma returns_getLastErrorErrno : returns (ArgType IS_LONG false) (Memcached_getLastErrorErrno (MC := MC) ).
Proof. unfold Memcached_getLastErrorErrno. returning. Qed.

Lemma returns_getResultCode : returns (ArgType IS_LONG false) (Memcached_getResultCode (MC := MC) ).
Proof. unfold Memcached_getResultCode. returning. Qed.

Lemma returns_getResultMessage : returns (ArgType IS_STRING false) (Memcached_getResultMessage (MC := MC) ).
Proof. unfold Memcached_getResultMessage. returning. Qed.

Lemma returns_setOption o v : returns (ArgType IS_BOOL false) (Memcached_setOption (MC := MC) o v ).
Proof. unfold Memcached_setOption. returning. Qed.

Lemma returns_setOptions os : returns (ArgType IS_BOOL false) (Memcached_setOptions (MC := MC) os ).
Proof. unfold Memcached_setOptions. returning. Qed.

#[local] Hint Resolve returns_getMulti returns_getDelayed returns_fetch returns_fetchAll
  returns_setMulti returns_cas returns_delete returns_deleteMulti returns_incdec
  returns_addServer returns_addServers returns_getServerByKey returns_lastDisconnected
  returns_getStats returns_getVersion returns_getAllKeys returns_flush returns_setBucket
  returns_setSaslAuthData returns_setEncodingKey returns_checkKey returns_getServerList
  returns_resetServerList returns_quit returns_flushBuffers returns_getLastErrorMessage
  returns_getLastErrorCode returns_getLastErrorErrno returns_getResultCode
  returns_getResultMessage returns_setOption returns_setOptions : memc.

Ltac unfold_methods :=
  unfold Memcached_get, Memcached_getByKey, Memcached_getMulti, Memcached_getMultiByKey,
    Memcached_getDelayed, Memcached_getDelayedByKey, Memcached_set, Memcached_setByKey,
    Memcached_add, Memcached_addByKey, Memcached_replace, Memcached_replaceByKey,
    Memcached_append, Memcached_appendByKey, Memcached_prepend, Memcached_prependByKey,
    Memcached_touch, Memcached_touchByKey, Memcached_setMulti, Memcached_setMultiByKey,
    Memcached_cas, Memcached_casByKey, Memcached_delete, Memcached_deleteByKey,
    Memcached_deleteMulti, Memcached_deleteMultiByKey, Memcached_increment,
    Memcached_incrementByKey, Memcached_decrement, Memcached_decrementByKey,
    incdec_method.

(** C23: Every method returns a value of the return type it is declared with in the
    table of its class (null is no boolean, an array no string), whatever its
    arguments, the handle and the server answer. *)
Theorem methods_return_their_declared_types (c : method_call (MC := MC)) info w v w' :
  method_info (method_name c) = Some info →
  run_method c w = Ret v w' → type_accepts (return_type info) v = true.
Proof.
  intros Hi. revert w v w'. change (returns (return_type info) (run_method c)). revert Hi.
  destruct c; cbv [method_name method_info class_Memcached_methods];
    cbv [app find fst String.eqb Ascii.eqb Bool.eqb];
    first [intros [= <-]
          | destruct HAVE_MEMCACHED_SASL, HAVE_MEMCACHED_SET_ENCODING_KEY; intros [= <-]];
    cbn [run_method]; unfold_methods;
    lazymatch goal with |- returns ?t _ => let t' := eval vm_compute in t in change t with t' end;
    first [solve [auto with memc] | apply returns_store | returning].
Qed.
End Types.

#[export] Instance ToyErrors : MemcachedErrors toy := {|
  memcached_strerror _ _ := "SOME ERROR";
  memcached_last_error_message _ := "";
  memcached_last_error _ := MEMCACHED_SUCCESS;
  strerror _ := "Unknown error"
|}.

#[export] Instance ToyOptional : OptionalMethods := {| HAVE_MEMCACHED_SET_ENCODING_KEY := true |}.

(** append with compression on returns null, which its declaration allows. *)
Lemma methods_return_their_declared_types_witness :
  let w := with_ud toy_ud_compress (scripted [] 0) in
  (∃ w', run_method (M_append "k" "v") w = Ret ZNull w')
  ∧ type_accepts (return_type arginfo_class_Memcached_append) ZNull = true.
Proof.
  set (w := with_ud toy_ud_compress (scripted [] 0)).
  assert (∃ w', run_method (M_append "k" "v") w = Ret ZNull w') as [w' R]
    by (eexists; vm_compute; reflexivity).
  split; [exists w'; exact R|].
  exact (methods_return_their_declared_types (M_append "k" "v") _ w ZNull w' eq_refl R).
Defined.
