(* ===== verification/MethodArgs.v ===== *)
(** * The arguments of the methods

    What a method asks of the engine's argument parser (the
    ZEND_PARSE_PARAMETERS blocks of php_memcached.c), and whether that is what the
    tables of ArgInfo and LegacyArgInfo say. *)

From S2P Require Import Prelude CLib Zend LibMemcached World Toy Keys Store Fetch Options Servers Results.
From S2P Require Import PayloadProofs StoreProofs ServersProofs ArgInfo LegacyArgInfo Methods MethodTypes.
#[local] Open Scope Z_scope.

(** ** What the methods parse *)

(** [Z_PARAM_STR] and the others; the ones that take null are the _EX forms. *)
Inductive z_param : Type :=
| Z_PARAM_STR | Z_PARAM_STR_OR_NULL | Z_PARAM_LONG | Z_PARAM_BOOL
| Z_PARAM_ARRAY | Z_PARAM_ARRAY_OR_NULL | Z_PARAM_FUNC_OR_NULL | Z_PARAM_ZVAL.

(** [ZEND_PARSE_PARAMETERS_START(min, max)] and what follows it. *)
Record parse_block : Type := ParseBlock { min_num_args : nat; max_num_args : nat; params : list z_param }.

Definition no_params : parse_block := ParseBlock 0 0 [].

(** An implementation with [by_key] takes the server key first; the CAS token comes
    before it. *)
Definition parse_get (by_key : bool) : parse_block :=
  if by_key then ParseBlock 2 4 [Z_PARAM_STR; Z_PARAM_STR; Z_PARAM_FUNC_OR_NULL; Z_PARAM_LONG]
  else ParseBlock 1 3 [Z_PARAM_STR; Z_PARAM_FUNC_OR_NULL; Z_PARAM_LONG].
Definition parse_getMulti (by_key : bool) : parse_block :=
  if by_key then ParseBlock 2 3 [Z_PARAM_STR; Z_PARAM_ARRAY; Z_PARAM_LONG]
  else ParseBlock 1 2 [Z_PARAM_ARRAY; Z_PARAM_LONG].
Definition parse_getDelayed (by_key : bool) : parse_block :=
  if by_key then ParseBlock 2 4 [Z_PARAM_STR; Z_PARAM_ARRAY; Z_PARAM_BOOL; Z_PARAM_FUNC_OR_NULL]
  else ParseBlock 1 3 [Z_PARAM_ARRAY; Z_PARAM_BOOL; Z_PARAM_FUNC_OR_NULL].
Definition parse_setMulti (by_key : bool) : parse_block :=
  if by_key then ParseBlock 2 3 [Z_PARAM_STR; Z_PARAM_ARRAY; Z_PARAM_LONG]
  else ParseBlock 1 2 [Z_PARAM_ARRAY; Z_PARAM_LONG].
Definition parse_store (op : php_memc_write_op) (by_key : bool) : parse_block :=
  match op, by_key with
  | (MEMC_OP_APPEND | MEMC_OP_PREPEND), true =>
      ParseBlock 3 3 [Z_PARAM_STR; Z_PARAM_STR; Z_PARAM_STR]
  | MEMC_OP_TOUCH, true => ParseBlock 2 3 [Z_PARAM_STR; Z_PARAM_STR; Z_PARAM_LONG]
  | _, true => ParseBlock 3 4 [Z_PARAM_STR; Z_PARAM_STR; Z_PARAM_ZVAL; Z_PARAM_LONG]
  | (MEMC_OP_APPEND | MEMC_OP_PREPEND), false => ParseBlock 2 2 [Z_PARAM_STR; Z_PARAM_STR]
  | MEMC_OP_TOUCH, false => ParseBlock 1 2 [Z_PARAM_STR; Z_PARAM_LONG]
  | _, false => ParseBlock 2 3 [Z_PARAM_STR; Z_PARAM_ZVAL; Z_PARAM_LONG]
  end.
Definition parse_cas (by_key : bool) : parse_block :=
  if by_key then ParseBlock 4 5 [Z_PARAM_ZVAL; Z_PARAM_STR; Z_PARAM_STR; Z_PARAM_ZVAL; Z_PARAM_LONG]
  else ParseBlock 3 4 [Z_PARAM_ZVAL; Z_PARAM_STR; Z_PARAM_ZVAL; Z_PARAM_LONG].
Definition parse_delete (by_key : bool) : parse_block :=
  if by_key then ParseBlock 2 3 [Z_PARAM_STR; Z_PARAM_STR; Z_PARAM_LONG]
  else ParseBlock 1 2 [Z_PARAM_STR; Z_PARAM_LONG].
Definition parse_deleteMulti (by_key : bool) : parse_block :=
  if by_key then ParseBlock 2 3 [Z_PARAM_STR; Z_PARAM_ARRAY; Z_PARAM_LONG]
  else ParseBlock 1 2 [Z_PARAM_ARRAY; Z_PARAM_LONG].
Definition parse_incdec (by_key : bool) : parse_block :=
  if by_key
  then ParseBlock 2 5 [Z_PARAM_STR; Z_PARAM_STR; Z_PARAM_LONG; Z_PARAM_LONG; Z_PARAM_LONG]
  else ParseBlock 1 4 [Z_PARAM_STR; Z_PARAM_LONG; Z_PARAM_LONG; Z_PARAM_LONG].
Definition parse_construct : parse_block :=
  ParseBlock 0 3 [Z_PARAM_STR_OR_NULL; Z_PARAM_FUNC_OR_NULL; Z_PARAM_STR].
Definition parse_addServer : parse_block := ParseBlock 2 3 [Z_PARAM_STR; Z_PARAM_LONG; Z_PARAM_LONG].
Definition parse_addServers : parse_block := ParseBlock 1 1 [Z_PARAM_ARRAY].
Definition parse_getServerByKey : parse_block := ParseBlock 1 1 [Z_PARAM_STR].
Definition parse_getStats : parse_block := ParseBlock 0 1 [Z_PARAM_STR_OR_NULL].
Definition parse_flush : parse_block := ParseBlock 0 1 [Z_PARAM_LONG].
Definition parse_getOption : parse_block := ParseBlock 1 1 [Z_PARAM_LONG].
Definition parse_setBucket : parse_block :=
  ParseBlock 3 3 [Z_PARAM_ARRAY; Z_PARAM_ARRAY_OR_NULL; Z_PARAM_LONG].
Definition parse_setOptions : parse_block := ParseBlock 1 1 [Z_PARAM_ARRAY].
Definition parse_setOption : parse_block := ParseBlock 2 2 [Z_PARAM_LONG; Z_PARAM_ZVAL].
Definition parse_setSaslAuthData : parse_block := ParseBlock 2 2 [Z_PARAM_STR; Z_PARAM_STR].
Definition parse_setEncodingKey : parse_block := ParseBlock 1 1 [Z_PARAM_STR].
Definition parse_checkKey : parse_block := ParseBlock 1 1 [Z_PARAM_STR].
Definition parse_run : parse_block := ParseBlock 1 1 [Z_PARAM_STR].
Definition parse_on : parse_block := ParseBlock 2 2 [Z_PARAM_LONG; Z_PARAM_FUNC_OR_NULL].

(** The block of a method; the ones that are not named take no arguments. *)
Definition parse_of (name : string) : parse_block :=
  let named := String.eqb name in
  if named "__construct" then parse_construct
  else if named "get" then parse_get false
  else if named "getByKey" then parse_get true
  else if named "getMulti" then parse_getMulti false
  else if named "getMultiByKey" then parse_getMulti true
  else if named "getDelayed" then parse_getDelayed false
  else if named "getDelayedByKey" then parse_getDelayed true
  else if named "set" then parse_store MEMC_OP_SET false
  else if named "setByKey" then parse_store MEMC_OP_SET true
  else if named "touch" then parse_store MEMC_OP_TOUCH false
  else if named "touchByKey" then parse_store MEMC_OP_TOUCH true
  else if named "setMulti" then parse_setMulti false
  else if named "setMultiByKey" then parse_setMulti true
  else if named "cas" then parse_cas false
  else if named "casByKey" then parse_cas true
  else if named "add" then parse_store MEMC_OP_ADD false
  else if named "addByKey" then parse_store MEMC_OP_ADD true
  else if named "append" then parse_store MEMC_OP_APPEND false
  else if named "appendByKey" then parse_store MEMC_OP_APPEND true
  else if named "prepend" then parse_store MEMC_OP_PREPEND false
  else if named "prependByKey" then parse_store MEMC_OP_PREPEND true
  else if named "replace" then parse_store MEMC_OP_REPLACE false
  else if named "replaceByKey" then parse_store MEMC_OP_REPLACE true
  else if named "delete" then parse_delete false
  else if named "deleteMulti" then parse_deleteMulti false
  else if named "deleteByKey" then parse_delete true
  else if named "deleteMultiByKey" then parse_deleteMulti true
  else if named "increment" || named "decrement" then parse_incdec false
  else if named "incrementByKey" || named "decrementByKey" then parse_incdec true
  else if named "addServer" then parse_addServer
  else if named "addServers" then parse_addServers
  else if named "getServerByKey" then parse_getServerByKey
  else if named "getStats" then parse_getStats
  else if named "flush" then parse_flush
  else if named "getOption" then parse_getOption
  else if named "setOption" then parse_setOption
  else if named "setOptions" then parse_setOptions
  else if named "setBucket" then parse_setBucket
  else if named "setSaslAuthData" then parse_setSaslAuthData
  else if named "setEncodingKey" then parse_setEncodingKey
  else if named "checkKey" then parse_checkKey
  else if named "run" then parse_run
  else if named "on" then parse_on
  else no_params.

(** ** Declared and parsed *)

#[local] Instance zend_type_eq_dec : EqDecision zend_type.
Proof. unfold EqDecision, Decision. repeat decide equality. Defined.

Definition param_type (p : z_param) : zend_type :=
  match p with
  | Z_PARAM_STR => ArgType IS_STRING false
  | Z_PARAM_STR_OR_NULL => ArgType IS_STRING true
  | Z_PARAM_LONG => ArgType IS_LONG false
  | Z_PARAM_BOOL => ArgType IS_BOOL false
  | Z_PARAM_ARRAY => ArgType IS_ARRAY false
  | Z_PARAM_ARRAY_OR_NULL => ArgType IS_ARRAY true
  | Z_PARAM_FUNC_OR_NULL => ArgType IS_CALLABLE true
  | Z_PARAM_ZVAL => ArgType IS_MIXED false
  end.

(** The positions at which the declared type is not the parsed one. *)
Definition mismatches (args : list zend_arg) (ps : list z_param) : list nat :=
  filter (λ i, arg_type <$> args !! i ≠ param_type <$> ps !! i) (seq 0 (length args)).

(** The positions known to differ: the connection string must be a string, though
    null is its declared default; a CAS token of any type gets through to
    [s_zval_to_uint64]; and [MemcachedServer::on] takes null for a callback. *)
Definition known_mismatches : list (string * nat) :=
  [("__construct", 2%nat); ("cas", 0%nat); ("casByKey", 0%nat); ("on", 1%nat)].

Definition declared_as_parsed (name : string) (info : zend_arg_info) : bool :=
  let p := parse_of name in
  bool_decide (required_num_args info = min_num_args p)
  && bool_decide (length (arg_list info) = max_num_args p)
  && bool_decide (length (params p) = max_num_args p)
  && bool_decide ((λ i, (name, i)) <$> mismatches (arg_list info) (params p)
                  = filter (λ k, k.1 = name) known_mismatches).

(** What both tables have: names and numbers. *)
Definition signature (m : string * zend_arg_info) : string * nat * list string :=
  (m.1, required_num_args m.2, arg_name <$> arg_list m.2).

Lemma known_mismatch_of name i :
  (name, i) ∈ known_mismatches ↔ (name, i) ∈ filter (λ k, k.1 = name) known_mismatches.
Proof. rewrite list_elem_of_filter. by split; [|intros [_ ?]]. Qed.

Section Tables.
Context `{BuildConfig} `{OptionalMethods}.

Definition registered : list (string * zend_arg_info) :=
  ArgInfo.class_Memcached_methods ++ ArgInfo.class_MemcachedServer_methods.
Definition registered_legacy : list (string * zend_arg_info) :=
  LegacyArgInfo.class_Memcached_methods ++ LegacyArgInfo.class_MemcachedServer_methods.

(** C24: The tables say what the code parses. Under every build configuration the
    tables of PHP 7 and PHP 8 list the same methods, with the same argument names
    and the same number of required arguments; and each method asks the parser for
    just as many, and for each argument's declared type, except for the connection
    string of the constructor, the token of the two cas methods and the callback of
    [MemcachedServer::on]. *)
Theorem declared_arguments_are_parsed :
  signature <$> registered = signature <$> registered_legacy ∧
  ∀ name info, (name, info) ∈ registered →
    let p := parse_of name in
    required_num_args info = min_num_args p ∧ length (arg_list info) = max_num_args p
    ∧ length (params p) = max_num_args p
    ∧ ∀ i a q, arg_list info !! i = Some a → params p !! i = Some q →
        (arg_type a ≠ param_type q ↔ (name, i) ∈ known_mismatches).
Proof.
  split.
  - unfold registered, registered_legacy, ArgInfo.class_Memcached_methods,
      LegacyArgInfo.class_Memcached_methods.
    destruct HAVE_MEMCACHED_SASL, HAVE_MEMCACHED_SET_ENCODING_KEY; reflexivity.
  - intros name info Hin.
    assert (forallb (λ m, declared_as_parsed m.1 m.2) registered = true) as Hall.
    { unfold registered, ArgInfo.class_Memcached_methods.
      destruct HAVE_MEMCACHED_SASL, HAVE_MEMCACHED_SET_ENCODING_KEY; vm_compute; reflexivity. }
    rewrite forallb_forall in Hall. apply list_elem_of_In, Hall in Hin as Hd.
    clear Hall. unfold declared_as_parsed in Hd.
    rewrite !andb_true_iff, !bool_decide_eq_true in Hd. cbn [fst snd] in Hd.
    destruct Hd as [[[Hreq Hlen] Hpar] Hmis].
    cbv zeta. split_and!; [done..|]. intros i a q Ha Hq.
    rewrite (known_mismatch_of name i), <- Hmis.
    rewrite list_elem_of_fmap. unfold mismatches. split.
    + intros Hne. exists i. split; [done|]. apply list_elem_of_filter. rewrite Ha, Hq. cbn.
      split; [congruence|]. apply elem_of_seq. apply lookup_lt_Some in Ha. lia.
    + intros (j & [= <-] & [Hne _]%list_elem_of_filter). rewrite Ha, Hq in Hne. cbn in Hne. congruence.
Qed.
End Tables.

Lemma declared_arguments_are_parsed_witness :
  max_num_args (parse_of "increment") = 4%nat
  ∧ (arg_type <$> arg_list ArgInfo.arginfo_class_Memcached___construct !! 2%nat) = Some (ArgType IS_STRING true)
  ∧ ("__construct", 2%nat) ∈ known_mismatches.
Proof.
  destruct declared_arguments_are_parsed as [_ Hargs].
  destruct (Hargs "increment" ArgInfo.arginfo_class_Memcached_increment) as (_ & Hmax & _).
  { apply list_elem_of_In. vm_compute. tauto. }
  destruct (Hargs "__construct" ArgInfo.arginfo_class_Memcached___construct) as (_ & _ & _ & Hty).
  { apply list_elem_of_In. vm_compute. tauto. }
  split; [exact (eq_sym Hmax)|]. split; [reflexivity|].
  by apply (Hty 2%nat _ Z_PARAM_STR eq_refl eq_refl).
Defined.

(** ** Declared defaults *)
Section Defaults.
Context {MC : Type} `{ZendRuntime} `{BuildConfig} `{OptionalMethods} `{CNumbers} `{MemcachedNumbers}
  `{MemcachedControl MC} `{MemcachedStorage MC} `{MemcachedCounters MC} `{MemcachedBuckets MC}
  `{!MemcachedServers MC} `{MemcachedErrors MC} `{MemcachedRetrieval MC} `{MemcachedAuth MC}.

Definition declared_default (name : string) (i : nat) : option string :=
  info ← method_info name; a ← arg_list info !! i; default_value a.

(** An argument that was left out, filled in with its declared default. *)
Definition fill (name : string) (i : nat) (x : option Z) : option Z :=
  match x with
  | Some _ => x
  | None => (λ s, (strtol 10 s).1.1.1) <$> declared_default name i
  end.
Definition fill_bool (name : string) (i : nat) (x : option bool) : option bool :=
  match x with Some _ => x | None => (λ s, String.eqb s "true") <$> declared_default name i end.

Definition with_declared_defaults (c : method_call (MC := MC)) : method_call (MC := MC) :=
  let f := fill (method_name c) in
  match c with
  | M_get key cb x => M_get key cb (f 2%nat x)
  | M_getByKey sk key cb x => M_getByKey sk key cb (f 3%nat x)
  | M_getMulti keys x => M_getMulti keys (f 1%nat x)
  | M_getMultiByKey sk keys x => M_getMultiByKey sk keys (f 2%nat x)
  | M_getDelayed keys x cb => M_getDelayed keys (fill_bool "getDelayed" 1 x) cb
  | M_getDelayedByKey sk keys x cb => M_getDelayedByKey sk keys (fill_bool "getDelayedByKey" 2 x) cb
  | M_set key v x => M_set key v (f 2%nat x)
  | M_setByKey sk key v x => M_setByKey sk key v (f 3%nat x)
  | M_touch key x => M_touch key (f 1%nat x)
  | M_touchByKey sk key x => M_touchByKey sk key (f 2%nat x)
  | M_setMulti items x => M_setMulti items (f 1%nat x)
  | M_setMultiByKey sk items x => M_setMultiByKey sk items (f 2%nat x)
  | M_cas tok key v x => M_cas tok key v (f 3%nat x)
  | M_casByKey tok sk key v x => M_casByKey tok sk key v (f 4%nat x)
  | M_add key v x => M_add key v (f 2%nat x)
  | M_addByKey sk key v x => M_addByKey sk key v (f 3%nat x)
  | M_replace key v x => M_replace key v (f 2%nat x)
  | M_replaceByKey sk key v x => M_replaceByKey sk key v (f 3%nat x)
  | M_delete key x => M_delete key (f 1%nat x)
  | M_deleteMulti keys x => M_deleteMulti keys (f 1%nat x)
  | M_deleteByKey sk key x => M_deleteByKey sk key (f 2%nat x)
  | M_deleteMultiByKey sk keys x => M_deleteMultiByKey sk keys (f 2%nat x)
  | M_increment key o i e => M_increment key (f 1%nat o) (f 2%nat i) (f 3%nat e)
  | M_decrement key o i e => M_decrement key (f 1%nat o) (f 2%nat i) (f 3%nat e)
  | M_incrementByKey sk key o i e => M_incrementByKey sk key (f 2%nat o) (f 3%nat i) (f 4%nat e)
  | M_decrementByKey sk key o i e => M_decrementByKey sk key (f 2%nat o) (f 3%nat i) (f 4%nat e)
  | M_addServer host port x => M_addServer host port (f 2%nat x)
  | M_flush x => M_flush (f 0%nat x)
  | c => c
  end.

(** The counter commands without an initial value (and without an expiration). *)
Definition bare_counter (c : method_call (MC := MC)) : Prop :=
  match c with
  | M_increment _ _ None None | M_decrement _ _ None None
  | M_incrementByKey _ _ _ None None | M_decrementByKey _ _ _ None None => True
  | _ => False
  end.

(** A counter command after its checks. *)
Definition incdec_body (key : string) (offset : Z) (with_initial : bool) : M (world MC) zval :=
  ud ← gets w_ud;
  r ← (if negb with_initial
       then r ← incdec_simple None true key offset UINT64_MAX; mret (Some r)
       else incdec_retry (Z.to_nat (store_retry_count ud)) None true key offset 0 0 UINT64_MAX);
  match (r : option (memcached_return * Z)) with
  | None => mret ZFalse
  | Some (status, value) =>
      ok ← s_memc_status_handle_result_code status;
      mret (if negb ok then ZFalse else if value =? UINT64_MAX then ZFalse else ZLong (s64 value))
  end.

Lemma incdec_checked key offset wi w :
  memc_key_ok (w_memc w) key = true → 0 <= offset →
  php_memc_incdec_impl None true key offset 0 0 wi w
  = incdec_body key offset wi (with_obj (mkObject MEMCACHED_SUCCESS 0 (is_pristine (w_obj w))) w).
Proof.
  intros Hk Ho. unfold php_memc_incdec_impl, incdec_body.
  rewrite (bind_Ret _ _ _ _ _ (set_status_run MEMCACHED_SUCCESS 0 w)). set (w0 := with_obj _ w).
  rewrite (bind_Ret _ _ w0 true w0)
    by (rewrite check_key_run; change (w_memc w0) with (w_memc w); by rewrite Hk).
  cbn [negb]. by replace (offset <? 0) with false by lia.
Qed.

Lemma incdec_retry_text n sk incr key o i e v w :
  behavior_get (w_memc w) BEHAVIOR_BINARY_PROTOCOL = 0 →
  incdec_retry n sk incr key o i e v w
  = Ret None (with_warning "Initial value is only supported with binary protocol" w).
Proof. intros Hp. destruct n; simpl; rewrite gets_bind, Hp; reflexivity. Qed.

(** C38: Leaving an optional argument out is passing the default its method is
    declared with, for every method and every such argument, except for the initial
    value and the expiration of the four counter methods. There it is another
    command: on a handle that speaks the text protocol, increment with the declared
    defaults sends nothing, warns and returns false, where increment without them
    does increment. *)
Theorem declared_defaults_are_the_defaults (c : method_call (MC := MC)) :
  (¬ bare_counter c → run_method (with_declared_defaults c) = run_method c) ∧
  (∀ key offset w, behavior_get (w_memc w) BEHAVIOR_BINARY_PROTOCOL = 0 →
     memc_key_ok (w_memc w) key = true → default 1 offset >= 0 →
     (∃ w', run_method (with_declared_defaults (M_increment key offset None None)) w = Ret ZFalse w'
        ∧ w_memc w' = w_memc w ∧ w_warnings w' = w_warnings w ++
            ["Initial value is only supported with binary protocol"%string]) ∧
     (∃ v w', run_method (M_increment key offset None None) w = Ret v w' ∧
        w_memc w' = (memcached_increment_by_key (w_memc w) key key (u64 (default 1 offset))).2)).
Proof.
  split.
  - intros Hb. destruct c; try reflexivity;
      repeat match goal with x : option _ |- _ => destruct x end; try reflexivity; try (by destruct Hb).
  - intros key offset w Hp Hk Ho. split.
    + assert (run_method (with_declared_defaults (M_increment key offset None None))
              = php_memc_incdec_impl None true key (default 1 offset) 0 0 true) as ->
        by (by destruct offset).
      rewrite incdec_checked by (done || lia). unfold incdec_body. rewrite gets_bind. cbn [negb].
      rewrite (bind_Ret _ _ _ _ _ (incdec_retry_text _ _ _ _ _ _ _ _ (with_obj _ w) Hp)). eexists. by split.
    + change (run_method (M_increment key offset None None))
        with (php_memc_incdec_impl None true key (default 1 offset) 0 0 false).
      rewrite incdec_checked by (done || lia). unfold incdec_body, incdec_simple.
      rewrite gets_bind. cbn [negb]. rewrite !bind_assoc.
      unfold mbind at 1, M_bind at 1, memc_call. cbn [default w_memc with_obj].
      destruct (memcached_increment_by_key _ _ _ _) as [[rc v] m]. rewrite !ret_bind.
      rewrite (bind_Ret _ _ _ _ _ (handle_result_code_run _ _)). eexists _, _. by split.
Qed.
End Defaults.

Lemma declared_defaults_are_the_defaults_witness :
  run_method (MC := toy) (with_declared_defaults (M_set "k" (ZStr "v") None))
    = run_method (M_set "k" (ZStr "v") None)
  ∧ ∃ w', run_method (with_declared_defaults (M_increment "k" None None None)) (scripted [] 0)
          = Ret ZFalse w'.
Proof.
  split.
  - apply (declared_defaults_are_the_defaults (M_set "k" (ZStr "v") None)). by intros [].
  - destruct (declared_defaults_are_the_defaults (MC := toy) M_fetch) as [_ Hinc].
    destruct (Hinc "k" None (scripted [] 0) eq_refl eq_refl) as [(w' & R & _) _];
      [by apply Z.le_ge|].
    by exists w'.
Defined.
