(* ===== verification/Constants.v ===== *)
(** * The constants of the class

    [php_memc_register_constants]: the names a script has for options, values and
    result codes, and that they agree with what the methods do. *)

From S2P Require Import Prelude CLib Flags Zend LibMemcached World Toy Keys Payload Fetch Options.
From S2P Require Import Results ProtoServer ArgInfo.
#[local] Open Scope Z_scope.

(** What [zend_declare_class_constant_long] and [_bool] declare. *)
Inductive class_constant : Type := ConstLong (v : Z) | ConstBool (b : bool).

#[global] Instance class_constant_eq_dec : EqDecision class_constant.
Proof. solve_decision. Defined.

(** The rest of the numbers of libmemcached's headers, and of the options of
    config.m4. *)
Class LibraryConstants : Type := {
  HAVE_MEMCACHED_SESSION : bool;
  HAVE_MEMCACHED_PROTOCOL : bool;
  MEMCACHED_HASH_MD5 : Z; MEMCACHED_HASH_CRC : Z; MEMCACHED_HASH_FNV1_64 : Z;
  MEMCACHED_HASH_FNV1A_64 : Z; MEMCACHED_HASH_FNV1_32 : Z; MEMCACHED_HASH_FNV1A_32 : Z;
  MEMCACHED_HASH_HSIEH : Z; MEMCACHED_HASH_MURMUR : Z;
  MEMCACHED_DISTRIBUTION_VIRTUAL_BUCKET : Z;
  PROTOCOL_BINARY_RESPONSE_KEY_EEXISTS : Z; PROTOCOL_BINARY_RESPONSE_E2BIG : Z;
  PROTOCOL_BINARY_RESPONSE_EINVAL : Z; PROTOCOL_BINARY_RESPONSE_NOT_STORED : Z;
  PROTOCOL_BINARY_RESPONSE_DELTA_BADVAL : Z; PROTOCOL_BINARY_RESPONSE_NOT_MY_VBUCKET : Z;
  PROTOCOL_BINARY_RESPONSE_AUTH_ERROR : Z; PROTOCOL_BINARY_RESPONSE_AUTH_CONTINUE : Z;
  PROTOCOL_BINARY_RESPONSE_ENOMEM : Z; PROTOCOL_BINARY_RESPONSE_NOT_SUPPORTED : Z;
  PROTOCOL_BINARY_RESPONSE_EINTERNAL : Z; PROTOCOL_BINARY_RESPONSE_EBUSY : Z;
  PROTOCOL_BINARY_RESPONSE_ETMPFAIL : Z
}.

Section Constants.
Context `{BuildConfig} `{OptionalMethods} `{MemcachedNumbers} `{ProtocolNumbers}
  `{LibraryConstants}.

Definition constants : Type := list (string * class_constant).

Definition option_constants : constants :=
  [("LIBMEMCACHED_VERSION_HEX", ConstLong LIBMEMCACHED_VERSION_HEX);
   ("OPT_COMPRESSION", ConstLong MEMC_OPT_COMPRESSION);
   ("OPT_COMPRESSION_TYPE", ConstLong MEMC_OPT_COMPRESSION_TYPE);
   ("OPT_COMPRESSION_LEVEL", ConstLong MEMC_OPT_COMPRESSION_LEVEL);
   ("OPT_PREFIX_KEY", ConstLong MEMC_OPT_PREFIX_KEY);
   ("OPT_SERIALIZER", ConstLong MEMC_OPT_SERIALIZER);
   ("OPT_USER_FLAGS", ConstLong MEMC_OPT_USER_FLAGS);
   ("OPT_STORE_RETRY_COUNT", ConstLong MEMC_OPT_STORE_RETRY_COUNT);
   ("OPT_ITEM_SIZE_LIMIT", ConstLong MEMC_OPT_ITEM_SIZE_LIMIT)].

(** What the build has. *)
Definition availability_constants : constants :=
  [("HAVE_IGBINARY", ConstBool HAVE_MEMCACHED_IGBINARY); ("HAVE_ZSTD", ConstBool HAVE_ZSTD_H);
   ("HAVE_JSON", ConstBool HAVE_JSON_API); ("HAVE_MSGPACK", ConstBool HAVE_MEMCACHED_MSGPACK);
   ("HAVE_ENCODING", ConstBool HAVE_MEMCACHED_SET_ENCODING_KEY);
   ("HAVE_SESSION", ConstBool HAVE_MEMCACHED_SESSION); ("HAVE_SASL", ConstBool HAVE_MEMCACHED_SASL)].

(** libmemcached's behaviors, with their hashes and distributions; 0x01000003 is
    version 1.0.3 and 0x01000018 version 1.0.18. *)
Definition behavior_constants : constants :=
  let behavior b := ConstLong (behavior_num b) in
  [("OPT_HASH", behavior BEHAVIOR_HASH); ("HASH_DEFAULT", ConstLong MEMCACHED_HASH_DEFAULT);
   ("HASH_MD5", ConstLong MEMCACHED_HASH_MD5); ("HASH_CRC", ConstLong MEMCACHED_HASH_CRC);
   ("HASH_FNV1_64", ConstLong MEMCACHED_HASH_FNV1_64);
   ("HASH_FNV1A_64", ConstLong MEMCACHED_HASH_FNV1A_64);
   ("HASH_FNV1_32", ConstLong MEMCACHED_HASH_FNV1_32);
   ("HASH_FNV1A_32", ConstLong MEMCACHED_HASH_FNV1A_32);
   ("HASH_HSIEH", ConstLong MEMCACHED_HASH_HSIEH);
   ("HASH_MURMUR", ConstLong MEMCACHED_HASH_MURMUR);
   ("OPT_DISTRIBUTION", behavior BEHAVIOR_DISTRIBUTION);
   ("DISTRIBUTION_MODULA", ConstLong MEMCACHED_DISTRIBUTION_MODULA);
   ("DISTRIBUTION_CONSISTENT", ConstLong MEMCACHED_DISTRIBUTION_CONSISTENT);
   ("DISTRIBUTION_VIRTUAL_BUCKET", ConstLong MEMCACHED_DISTRIBUTION_VIRTUAL_BUCKET);
   ("OPT_LIBKETAMA_COMPATIBLE", behavior BEHAVIOR_KETAMA_WEIGHTED);
   ("OPT_LIBKETAMA_HASH", behavior BEHAVIOR_KETAMA_HASH);
   ("OPT_TCP_KEEPALIVE", behavior BEHAVIOR_TCP_KEEPALIVE);
   ("OPT_BUFFER_WRITES", behavior BEHAVIOR_BUFFER_REQUESTS);
   ("OPT_BINARY_PROTOCOL", behavior BEHAVIOR_BINARY_PROTOCOL);
   ("OPT_NO_BLOCK", behavior BEHAVIOR_NO_BLOCK);
   ("OPT_TCP_NODELAY", behavior BEHAVIOR_TCP_NODELAY);
   ("OPT_SOCKET_SEND_SIZE", behavior BEHAVIOR_SOCKET_SEND_SIZE);
   ("OPT_SOCKET_RECV_SIZE", behavior BEHAVIOR_SOCKET_RECV_SIZE);
   ("OPT_CONNECT_TIMEOUT", behavior BEHAVIOR_CONNECT_TIMEOUT);
   ("OPT_RETRY_TIMEOUT", behavior BEHAVIOR_RETRY_TIMEOUT)]
  ++ (if LIBMEMCACHED_VERSION_HEX >=? 16777219
      then [("OPT_DEAD_TIMEOUT", behavior BEHAVIOR_DEAD_TIMEOUT)] else []) ++
  [("OPT_SEND_TIMEOUT", behavior BEHAVIOR_SND_TIMEOUT);
   ("OPT_RECV_TIMEOUT", behavior BEHAVIOR_RCV_TIMEOUT);
   ("OPT_POLL_TIMEOUT", behavior BEHAVIOR_POLL_TIMEOUT);
   ("OPT_CACHE_LOOKUPS", behavior BEHAVIOR_CACHE_LOOKUPS);
   ("OPT_SERVER_FAILURE_LIMIT", behavior BEHAVIOR_SERVER_FAILURE_LIMIT);
   ("OPT_AUTO_EJECT_HOSTS", behavior BEHAVIOR_AUTO_EJECT_HOSTS);
   ("OPT_HASH_WITH_PREFIX_KEY", behavior BEHAVIOR_HASH_WITH_PREFIX_KEY);
   ("OPT_NOREPLY", behavior BEHAVIOR_NOREPLY); ("OPT_SORT_HOSTS", behavior BEHAVIOR_SORT_HOSTS);
   ("OPT_VERIFY_KEY", behavior BEHAVIOR_VERIFY_KEY); ("OPT_USE_UDP", behavior BEHAVIOR_USE_UDP);
   ("OPT_NUMBER_OF_REPLICAS", behavior BEHAVIOR_NUMBER_OF_REPLICAS);
   ("OPT_RANDOMIZE_REPLICA_READ", behavior BEHAVIOR_RANDOMIZE_REPLICA_READ);
   ("OPT_REMOVE_FAILED_SERVERS", behavior BEHAVIOR_REMOVE_FAILED_SERVERS)]
  ++ (if LIBMEMCACHED_VERSION_HEX >=? 16777240
      then [("OPT_SERVER_TIMEOUT_LIMIT", behavior BEHAVIOR_SERVER_TIMEOUT_LIMIT)] else []).

(** Result codes, libmemcached's and our own; 0x01000008 is version 1.0.8. *)
Definition result_codes : list (string * memcached_return) :=
  [("RES_SUCCESS", MEMCACHED_SUCCESS); ("RES_FAILURE", MEMCACHED_FAILURE);
   ("RES_HOST_LOOKUP_FAILURE", MEMCACHED_HOST_LOOKUP_FAILURE);
   ("RES_CONNECTION_FAILURE", MEMCACHED_CONNECTION_FAILURE);
   ("RES_CONNECTION_BIND_FAILURE", MEMCACHED_CONNECTION_BIND_FAILURE);
   ("RES_WRITE_FAILURE", MEMCACHED_WRITE_FAILURE); ("RES_READ_FAILURE", MEMCACHED_READ_FAILURE);
   ("RES_UNKNOWN_READ_FAILURE", MEMCACHED_UNKNOWN_READ_FAILURE);
   ("RES_PROTOCOL_ERROR", MEMCACHED_PROTOCOL_ERROR);
   ("RES_CLIENT_ERROR", MEMCACHED_CLIENT_ERROR); ("RES_SERVER_ERROR", MEMCACHED_SERVER_ERROR);
   ("RES_DATA_EXISTS", MEMCACHED_DATA_EXISTS);
   ("RES_DATA_DOES_NOT_EXIST", MEMCACHED_DATA_DOES_NOT_EXIST);
   ("RES_NOTSTORED", MEMCACHED_NOTSTORED); ("RES_STORED", MEMCACHED_STORED);
   ("RES_NOTFOUND", MEMCACHED_NOTFOUND); ("RES_PARTIAL_READ", MEMCACHED_PARTIAL_READ);
   ("RES_SOME_ERRORS", MEMCACHED_SOME_ERRORS); ("RES_NO_SERVERS", MEMCACHED_NO_SERVERS);
   ("RES_END", MEMCACHED_END); ("RES_DELETED", MEMCACHED_DELETED);
   ("RES_VALUE", MEMCACHED_VALUE); ("RES_STAT", MEMCACHED_STAT); ("RES_ITEM", MEMCACHED_ITEM);
   ("RES_ERRNO", MEMCACHED_ERRNO); ("RES_FAIL_UNIX_SOCKET", MEMCACHED_FAIL_UNIX_SOCKET);
   ("RES_NOT_SUPPORTED", MEMCACHED_NOT_SUPPORTED);
   ("RES_NO_KEY_PROVIDED", MEMCACHED_NO_KEY_PROVIDED);
   ("RES_FETCH_NOTFINISHED", MEMCACHED_FETCH_NOTFINISHED); ("RES_TIMEOUT", MEMCACHED_TIMEOUT);
   ("RES_BUFFERED", MEMCACHED_BUFFERED); ("RES_BAD_KEY_PROVIDED", MEMCACHED_BAD_KEY_PROVIDED);
   ("RES_INVALID_HOST_PROTOCOL", MEMCACHED_INVALID_HOST_PROTOCOL);
   ("RES_SERVER_MARKED_DEAD", MEMCACHED_SERVER_MARKED_DEAD);
   ("RES_UNKNOWN_STAT_KEY", MEMCACHED_UNKNOWN_STAT_KEY);
   ("RES_INVALID_ARGUMENTS", MEMCACHED_INVALID_ARGUMENTS);
   ("RES_PARSE_ERROR", MEMCACHED_PARSE_ERROR);
   ("RES_PARSE_USER_ERROR", MEMCACHED_PARSE_USER_ERROR);
   ("RES_DEPRECATED", MEMCACHED_DEPRECATED); ("RES_IN_PROGRESS", MEMCACHED_IN_PROGRESS);
   ("RES_MAXIMUM_RETURN", MEMCACHED_MAXIMUM_RETURN);
   ("RES_MEMORY_ALLOCATION_FAILURE", MEMCACHED_MEMORY_ALLOCATION_FAILURE);
   ("RES_CONNECTION_SOCKET_CREATE_FAILURE", MEMCACHED_CONNECTION_SOCKET_CREATE_FAILURE);
   ("RES_E2BIG", MEMCACHED_E2BIG); ("RES_KEY_TOO_BIG", MEMCACHED_KEY_TOO_BIG);
   ("RES_SERVER_TEMPORARILY_DISABLED", MEMCACHED_SERVER_TEMPORARILY_DISABLED)]
  ++ (if LIBMEMCACHED_VERSION_HEX >=? 16777224
      then [("RES_SERVER_MEMORY_ALLOCATION_FAILURE", MEMCACHED_SERVER_MEMORY_ALLOCATION_FAILURE)]
      else [])
  ++ (if HAVE_MEMCACHED_SASL
      then [("RES_AUTH_PROBLEM", MEMCACHED_AUTH_PROBLEM); ("RES_AUTH_FAILURE", MEMCACHED_AUTH_FAILURE);
            ("RES_AUTH_CONTINUE", MEMCACHED_AUTH_CONTINUE)]
      else [])
  ++ [("RES_PAYLOAD_FAILURE", MEMC_RES_PAYLOAD_FAILURE)].

Definition result_constants : constants :=
  (λ r, (r.1, ConstLong (return_num r.2))) <$> result_codes.

(** Serializers, compression types and the flags of get. *)
Definition value_constants : constants :=
  [("SERIALIZER_PHP", ConstLong SERIALIZER_PHP);
   ("SERIALIZER_IGBINARY", ConstLong SERIALIZER_IGBINARY);
   ("SERIALIZER_JSON", ConstLong SERIALIZER_JSON);
   ("SERIALIZER_JSON_ARRAY", ConstLong SERIALIZER_JSON_ARRAY);
   ("SERIALIZER_MSGPACK", ConstLong SERIALIZER_MSGPACK);
   ("COMPRESSION_FASTLZ", ConstLong COMPRESSION_TYPE_FASTLZ);
   ("COMPRESSION_ZLIB", ConstLong COMPRESSION_TYPE_ZLIB);
   ("COMPRESSION_ZSTD", ConstLong COMPRESSION_TYPE_ZSTD);
   ("GET_PRESERVE_ORDER", ConstLong MEMC_GET_PRESERVE_ORDER);
   ("GET_EXTENDED", ConstLong MEMC_GET_EXTENDED)].

(** Events of the protocol server, and the status codes its callbacks return. *)
Definition server_constants : constants :=
  if HAVE_MEMCACHED_PROTOCOL then
    [("ON_CONNECT", ConstLong (event_num MEMC_SERVER_ON_CONNECT));
     ("ON_ADD", ConstLong (event_num MEMC_SERVER_ON_ADD));
     ("ON_APPEND", ConstLong (event_num MEMC_SERVER_ON_APPEND));
     ("ON_DECREMENT", ConstLong (event_num MEMC_SERVER_ON_DECREMENT));
     ("ON_DELETE", ConstLong (event_num MEMC_SERVER_ON_DELETE));
     ("ON_FLUSH", ConstLong (event_num MEMC_SERVER_ON_FLUSH));
     ("ON_GET", ConstLong (event_num MEMC_SERVER_ON_GET));
     ("ON_INCREMENT", ConstLong (event_num MEMC_SERVER_ON_INCREMENT));
     ("ON_NOOP", ConstLong (event_num MEMC_SERVER_ON_NOOP));
     ("ON_PREPEND", ConstLong (event_num MEMC_SERVER_ON_PREPEND));
     ("ON_QUIT", ConstLong (event_num MEMC_SERVER_ON_QUIT));
     ("ON_REPLACE", ConstLong (event_num MEMC_SERVER_ON_REPLACE));
     ("ON_SET", ConstLong (event_num MEMC_SERVER_ON_SET));
     ("ON_STAT", ConstLong (event_num MEMC_SERVER_ON_STAT));
     ("ON_VERSION", ConstLong (event_num MEMC_SERVER_ON_VERSION));
     ("RESPONSE_SUCCESS", ConstLong PROTOCOL_BINARY_RESPONSE_SUCCESS);
     ("RESPONSE_KEY_ENOENT", ConstLong PROTOCOL_BINARY_RESPONSE_KEY_ENOENT);
     ("RESPONSE_KEY_EEXISTS", ConstLong PROTOCOL_BINARY_RESPONSE_KEY_EEXISTS);
     ("RESPONSE_E2BIG", ConstLong PROTOCOL_BINARY_RESPONSE_E2BIG);
     ("RESPONSE_EINVAL", ConstLong PROTOCOL_BINARY_RESPONSE_EINVAL);
     ("RESPONSE_NOT_STORED", ConstLong PROTOCOL_BINARY_RESPONSE_NOT_STORED);
     ("RESPONSE_DELTA_BADVAL", ConstLong PROTOCOL_BINARY_RESPONSE_DELTA_BADVAL);
     ("RESPONSE_NOT_MY_VBUCKET", ConstLong PROTOCOL_BINARY_RESPONSE_NOT_MY_VBUCKET);
     ("RESPONSE_AUTH_ERROR", ConstLong PROTOCOL_BINARY_RESPONSE_AUTH_ERROR);
     ("RESPONSE_AUTH_CONTINUE", ConstLong PROTOCOL_BINARY_RESPONSE_AUTH_CONTINUE);
     ("RESPONSE_UNKNOWN_COMMAND", ConstLong PROTOCOL_BINARY_RESPONSE_UNKNOWN_COMMAND);
     ("RESPONSE_ENOMEM", ConstLong PROTOCOL_BINARY_RESPONSE_ENOMEM);
     ("RESPONSE_NOT_SUPPORTED", ConstLong PROTOCOL_BINARY_RESPONSE_NOT_SUPPORTED);
     ("RESPONSE_EINTERNAL", ConstLong PROTOCOL_BINARY_RESPONSE_EINTERNAL);
     ("RESPONSE_EBUSY", ConstLong PROTOCOL_BINARY_RESPONSE_EBUSY);
     ("RESPONSE_ETMPFAIL", ConstLong PROTOCOL_BINARY_RESPONSE_ETMPFAIL)]
  else [].

Definition php_memc_register_constants : constants :=
  option_constants ++ availability_constants ++ behavior_constants ++ result_constants
  ++ value_constants ++ server_constants ++ [("GET_ERROR_RETURN_VALUE", ConstBool false)].

(** [Memcached::NAME] in a script. *)
Definition constant (name : string) : option class_constant :=
  snd <$> find (λ c, String.eqb c.1 name) php_memc_register_constants.
End Constants.

(** ** What the constants tell *)

(** [setOption(Memcached::option, Memcached::value)] returns TRUE. *)
Definition option_takes {MC} `{ZendRuntime} `{BuildConfig} `{OptionalMethods} `{MemcachedNumbers}
    `{ProtocolNumbers} `{LibraryConstants} `{MemcachedControl MC}
    (option value : string) (w : world MC) : bool :=
  match constant option, constant value with
  | Some (ConstLong o), Some (ConstLong v) =>
      match Memcached_setOption o (ZLong v) w with Ret ZTrue _ => true | _ => false end
  | _, _ => false
  end.

(** The class has a method of that name. *)
Definition has_method `{BuildConfig} `{OptionalMethods} (name : string) : bool :=
  existsb (λ m, String.eqb m.1 name) class_Memcached_methods.

(** The result codes a build has constants for. *)
Definition has_constant `{BuildConfig} (rc : memcached_return) : bool :=
  match rc with
  | MEMCACHED_AUTH_PROBLEM | MEMCACHED_AUTH_FAILURE | MEMCACHED_AUTH_CONTINUE => HAVE_MEMCACHED_SASL
  | MEMCACHED_SERVER_MEMORY_ALLOCATION_FAILURE => LIBMEMCACHED_VERSION_HEX >=? 16777224
  | _ => true
  end.

(** The names with a prefix that have a value. *)
Definition names_of `{BuildConfig} `{OptionalMethods} `{MemcachedNumbers} `{ProtocolNumbers}
    `{LibraryConstants} (pre : string) (v : Z) : list string :=
  fst <$> filter (λ c, c.2 = ConstLong v)
            (filter (λ c, String.prefix pre c.1 = true) php_memc_register_constants).

Section ConstantLemmas.
Context `{BuildConfig} `{OptionalMethods} `{MemcachedNumbers} `{ProtocolNumbers}
  `{LibraryConstants}.

Lemma result_constants_of_prefix :
  filter (λ c, String.prefix "RES_" c.1 = true) php_memc_register_constants = result_constants.
Proof.
  unfold php_memc_register_constants, behavior_constants, result_constants, result_codes,
    server_constants.
  destruct (_ >=? 16777219), (_ >=? 16777240), (_ >=? 16777224), HAVE_MEMCACHED_SASL,
    HAVE_MEMCACHED_PROTOCOL; vm_compute; reflexivity.
Qed.

Lemma event_constants_of_prefix :
  HAVE_MEMCACHED_PROTOCOL = true →
  (λ c, c.2) <$> filter (λ c, String.prefix "ON_" c.1 = true) php_memc_register_constants
  = ConstLong ∘ Z.of_nat <$> seq 0 15.
Proof.
  intros Hp.
  unfold php_memc_register_constants, behavior_constants, result_constants, result_codes,
    server_constants. rewrite Hp.
  destruct (_ >=? 16777219), (_ >=? 16777240), (_ >=? 16777224), HAVE_MEMCACHED_SASL; reflexivity.
Qed.

Lemma result_code_has_one_name rc :
  has_constant rc = true → ∃ name, filter (λ r, r.2 = rc) result_codes = [(name, rc)].
Proof.
  unfold has_constant, result_codes. intros Hrc.
  destruct (_ >=? 16777224), HAVE_MEMCACHED_SASL, rc; try discriminate Hrc; eexists; reflexivity.
Qed.

Lemma filter_fmap_result `{!Inj (=) (=) return_num} rc (l : list (string * memcached_return)) :
  filter (λ c, c.2 = ConstLong (return_num rc)) ((λ r, (r.1, ConstLong (return_num r.2))) <$> l)
  = (λ r, (r.1, ConstLong (return_num r.2))) <$> filter (λ r, r.2 = rc) l.
Proof.
  induction l as [|[n rc'] l IH]; [done|]. rewrite fmap_cons, !filter_cons, IH. cbn [fst snd].
  destruct (decide (rc' = rc)) as [->|Hne]; [by rewrite decide_True by done|].
  rewrite decide_False; [done|]. intros [= E%(inj return_num)]. done.
Qed.

Lemma names_of_result `{!Inj (=) (=) return_num} rc :
  has_constant rc = true → ∃ name, names_of "RES_" (return_num rc) = [name].
Proof.
  intros [name Hn]%result_code_has_one_name. exists name. unfold names_of.
  rewrite result_constants_of_prefix. unfold result_constants.
  by rewrite filter_fmap_result, Hn.
Qed.

Lemma names_of_event event :
  HAVE_MEMCACHED_PROTOCOL = true → (names_of "ON_" event ≠ [] ↔ 0 <= event < 15).
Proof.
  intros Hp%event_constants_of_prefix. unfold names_of.
  set (l := filter _ php_memc_register_constants) in *.
  assert (ConstLong event ∈ (λ c, c.2) <$> l ↔ 0 <= event < 15) as <-.
  { rewrite Hp, list_elem_of_fmap. setoid_rewrite elem_of_seq. split.
    - intros (n & [= ->] & Hn). lia.
    - intros He. exists (Z.to_nat event). cbn. split; [f_equal; lia|lia]. }
  rewrite list_elem_of_fmap. split.
  - intros Hne. destruct (filter (λ c, c.2 = _) l) as [|c l'] eqn:E; [done|].
    assert (c ∈ filter (λ c, c.2 = ConstLong event) l) as [Hc Hin]%list_elem_of_filter
      by (rewrite E; left). eauto.
  - intros (c & Hc & Hin) E. apply (not_elem_of_nil c).
    apply fmap_nil_inv in E. rewrite <- E. by apply list_elem_of_filter.
Qed.

(** The constants of the extension itself. *)
Definition own_constants : constants :=
  [("OPT_SERIALIZER", ConstLong MEMC_OPT_SERIALIZER);
   ("OPT_COMPRESSION_TYPE", ConstLong MEMC_OPT_COMPRESSION_TYPE);
   ("SERIALIZER_IGBINARY", ConstLong SERIALIZER_IGBINARY); ("SERIALIZER_JSON", ConstLong SERIALIZER_JSON);
   ("SERIALIZER_JSON_ARRAY", ConstLong SERIALIZER_JSON_ARRAY);
   ("SERIALIZER_MSGPACK", ConstLong SERIALIZER_MSGPACK);
   ("COMPRESSION_ZSTD", ConstLong COMPRESSION_TYPE_ZSTD)] ++ availability_constants.

Lemma own_constant i c : own_constants !! i = Some c → constant c.1 = Some c.2.
Proof.
  revert i c. apply Forall_lookup.
  unfold own_constants, constant, php_memc_register_constants, behavior_constants,
    result_constants, result_codes.
  destruct (_ >=? 16777219), (_ >=? 16777240), (_ >=? 16777224), HAVE_MEMCACHED_SASL;
    repeat constructor.
Qed.
End ConstantLemmas.

Section Taken.
Context {MC : Type} `{ZendLaws} `{BuildConfig} `{OptionalMethods} `{MemcachedNumbersLaws}
  `{ProtocolNumbers} `{LibraryConstants} `{MemcachedControl MC}.

Definition taken (r : outcome (world MC) zval) : bool :=
  match r with Ret ZTrue _ => true | _ => false end.

Lemma serializer_taken z w :
  1 <= z <= 5 → taken (Memcached_setOption MEMC_OPT_SERIALIZER (ZLong z) w) = serializer_ok z.
Proof.
  intros Hz. pose proof (behavior_num_range BEHAVIOR_KETAMA_WEIGHTED) as Hk.
  unfold Memcached_setOption, php_memc_set_option.
  rewrite zval_get_long_long by (unfold is_long; unfold LONG_MIN, LONG_MAX; lia).
  replace (MEMC_OPT_SERIALIZER =? behavior_num BEHAVIOR_KETAMA_WEIGHTED) with false
    by (unfold MEMC_OPT_SERIALIZER; lia).
  by destruct (serializer_ok z).
Qed.

Lemma compression_taken z w :
  1 <= z <= 3 →
  taken (Memcached_setOption MEMC_OPT_COMPRESSION_TYPE (ZLong z) w) = compression_type_ok z.
Proof.
  intros Hz. unfold Memcached_setOption, php_memc_set_option.
  rewrite zval_get_long_long by (unfold is_long; unfold LONG_MIN, LONG_MAX; lia).
  by destruct (compression_type_ok z).
Qed.

(** Two constants of the extension, as an option and its value. *)
Lemma option_takes_own i j option value o v w :
  own_constants !! i = Some (option, ConstLong o) → own_constants !! j = Some (value, ConstLong v) →
  option_takes option value w = taken (Memcached_setOption o (ZLong v) w).
Proof.
  unfold option_takes. intros Ho%own_constant Hv%own_constant. cbn [fst snd] in *. by rewrite Ho, Hv.
Qed.
End Taken.


(** C39: The constants mean what the methods do, on every build. HAVE_IGBINARY,
    HAVE_JSON, HAVE_MSGPACK and HAVE_ZSTD are TRUE exactly when [setOption] takes the
    serializer or compression of that name, HAVE_ENCODING and HAVE_SASL exactly when
    the class has the method. The number [getResultCode] answers is the value of
    exactly one RES_ constant. And [MemcachedServer::on] registers a callback for
    exactly the values of the ON_ constants. *)
Theorem constants_agree_with_methods {MC} `{ZendLaws} `{BuildConfig} `{OptionalMethods}
    `{MemcachedNumbersLaws} `{ProtocolNumbers} `{LibraryConstants} `{UserFunctions}
    `{MemcachedControl MC} `{!Inj (=) (=) return_num} (w : world MC) (s : pworld) f :
  (constant "HAVE_IGBINARY" = Some (ConstBool (option_takes "OPT_SERIALIZER" "SERIALIZER_IGBINARY" w)) ∧
   constant "HAVE_JSON" = Some (ConstBool (option_takes "OPT_SERIALIZER" "SERIALIZER_JSON" w)) ∧
   constant "HAVE_JSON" = Some (ConstBool (option_takes "OPT_SERIALIZER" "SERIALIZER_JSON_ARRAY" w)) ∧
   constant "HAVE_MSGPACK" = Some (ConstBool (option_takes "OPT_SERIALIZER" "SERIALIZER_MSGPACK" w)) ∧
   constant "HAVE_ZSTD" = Some (ConstBool (option_takes "OPT_COMPRESSION_TYPE" "COMPRESSION_ZSTD" w)) ∧
   constant "HAVE_ENCODING" = Some (ConstBool (has_method "setEncodingKey")) ∧
   constant "HAVE_SASL" = Some (ConstBool (has_method "setSaslAuthData"))) ∧
  (has_constant (rescode (w_obj w)) = true →
   ∃ v name, Memcached_getResultCode w = Ret (ZLong v) w ∧ names_of "RES_" v = [name]) ∧
  (HAVE_MEMCACHED_PROTOCOL = true → p_callbacks s = ∅ → is_Some (p_refs s !! f) →
   ∀ event, ∃ s', MemcachedServer_on event (Some f) s = Ret ZFalse s'
     ∧ (p_callbacks s' !! event = Some f ↔ names_of "ON_" event ≠ [])).
Proof.
  split; [|split].
  - rewrite (option_takes_own 0 2 _ _ MEMC_OPT_SERIALIZER SERIALIZER_IGBINARY) by done.
    rewrite (option_takes_own 0 3 _ _ MEMC_OPT_SERIALIZER SERIALIZER_JSON) by done.
    rewrite (option_takes_own 0 4 _ _ MEMC_OPT_SERIALIZER SERIALIZER_JSON_ARRAY) by done.
    rewrite (option_takes_own 0 5 _ _ MEMC_OPT_SERIALIZER SERIALIZER_MSGPACK) by done.
    rewrite (option_takes_own 1 6 _ _ MEMC_OPT_COMPRESSION_TYPE COMPRESSION_TYPE_ZSTD) by done.
    rewrite !serializer_taken, compression_taken by done.
    pose proof (own_constant 7 _ eq_refl) as E1. pose proof (own_constant 8 _ eq_refl) as E2.
    pose proof (own_constant 9 _ eq_refl) as E3. pose proof (own_constant 10 _ eq_refl) as E4.
    pose proof (own_constant 11 _ eq_refl) as E5. pose proof (own_constant 13 _ eq_refl) as E6.
    cbn [fst snd] in *. rewrite E1, E2, E3, E4, E5, E6. clear.
    unfold serializer_ok, compression_type_ok, has_method, class_Memcached_methods.
    destruct HAVE_MEMCACHED_IGBINARY, HAVE_JSON_API, HAVE_MEMCACHED_MSGPACK, HAVE_ZSTD_H,
      HAVE_MEMCACHED_SASL, HAVE_MEMCACHED_SET_ENCODING_KEY; repeat split.
  - intros Hc. destruct (names_of_result _ Hc) as [name Hn]. by exists (return_num (rescode (w_obj w))), name.
  - intros Hp Hnone [n Hf] event. pose proof (names_of_event event Hp) as He.
    unfold MemcachedServer_on, MEMC_SERVER_ON_MIN, MEMC_SERVER_ON_MAX. destruct (_ || _) eqn:E.
    + exists s. split; [done|]. rewrite He, Hnone, lookup_empty. split; [done|lia].
    + eexists. split.
      * unfold s_destroy_cb, addref, get, modify, mbind, M_bind. cbn. rewrite Hnone, lookup_empty. cbn.
        rewrite Hf. reflexivity.
      * rewrite He. cbn. rewrite lookup_insert, decide_True by done. split; [lia|done].
Qed.

(** The numbers of libmemcached's result codes: their places in the list above. *)
Definition example_number (rc : memcached_return) : Z :=
  if decide (rc = MEMC_RES_PAYLOAD_FAILURE) then -1001
  else match find (λ p, bool_decide (p.1.2 = rc)) (zip result_codes (seq 0 60)) with
       | Some (_, n) => Z.of_nat n
       | None => -1
       end.

#[local] Instance example_numbers : MemcachedNumbers := {|
 
  behavior_num := behavior_num; MEMCACHED_BEHAVIOR_MAX := MEMCACHED_BEHAVIOR_MAX;
  MEMCACHED_MAX_KEY := MEMCACHED_MAX_KEY; return_num := example_number;
  MEMCACHED_HASH_DEFAULT := 0; MEMCACHED_DISTRIBUTION_MODULA := 0;
  MEMCACHED_DISTRIBUTION_CONSISTENT := 1
|}.

#[local] Instance example_number_inj : Inj (=) (=) return_num.
Proof. intros [] []; vm_compute; done. Qed.

#[local] Instance example_numbers_laws : MemcachedNumbersLaws.
Proof. by destruct ToyNumbersLaws. Qed.

#[local] Instance example_constants : LibraryConstants := {|
  HAVE_MEMCACHED_SESSION := true; HAVE_MEMCACHED_PROTOCOL := true;
  MEMCACHED_HASH_MD5 := 1; MEMCACHED_HASH_CRC := 2; MEMCACHED_HASH_FNV1_64 := 3;
  MEMCACHED_HASH_FNV1A_64 := 4; MEMCACHED_HASH_FNV1_32 := 5; MEMCACHED_HASH_FNV1A_32 := 6;
  MEMCACHED_HASH_HSIEH := 7; MEMCACHED_HASH_MURMUR := 8;
  MEMCACHED_DISTRIBUTION_VIRTUAL_BUCKET := 6;
  PROTOCOL_BINARY_RESPONSE_KEY_EEXISTS := 2; PROTOCOL_BINARY_RESPONSE_E2BIG := 3;
  PROTOCOL_BINARY_RESPONSE_EINVAL := 4; PROTOCOL_BINARY_RESPONSE_NOT_STORED := 5;
  PROTOCOL_BINARY_RESPONSE_DELTA_BADVAL := 6; PROTOCOL_BINARY_RESPONSE_NOT_MY_VBUCKET := 7;
  PROTOCOL_BINARY_RESPONSE_AUTH_ERROR := 32; PROTOCOL_BINARY_RESPONSE_AUTH_CONTINUE := 33;
  PROTOCOL_BINARY_RESPONSE_ENOMEM := 130; PROTOCOL_BINARY_RESPONSE_NOT_SUPPORTED := 131;
  PROTOCOL_BINARY_RESPONSE_EINTERNAL := 132; PROTOCOL_BINARY_RESPONSE_EBUSY := 133;
  PROTOCOL_BINARY_RESPONSE_ETMPFAIL := 134
|}.

#[local] Instance example_optional : OptionalMethods := {| HAVE_MEMCACHED_SET_ENCODING_KEY := true |}.
#[local] Instance example_protocol : ProtocolNumbers := {|
  PROTOCOL_BINARY_RESPONSE_SUCCESS := 0; PROTOCOL_BINARY_RESPONSE_KEY_ENOENT := 1;
  PROTOCOL_BINARY_RESPONSE_UNKNOWN_COMMAND := 129
|}.
#[local] Instance example_functions : UserFunctions := {|
  user_function _ _ := mret (mkCallResult true None []); object_properties _ := []
|}.

(** A build with JSON, an object whose last command found nothing, and a script
    that has one callable. *)
Lemma constants_agree_with_methods_witness :
  let w := with_obj (mkObject MEMCACHED_NOTFOUND 0 false) (toy_world toy_new) in
  let s := mkServer ∅ {[7%nat := 1%nat]} [] ∅ 0 ∅ [] in
  constant "HAVE_JSON" = Some (ConstBool (option_takes "OPT_SERIALIZER" "SERIALIZER_JSON" w))
  ∧ (∃ v name, Memcached_getResultCode w = Ret (ZLong v) w ∧ names_of "RES_" v = [name])
  ∧ ∃ s', MemcachedServer_on 6 (Some 7%nat) s = Ret ZFalse s'
      ∧ (p_callbacks s' !! 6 = Some 7%nat ↔ names_of "ON_" 6 ≠ []).
Proof.
  intros w s. destruct (constants_agree_with_methods w s 7%nat) as ((_ & Hjson & _) & Hcode & Hon).
  split; [exact Hjson|]. split; [by apply Hcode|]. apply Hon; [done|done|by exists 1%nat].
Defined.
