(* ===== verification/KeyMemory.v ===== *)
(** * The memory of key lists

    [s_hash_to_keys], [s_key_to_keys] and [s_clear_keys] with their allocations:
    the three arrays of [php_memc_keys_t] are blocks of the request, and the
    strings in them hold references.  What the lists contain is in Keys. *)

From stdpp Require Import gmultiset.
From S2P Require Import Prelude CLib Zend LibMemcached World Toy Keys.
#[local] Open Scope Z_scope.

(** The live blocks, and every live string as often as it is referred to. *)
Record key_memory : Type := mkKeyMemory {
  km_blocks : gset nat;
  km_refs : gmultiset nat;
  km_next : nat
}.

Definition with_blocks (b : gset nat) (s : key_memory) : key_memory :=
  mkKeyMemory b (km_refs s) (km_next s).
Definition with_refs (r : gmultiset nat) (s : key_memory) : key_memory :=
  mkKeyMemory (km_blocks s) r (km_next s).
Definition bump (s : key_memory) : key_memory :=
  mkKeyMemory (km_blocks s) (km_refs s) (S (km_next s)).

#[local] Abbreviation KM := (M key_memory).

Definition ecalloc : KM nat :=
  n ← gets km_next;
  modify (λ s, bump (with_blocks ({[n]} ∪ km_blocks s) s));; mret n.

(** Freeing what is not live is undefined, as is releasing it. *)
Definition efree (b : nat) : KM unit :=
  s ← get;
  if decide (b ∈ km_blocks s) then modify (with_blocks (km_blocks s ∖ {[b]})) else undef.

Definition zend_string_release (x : nat) : KM unit :=
  s ← get;
  if decide (x ∈ km_refs s) then modify (with_refs (km_refs s ∖ {[+ x +]})) else undef.

(** An element of a PHP array: a string the engine has already, or another value, of
    which [zval_get_string] makes a new one. *)
Record element : Type := mkElement { el_string : option nat; el_value : zval }.

Definition zval_get_string_ref `{ZendRuntime} (e : element) : KM (nat * string) :=
  x ← match el_string e with
      | Some x => s ← get; if decide (x ∈ km_refs s) then mret x else undef
      | None => n ← gets km_next; modify bump;; mret n
      end;
  modify (λ s, with_refs (km_refs s ⊎ {[+ x +]}) s);;
  mret (x, zval_get_string (el_value e)).

(** [php_memc_keys_t]: the arrays, unset when nothing was allocated, and what is in
    them up to [num_valid_keys]: [strings] with [mkeys] and [mkeys_len]. *)
Record php_memc_keys_t : Type := mkKeys {
  mkeys : option nat;
  mkeys_len : option nat;
  strings : option nat;
  entries : list (nat * string)
}.

Definition num_valid_keys (k : php_memc_keys_t) : nat := length (entries k).

Section KeyMemory.
Context `{ZendRuntime} `{MemcachedNumbers}.

(** The loop over the values; [idx] is the length of [kept].  Writing behind the
    [alloc_count] elements of the arrays is undefined. *)
Fixpoint fill_keys (alloc_count : nat) (vals : list element) (kept : list (nat * string))
    : KM (list (nat * string)) :=
  match vals with
  | [] => mret kept
  | e :: vals' =>
      key ← zval_get_string_ref e;
      if key_length_ok key.2 then
        if decide (length kept < alloc_count)%nat then fill_keys alloc_count vals' (kept ++ [key])
        else undef
      else zend_string_release key.1;; fill_keys alloc_count vals' kept
  end.

Definition s_hash_to_keys (hash_in : list element) : KM php_memc_keys_t :=
  match length hash_in with
  | O => mret (mkKeys None None None [])
  | alloc_count =>
      k ← ecalloc; l ← ecalloc; s ← ecalloc;
      kept ← fill_keys alloc_count hash_in [];
      when (bool_decide (length kept = O)) (efree k;; efree l;; efree s);;
      mret (mkKeys (Some k) (Some l) (Some s) kept)
  end.

(** The array of one element has a reference of its own, which goes with it. *)
Definition s_key_to_keys (key : nat * string) : KM php_memc_keys_t :=
  let zv := mkElement (Some key.1) (ZStr key.2) in
  _ ← zval_get_string_ref zv;
  keys_out ← s_hash_to_keys [zv];
  zend_string_release key.1;;
  mret keys_out.

Fixpoint release_all (l : list (nat * string)) : KM unit :=
  match l with
  | [] => mret tt
  | x :: l' => zend_string_release x.1;; release_all l'
  end.

(** [efree] of an array that was never set. *)
Definition efree_array (b : option nat) : KM unit :=
  match b with Some b => efree b | None => undef end.

Definition s_clear_keys (keys : php_memc_keys_t) : KM unit :=
  match num_valid_keys keys with
  | O => mret tt
  | _ =>
      release_all (entries keys);;
      efree_array (strings keys);; efree_array (mkeys keys);; efree_array (mkeys_len keys)
  end.

(** What [php_memc_get_impl], [php_memc_getMulti_impl] and
    [php_memc_getDelayed_impl] do with a key list. *)
Definition with_keys {A} (make : KM php_memc_keys_t) (use : php_memc_keys_t → KM A) : KM A :=
  keys ← make; r ← use keys; s_clear_keys keys;; mret r.
End KeyMemory.

(** ** Nothing is lost and nothing freed twice *)

(** A list with keys has three arrays of its own; one without has none. *)
Inductive made (b : gset nat) : gset nat → php_memc_keys_t → Prop :=
  | made_none k l s : made b b (mkKeys k l s [])
  | made_some k l s e es :
      k ∉ b → l ∉ b → s ∉ b → k ≠ l → k ≠ s → l ≠ s →
      made b ({[k; l; s]} ∪ b) (mkKeys (Some k) (Some l) (Some s) (e :: es)).

Section Balance.
Context `{ZendLaws} `{MemcachedNumbers}.
Implicit Types s : key_memory.

Definition same_memory s s' : Prop := km_blocks s' = km_blocks s ∧ km_refs s' = km_refs s.

(** New blocks are new. *)
Definition fresh_blocks s : Prop := ∀ b, b ∈ km_blocks s → (b < km_next s)%nat.

Definition live_element s (e : element) : Prop := ∀ x, el_string e = Some x → x ∈ km_refs s.

(** The strings of a list are referred to, its arrays are there. *)
Definition live_keys s (k : php_memc_keys_t) : Prop :=
  Forall (λ x, x.1 ∈ km_refs s) (entries k)
  ∧ (entries k ≠ [] →
     ∀ b, b ∈ [mkeys k; mkeys_len k; strings k] → ∃ n, b = Some n ∧ n ∈ km_blocks s).

Definition refs_of (l : list (nat * string)) : gmultiset nat := list_to_set_disj l.*1.

Lemma refs_of_nil (R : gmultiset nat) : R ⊎ refs_of [] = R.
Proof. apply (right_id_L ∅ (⊎)). Qed.

Lemma refs_of_cons x l (R : gmultiset nat) : R ⊎ refs_of (x :: l) = R ⊎ {[+ x.1 +]} ⊎ refs_of l.
Proof. apply (assoc_L (⊎) R {[+ x.1 +]} (refs_of l)). Qed.

Lemma get_string_run e s :
  live_element s e →
  ∃ x s', zval_get_string_ref e s = Ret (x, zval_get_string (el_value e)) s'
    ∧ km_blocks s' = km_blocks s ∧ km_refs s' = km_refs s ⊎ {[+ x +]}
    ∧ (km_next s <= km_next s')%nat.
Proof.
  intros He. unfold zval_get_string_ref. destruct (el_string e) as [x|] eqn:E.
  - rewrite bind_assoc, get_bind, decide_True by (by apply He). rewrite ret_bind.
    eexists x, _. split; [reflexivity|]. by split.
  - rewrite bind_assoc, gets_bind, bind_assoc, modify_bind, ret_bind.
    eexists _, _. split; [reflexivity|]. cbn. split; [done|]. split; [done|lia].
Qed.

Lemma release_run x R s :
  km_refs s = R ⊎ {[+ x +]} →
  zend_string_release x s = Ret tt (with_refs R s).
Proof.
  intros HR. unfold zend_string_release. rewrite get_bind, HR.
  assert (x ∈ R ⊎ {[+ x +]}) as Hx
    by (apply gmultiset_elem_of_disj_union; right; by apply gmultiset_elem_of_singleton).
  rewrite decide_True by done. unfold modify. do 2 f_equal.
  apply (inj (.⊎ {[+ x +]})). rewrite (comm_L (⊎) _ {[+ x +]}).
  by rewrite <- (gmultiset_disj_union_difference' x (R ⊎ {[+ x +]})).
Qed.

Lemma efree_run b s : b ∈ km_blocks s → efree b s = Ret tt (with_blocks (km_blocks s ∖ {[b]}) s).
Proof. intros Hb. unfold efree. by rewrite get_bind, decide_True. Qed.

Lemma fill_keys_run n vals kept s :
  (length kept + length vals <= n)%nat → Forall (live_element s) vals →
  ∃ new s', fill_keys n vals kept s = Ret (kept ++ new) s'
    ∧ new.*2 = filter (λ k, key_length_ok k = true) (zval_get_string <$> (el_value <$> vals))
    ∧ km_blocks s' = km_blocks s ∧ km_refs s' = km_refs s ⊎ refs_of new
    ∧ (km_next s <= km_next s')%nat.
Proof.
  revert kept s. induction vals as [|e vals IH]; intros kept s Hn Hv; cbn [fill_keys].
  { exists [], s. rewrite app_nil_r. split; [done|]. split; [done|]. split; [done|].
    by rewrite refs_of_nil. }
  apply Forall_cons in Hv as [He Hv]. destruct (get_string_run e s He) as (x & s1 & R1 & Hb1 & Hr1 & Hn1).
  rewrite (bind_Ret _ _ _ _ _ R1). cbn [fst snd]. cbn [length] in Hn.
  assert (Forall (live_element s1) vals) as Hv1.
  { eapply Forall_impl; [exact Hv|]. intros e' He' y Hy. rewrite Hr1.
    apply gmultiset_elem_of_disj_union. left. by apply He'. }
  rewrite !fmap_cons, filter_cons. destruct (key_length_ok (zval_get_string (el_value e))) eqn:Hk.
  - rewrite !decide_True by (done || lia).
    destruct (IH (kept ++ [(x, zval_get_string (el_value e))]) s1) as (new & s2 & R2 & Hk2 & Hb2 & Hr2 & Hn2);
      [rewrite length_app; cbn; lia|done|].
    exists ((x, zval_get_string (el_value e)) :: new), s2. rewrite R2, <- app_assoc.
    split; [done|]. split; [by rewrite fmap_cons, Hk2|]. split; [congruence|]. split; [|lia].
    by rewrite Hr2, Hr1, refs_of_cons.
  - rewrite decide_False by done. rewrite (bind_Ret _ _ _ _ _ (release_run x (km_refs s) s1 Hr1)).
    destruct (IH kept (with_refs (km_refs s) s1)) as (new & s2 & R2 & Hk2 & Hb2 & Hr2 & Hn2);
      [lia|exact Hv|].
    exists new, s2. split; [done|]. split; [done|]. cbn in *. split; [congruence|]. split; [done|lia].
Qed.

Lemma release_all_run l R s :
  km_refs s = R ⊎ refs_of l → release_all l s = Ret tt (with_refs R s).
Proof.
  revert s. induction l as [|[x k] l IH]; intros s HR; cbn [release_all].
  - rewrite refs_of_nil in HR. subst R. by destruct s.
  - rewrite refs_of_cons, <- (assoc_L (⊎)), (comm_L (⊎) {[+ _ +]}), (assoc_L (⊎)) in HR.
    rewrite (bind_Ret _ _ _ _ _ (release_run x _ s HR)). by rewrite IH.
Qed.

Lemma made_live b b' k s :
  made b b' k → km_blocks s = b' → Forall (λ x, x.1 ∈ km_refs s) (entries k) → live_keys s k.
Proof.
  intros Hm Hb Hr. split; [done|]. destruct Hm as [|k1 l1 s1 e es]; cbn; [done|]. rewrite Hb.
  intros _ a Ha. rewrite !elem_of_cons in Ha.
  destruct Ha as [-> | [-> | [-> | Ha%elem_of_nil]]]; [..|done]; eexists; (split; [done|]); set_solver.
Qed.

Lemma refs_live l R s : km_refs s = R ⊎ refs_of l → Forall (λ x, x.1 ∈ km_refs s) l.
Proof.
  intros E. apply Forall_forall. intros x Hx. rewrite E.
  apply gmultiset_elem_of_disj_union. right. unfold refs_of.
  apply elem_of_list_to_set_disj, list_elem_of_fmap_2, Hx.
Qed.

Lemma ecalloc_run s :
  ecalloc s = Ret (km_next s) (bump (with_blocks ({[km_next s]} ∪ km_blocks s) s)).
Proof. done. Qed.

Lemma efree3_run k l a b s :
  k ∉ b → l ∉ b → a ∉ b → k ≠ l → k ≠ a → l ≠ a →
  km_blocks s = {[k; l; a]} ∪ b →
  (efree k;; efree l;; efree a) s = Ret tt (with_blocks b s).
Proof.
  intros ?????? Hb.
  assert (k ∈ km_blocks s) as Hk by (rewrite Hb; set_solver).
  rewrite (bind_Ret _ _ _ _ _ (efree_run k s Hk)).
  assert (l ∈ km_blocks s ∖ {[k]}) as Hl by (rewrite Hb; set_solver).
  rewrite (bind_Ret _ _ _ _ _ (efree_run l (with_blocks (km_blocks s ∖ {[k]}) s) Hl)).
  rewrite efree_run by (cbn; rewrite Hb; set_solver).
  unfold with_blocks. cbn. do 2 f_equal. rewrite Hb. apply set_eq. set_solver.
Qed.

Lemma s_hash_to_keys_run vals s :
  fresh_blocks s → Forall (live_element s) vals →
  ∃ k s', s_hash_to_keys vals s = Ret k s'
    ∧ (entries k).*2 = filter (λ k, key_length_ok k = true) (zval_get_string <$> (el_value <$> vals))
    ∧ made (km_blocks s) (km_blocks s') k ∧ km_refs s' = km_refs s ⊎ refs_of (entries k).
Proof.
  intros Hf Hv. unfold s_hash_to_keys. destruct vals as [|e vals].
  { eexists _, s. split; [reflexivity|]. split; [done|]. split; [constructor|].
    by rewrite refs_of_nil. }
  cbn [length]. rewrite !(bind_Ret _ _ _ _ _ (ecalloc_run _)).
  unfold bump, with_blocks. cbn [km_next km_blocks km_refs].
  set (n := km_next s) in *.
  set (s1 := mkKeyMemory ({[S (S n)]} ∪ ({[S n]} ∪ ({[n]} ∪ km_blocks s))) (km_refs s) (S (S (S n)))).
  destruct (fill_keys_run (S (length vals)) (e :: vals) [] s1) as (new & s2 & R & Hk & Hb & Hr & _);
    [cbn; lia|exact Hv|].
  rewrite (bind_Ret _ _ _ _ _ R). cbn [app]. clear R.
  assert (∀ i, n + i ∉ km_blocks s)%nat as Hn.
  { intros i Hi. specialize (Hf _ Hi). unfold n in *. lia. }
  pose proof (Hn 0)%nat as H0'. pose proof (Hn 1)%nat as H1'. pose proof (Hn 2)%nat as H2'.
  replace (n + 0)%nat with n in H0' by lia. replace (n + 1)%nat with (S n) in H1' by lia.
  replace (n + 2)%nat with (S (S n)) in H2' by lia.
  destruct new as [|x new].
  - rewrite bool_decide_true by done. unfold when.
    rewrite (bind_Ret _ _ s2 tt (with_blocks (km_blocks s) s2)).
    { eexists _, _. split; [reflexivity|]. split; [done|]. split; [constructor|]. cbn. by rewrite Hr. }
    apply (efree3_run n (S n) (S (S n))); [done|done|done|lia|lia|lia|]. 
    rewrite Hb. cbn. apply set_eq. set_solver.
  - rewrite bool_decide_false by done. unfold when. rewrite ret_bind.
    eexists _, s2. split; [reflexivity|]. split; [done|]. split; [|done].
    rewrite Hb. cbn.
    replace ({[S (S n)]} ∪ ({[S n]} ∪ ({[n]} ∪ km_blocks s))) with ({[n; S n; S (S n)]} ∪ km_blocks s)
      by (apply set_eq; set_solver).
    constructor; try done; lia.
Qed.
Lemma s_key_to_keys_run key s :
  fresh_blocks s → key.1 ∈ km_refs s →
  ∃ k s', s_key_to_keys key s = Ret k s'
    ∧ (entries k).*2 = Keys.s_key_to_keys key.2
    ∧ made (km_blocks s) (km_blocks s') k ∧ km_refs s' = km_refs s ⊎ refs_of (entries k).
Proof.
  intros Hf Hk. unfold s_key_to_keys.
  set (zv := mkElement (Some key.1) (ZStr key.2)).
  assert (∀ s', key.1 ∈ km_refs s' → live_element s' zv) as Hl by (intros s' Hs' x [= <-]; done).
  destruct (get_string_run zv s (Hl s Hk)) as (x & s1 & R1 & Hb1 & Hr1 & Hn1).
  assert (x = key.1) as ->.
  { revert R1. unfold zval_get_string_ref. cbn. rewrite bind_assoc, get_bind, decide_True by done.
    rewrite ret_bind. unfold modify. by intros [= <-]. }
  rewrite (bind_Ret _ _ _ _ _ R1).
  destruct (s_hash_to_keys_run [zv] s1) as (k & s2 & R2 & He2 & Hm2 & Hr2).
  { intros b Hb. rewrite Hb1 in Hb. specialize (Hf b Hb). lia. }
  { apply Forall_singleton, Hl. rewrite Hr1. apply gmultiset_elem_of_disj_union. by left. }
  rewrite (bind_Ret _ _ _ _ _ R2).
  rewrite Hr1, <- (assoc_L (⊎)), (comm_L (⊎) {[+ _ +]}), (assoc_L (⊎)) in Hr2.
  rewrite (bind_Ret _ _ _ _ _ (release_run key.1 _ s2 Hr2)).
  eexists k, _. split; [reflexivity|]. rewrite Hb1 in Hm2. split; [|by split].
  unfold Keys.s_key_to_keys, Keys.s_hash_to_keys. by rewrite hash_to_keys_keys, He2.
Qed.

(** [s_clear_keys] gives back what making the list took. *)
Lemma s_clear_keys_run b R k s :
  made b (km_blocks s) k → km_refs s = R ⊎ refs_of (entries k) →
  ∃ s', s_clear_keys k s = Ret tt s' ∧ km_blocks s' = b ∧ km_refs s' = R.
Proof.
  intros Hm HR. remember (km_blocks s) as b' eqn:Hb'. unfold s_clear_keys, num_valid_keys.
  destruct Hm as [k l a | k l a e es Hk Hl Ha Hkl Hka Hla]; cbn [entries length].
  { exists s. split; [done|]. split; [done|]. by rewrite HR, refs_of_nil. }
  rewrite (bind_Ret _ _ _ _ _ (release_all_run (e :: es) R s HR)). cbn.
  rewrite (efree3_run a k l b) by (done || cbn; rewrite <- Hb'; apply set_eq; set_solver).
  by eexists.
Qed.

Lemma with_keys_run {A} make (use : php_memc_keys_t → KM A) (f : list string → A) ks s :
  (∃ k s', make s = Ret k s' ∧ (entries k).*2 = ks
    ∧ made (km_blocks s) (km_blocks s') k ∧ km_refs s' = km_refs s ⊎ refs_of (entries k)) →
  (∀ k s1, live_keys s1 k → ∃ s2, use k s1 = Ret (f (entries k).*2) s2 ∧ same_memory s1 s2) →
  ∃ s', with_keys make use s = Ret (f ks) s' ∧ same_memory s s'.
Proof.
  intros (k & s1 & R & <- & Hm & Hr) Hu. unfold with_keys. rewrite (bind_Ret _ _ _ _ _ R).
  destruct (Hu k s1) as (s2 & R2 & Hb2 & Hr2).
  { eapply made_live; [exact Hm|done|by eapply refs_live]. }
  rewrite (bind_Ret _ _ _ _ _ R2).
  destruct (s_clear_keys_run (km_blocks s) (km_refs s) k s2) as (s3 & R3 & Hb3 & Hr3);
    [by rewrite Hb2|by rewrite Hr2|].
  rewrite (bind_Ret _ _ _ _ _ R3). by exists s3.
Qed.

(** C11: the key lists of get, getMulti and getDelayed are used and freed safely: for every
    array of live values, and for a single key, making the list, any use of it that
    gives back what it takes, and [s_clear_keys] end without releasing or freeing
    anything that is not live; the use has the arrays and the references it needs, and
    gets exactly the keys that Keys computes; and afterwards the blocks and the
    references are those from before, also when the array is empty or no key is
    valid. *)
Theorem key_lists_are_freed {A} (use : php_memc_keys_t → KM A) (f : list string → A) s :
  fresh_blocks s →
  (∀ k s1, live_keys s1 k → ∃ s2, use k s1 = Ret (f (entries k).*2) s2 ∧ same_memory s1 s2) →
  (∀ hash_in arr p r,
      Forall (live_element s) hash_in → arr_vals arr = el_value <$> hash_in →
      ∃ s', with_keys (s_hash_to_keys hash_in) use s = Ret (f (Keys.s_hash_to_keys arr p r).1) s'
        ∧ same_memory s s')
  ∧ (∀ key, key.1 ∈ km_refs s →
      ∃ s', with_keys (s_key_to_keys key) use s = Ret (f (Keys.s_key_to_keys key.2)) s'
        ∧ same_memory s s').
Proof.
  intros Hf Hu. split.
  - intros hash_in arr p r Hl Ha. apply with_keys_run; [|done].
    destruct (s_hash_to_keys_run hash_in s Hf Hl) as (k & s' & R & He & Hm & Hr).
    exists k, s'. split; [done|]. split; [|done].
    unfold Keys.s_hash_to_keys. by rewrite hash_to_keys_keys, He, Ha.
  - intros key Hk. apply with_keys_run; [|done]. by apply s_key_to_keys_run.
Qed.
End Balance.

(** Two good keys, an empty one, and a number that becomes a string. *)
Definition some_keys : list element :=
  [mkElement (Some 3%nat) (ZStr "a"); mkElement (Some 4%nat) (ZStr "");
   mkElement (Some 3%nat) (ZStr "a"); mkElement None (ZLong 7)].

Lemma key_lists_are_freed_witness :
  let s := mkKeyMemory {[1%nat]} {[+ 3%nat; 4%nat +]} 5 in
  (∃ s', with_keys (s_hash_to_keys some_keys) (λ k, mret (entries k).*2) s = Ret ["a"; "a"; "7"] s'
     ∧ same_memory s s')
  ∧ (∃ s', with_keys (s_key_to_keys (3%nat, "a")) (λ k, mret (entries k).*2) s = Ret ["a"] s'
     ∧ same_memory s s').
Proof.
  intros s.
  destruct (key_lists_are_freed (λ k, mret (entries k).*2) id s) as [T1 T2].
  - intros b Hb. unfold s in Hb. cbn in Hb. apply elem_of_singleton in Hb. subst b. cbn. lia.
  - intros k s1 _. by exists s1.
  - pose (arr := foldl add_next_index [] (el_value <$> some_keys)).
    assert ((Keys.s_hash_to_keys arr false None).1 = ["a"; "a"; "7"]) as E by (vm_compute; reflexivity).
    split.
    + rewrite <- E. apply (T1 some_keys arr false None); [|by vm_compute].
      repeat (apply Forall_cons; split; [intros x [= <-]; by vm_compute|]). by apply Forall_nil.
    + apply (T2 (3%nat, "a")). by vm_compute.
Defined.
