(* ===== verification/CounterText.v ===== *)
(** * The text of a counter

    A server keeps a counter as decimal digits; when a decrement makes it shorter,
    spaces may stay behind the digits.  [strtol] reads both. *)

From S2P Require Import Prelude CLib.
#[local] Open Scope Z_scope.

Definition spaces (s : string) : Prop := string_forallb (Ascii.eqb " ") s = true.

Definition counter_text (n : Z) (p : string) : Prop := ∃ s, spaces s ∧ p = (udec n ++ s)%string.

Lemma counter_text_udec n : counter_text n (udec n).
Proof. exists ""%string. by rewrite string_app_nil_r. Qed.

Lemma dec_aux_app fuel n acc s : (dec_aux fuel n acc ++ s)%string = dec_aux fuel n (acc ++ s).
Proof.
  revert n acc. induction fuel as [|fuel IH]; intros n acc; cbn [dec_aux]; [done|].
  destruct (n <? 10); [done|]. apply IH.
Qed.

Lemma spaces_cons c s : spaces (String c s) → c = " "%char ∧ spaces s.
Proof.
  unfold spaces. cbn [string_forallb]. intros [Hc Hs]%andb_true_iff.
  by apply Ascii.eqb_eq in Hc as <-.
Qed.

Lemma c_str_spaces s : spaces s → c_str s = s.
Proof. induction s as [|c s IH]; [done|]. intros [-> Hs]%spaces_cons. cbn. by rewrite IH. Qed.

Lemma scan_spaces n s : spaces s → scan_digits 10 n s = (n, s).
Proof. destruct s as [|c s]; [done|]. by intros [-> _]%spaces_cons. Qed.

(** A numeral starts with a digit, which is neither skipped nor a sign. *)
Lemma digit_head d s :
  0 <= d < 10 →
  skip_spaces (String (digit_char d) s) = String (digit_char d) s
  ∧ scan_sign (String (digit_char d) s) = (false, String (digit_char d) s).
Proof.
  intros Hd. pose proof (digit_char_cases d Hd) as Hc. simpl in Hc.
  repeat destruct Hc as [[= <- <-] | Hc]; done.
Qed.

Lemma strtol_counter n p : 0 <= n <= LONG_MAX → counter_text n p → (strtol 10 p).1.1.1 = n.
Proof.
  intros Hn (s & Hs & ->). unfold strtol.
  assert (c_str (udec n ++ s) = (udec n ++ s)%string) as ->
    by (unfold udec; rewrite dec_aux_app; apply c_str_dec_aux; [lia|by apply c_str_spaces]).
  assert (scan_digits 10 0 (udec n ++ s) = (n, s)) as Hscan.
  { unfold udec. rewrite dec_aux_app, scan_dec_aux; [by apply scan_spaces|].
    split; [lia|apply log2_fuel; lia]. }
  assert (strto_scan 10 (udec n ++ s) = Some (false, n, s)) as ->.
  { destruct (udec_head n) as (d & r & E & Hd & _); [lia|].
    assert ((udec n ++ s)%string = String (digit_char d) (r ++ s)) as E' by (by rewrite E).
    rewrite E' in *. destruct (digit_head d (r ++ s) Hd) as [Hskip Hsign].
    unfold strto_scan. rewrite Hskip, Hsign. cbn [Z.eqb starts_with_digit].
    rewrite digit_char_base by lia. rewrite bool_decide_eq_true_2 by done. by rewrite Hscan. }
  replace (LONG_MAX <? n) with false by lia.
  replace (n <? LONG_MIN) with false; [done|]. unfold LONG_MIN. lia.
Qed.
