(* ===== verification/CacheServer.v ===== *)
(** * A cache, and a server that is one

    The specification of the client as a whole: the operations of a map from keys to
    values, the methods that stand for them, and what is asked of a server. *)

From S2P Require Import Prelude CLib Flags Zend LibMemcached World Toy Keys CasToken Payload.
From S2P Require Import CounterText Store Fetch FetchProofs Options Servers Results ArgInfo Methods.
#[local] Open Scope Z_scope.

(** ** The abstract cache *)

(** On one key. *)
Inductive key_op : Type :=
| CSet (key : string) (value : zval)
| CAdd (key : string) (value : zval)
| CReplace (key : string) (value : zval)
| CGet (key : string)
| CDelete (key : string)
| CTouch (key : string)
| CCount (incr : bool) (key : string) (offset : Z).

(** On one or more: [CGetMulti] with the flag for the order of the keys. *)
Inductive cache_op : Type :=
| COne (op : key_op)
| CSetMulti (entries : zarray)
| CGetMulti (ordered : bool) (keys : zarray)
| CDeleteMulti (keys : zarray).

(** What a caller sees: the value a method returns, and the result code after it. *)
Definition answer : Type := zval * memcached_return.

Section Spec.
(** The keys that are accepted, and what a value is read back as. *)
Context `{ZendRuntime} `{MemcachedNumbers}.
Context (valid : string → bool) (readback : zval → zval).

Definition op_key (op : key_op) : string :=
  match op with
  | CSet key _ | CAdd key _ | CReplace key _ | CGet key | CDelete key | CTouch key
  | CCount _ key _ => key
  end.

(** What a counter counts to. *)
Definition counted (incr : bool) (n offset : Z) : Z :=
  if incr then n + offset else Z.max 0 (n - offset).

(** Nothing is said of counting with a value that is no natural number, nor of a
    counter that leaves the range of an integer of PHP. *)
Definition spec_count (incr : bool) (key : string) (offset : Z) (σ : gmap string zval)
    : option (answer * gmap string zval) :=
  if offset <? 0 then Some ((ZFalse, MEMCACHED_SUCCESS), σ)
  else
    match σ !! key with
    | None => Some ((ZFalse, MEMCACHED_NOTFOUND), σ)
    | Some (ZLong n) =>
        let n' := counted incr n offset in
        if (0 <=? n) && (n <=? LONG_MAX) && (n' <=? LONG_MAX)
        then Some ((ZLong n', MEMCACHED_SUCCESS), <[key := ZLong n']> σ) else None
    | Some _ => None
    end.

Definition spec_one (op : key_op) (σ : gmap string zval) : option (answer * gmap string zval) :=
  if negb (valid (op_key op)) then Some ((ZFalse, MEMCACHED_BAD_KEY_PROVIDED), σ)
  else
    match op, σ !! op_key op with
    | CSet key v, _ | CAdd key v, None | CReplace key v, Some _ =>
        Some ((ZTrue, MEMCACHED_SUCCESS), <[key := readback v]> σ)
    | CAdd _ _, Some _ | CReplace _ _, None => Some ((ZFalse, MEMCACHED_NOTSTORED), σ)
    | CGet _, Some v => Some ((v, MEMCACHED_SUCCESS), σ)
    | CGet _, None | CDelete _, None | CTouch _, None => Some ((ZFalse, MEMCACHED_NOTFOUND), σ)
    | CDelete key, Some _ => Some ((ZTrue, MEMCACHED_SUCCESS), delete key σ)
    | CTouch _, Some _ => Some ((ZTrue, MEMCACHED_SUCCESS), σ)
    | CCount incr key offset, _ => spec_count incr key offset σ
    end.

(** Nothing is said of the commands on many keys when one would not pass the check,
    which they do not make. *)
Definition all_valid (keys : list string) : bool := forallb valid keys.

Definition put_all (entries : zarray) (σ : gmap string zval) : gmap string zval :=
  foldl (λ σ kv, <[entry_key kv.1 := readback kv.2]> σ) σ entries.

Definition spec_set_multi (entries : zarray) (σ : gmap string zval)
    : option (answer * gmap string zval) :=
  if all_valid (entry_key <$> entries.*1)
  then Some ((ZTrue, MEMCACHED_SUCCESS), put_all entries σ) else None.

(** The keys of an acceptable length are looked up; with the flag, what was asked for
    comes first, in its order. *)
Definition spec_get_multi (ordered : bool) (keys : zarray) (σ : gmap string zval)
    : option (answer * gmap string zval) :=
  let asked := zval_get_string <$> arr_vals keys in
  let wanted := filter (λ k, key_length_ok k = true) asked in
  let start := if ordered then foldl (λ a k, arr_update a (symtable_key k) ZNull) [] asked else [] in
  let found := omap (λ k, (k,.) <$> σ !! k) wanted in
  if bool_decide (keys = []) then Some ((ZArr [], MEMCACHED_NOTFOUND), σ)
  else if bool_decide (wanted = []) then Some ((ZFalse, MEMCACHED_BAD_KEY_PROVIDED), σ)
  else if all_valid wanted
  then Some ((ZArr (foldl (λ a kv, arr_update a (symtable_key kv.1) kv.2) start found),
              if bool_decide (found = []) then MEMCACHED_NOTFOUND else MEMCACHED_SUCCESS), σ)
  else None.

(** For each key that is not empty TRUE or the number of the result code; the last
    code stays. *)
Fixpoint spec_deletes (keys : list string) (a : zarray) (code : memcached_return)
    (σ : gmap string zval) : zarray * memcached_return * gmap string zval :=
  match keys with
  | [] => (a, code, σ)
  | k :: keys' =>
      match σ !! k with
      | Some _ => spec_deletes keys' (arr_update a (symtable_key k) ZTrue) MEMCACHED_SUCCESS (delete k σ)
      | None => spec_deletes keys'
                  (arr_update a (symtable_key k) (ZLong (return_num MEMCACHED_NOTFOUND)))
                  MEMCACHED_NOTFOUND σ
      end
  end.

Definition spec_delete_multi (keys : zarray) (σ : gmap string zval)
    : option (answer * gmap string zval) :=
  let ks := filter (λ k, zstr_len k ≠ 0) (zval_get_string <$> arr_vals keys) in
  if all_valid ks
  then let '(a, code, σ) := spec_deletes ks [] MEMCACHED_SUCCESS σ in Some ((ZArr a, code), σ)
  else None.

Definition spec_step (op : cache_op) (σ : gmap string zval) : option (answer * gmap string zval) :=
  match op with
  | COne op => spec_one op σ
  | CSetMulti entries => spec_set_multi entries σ
  | CGetMulti ordered keys => spec_get_multi ordered keys σ
  | CDeleteMulti keys => spec_delete_multi keys σ
  end.

Fixpoint spec_run (ops : list cache_op) (σ : gmap string zval)
    : option (list answer * gmap string zval) :=
  match ops with
  | [] => Some ([], σ)
  | op :: rest =>
      match spec_step op σ with
      | Some (a, σ) =>
          match spec_run rest σ with
          | Some (answers, σ) => Some (a :: answers, σ)
          | None => None
          end
      | None => None
      end
  end.
End Spec.

(** ** The methods *)
Section Client.
Context {MC : Type} `{ZendRuntime} `{BuildConfig} `{CNumbers} `{MemcachedNumbers}
  `{MemcachedControl MC} `{MemcachedStorage MC} `{MemcachedCounters MC} `{MemcachedBuckets MC}
  `{!MemcachedServers MC} `{MemcachedErrors MC} `{MemcachedRetrieval MC} `{MemcachedAuth MC}.

Definition key_call (op : key_op) : method_call (MC := MC) :=
  match op with
  | CSet key v => M_set key v None
  | CAdd key v => M_add key v None
  | CReplace key v => M_replace key v None
  | CGet key => M_get key None None
  | CDelete key => M_delete key None
  | CTouch key => M_touch key None
  | CCount true key offset => M_increment key (Some offset) None None
  | CCount false key offset => M_decrement key (Some offset) None None
  end.

Definition op_call (op : cache_op) : method_call (MC := MC) :=
  match op with
  | COne op => key_call op
  | CSetMulti entries => M_setMulti entries None
  | CGetMulti ordered keys => M_getMulti keys (Some (if ordered then MEMC_GET_PRESERVE_ORDER else 0))
  | CDeleteMulti keys => M_deleteMulti keys None
  end.

Definition client_step (op : cache_op) : M (world MC) answer :=
  v ← run_method (op_call op); code ← gets (λ w, rescode (w_obj w)); mret (v, code).

Fixpoint client_run (ops : list cache_op) : M (world MC) (list answer) :=
  match ops with
  | [] => mret []
  | op :: rest => a ← client_step op; answers ← client_run rest; mret (a :: answers)
  end.
End Client.

(** ** A server that keeps what it is given

    [items] are the payloads and flags a healthy handle's server holds under the
    plain keys.  Nothing expires and no command fails; an add of a key that is
    taken, and a replace of one that is not, is answered NOTSTORED. *)
Section Server.
Context {MC : Type} `{MemcachedNumbers} `{MemcachedControl MC}.

(** From [m] to [m'] only the item under [k] changes, to [x]. *)
Definition becomes (healthy : MC → Prop) (items : MC → string → option (string * Z))
    (m m' : MC) (k : string) (x : option (string * Z)) : Prop :=
  healthy m' ∧ items m' k = x ∧ (∀ j, j ≠ k → items m' j = items m j)
  ∧ ∀ j, memc_key_ok m' j = memc_key_ok m j.

Definition delivered (items : MC → string → option (string * Z)) (m : MC) (k : string)
    (r : memcached_result) : Prop :=
  ∃ p f cas, items m k = Some (p, f) ∧ r = mkResult k (Bytes p) f cas.
End Server.

(** The command that counts, without an initial value. *)
Definition count {MC} `{MemcachedCounters MC} (incr : bool) (m : MC) (k : string) (offset : Z)
    : memcached_return * option Z * MC :=
  if incr then memcached_increment_by_key m k k offset
  else memcached_decrement_by_key m k k offset.

Class CacheServer (MC : Type) `{MemcachedNumbers} `{MemcachedControl MC} `{MemcachedStorage MC}
    `{MemcachedCounters MC} `{MemcachedRetrieval MC} : Type := {
  healthy : MC → Prop;
  items : MC → string → option (string * Z);
  cache_set m k p f :
    healthy m → ∃ m', memcached_set m k p 0 f = (MEMCACHED_SUCCESS, m')
                      ∧ becomes healthy items m m' k (Some (p, f));
  cache_add m k p f :
    healthy m → ∃ m', memcached_add m k p 0 f
      = (match items m k with None => MEMCACHED_SUCCESS | Some _ => MEMCACHED_NOTSTORED end, m')
      ∧ becomes healthy items m m' k (match items m k with None => Some (p, f) | x => x end);
  cache_replace m k p f :
    healthy m → ∃ m', memcached_replace m k p 0 f
      = (match items m k with None => MEMCACHED_NOTSTORED | Some _ => MEMCACHED_SUCCESS end, m')
      ∧ becomes healthy items m m' k (match items m k with None => None | _ => Some (p, f) end);
  (* a key is its own server key *)
  cache_delete (own : bool) m k :
    healthy m → ∃ m', (if own then memcached_delete_by_key m k k 0 else memcached_delete m k 0)
      = (match items m k with None => MEMCACHED_NOTFOUND | Some _ => MEMCACHED_SUCCESS end, m')
      ∧ becomes healthy items m m' k None;
  (* what is there of the keys is delivered, in their order; then the results end *)
  cache_mget m ks :
    healthy m → ks ≠ [] → ∃ m1 rs rc m2, memcached_mget m ks = (MEMCACHED_SUCCESS, m1)
      ∧ delivers m1 rs rc m2 ∧ Forall2 (delivered items m) (filter (λ k, is_Some (items m k)) ks) rs
      ∧ (∀ k, becomes healthy items m m2 k (items m k))
      ∧ if decide (rs = []) then rc = MEMCACHED_NOTFOUND else s_memcached_return_is_error rc false = false;
  cache_touch m k :
    healthy m → ∃ m', memcached_touch m k 0
      = (match items m k with None => MEMCACHED_NOTFOUND | Some _ => MEMCACHED_SUCCESS end, m')
      ∧ becomes healthy items m m' k (items m k);
  cache_count (incr : bool) m k offset :
    healthy m → 0 <= offset <= LONG_MAX →
    match items m k with
    | None => ∃ m', count incr m k offset = (MEMCACHED_NOTFOUND, None, m')
                    ∧ becomes healthy items m m' k None
    | Some (p, f) =>
        ∀ n, 0 <= n <= LONG_MAX → counter_text n p →
        let n' := if incr then u64 (n + offset) else Z.max 0 (n - offset) in
        ∃ p' m', count incr m k offset = (MEMCACHED_SUCCESS, Some n', m') ∧ counter_text n' p'
                 ∧ becomes healthy items m m' k (Some (p', f))
    end
}.

(** ** The test server is one *)
Definition toy_items (m : toy) (k : string) : option (string * Z) :=
  (λ it, (it_value it, it_flags it)) <$> t_items m !! (k, k).

Lemma toy_becomes m m' k x :
  t_script m' = [] → t_pending m' = [] → t_behaviors m' = t_behaviors m → t_prefix m' = t_prefix m →
  toy_items m' k = x → (∀ j, j ≠ k → t_items m' !! (j, j) = t_items m !! (j, j)) →
  becomes (λ m, t_script m = [] ∧ t_pending m = []) toy_items m m' k x.
Proof.
  intros Hs Hp Hb Hpr Hk Hj. split_and!; [done|done|done| |].
  - intros j Hne. unfold toy_items. by rewrite Hj.
  - intros j. unfold memc_key_ok, s_memc_object_key_max_length, behavior_get. cbn. by rewrite Hb, Hpr.
Qed.

Lemma toy_pending_delivers_all rs rc m :
  delivers (t_set_pending (((λ r, (Some r, MEMCACHED_SUCCESS)) <$> rs) ++ [(None, rc)]) m) rs rc
    (t_set_pending [] m).
Proof.
  induction rs as [|r rs IH].
  - by apply delivers_end.
  - eapply delivers_result; [reflexivity|done|exact IH].
Qed.

Lemma toy_delivers ks m :
  ∃ rs rc, delivers (t_set_pending (toy_results None ks m) m) rs rc (t_set_pending [] m)
    ∧ Forall2 (delivered toy_items m) (filter (λ k, is_Some (toy_items m k)) ks) rs
    ∧ if decide (rs = []) then rc = MEMCACHED_NOTFOUND else s_memcached_return_is_error rc false = false.
Proof.
  set (rs := omap (λ k, it ← t_items m !! (k, k);
                        Some (mkResult k (Bytes (it_value it)) (it_flags it) (it_cas it))) ks).
  set (rc := match rs with [] => MEMCACHED_NOTFOUND | _ => MEMCACHED_END end).
  exists rs, rc. split_and!.
  - assert (toy_results None ks m = ((λ r, (Some r, MEMCACHED_SUCCESS)) <$> rs) ++ [(None, rc)]) as ->;
      [|apply toy_pending_delivers_all].
    assert ((λ r, (Some r, MEMCACHED_SUCCESS)) <$> rs
      = omap (λ k, it ← t_items m !! (k, k);
          mret (Some (mkResult k (Bytes (it_value it)) (it_flags it) (it_cas it)), MEMCACHED_SUCCESS)) ks)
      as E by (unfold rs; clear; induction ks as [|k ks IH]; [done|]; cbn;
               destruct (t_items m !! (k, k)); cbn; by rewrite <- IH).
    unfold toy_results. cbn [default]. unfold rc. rewrite <- E. by destruct rs.
  - unfold rs. clear. induction ks as [|k ks IH]; [constructor|]. rewrite filter_cons.
    assert (toy_items m k = (λ it, (it_value it, it_flags it)) <$> t_items m !! (k, k)) as Ek by done.
    cbn [omap list_omap]. destruct (t_items m !! (k, k)) as [it|]; cbn in Ek |- *.
    + rewrite decide_True by (by rewrite Ek). constructor; [|exact IH]. by eexists _, _, _.
    + rewrite decide_False by (rewrite Ek; by intros []). exact IH.
  - unfold rc. by destruct rs; case_decide.
Qed.

#[export] Instance ToyCacheServer : CacheServer toy.
Proof.
  refine {| healthy m := t_script m = [] ∧ t_pending m = []; items := toy_items |}.
  - intros m k p f [Hs Hp]. cbn. unfold toy_store, toy_cmd. cbn. rewrite Hs.
    eexists. split; [reflexivity|]. apply toy_becomes; try done; cbn.
    + unfold toy_items. cbn. by rewrite lookup_insert_eq.
    + intros j Hne. rewrite lookup_insert_ne; [done|congruence].
  - intros m k p f [Hs Hp]. cbn. unfold toy_store, toy_cmd, toy_items. cbn. rewrite Hs.
    destruct (t_items m !! (k, k)) as [it|] eqn:E; cbn;
      (eexists; split; [reflexivity|]; apply toy_becomes; try done; cbn).
    + unfold toy_items. cbn. by rewrite E.
    + unfold toy_items. cbn. by rewrite lookup_insert_eq.
    + intros j Hne. rewrite lookup_insert_ne; [done|congruence].
  - intros m k p f [Hs Hp]. cbn. unfold toy_store, toy_cmd, toy_items. cbn. rewrite Hs.
    destruct (t_items m !! (k, k)) as [it|] eqn:E; cbn;
      (eexists; split; [reflexivity|]; apply toy_becomes; try done; cbn).
    + unfold toy_items. cbn. by rewrite lookup_insert_eq.
    + intros j Hne. rewrite lookup_insert_ne; [done|congruence].
    + unfold toy_items. cbn. by rewrite E.
  - intros own m k [Hs Hp].
    assert ((if own then memcached_delete_by_key m k k 0 else memcached_delete m k 0)
      = toy_delete (if own then Some k else None) k 0 m) as -> by (by destruct own).
    unfold toy_delete, toy_cmd, toy_items.
    replace (default k (if own then Some k else None)) with k by (by destruct own).
    cbn. rewrite Hs.
    destruct (t_items m !! (k, k)) as [it|] eqn:E; cbn;
      (eexists; split; [reflexivity|]; apply toy_becomes; try done; cbn).
    + unfold toy_items. cbn. by rewrite lookup_delete_eq.
    + intros j Hne. rewrite lookup_delete_ne; [done|congruence].
    + unfold toy_items. cbn. by rewrite E.
  - intros m ks [Hs Hp] _. cbn. unfold toy_mget, toy_cmd. cbn. rewrite Hs.
    set (m1 := t_add_log _ m).
    destruct (toy_delivers ks m1) as (rs & rc & Hd & Hrs & Hrc).
    eexists _, rs, rc, _. split; [reflexivity|]. split; [exact Hd|]. split; [exact Hrs|]. split; [|exact Hrc].
    intros k. by apply toy_becomes.
  - intros m k [Hs Hp]. cbn. unfold toy_touch, toy_cmd, toy_items. cbn. rewrite Hs.
    destruct (t_items m !! (k, k)) as [it|] eqn:E; cbn;
      (eexists; split; [reflexivity|]; apply toy_becomes; try done; cbn).
    + unfold toy_items. cbn. by rewrite lookup_insert_eq.
    + intros j Hne. rewrite lookup_insert_ne; [done|congruence].
    + unfold toy_items. cbn. by rewrite E.
  - intros incr m k offset [Hs Hp] Hoff.
    assert (count incr m k offset
      = toy_count (if incr then "incr" else "decr") (Some k) k offset (if incr then 1 else -1) None m) as ->
      by (by destruct incr).
    unfold toy_count. cbn. rewrite Hs. unfold toy_items.
    destruct (t_items m !! (k, k)) as [it|] eqn:E; cbn.
    + intros n Hn Htext. rewrite (strtol_counter n) by done.
      set (n' := if incr then u64 (n + offset) else Z.max 0 (n - offset)).
      assert (u64 (Z.max 0 (n + (if incr then 1 else -1) * offset)) = n') as ->.
      { unfold n', LONG_MAX in *. destruct incr.
        - f_equal. lia.
        - unfold u64. rewrite Z.mod_small; lia. }
      eexists _, _. split; [reflexivity|]. split; [apply counter_text_udec|].
      apply toy_becomes; try done; cbn.
      * unfold toy_items. cbn. by rewrite lookup_insert_eq.
      * intros j Hne. rewrite lookup_insert_ne; [done|congruence].
    + eexists. split; [reflexivity|]. apply toy_becomes; try done. unfold toy_items. cbn. by rewrite E.
Defined.
