(* ===== verification/CacheMap.v ===== *)
(** * The client as a map

    On a server that keeps what it is given, the methods that store, read, delete,
    touch and count are the operations of a map from keys to values (CacheServer): a
    forward simulation between the objects of the model and finite maps. *)

From S2P Require Import Prelude CLib Flags Zend LibMemcached World Toy Keys CasToken Payload PayloadProofs.
From S2P Require Import CounterText Store StoreProofs Fetch FetchProofs FetchResults.
From S2P Require Import Options Servers ServersProofs Results ArgInfo Methods MethodTypes CacheServer.
#[local] Open Scope Z_scope.

Section Simulation.
Context {MC : Type} `{ZendLaws} `{!CompressionLaws} `{BuildConfig} `{CNumbers}
  `{MemcachedNumbersLaws} `{MemcachedControl MC} `{MemcachedStorage MC} `{MemcachedCounters MC}
  `{MemcachedBuckets MC} `{!MemcachedServers MC} `{MemcachedErrors MC} `{MemcachedRetrieval MC}
  `{MemcachedAuth MC} `{!FetchLaws MC} `{!CacheServer MC}.
Context (valid : string → bool) (readback : zval → zval) (ud : php_memc_user_data_t).
Implicit Types (w : world MC) (σ : gmap string zval).

(** A value that the settings can store and read back; only an integer is read back
    as one. *)
Definition storable (v : zval) : Prop :=
  (∃ type s comp, spells (serializer ud) v type s comp (readback v) ∧ zstr_len s < 2 ^ 30)
  ∧ ∀ n, readback v = ZLong n → v = ZLong n.

Definition key_op_storable (op : key_op) : Prop :=
  match op with
  | CSet _ v | CAdd _ v | CReplace _ v => storable v
  | CCount _ _ offset => is_long offset
  | _ => True
  end.

Definition op_storable (op : cache_op) : Prop :=
  match op with
  | COne op => key_op_storable op
  | CSetMulti entries => Forall storable (arr_vals entries)
  | _ => True
  end.

(** The item of a natural number is one that can count. *)
Definition countable (v : zval) (p : string) (f : Z) : Prop :=
  match v with
  | ZLong n => 0 <= n → counter_text n p ∧ f = stored_flags MEMC_VAL_IS_LONG 0 ud
  | _ => True
  end.

(** The item of a key is that of its value. *)
Definition holds (x : option (string * Z)) (o : option zval) : Prop :=
  match o, x with
  | None, None => True
  | Some v, Some (p, f) =>
      (∀ key cas, decodes (MC := MC) ud (mkResult key (Bytes p) f cas) v) ∧ countable v p f
  | _, _ => False
  end.

(** The simulation relation. *)
Definition sim σ w : Prop :=
  healthy (w_memc w) ∧ w_exception w = false ∧ w_ud w = ud
  ∧ (∀ k, memc_key_ok (w_memc w) k = valid k) ∧ ∀ k, holds (items (w_memc w) k) (σ !! k).

Lemma sim_obj σ o w : sim σ w → sim σ (with_obj o w).
Proof. exact id. Qed.

(** The relation after a command on one key. *)
Lemma sim_becomes σ w m' k x o oo :
  sim σ w → becomes healthy items (w_memc w) m' k x → holds x oo →
  sim (partial_alter (λ _, oo) k σ) (with_obj o (with_memc m' w)).
Proof.
  intros (Hh & Hx & Hu & Hv & Hi) (Hh' & Ek & Hj & Hv') Ho. split_and!; [done..| |].
  - intros j. cbn. by rewrite Hv'.
  - intros j. cbn. destruct (decide (j = k)) as [-> | Hne].
    + by rewrite lookup_partial_alter_eq, Ek.
    + rewrite lookup_partial_alter_ne by done. by rewrite Hj.
Qed.

Lemma sim_unchanged σ w m' k o :
  sim σ w → becomes healthy items (w_memc w) m' k (items (w_memc w) k) →
  sim σ (with_obj o (with_memc m' w)).
Proof.
  intros Hs Hb. rewrite <- (partial_alter_self σ k). eapply sim_becomes; [done|exact Hb|].
  by destruct Hs as (_ & _ & _ & _ & Hi).
Qed.

(** *** Writes *)
Lemma long_payload n w :
  s_zval_to_payload (ZLong n) 0 w
  = Ret (Some (ldec n, stored_flags MEMC_VAL_IS_LONG 0 (w_ud w))) w.
Proof.
  unfold s_zval_to_payload. rewrite !gets_bind. cbn [zval_bytes]. rewrite ret_bind, andb_false_r.
  unfold stored_flags, MEMC_VAL_SET_FLAG. by rewrite Z.lor_0_r.
Qed.

(** The text of a counter, with the flags of an integer, is read as its number. *)
Lemma counter_decodes n p key cas :
  0 <= n <= LONG_MAX → counter_text n p →
  decodes (MC := MC) ud (mkResult key (Bytes p) (stored_flags MEMC_VAL_IS_LONG 0 ud) cas) (ZLong n).
Proof.
  intros Hn Hp w Hw.
  destruct (stored_flags_fields MEMC_VAL_IS_LONG 0 ud ltac:(by vm_compute) eq_refl) as (_ & Ht & Hf & _).
  unfold s_memcached_result_to_zval. cbn [result_value result_flags].
  rewrite (has_flag_of _ _ MEMC_VAL_COMPRESSED Hf). cbn [Z.land Z.eqb].
  unfold payload_to_zval. rewrite Ht. cbn. by rewrite (strtol_counter n).
Qed.

Lemma storable_payload v w :
  storable v → w_ud w = ud → w_exception w = false →
  ∃ p f, s_zval_to_payload v 0 w = Ret (Some (p, f)) w ∧ holds (Some (p, f)) (Some (readback v)).
Proof.
  intros [(type & s & comp & Hs & Hlen) Hread] Hu Hx. rewrite <- Hu in Hs.
  destruct (zval_to_payload_spells v type s comp (readback v) w Hs Hlen Hx) as (p & fl & E & Hfl & Hp).
  exists p, (stored_flags type fl (w_ud w)). split; [done|]. split.
  - intros key cas w' Hw'.
    eapply (result_to_zval_spells v type s comp (readback v)); [exact Hs| |done|done].
    by rewrite Hw', Hu.
  - unfold countable. destruct (readback v) as [| | |n| | | |] eqn:En; try done. intros Hn.
    rewrite (Hread n eq_refl), long_payload in E. injection E as <- <-. rewrite Hu.
    split; [|done]. unfold ldec. replace (n <? 0) with false by lia. apply counter_text_udec.
Qed.

(** A write whose first answer is no error is not sent again. *)
Lemma write_accepted op key v p f w m rc :
  op ≠ MEMC_OP_TOUCH → item_size_limit (w_ud w) = 0 →
  s_zval_to_payload v 0 w = Ret (Some (p, f)) w →
  write_command op key p 0 f (w_memc w) = (rc, m) → s_memcached_return_is_error rc true = false →
  s_memc_write_zval op None key (Some v) 0 w = Ret true (with_obj (result_obj rc m (w_obj w)) (with_memc m w)).
Proof.
  intros Hop Hlim Hpay Hc Hrc.
  destruct (write_zval_attempts op key v 0 p f w w Hop Hpay (or_introl Hlim))
    as (n & rc' & m' & Ha & _ & Hlt & _ & R).
  destruct n as [|n].
  - cbn [nth_answer] in Ha. rewrite Hc in Ha. injection Ha as <- <-. by rewrite R, Hrc.
  - destruct (Hlt O ltac:(lia)) as [He _]. cbn [nth_answer] in He. rewrite Hc in He.
    cbn [fst] in He. congruence.
Qed.

(** One that is refused however often it is sent is refused in the end. *)
Lemma write_refused (P : MC → Prop) op key v p f w rc :
  op ≠ MEMC_OP_TOUCH → item_size_limit (w_ud w) = 0 →
  s_zval_to_payload v 0 w = Ret (Some (p, f)) w →
  (∀ m, P m → ∃ m', write_command op key p 0 f m = (rc, m') ∧ P m') → P (w_memc w) →
  s_memcached_return_is_error rc true = true →
  ∃ m, P m ∧ s_memc_write_zval op None key (Some v) 0 w
              = Ret false (with_obj (result_obj rc m (w_obj w)) (with_memc m w)).
Proof.
  intros Hop Hlim Hpay Hc HP Hrc.
  destruct (write_zval_attempts op key v 0 p f w w Hop Hpay (or_introl Hlim))
    as (n & rc' & m' & Ha & _ & _ & _ & R).
  assert (∀ n m, P m → ∃ m', nth_answer (write_command op key p 0 f) n m = (rc, m') ∧ P m') as Hn.
  { intros k. induction k as [|k IH]; intros m Hm; destruct (Hc m Hm) as (m1 & E & Hm1);
      cbn [nth_answer]; [eauto|]. rewrite E. by apply IH. }
  destruct (Hn n _ HP) as (m1 & E & HP1). rewrite E in Ha. injection Ha as <- <-.
  exists m1. split; [done|]. by rewrite R, Hrc.
Qed.

(** The methods before and after the write. *)
Lemma store_run op key v w (b : bool) w' :
  valid key = true → op = MEMC_OP_SET ∨ op = MEMC_OP_ADD ∨ op = MEMC_OP_REPLACE →
  (∀ k, memc_key_ok (w_memc w) k = valid k) →
  s_memc_write_zval op None key (Some v) 0
    (with_obj (mkObject MEMCACHED_SUCCESS 0 (is_pristine (w_obj w))) w) = Ret b w' →
  php_memc_store_impl op None key (Some v) 0 w = Ret (ZBool b) w'.
Proof.
  intros Hk Hop Hv R. unfold php_memc_store_impl.
  rewrite (bind_Ret _ _ _ _ _ (set_status_run MEMCACHED_SUCCESS 0 w)). set (w0 := with_obj _ w) in *.
  rewrite (bind_Ret _ _ w0 true w0)
    by (rewrite check_key_run; change (w_memc w0) with (w_memc w); by rewrite Hv, Hk).
  cbn [negb]. rewrite gets_bind, bool_decide_false by (destruct Hop as [-> | [-> | ->]]; by intros [?|?]).
  rewrite andb_false_r, (bind_Ret _ _ _ _ _ R). by destruct b.
Qed.

Lemma becomes_refl (m : MC) k : healthy m → becomes healthy items m m k (items m k).
Proof. by repeat split. Qed.

Lemma becomes_again (m m1 m2 : MC) k x y :
  becomes healthy items m m1 k x → becomes healthy items m1 m2 k y → becomes healthy items m m2 k y.
Proof.
  intros (_ & _ & Hj & Hv) (Hh & Hk & Hj' & Hv'). split_and!; [done|done| |].
  - intros j Hne. by rewrite Hj', Hj.
  - intros j. by rewrite Hv', Hv.
Qed.

(** A set, or an add or replace that can be. *)
Definition accepted (σ : gmap string zval) (op : php_memc_write_op) (key : string) : Prop :=
  op = MEMC_OP_SET ∨ op = MEMC_OP_ADD ∧ σ !! key = None ∨ op = MEMC_OP_REPLACE ∧ is_Some (σ !! key).

Lemma write_fresh σ op key v w :
  sim σ w → item_size_limit ud = 0 → storable v → accepted σ op key →
  ∃ w', s_memc_write_zval op None key (Some v) 0 w = Ret true w'
        ∧ rescode (w_obj w') = MEMCACHED_SUCCESS ∧ sim (<[key := readback v]> σ) w'.
Proof.
  intros Hs Hlim Hst Hop. pose proof Hs as (Hh & Hx & Hu & Hv & Hi).
  destruct (storable_payload v w Hst Hu Hx) as (p & f & Hpay & Hholds).
  assert (∃ m', write_command op key p 0 f (w_memc w) = (MEMCACHED_SUCCESS, m')
                ∧ becomes healthy items (w_memc w) m' key (Some (p, f))) as (m' & Hc & Hb).
  { specialize (Hi key). unfold write_command.
    destruct Hop as [-> | [[-> Hn] | [-> [x Hn]]]].
    - destruct (cache_set (w_memc w) key p f Hh) as (m' & -> & Hb). by exists m'.
    - destruct (cache_add (w_memc w) key p f Hh) as (m' & -> & Hb). rewrite Hn in Hi.
      destruct (items (w_memc w) key); [done|]. by exists m'.
    - destruct (cache_replace (w_memc w) key p f Hh) as (m' & -> & Hb). rewrite Hn in Hi.
      destruct (items (w_memc w) key); [|done]. by exists m'. }
  eexists. split; [|split; [|eapply sim_becomes; [exact Hs|exact Hb|exact Hholds]]].
  - apply (write_accepted op key v p f w m' MEMCACHED_SUCCESS); [by destruct Hop as [-> | [[-> _] | [-> _]]]
      |by rewrite Hu|exact Hpay|exact Hc|done].
  - done.
Qed.

Lemma store_fresh σ op key v w :
  sim σ w → item_size_limit ud = 0 → valid key = true → storable v → accepted σ op key →
  ∃ w', php_memc_store_impl op None key (Some v) 0 w = Ret ZTrue w'
        ∧ rescode (w_obj w') = MEMCACHED_SUCCESS ∧ sim (<[key := readback v]> σ) w'.
Proof.
  intros Hs Hlim Hk Hst Hop. pose proof Hs as (_ & _ & _ & Hv & _).
  set (w0 := with_obj (mkObject MEMCACHED_SUCCESS 0 (is_pristine (w_obj w))) w).
  destruct (write_fresh σ op key v w0 Hs Hlim Hst Hop) as (w' & R & Hc & Hs').
  exists w'. split; [|done]. apply (store_run op key v w true); [done| |done|exact R].
  unfold accepted in Hop. tauto.
Qed.

Lemma store_taken σ op key v w :
  sim σ w → item_size_limit ud = 0 → valid key = true → storable v →
  op = MEMC_OP_ADD ∧ is_Some (σ !! key) ∨ op = MEMC_OP_REPLACE ∧ σ !! key = None →
  ∃ w', php_memc_store_impl op None key (Some v) 0 w = Ret ZFalse w'
        ∧ rescode (w_obj w') = MEMCACHED_NOTSTORED ∧ sim σ w'.
Proof.
  intros Hs Hlim Hk Hst Hop. pose proof Hs as (Hh & Hx & Hu & Hv & Hi).
  set (w0 := with_obj (mkObject MEMCACHED_SUCCESS 0 (is_pristine (w_obj w))) w).
  destruct (storable_payload v w0 Hst Hu Hx) as (p & f & Hpay & _).
  destruct (write_refused (λ m, becomes healthy items (w_memc w) m key (items (w_memc w) key))
    op key v p f w0 MEMCACHED_NOTSTORED) as (m & Hb & R).
  - by destruct Hop as [[-> _] | [-> _]].
  - change (w_ud w0) with (w_ud w). by rewrite Hu.
  - exact Hpay.
  - intros m Hm. pose proof Hm as (Hhm & Hkm & _). specialize (Hi key). unfold write_command.
    destruct Hop as [[-> [x Hn]] | [-> Hn]]; rewrite Hn in Hi;
      destruct (items (w_memc w) key) eqn:E; try done.
    + destruct (cache_add m key p f Hhm) as (m' & -> & Hb). rewrite Hkm in *.
      exists m'. split; [done|]. by eapply becomes_again.
    + destruct (cache_replace m key p f Hhm) as (m' & -> & Hb). rewrite Hkm in *.
      exists m'. split; [done|]. by eapply becomes_again.
  - by apply becomes_refl.
  - done.
  - eexists. split; [apply (store_run op key v w false); [done|tauto|done|exact R]|].
    split; [done|]. by eapply sim_unchanged.
Qed.

(** *** Deletes and reads *)
Lemma delete_run σ key w :
  sim σ w → valid key = true →
  ∃ w', php_memc_delete_impl None key 0 w
        = Ret (match σ !! key with Some _ => ZTrue | None => ZFalse end) w'
    ∧ rescode (w_obj w') = match σ !! key with Some _ => MEMCACHED_SUCCESS | None => MEMCACHED_NOTFOUND end
    ∧ sim (delete key σ) w'.
Proof.
  intros Hs Hk. pose proof Hs as (Hh & Hx & Hu & Hv & Hi). unfold php_memc_delete_impl.
  rewrite (bind_Ret _ _ _ _ _ (set_status_run MEMCACHED_SUCCESS 0 w)). set (w0 := with_obj _ w) in *.
  rewrite (bind_Ret _ _ w0 true w0)
    by (rewrite check_key_run; change (w_memc w0) with (w_memc w); by rewrite Hv, Hk).
  cbn [negb]. destruct (cache_delete false (w_memc w) key Hh) as (m' & E & Hb).
  unfold memc_call. unfold mbind at 1, M_bind at 1. change (w_memc w0) with (w_memc w). rewrite E.
  rewrite (bind_Ret _ _ _ _ _ (handle_result_code_run _ _)).
  assert (∀ o, sim (delete key σ) (with_obj o (with_memc m' w0))) as Hsim
    by (intros o; eapply (sim_becomes σ w0); [exact Hs|exact Hb|exact I]).
  specialize (Hi key). clear E Hb.
  destruct (items _ key), (σ !! key); try done; try (by destruct Hi);
    (eexists; split; [reflexivity|]; split; [reflexivity|apply Hsim]).
Qed.

(** Draining a handle that has nothing more. *)
Lemma drain_done n w rc m :
  memcached_fetch_result (w_memc w) = (None, rc, m) → drain (S n) w = Ret tt (with_memc m w).
Proof. intros E. cbn [drain]. unfold fetch_result, memc_call, mbind, M_bind. by rewrite E. Qed.

(** The results of a request for one key. *)
Lemma one_result w m1 k p f cas rc rc' m' m2 v :
  memcached_fetch_result m1 = (Some (mkResult k (Bytes p) f cas), rc, m') →
  s_memcached_return_is_error rc false = false → memcached_fetch_result m' = (None, rc', m2) →
  decodes (MC := MC) (w_ud w) (mkResult k (Bytes p) f cas) v →
  php_memc_result_apply (s_get_apply_fn false) false ZNull (with_memc m1 w)
  = Ret (MEMCACHED_SUCCESS, v) (with_memc m2 w).
Proof.
  intros E Hrc E' Hv. unfold php_memc_result_apply. rewrite gets_bind. unfold fetch_fuel.
  cbn [result_loop]. unfold fetch_result, memc_call. unfold mbind at 1, M_bind at 1.
  cbn [w_memc with_memc]. rewrite E, Hrc.
  change (with_memc m' (with_memc m1 w)) with (with_memc m' w).
  rewrite (bind_Ret _ _ _ _ _ (Hv (with_memc m' w) eq_refl)). unfold s_get_apply_fn.
  rewrite ret_bind. cbn [negb when]. rewrite bind_assoc, gets_bind. unfold fetch_fuel.
  by rewrite (bind_Ret _ _ _ _ _ (drain_done _ (with_memc m' w) _ _ E')).
Qed.

Lemma no_result w m1 m2 :
  memcached_fetch_result m1 = (None, MEMCACHED_NOTFOUND, m2) →
  php_memc_result_apply (s_get_apply_fn false) false ZNull (with_memc m1 w)
  = Ret (MEMCACHED_NOTFOUND, ZNull) (with_memc m2 w).
Proof.
  intros E. unfold php_memc_result_apply. rewrite gets_bind. unfold fetch_fuel. cbn [result_loop].
  unfold fetch_result, memc_call. unfold mbind at 1, M_bind at 1. cbn [w_memc with_memc]. by rewrite E.
Qed.

Lemma delivers_nil_inv (m : MC) rc m' : delivers m [] rc m' → memcached_fetch_result m = (None, rc, m').
Proof. by inversion 1. Qed.

Lemma delivers_cons_inv (m : MC) r rs rc m' :
  delivers m (r :: rs) rc m' →
  ∃ rc0 m1, memcached_fetch_result m = (Some r, rc0, m1)
    ∧ s_memcached_return_is_error rc0 false = false ∧ delivers m1 rs rc m'.
Proof. inversion 1; subst. eauto. Qed.

(** A request for one key, from that for many. *)
Lemma get_one m k :
  healthy m → ∃ m1 m2, memcached_mget m [k] = (MEMCACHED_SUCCESS, m1)
    ∧ becomes healthy items m m2 k (items m k)
    ∧ match items m k with
      | None => memcached_fetch_result m1 = (None, MEMCACHED_NOTFOUND, m2)
      | Some (p, f) => ∃ cas rc rc' m',
          memcached_fetch_result m1 = (Some (mkResult k (Bytes p) f cas), rc, m')
          ∧ s_memcached_return_is_error rc false = false
          ∧ memcached_fetch_result m' = (None, rc', m2)
      end.
Proof.
  intros Hh. destruct (cache_mget m [k] Hh) as (m1 & rs & rc & m2 & E & Hd & Hrs & Hb & Hrc); [done|].
  exists m1, m2. split; [done|]. split; [done|].
  rewrite filter_cons, filter_nil in Hrs. destruct (items m k) as [[p f]|] eqn:Ei.
  - rewrite decide_True in Hrs by done. apply Forall2_cons_inv_l in Hrs as (r & rs' & Hr & Hrs & ->).
    apply Forall2_nil_inv_l in Hrs as ->. destruct Hr as (p' & f' & cas & E' & ->).
    rewrite Ei in E'. injection E' as <- <-.
    apply delivers_cons_inv in Hd as (rc0 & m' & E1 & Hrc0 & Hd%delivers_nil_inv).
    by eexists _, _, _, _.
  - rewrite decide_False in Hrs by (by intros []). apply Forall2_nil_inv_l in Hrs as ->.
    rewrite decide_True in Hrc by done. subst rc. by apply delivers_nil_inv.
Qed.

Lemma get_run σ key w :
  sim σ w → valid key = true → 1 <= zstr_len key <= 250 →
  ∃ w', php_memc_get_impl None key None 0 w = Ret (default ZFalse (σ !! key)) w'
    ∧ rescode (w_obj w') = match σ !! key with Some _ => MEMCACHED_SUCCESS | None => MEMCACHED_NOTFOUND end
    ∧ sim σ w'.
Proof.
  intros Hs Hk Hlen. pose proof Hs as (Hh & Hx & Hu & Hv & Hi). unfold php_memc_get_impl.
  rewrite (bind_Ret _ _ _ _ _ (set_status_run MEMCACHED_SUCCESS 0 w)). set (w0 := with_obj _ w) in *.
  rewrite (bind_Ret _ _ w0 true w0)
    by (rewrite check_key_run; change (w_memc w0) with (w_memc w); by rewrite Hv, Hk).
  cbn [negb]. rewrite key_to_keys_one by done. change (has_bit 0 MEMC_GET_EXTENDED) with false.
  destruct (get_one (w_memc w) key Hh) as (m1 & m2 & Em & Hb & Hf). specialize (Hi key).
  pose proof (sim_unchanged σ w0 m2 key) as Hs2. change (w_memc w0) with (w_memc w) in Hs2.
  set (w1 := after_request MEMCACHED_SUCCESS m1 w0).
  destruct (items (w_memc w) key) as [[p f]|], (σ !! key) as [v|]; try done; try (by destruct Hi).
  - destruct Hf as (cas & rc & rc' & m' & E & Hrc & E').
    assert (decodes (MC := MC) (w_ud w1) (mkResult key (Bytes p) f cas) v) as Hdec
      by (change (w_ud w1) with (w_ud w); rewrite Hu; apply (proj1 Hi)).
    pose proof (one_result w1 m1 key p f cas rc rc' m' m2 v E Hrc E' Hdec) as R.
    rewrite (bind_Ret _ _ _ _ _ (mget_apply_run [key] _ _ w0 _ _ _ _ _ ltac:(done) Em eq_refl R)).
    eexists. split; [reflexivity|]. split; [done|]. apply Hs2; done.
  - pose proof (no_result w1 m1 m2 Hf) as R.
    rewrite (bind_Ret _ _ _ _ _ (mget_apply_run [key] _ _ w0 _ _ _ _ _ ltac:(done) Em eq_refl R)).
    eexists. split; [reflexivity|]. split; [done|]. apply Hs2; done.
Qed.

(** *** Touches and counts *)

(** A write that is answered the same however often it is sent. *)
Lemma retry_same (P : world MC → Prop) (again : M (world MC) memcached_return) rc :
  (∀ w, P w → ∃ w', again w = Ret rc w' ∧ P w') →
  ∀ n w, P w → ∃ w', retry_write n again rc w = Ret rc w' ∧ P w'.
Proof.
  intros Hagain n. induction n as [|n IH]; intros w HP; cbn [retry_write];
    rewrite (bind_Ret _ _ _ _ _ (should_retry_run rc w)); [by exists w|].
  destruct (negb _ && _); [|by exists w]. destruct (Hagain w HP) as (w' & R & HP').
  rewrite (bind_Ret _ _ _ _ _ R). by apply IH.
Qed.

Lemma touch_command_run σ key w :
  sim σ w →
  ∃ w', write_plain MEMC_OP_TOUCH key None 0 0 w
        = Ret (match σ !! key with Some _ => MEMCACHED_SUCCESS | None => MEMCACHED_NOTFOUND end) w'
        ∧ sim σ w'.
Proof.
  intros Hs. unfold write_plain, php_memcached_touch. rewrite !bind_assoc.
  assert (∃ w1, touch_warning w = Ret tt w1 ∧ sim σ w1 ∧ w_memc w1 = w_memc w) as (w1 & R1 & Hs1 & Hm1).
  { unfold touch_warning. rewrite gets_bind. destruct (_ && _); cbn [when]; by eexists. }
  rewrite (bind_Ret _ _ _ _ _ R1). pose proof Hs1 as (Hh & _ & _ & _ & Hi). specialize (Hi key).
  destruct (cache_touch (w_memc w1) key Hh) as (m' & E & Hb).
  assert (memc_call (λ m, memcached_touch m key 0) w1 = Ret _ _) as R
    by (unfold memc_call; rewrite E; reflexivity).
  rewrite (bind_Ret _ _ _ _ _ R). exists (with_memc m' w1).
  split; [|by apply (sim_unchanged σ w1 m' key (w_obj w1))].
  destruct (items (w_memc w1) key), (σ !! key); try done; by destruct Hi.
Qed.

Lemma touch_run σ key w :
  sim σ w → valid key = true →
  ∃ w', php_memc_store_impl MEMC_OP_TOUCH None key None 0 w
        = Ret (match σ !! key with Some _ => ZTrue | None => ZFalse end) w'
    ∧ rescode (w_obj w') = match σ !! key with Some _ => MEMCACHED_SUCCESS | None => MEMCACHED_NOTFOUND end
    ∧ sim σ w'.
Proof.
  intros Hs Hk. pose proof Hs as (Hh & Hx & Hu & Hv & Hi). unfold php_memc_store_impl.
  rewrite (bind_Ret _ _ _ _ _ (set_status_run MEMCACHED_SUCCESS 0 w)). set (w0 := with_obj _ w) in *.
  assert (sim σ w0) as Hs0 by exact Hs.
  rewrite (bind_Ret _ _ w0 true w0)
    by (rewrite check_key_run; change (w_memc w0) with (w_memc w); by rewrite Hv, Hk).
  cbn [negb]. rewrite gets_bind, bool_decide_false by (intros [?|?]; done). rewrite andb_false_r.
  cbn [s_memc_write_zval]. unfold write_payload. rewrite !bind_assoc, gets_bind, !bind_assoc.
  destruct (touch_command_run σ key w0 Hs0) as (w1 & R1 & Hs1). rewrite (bind_Ret _ _ _ _ _ R1), bind_assoc.
  destruct (retry_same (sim σ) _ _ (touch_command_run σ key) (Z.to_nat (store_retry_count (w_ud w0))) w1 Hs1)
    as (w2 & R2 & Hs2).
  rewrite (bind_Ret _ _ _ _ _ R2), (bind_Ret _ _ _ _ _ (handle_result_code_run _ _)).
  destruct (σ !! key); (eexists; split; [reflexivity|]; split; [done|exact Hs2]).
Qed.

Lemma count_run incr σ key offset w a σ' :
  sim σ w → valid key = true → is_long offset → spec_count incr key offset σ = Some (a, σ') →
  ∃ w', php_memc_incdec_impl None incr key offset 0 0 false w = Ret a.1 w'
        ∧ rescode (w_obj w') = a.2 ∧ sim σ' w'.
Proof.
  intros Hs Hk Hoff Hspec. pose proof Hs as (Hh & Hx & Hu & Hv & Hi). unfold php_memc_incdec_impl.
  rewrite (bind_Ret _ _ _ _ _ (set_status_run MEMCACHED_SUCCESS 0 w)). set (w0 := with_obj _ w) in *.
  assert (sim σ w0) as Hs0 by exact Hs.
  rewrite (bind_Ret _ _ w0 true w0)
    by (rewrite check_key_run; change (w_memc w0) with (w_memc w); by rewrite Hv, Hk).
  cbn [negb]. unfold spec_count in Hspec.
  destruct (Z.ltb_spec offset 0) as [Hneg|Hpos].
  { injection Hspec as <- <-. eexists. split; [reflexivity|]. split; [done|exact Hs]. }
  assert (u64 offset = offset) as Hu64
    by (unfold u64; apply Z.mod_small; unfold is_long, LONG_MAX in Hoff; lia).
  rewrite gets_bind. unfold incdec_simple. rewrite !bind_assoc, Hu64. cbn [default].
  pose proof (cache_count incr (w_memc w0) key offset Hh ltac:(unfold is_long in Hoff; lia)) as Hc.
  assert (∀ rc v m' (k : memcached_return * option Z → M (world MC) zval),
    count incr (w_memc w0) key offset = (rc, v, m') →
    (memc_call (λ m, let '(rc, v, m) := if incr then memcached_increment_by_key m key key offset
                                        else memcached_decrement_by_key m key key offset in ((rc, v), m))
     ≫= k) w0 = k (rc, v) (with_memc m' w0)) as Hcall.
  { intros rc v m' k E. unfold mbind, M_bind, memc_call. unfold count in E.
    destruct incr; rewrite E; reflexivity. }
  specialize (Hi key). change (w_memc w) with (w_memc w0) in Hi.
  destruct (items (w_memc w0) key) as [[p f]|] eqn:Ei, (σ !! key) as [v|];
    try done; try (by destruct Hi).
  - destruct v as [| | |n| | | |]; try done. destruct (Z.leb_spec 0 n) as [Hn|]; [|done].
    destruct (Z.leb_spec n LONG_MAX) as [Hn'|]; [|done].
    destruct (Z.leb_spec (counted incr n offset) LONG_MAX) as [Hmax|]; [|done].
    injection Hspec as <- <-. destruct Hi as [_ Hcnt]. destruct (Hcnt Hn) as [Htext ->].
    destruct (Hc n ltac:(lia) Htext) as (p' & m' & E & Htext' & Hb).
    assert ((if incr then u64 (n + offset) else Z.max 0 (n - offset)) = counted incr n offset
            ∧ 0 <= counted incr n offset) as [En Hge].
    { unfold counted in *. destruct incr; [|lia]. split; [|lia].
      unfold u64. apply Z.mod_small. unfold LONG_MAX in *. lia. }
    rewrite En in E, Htext'. rewrite (Hcall _ _ _ _ E), !ret_bind.
    rewrite (bind_Ret _ _ _ _ _ (handle_result_code_run _ _)).
    change (default UINT64_MAX (Some (counted incr n offset))) with (counted incr n offset).
    replace (counted incr n offset =? UINT64_MAX) with false
      by (unfold LONG_MAX, UINT64_MAX in *; lia).
    assert (is_long (counted incr n offset)) as Hlong by (split; [|done]; unfold LONG_MIN; lia).
    rewrite (s64_id _ Hlong).
    eexists. split; [reflexivity|]. split; [done|].
    eapply (sim_becomes σ w0); [exact Hs0|exact Hb|]. split; [|by intros _].
    intros key' cas. by apply counter_decodes; [lia|].
  - destruct Hc as (m' & E & Hb). injection Hspec as <- <-. rewrite (Hcall _ _ _ _ E).
    rewrite !ret_bind, (bind_Ret _ _ _ _ _ (handle_result_code_run _ _)).
    eexists. split; [reflexivity|]. split; [done|].
    eapply (sim_unchanged σ w0); [exact Hs0|]. by rewrite Ei.
Qed.

(** *** Commands on many keys *)
Lemma set_entries_sim σ entries w :
  sim σ w → item_size_limit ud = 0 → Forall storable (arr_vals entries) →
  rescode (w_obj w) = MEMCACHED_SUCCESS →
  ∃ w', set_entries None entries 0 w = Ret tt w'
        ∧ rescode (w_obj w') = MEMCACHED_SUCCESS ∧ sim (put_all readback entries σ) w'.
Proof.
  intros Hs Hlim. revert σ w Hs. induction entries as [|[k v] entries IH]; intros σ w Hs Hst Hrc;
    cbn [set_entries]; [by exists w|].
  apply Forall_cons in Hst as [Hv Hst].
  destruct (write_fresh σ MEMC_OP_SET (entry_key k) v w Hs Hlim Hv) as (w1 & R & Hc & Hs1); [by left|].
  rewrite (bind_Ret _ _ _ _ _ R). by apply (IH _ w1).
Qed.

Lemma set_multi_run σ entries w :
  sim σ w → item_size_limit ud = 0 → Forall storable (arr_vals entries) →
  ∃ w', php_memc_setMulti_impl None entries 0 w = Ret ZTrue w'
        ∧ rescode (w_obj w') = MEMCACHED_SUCCESS ∧ sim (put_all readback entries σ) w'.
Proof.
  intros Hs Hlim Hst. unfold php_memc_setMulti_impl.
  rewrite (bind_Ret _ _ _ _ _ (set_status_run MEMCACHED_SUCCESS 0 w)). set (w0 := with_obj _ w).
  destruct (set_entries_sim σ entries w0 Hs Hlim Hst eq_refl) as (w1 & R & Hc & Hs1).
  rewrite (bind_Ret _ _ _ _ _ R). exists w1. unfold s_memc_status_has_error.
  by rewrite gets_bind, Hc.
Qed.

Lemma delete_entries_sim σ entries a w :
  sim σ w →
  let '(a', code, σ') := spec_deletes (filter (λ k, zstr_len k ≠ 0) (zval_get_string <$> entries))
                           a (rescode (w_obj w)) σ in
  ∃ w', delete_entries None entries 0 a w = Ret a' w' ∧ rescode (w_obj w') = code ∧ sim σ' w'.
Proof.
  revert σ a w. induction entries as [|zv entries IH]; intros σ a w Hs; [by exists w|].
  cbn [delete_entries]. rewrite fmap_cons, filter_cons. set (k := zval_get_string zv).
  destruct (Z.eqb_spec (zstr_len k) 0) as [E|E].
  { rewrite decide_False by (intros []; done). by apply IH. }
  rewrite decide_True by done. cbn [spec_deletes default]. pose proof Hs as (Hh & _ & _ & _ & Hi).
  destruct (cache_delete true (w_memc w) k Hh) as (m' & Ec & Hb). specialize (Hi k).
  assert (∀ rc (f : memcached_return → M (world MC) zarray),
    memcached_delete_by_key (w_memc w) k k 0 = (rc, m') →
    (memc_call (λ m, memcached_delete_by_key m k k 0) ≫= f) w = f rc (with_memc m' w)) as Hcall.
  { intros rc f E'. unfold mbind, M_bind, memc_call. by rewrite E'. }
  set (o := λ rc, result_obj rc m' (w_obj w)).
  destruct (σ !! k) eqn:Ek.
  - destruct (items (w_memc w) k) eqn:Ei; [|done]. rewrite (Hcall _ _ Ec).
    rewrite (bind_Ret _ _ _ _ _ (handle_result_code_run _ _)).
    refine (IH (delete k σ) _ (with_obj (o MEMCACHED_SUCCESS) (with_memc m' w)) _).
    by eapply sim_becomes.
  - destruct (items (w_memc w) k) eqn:Ei; [by destruct Hi|]. rewrite (Hcall _ _ Ec).
    rewrite (bind_Ret _ _ _ _ _ (handle_result_code_run _ _)).
    refine (IH σ _ (with_obj (o MEMCACHED_NOTFOUND) (with_memc m' w)) _).
    eapply sim_unchanged; [exact Hs|]. by rewrite Ei.
Qed.

Lemma delete_multi_run σ keys w a σ' :
  sim σ w → spec_delete_multi valid keys σ = Some (a, σ') →
  ∃ w', php_memc_deleteMulti_impl None keys 0 w = Ret a.1 w' ∧ rescode (w_obj w') = a.2 ∧ sim σ' w'.
Proof.
  intros Hs. unfold spec_delete_multi. destruct (all_valid _ _); [|done].
  unfold php_memc_deleteMulti_impl.
  rewrite (bind_Ret _ _ _ _ _ (set_status_run MEMCACHED_SUCCESS 0 w)). set (w0 := with_obj _ w).
  pose proof (delete_entries_sim σ (arr_vals keys) [] w0 Hs) as Hd. cbn [w_obj rescode with_obj w0] in Hd.
  destruct (spec_deletes _ _ _ _) as [[a' code] σ0]. intros [= <- <-].
  destruct Hd as (w' & R & Hc & Hs'). exists w'. by rewrite (bind_Ret _ _ _ _ _ R).
Qed.

(** What is delivered of the keys that are wanted is what the map has of them. *)
Lemma found_results σ w wanted rs :
  sim σ w → Forall2 (delivered items (w_memc w)) (filter (λ k, is_Some (items (w_memc w) k)) wanted) rs →
  let found := omap (λ k, (k,.) <$> σ !! k) wanted in
  Forall2 (decodes (MC := MC) ud) rs found.*2
  ∧ (∀ a, foldl put_value a (zip rs found.*2)
          = foldl (λ a kv, arr_update a (symtable_key kv.1) kv.2) a found)
  ∧ (rs = [] ↔ found = []).
Proof.
  intros (_ & _ & _ & _ & Hi). revert rs. induction wanted as [|k wanted IH]; intros rs.
  { rewrite filter_nil. intros ->%Forall2_nil_inv_l. cbn. by split; [constructor|]. }
  rewrite filter_cons. specialize (Hi k) as Hk. cbn [omap list_omap].
  destruct (items (w_memc w) k) as [[p f]|] eqn:Ei, (σ !! k) as [v|]; try done; try (by destruct Hk).
  - rewrite decide_True by done. intros (r & rs' & (p' & f' & cas & E & ->) & Hrs & ->)%Forall2_cons_inv_l.
    rewrite Ei in E. injection E as <- <-. destruct (IH rs' Hrs) as (Hdec & Hfold & _). cbn in *.
    split; [constructor; [apply (proj1 Hk)|done]|]. split; [|by split]. intros a. apply Hfold.
  - rewrite decide_False by (by intros []). apply IH.
Qed.

Lemma get_multi_run σ (ordered : bool) keys w a σ' :
  sim σ w → spec_get_multi valid ordered keys σ = Some (a, σ') →
  ∃ w', php_memc_getMulti_impl None keys (if ordered then MEMC_GET_PRESERVE_ORDER else 0) w = Ret a.1 w'
        ∧ rescode (w_obj w') = a.2 ∧ sim σ' w'.
Proof.
  intros Hs. unfold spec_get_multi. set (flags := if ordered then MEMC_GET_PRESERVE_ORDER else 0).
  assert (has_bit flags MEMC_GET_PRESERVE_ORDER = ordered) as Hord by (unfold flags; by destruct ordered).
  assert (has_bit flags MEMC_GET_EXTENDED = false) as Hext by (unfold flags; by destruct ordered).
  set (asked := zval_get_string <$> arr_vals keys).
  set (wanted := filter (λ k, key_length_ok k = true) asked).
  set (found := omap (λ k, (k,.) <$> σ !! k) wanted).
  set (start := if ordered then foldl (λ a k, arr_update a (symtable_key k) ZNull) [] asked else []).
  assert (s_hash_to_keys keys ordered (Some []) = (wanted, Some start)) as Ek.
  { destruct (s_hash_to_keys_array keys ordered) as (a0 & Ea & ->).
    pose proof (hash_to_keys_keys (arr_vals keys) ordered (Some [])) as Eks.
    unfold s_hash_to_keys in *. destruct (hash_to_keys _ _ _). cbn in *.
    unfold wanted, start, asked. by rewrite Eks, Ea. }
  case_bool_decide as Hnil; [|case_bool_decide as Hwanted].
  - intros [= <- <-]. unfold php_memc_getMulti_impl. rewrite bool_decide_true by done.
    rewrite (bind_Ret _ _ _ _ _ (set_status_run MEMCACHED_NOTFOUND 0 w)).
    eexists. split; [reflexivity|]. split; [done|exact Hs].
  - intros [= <- <-]. unfold php_memc_getMulti_impl. rewrite bool_decide_false by done.
    rewrite (bind_Ret _ _ _ _ _ (set_status_run MEMCACHED_SUCCESS 0 w)).
    rewrite Hord, Ek, Hwanted, Hext. unfold php_memc_mget_apply.
    eexists. split; [reflexivity|]. split; [done|exact Hs].
  - destruct (all_valid _ _); [|done]. intros [= <- <-]. pose proof Hs as (Hh & Hx & Hu & _ & _).
    destruct (cache_mget (w_memc w) wanted Hh Hwanted) as (m1 & rs & rc & m2 & Em & Hd & Hrs & Hb & Hrc).
    destruct (found_results σ w wanted rs Hs Hrs) as (Hdec & Hfold & Hempty).
    pose proof (getMulti_run keys flags w MEMCACHED_SUCCESS m1 rs found.*2 rc m2) as R.
    rewrite Hord, Ek in R.
    assert (rc = MEMCACHED_NOTFOUND ∨ s_memcached_return_is_error rc false = false) as Hend
      by (case_decide; auto).
    destruct (R Hext Hx Hwanted Em eq_refl Hd) as (w' & R' & Hc & o & ->).
    { rewrite Hu. exact Hdec. }
    { destruct Hend as [-> | Hend]; [by auto|]. destruct rc; by auto. }
    eexists. rewrite R'. cbn [default]. rewrite Hfold. split; [reflexivity|].
    split; [|by apply (sim_unchanged σ w m2 ""%string)].
    rewrite Hc. cbn [snd]. case_bool_decide as Hf; case_decide as Hr.
    + by subst rc.
    + by apply Hempty in Hf.
    + by apply Hempty in Hr.
    + by rewrite Hrc.
Qed.

(** A key that does not pass the check reaches nothing. *)
Lemma refused_run op w :
  (∀ k, memc_key_ok (w_memc w) k = valid k) → valid (op_key op) = false →
  run_method (key_call op) w
  = Ret ZFalse (with_obj (mkObject MEMCACHED_BAD_KEY_PROVIDED 0 (is_pristine (w_obj w))) w).
Proof.
  intros Hv Hk. specialize (Hv (op_key op)). rewrite Hk in Hv.
  destruct op as [key v|key v|key v|key|key|key|[] key offset]; cbn [op_key] in Hv;
    cbn [run_method key_call];
    unfold Memcached_set, Memcached_add, Memcached_replace, Memcached_get, Memcached_delete,
      Memcached_touch, Memcached_increment, Memcached_decrement, incdec_method,
      php_memc_store_impl, php_memc_get_impl, php_memc_delete_impl, php_memc_incdec_impl;
    rewrite (bind_Ret _ _ _ _ _ (set_status_run MEMCACHED_SUCCESS 0 w));
    unfold mbind at 1, M_bind at 1; rewrite check_key_run; cbn [w_memc with_obj];
    rewrite Hv; reflexivity.
Qed.

#[local] Opaque php_memc_store_impl.

Lemma one_step_sim op σ w a σ' :
  sim σ w → item_size_limit ud = 0 → (∀ k, valid k = true → 1 <= zstr_len k <= 250) → key_op_storable op →
  spec_one valid readback op σ = Some (a, σ') →
  ∃ w', run_method (key_call op) w = Ret a.1 w' ∧ rescode (w_obj w') = a.2 ∧ sim σ' w'.
Proof.
  intros Hs Hlim Hlen Hst. unfold spec_one.
  destruct (valid (op_key op)) eqn:Hk; cbn [negb].
  2: { intros [= <- <-]. pose proof Hs as (_ & _ & _ & Hv & _).
       rewrite (refused_run op w Hv Hk). eexists. split; [reflexivity|]. split; [done|exact Hs]. }
  destruct op as [key v|key v|key v|key|key|key|incr key offset]; cbn [op_key key_op_storable] in *.
  - intros [= <- <-]. apply (store_fresh σ MEMC_OP_SET); unfold accepted; eauto 6.
  - destruct (σ !! key) eqn:E; intros [= <- <-].
    + apply (store_taken σ MEMC_OP_ADD); eauto.
    + apply (store_fresh σ MEMC_OP_ADD); unfold accepted; eauto 6.
  - destruct (σ !! key) eqn:E; intros [= <- <-].
    + apply (store_fresh σ MEMC_OP_REPLACE); unfold accepted; eauto 6.
    + apply (store_taken σ MEMC_OP_REPLACE); auto.
  - pose proof (get_run σ key w Hs Hk (Hlen _ Hk)) as Hg.
    destruct (σ !! key); intros [= <- <-]; exact Hg.
  - pose proof (delete_run σ key w Hs Hk) as Hd.
    destruct (σ !! key) eqn:E; intros [= <- <-]; [exact Hd|].
    by rewrite (delete_id σ key E) in Hd.
  - pose proof (touch_run σ key w Hs Hk) as Ht. destruct (σ !! key); intros [= <- <-]; exact Ht.
  - intros Hspec. destruct (count_run incr σ key offset w a σ' Hs Hk Hst Hspec) as (w' & R & Hc & Hs').
    destruct a as [v c]. exists w'. by destruct incr.
Qed.

Lemma client_step_sim op σ w a σ' :
  sim σ w → item_size_limit ud = 0 → (∀ k, valid k = true → 1 <= zstr_len k <= 250) → op_storable op →
  spec_step valid readback op σ = Some (a, σ') →
  ∃ w', client_step op w = Ret a w' ∧ sim σ' w'.
Proof.
  intros Hs Hlim Hlen Hst Hspec. unfold client_step.
  assert (∃ w', run_method (op_call op) w = Ret a.1 w' ∧ rescode (w_obj w') = a.2 ∧ sim σ' w')
    as (w' & R & Hc & Hs').
  { destruct op as [op|entries|ordered keys|keys]; cbn [spec_step op_storable op_call run_method] in *.
    - by apply (one_step_sim op σ).
    - unfold spec_set_multi in Hspec. destruct (all_valid _ _); [|done]. injection Hspec as <- <-.
      by apply set_multi_run.
    - by apply (get_multi_run σ).
    - by apply (delete_multi_run σ). }
  exists w'. rewrite (bind_Ret _ _ _ _ _ R), gets_bind, Hc. by destruct a.
Qed.
End Simulation.

(** C1: On a server that keeps what it is given, the client is a map. Any sequence
    of set, add, replace, get, delete, touch, increment, decrement, setMulti, getMulti
    and deleteMulti, with values the settings can store, returns the values and the
    result codes of the same operations on a finite map from keys to values, whatever
    the serializer, the compression and the retry count; keys that fail the check
    touch nothing. A value that was stored as an integer counts, whether it was set or
    counted before. The map says nothing of counting other values, nor beyond the
    integers of PHP, nor of keys that would fail the check in the commands on many
    keys, which do not check them. *)
Theorem client_refines_a_map {MC} `{ZendLaws} `{!CompressionLaws} `{BuildConfig} `{CNumbers}
    `{MemcachedNumbersLaws} `{MemcachedControl MC} `{MemcachedStorage MC} `{MemcachedCounters MC}
    `{MemcachedBuckets MC} `{!MemcachedServers MC} `{MemcachedErrors MC} `{MemcachedRetrieval MC}
    `{MemcachedAuth MC} `{!FetchLaws MC} `{!CacheServer MC}
    (valid : string → bool) (readback : zval → zval) (ud : php_memc_user_data_t)
    (ops : list cache_op) (σ σ' : gmap string zval) (answers : list answer) (w : world MC) :
  sim valid ud σ w → item_size_limit ud = 0 → (∀ k, valid k = true → 1 <= zstr_len k <= 250) →
  Forall (op_storable readback ud) ops → spec_run valid readback ops σ = Some (answers, σ') →
  ∃ w', client_run ops w = Ret answers w' ∧ sim valid ud σ' w'.
Proof.
  intros Hs Hlim Hlen Hst. revert σ answers w Hs.
  induction Hst as [|op ops Hop Hops IH]; intros σ answers w Hs; cbn [client_run spec_run];
    [intros [= <- <-]; by exists w|].
  destruct (spec_step valid readback op σ) as [[a σ1]|] eqn:E1; [|done].
  destruct (spec_run valid readback ops σ1) as [[rest σ2]|] eqn:E2; [|done]. intros [= <- <-].
  destruct (client_step_sim valid readback ud op σ w a σ1 Hs Hlim Hlen Hop E1) as (w1 & R & Hs1).
  rewrite (bind_Ret _ _ _ _ _ R). destruct (IH σ1 rest w1 Hs1 E2) as (w2 & R2 & Hs2).
  rewrite (bind_Ret _ _ _ _ _ R2). by exists w2.
Qed.

Definition example_ops : list cache_op :=
  (COne <$> [CGet "k"; CAdd "k" (ZStr "v"); CAdd "k" (ZStr "x"); CGet "k"; CReplace "k" (ZLong 2);
             CCount true "k" 5; CTouch "k"; CCount false "k" 9; CDelete "k"; CCount true "k" 1;
             CSet "" ZTrue])
  ++ [CSetMulti [(KStr "a", ZStr "v"); (KInt 7, ZLong 2)];
      CGetMulti true [(KInt 0, ZStr "x"); (KInt 1, ZLong 7); (KInt 2, ZStr "a")];
      CDeleteMulti [(KInt 0, ZStr "a"); (KInt 1, ZStr ""); (KInt 2, ZStr "x")];
      CGetMulti false [(KInt 0, ZStr "a"); (KInt 1, ZStr "x")];
      CGetMulti false []].

Lemma example_keys k : memc_key_ok toy_new k = true → 1 <= zstr_len k <= 250.
Proof.
  unfold memc_key_ok. intros [[H1 H2]%orb_false_iff _]%negb_true_iff%orb_false_iff.
  cbn in H2. unfold MEMC_OBJECT_KEY_MAX_LENGTH in H2. unfold zstr_len in *. lia.
Qed.

Definition example_answers : list answer :=
  [(ZFalse, MEMCACHED_NOTFOUND); (ZTrue, MEMCACHED_SUCCESS); (ZFalse, MEMCACHED_NOTSTORED);
   (ZStr "v", MEMCACHED_SUCCESS); (ZTrue, MEMCACHED_SUCCESS); (ZLong 7, MEMCACHED_SUCCESS);
   (ZTrue, MEMCACHED_SUCCESS); (ZLong 0, MEMCACHED_SUCCESS); (ZTrue, MEMCACHED_SUCCESS);
   (ZFalse, MEMCACHED_NOTFOUND); (ZFalse, MEMCACHED_BAD_KEY_PROVIDED);
   (ZTrue, MEMCACHED_SUCCESS);
   (ZArr [(KStr "x", ZNull); (KInt 7, ZLong 2); (KStr "a", ZStr "v")], MEMCACHED_SUCCESS);
   (ZArr [(KStr "a", ZTrue); (KStr "x", ZLong (return_num MEMCACHED_NOTFOUND))], MEMCACHED_NOTFOUND);
   (ZArr [], MEMCACHED_NOTFOUND); (ZArr [], MEMCACHED_NOTFOUND)].

Lemma example_storable : Forall (op_storable id toy_ud_compress) example_ops.
Proof.
  assert (∀ v type s comp, spells (serializer toy_ud_compress) v type s comp v → zstr_len s < 2 ^ 30 →
            storable id toy_ud_compress v) as Hst.
  { intros v type s comp Hs Hlen. unfold storable, id. split; [by exists type, s, comp|by intros n ->]. }
  pose proof (Hst (ZStr "v") MEMC_VAL_IS_STRING "v"%string true ltac:(constructor) ltac:(by vm_compute)) as Hv.
  pose proof (Hst (ZStr "x") MEMC_VAL_IS_STRING "x"%string true ltac:(constructor) ltac:(by vm_compute)) as Hx.
  pose proof (Hst (ZLong 2) MEMC_VAL_IS_LONG (ldec 2) false
    ltac:(constructor; by vm_compute) ltac:(by vm_compute)) as H2.
  pose proof (Hst ZTrue MEMC_VAL_IS_BOOL "1"%string false ltac:(constructor) ltac:(by vm_compute)) as Ht.
  repeat apply List.Forall_cons; try apply List.Forall_nil; try done; try (by vm_compute).
Qed.

(** After the sequence the map has the entry under 7 left. *)
Lemma client_refines_a_map_witness :
  ∃ w', client_run example_ops (with_ud toy_ud_compress (toy_world toy_new)) = Ret example_answers w'.
Proof.
  assert (spec_run (memc_key_ok toy_new) id example_ops ∅
          = Some (example_answers, {["7" := ZLong 2]})) as E by (vm_compute; reflexivity).
  destruct (client_refines_a_map (memc_key_ok toy_new) id toy_ud_compress example_ops ∅ {["7"%string := ZLong 2]}
    example_answers (with_ud toy_ud_compress (toy_world toy_new))) as (w' & R & _);
    [repeat split|reflexivity|exact example_keys|exact example_storable|exact E|by exists w'].
Defined.
