(* ===== verification/SessionLiveness.v ===== *)
(** * Session locks: a lock that is freed is taken

    [s_lock_session] retries with pauses; what happens to the server in the pauses
    is not its own.  Here it runs on a server whose other clients act before each
    of its attempts. *)

From S2P Require Import Prelude CLib Zend LibMemcached World Toy Session SessionProofs SessionLocks.
#[local] Open Scope Z_scope.

(** A handle of a server that others use, too: before the add number [c_turn],
    they have changed the server by [env c_turn]. *)
Record contended (MC : Type) : Type := mkContended { c_turn : nat; c_memc : MC }.
Arguments mkContended {MC} _ _.
Arguments c_turn {MC} _.
Arguments c_memc {MC} _.

Section Contended.
Context {MC : Type} `{MemcachedStorage MC} (env : nat → MC → MC).

Definition alone {A} (f : MC → A * MC) (c : contended MC) : A * contended MC :=
  let '(a, m) := f (c_memc c) in (a, mkContended (c_turn c) m).

Definition after_others {A} (f : MC → A * MC) (c : contended MC) : A * contended MC :=
  let '(a, m) := f (env (c_turn c) (c_memc c)) in (a, mkContended (S (c_turn c)) m).

Definition ContendedStorage : MemcachedStorage (contended MC) := {|
  memcached_set c k v e f := alone (λ m, memcached_set m k v e f) c;
  memcached_add c k v e f := after_others (λ m, memcached_add m k v e f) c;
  memcached_replace c k v e f := alone (λ m, memcached_replace m k v e f) c;
  memcached_append c k v e f := alone (λ m, memcached_append m k v e f) c;
  memcached_prepend c k v e f := alone (λ m, memcached_prepend m k v e f) c;
  memcached_set_by_key c s k v e f := alone (λ m, memcached_set_by_key m s k v e f) c;
  memcached_add_by_key c s k v e f := alone (λ m, memcached_add_by_key m s k v e f) c;
  memcached_replace_by_key c s k v e f := alone (λ m, memcached_replace_by_key m s k v e f) c;
  memcached_append_by_key c s k v e f := alone (λ m, memcached_append_by_key m s k v e f) c;
  memcached_prepend_by_key c s k v e f := alone (λ m, memcached_prepend_by_key m s k v e f) c;
  memcached_touch c k e := alone (λ m, memcached_touch m k e) c;
  memcached_touch_by_key c s k e := alone (λ m, memcached_touch_by_key m s k e) c;
  memcached_cas c k v e f t := alone (λ m, memcached_cas m k v e f t) c;
  memcached_cas_by_key c s k v e f t := alone (λ m, memcached_cas_by_key m s k v e f t) c;
  memcached_delete c k e := alone (λ m, memcached_delete m k e) c;
  memcached_delete_by_key c s k e := alone (λ m, memcached_delete_by_key m s k e) c
|}.

(** The server the attempt number [i] finds, after the others and the attempts
    before it. *)
Fixpoint server_at (key : string) (e : Z) (i : nat) (m : MC) : MC :=
  match i with
  | O => env 0 m
  | S j => env i (memcached_add (server_at key e j m) key "1" e 0).2
  end.
End Contended.

(** A server that is up: an add succeeds when the key is free, and is answered
    NOTSTORED when it is taken. *)
Class LockServerUp (MC : Type) `{LockServerLaws MC} : Type := {
  up : MC → Prop;
  add_free m k v e : up m → ¬ holds m k → (memcached_add m k v e 0).1 = MEMCACHED_SUCCESS;
  add_busy m k v e : up m → holds m k → (memcached_add m k v e 0).1 = MEMCACHED_NOTSTORED
}.

#[export] Instance ToyLockServerUp : LockServerUp toy.
Proof.
  refine {| up m := t_script m = [] |}; intros m k v e Hs Hk; cbn in *; unfold toy_store, toy_cmd;
    cbn; rewrite Hs; cbn.
  - destruct (t_items m !! (k, k)); [|done]. destruct Hk. eauto.
  - by destruct Hk as [it ->].
Defined.

Lemma nth_answer_succ {M} (call : M → memcached_return * M) k m :
  nth_answer call (S k) m = call (nth_answer call k m).2.
Proof. revert m. induction k as [|k IH]; intros m; [done|]. cbn [nth_answer]. by rewrite <- IH. Qed.

Section Liveness.
Context {MC : Type} {HS : MemcachedStorage MC} `{!LockServerLaws MC} `{!LockServerUp MC}
  (env : nat → MC → MC).
#[local] Instance others : MemcachedStorage (contended MC) := ContendedStorage env.

Lemma contended_answer key e i m :
  nth_answer (lock_command (MC := contended MC) key e) i (mkContended 0 m)
  = ((memcached_add (server_at env key e i m) key "1" e 0).1,
     mkContended (S i) (memcached_add (server_at env key e i m) key "1" e 0).2).
Proof.
  assert (∀ t m0, lock_command (MC := contended MC) key e (mkContended t m0)
    = ((memcached_add (env t m0) key "1" e 0).1, mkContended (S t) (memcached_add (env t m0) key "1" e 0).2))
    as Hone.
  { intros t m0. transitivity (after_others env (λ m, memcached_add m key "1" e 0) (mkContended t m0));
      [reflexivity|].
    unfold after_others. cbn [c_turn c_memc]. by destruct (memcached_add (env t m0) key "1" e 0). }
  induction i as [|i IH]; [apply Hone|]. rewrite nth_answer_succ, IH. apply Hone.
Qed.

(** The settings of the waits, within what fits. *)
Definition waits_ok (ini : session_ini) : Prop :=
  0 <= lock_wait_min ini < 2 ^ 62 ∧ 0 <= lock_wait_max ini < 2 ^ 62.

(** C14: A session lock that is freed is taken. Let other clients do what they like
    with the server before each attempt of [s_lock_session], as long as it is up. If the lock's key is
    taken at the attempts before number [i] and free at number [i], within the
    configured retries, the session gets the lock at that attempt and its item is on
    the server; and it gives up only if the key was taken at every attempt. *)
Theorem freed_session_lock_is_taken sid e (s : sworld (contended MC)) m :
  let key := lock_key_of sid in
  let at_turn i := server_at env key e i m in
  s_lock_expiration s = Ret e s → s_memc s = mkContended 0 m →
  is_locked (s_data s) = false → waits_ok (s_ini s) → (∀ i, up (at_turn i)) →
  (∀ i, Z.of_nat i <= Z.max 0 (lock_retries (s_ini s)) →
     (∀ j, (j < i)%nat → holds (at_turn j) key) → ¬ holds (at_turn i) key →
     ∃ s', s_lock_session sid s = Ret true s' ∧ lock_key (s_data s') = Some key
       ∧ c_turn (s_memc s') = S i ∧ holds (c_memc (s_memc s')) key) ∧
  (∀ s', s_lock_session sid s = Ret false s' →
     ∀ i, Z.of_nat i <= Z.max 0 (lock_retries (s_ini s)) →
       (∀ j, (j < i)%nat → holds (at_turn j) key) → ¬ ¬ holds (at_turn i) key).
Proof.
  intros key at_turn He Hm Hfree [Hmin Hmax] Hup.
  assert (∀ i, Z.of_nat i <= Z.max 0 (lock_retries (s_ini s)) →
     (∀ j, (j < i)%nat → holds (at_turn j) key) → ¬ holds (at_turn i) key →
     ∃ s', s_lock_session sid s = Ret true s' ∧ lock_key (s_data s') = Some key
       ∧ c_turn (s_memc s') = S i ∧ holds (c_memc (s_memc s')) key) as Hgets.
  { intros i Hi Hbusy Hidle. pose proof (add_free (at_turn i) key "1"%string e (Hup i) Hidle) as Hrc.
    set (bound := Z.max (lock_wait_min (s_ini s)) (lock_wait_max (s_ini s))).
    destruct (lock_loop_run (S (Z.to_nat (lock_retries (s_ini s)))) key e
      (lock_wait_min (s_ini s)) (lock_retries (s_ini s)) bound s) as (s' & E & Hout);
      [lia|done|lia|lia|lia|].
    destruct Hout as (n & rc & c & Ha & Hn & Hlt & Hc & _ & Hend & _).
    rewrite Hm in Ha, Hlt. rewrite contended_answer in Ha. injection Ha as Ern Ecn.
    assert (n = i) as ->.
    { destruct (Nat.lt_trichotomy n i) as [Hlo|[?|Hhi]]; [|done|].
      - pose proof (add_busy (at_turn n) key "1"%string e (Hup n) (Hbusy n Hlo)) as Hb.
        fold key in Ern. unfold at_turn in Hb. rewrite Hb in Ern. subst rc.
        destruct Hend as [[? _]|(_ & Hmaxn & _)]; [done|lia].
      - specialize (Hlt i Hhi). rewrite contended_answer in Hlt. by cbn in Hlt. }
    unfold at_turn in Hrc. rewrite Hrc in Ern. subst rc.
    destruct Hend as [(_ & Hl & Hk)|[? _]]; [|done]. exists s'.
    unfold s_lock_session. rewrite (bind_Ret _ _ _ _ _ He), gets_bind. fold key.
    rewrite (bind_Ret _ _ _ _ _ E). unfold gets. rewrite Hl. split; [done|]. split; [done|].
    rewrite Hc, <- Ecn. split; [done|]. cbn.
    destruct (memcached_add (server_at env key e i m) key "1" e 0) as [rc m'] eqn:Ea.
    cbn in Hrc. subst rc. by apply add_takes in Ea as [_ ?]. }
  split; [exact Hgets|]. intros s' R i Hi Hbusy Hidle.
  destruct (Hgets i Hi Hbusy Hidle) as (s2 & R2 & _). congruence.
Qed.
End Liveness.

(** Another session has the lock and releases it before the third attempt. *)
Definition holder : sworld toy := toy_locked_session.

Definition released (i : nat) (m : toy) : toy :=
  if Nat.eqb i 2 then (memcached_delete m (lock_key_of "abc") 0).2 else m.

(** A command leaves an empty script of answers empty. *)
Lemma toy_cmd_script c run m :
  t_script m = [] → (∀ m', t_script m' = [] → t_script (run m').2 = []) →
  t_script (toy_cmd c run m).2 = [].
Proof.
  intros Hm Hrun. unfold toy_cmd. change (t_script (t_add_log c m)) with (t_script m).
  rewrite Hm. by apply Hrun.
Qed.

Definition waiting : sworld (contended toy) :=
  mkSession (mkContended 0 (s_memc holder)) (mkSessionData false false false None) toy_session_ini
    1700000000 30 [] [].

Lemma freed_session_lock_is_taken_witness :
  ∃ s', @s_lock_session _ (ContendedStorage released) "abc" waiting = Ret true s'
        ∧ c_turn (s_memc s') = 3%nat.
Proof.
  destruct (freed_session_lock_is_taken released "abc" 30 waiting (s_memc holder)) as [Hgets _].
  - reflexivity.
  - reflexivity.
  - reflexivity.
  - split; by split.
  - intros i. cbn [up ToyLockServerUp].
    assert (∀ i m, t_script m = [] → t_script (released i m) = []) as Hr.
    { intros j m Hm. unfold released. destruct (Nat.eqb j 2); [|done].
      apply toy_cmd_script; [done|]. intros m' Hm'. by destruct (t_items m' !! _). }
    induction i as [|i IH]; cbn [server_at]; apply Hr; [reflexivity|].
    apply toy_cmd_script; [done|]. intros m' Hm'. cbn. by destruct (t_items m' !! _).
  - destruct (Hgets 2%nat) as (s' & R & _ & Ht & _).
    + by vm_compute.
    + intros [|[|j]] Hj; [eexists; vm_compute; reflexivity..|lia].
    + intros [x Hx]. vm_compute in Hx. discriminate Hx.
    + by exists s'.
Defined.
