(* ===== verification/Registration.v ===== *)
(** * The module: start, stop, and what phpinfo says

    [PHP_MINIT_FUNCTION], [PHP_MSHUTDOWN_FUNCTION], [PHP_MINFO_FUNCTION] and the
    module entry of php_memcached.c, the registration of the classes at the end of
    the arginfo headers, and [php_memc_session_minit] of php_memcached_session.c.
    The engine's registries are behind a type class. *)

From S2P Require Import Prelude CLib Zend LibMemcached World Toy Payload Session Ini IniProofs.
From S2P Require Import ProtoServer ProtoServerProofs ArgInfo LegacyArgInfo Constants.
#[local] Open Scope Z_scope.

(** ** What the engine keeps *)

(** The functions the module hands to the engine. *)
Inductive rsrc_dtor : Type := php_memc_dtor_fn | php_memc_sess_dtor_fn | foreign_dtor (n : nat).
Inductive create_object_fn : Type := php_memc_object_new_fn | php_memc_server_new_fn.
Inductive clone_obj_fn : Type := zend_objects_clone_obj.
Inductive free_obj_fn : Type :=
  zend_object_std_dtor | php_memc_object_free_storage_fn | php_memc_server_free_storage_fn.
(** [offsetof(struct, zo)]. *)
Inductive object_offset : Type := no_offset | offset_in_object | offset_in_server.

Record zend_object_handlers : Type := mkHandlers {
  offset : object_offset;
  clone_obj : option clone_obj_fn;
  free_obj : free_obj_fn
}.

(** The handlers of plain objects, of which the module's are copies with other
    values in these three fields. *)
Definition zend_std_object_handlers : zend_object_handlers :=
  mkHandlers no_offset (Some zend_objects_clone_obj) zend_object_std_dtor.

(** A copy of them for objects inside a structure, which cannot be cloned and are
    freed by a function of the module. *)
Definition memcached_handlers (o : object_offset) (free : free_obj_fn) : zend_object_handlers :=
  let h := zend_std_object_handlers in
  let h := mkHandlers o (clone_obj h) (free_obj h) in
  let h := mkHandlers (offset h) None (free_obj h) in
  mkHandlers (offset h) (clone_obj h) free.

(** The fields of [zend_class_entry] that the module fills in. *)
Record zend_class_entry : Type := mkClass {
  ce_name : string;
  function_table : list (string * zend_arg_info);
  ce_parent : option nat;
  create_object : option create_object_fn;
  constants_table : list (string * class_constant);
  parameter_attributes : list (string * Z * string)
}.

(** [INIT_CLASS_ENTRY]. *)
Definition INIT_CLASS_ENTRY (name : string) (methods : list (string * zend_arg_info))
    : zend_class_entry := mkClass name methods None None [] [].

(** What can be seen of the engine: the classes by address, the class table by lower
    case name, the types of list entries with the destructor of persistent ones,
    the session modules, the registered settings, and the two base classes. *)
Record engine_view : Type := mkView {
  classes : gmap nat zend_class_entry;
  class_table : gmap string nat;
  list_destructors : gmap Z (rsrc_dtor * string * Z);
  session_modules : gset string;
  ini_directives : list ini_entry;
  spl_ce_RuntimeException : option nat;
  zend_ce_exception : nat
}.

Definition with_classes f v : engine_view :=
  mkView (f (classes v)) (class_table v) (list_destructors v) (session_modules v)
    (ini_directives v) (spl_ce_RuntimeException v) (zend_ce_exception v).
Definition with_class_table f v : engine_view :=
  mkView (classes v) (f (class_table v)) (list_destructors v) (session_modules v)
    (ini_directives v) (spl_ce_RuntimeException v) (zend_ce_exception v).
Definition with_destructors f v : engine_view :=
  mkView (classes v) (class_table v) (f (list_destructors v)) (session_modules v)
    (ini_directives v) (spl_ce_RuntimeException v) (zend_ce_exception v).
Definition with_session_modules f v : engine_view :=
  mkView (classes v) (class_table v) (list_destructors v) (f (session_modules v))
    (ini_directives v) (spl_ce_RuntimeException v) (zend_ce_exception v).
Definition with_directives l v : engine_view :=
  mkView (classes v) (class_table v) (list_destructors v) (session_modules v) l
    (spl_ce_RuntimeException v) (zend_ce_exception v).
Definition with_runtime_exception c v : engine_view :=
  mkView (classes v) (class_table v) (list_destructors v) (session_modules v)
    (ini_directives v) c (zend_ce_exception v).

Definition with_parent (p : option nat) (c : zend_class_entry) : zend_class_entry :=
  mkClass (ce_name c) (function_table c) p (create_object c) (constants_table c)
    (parameter_attributes c).
Definition with_create_object (f : create_object_fn) (c : zend_class_entry) : zend_class_entry :=
  mkClass (ce_name c) (function_table c) (ce_parent c) (Some f) (constants_table c)
    (parameter_attributes c).
Definition with_constant (k : string * class_constant) (c : zend_class_entry) : zend_class_entry :=
  mkClass (ce_name c) (function_table c) (ce_parent c) (create_object c)
    (constants_table c ++ [k]) (parameter_attributes c).
Definition with_attribute (a : string * Z * string) (c : zend_class_entry) : zend_class_entry :=
  mkClass (ce_name c) (function_table c) (ce_parent c) (create_object c) (constants_table c)
    (parameter_attributes c ++ [a]).

(** [zend_str_tolower], on ASCII. *)
Definition lower_char (c : ascii) : ascii :=
  if (65 <=? code c) && (code c <=? 90) then chr (code c + 32) else c.
Fixpoint zend_str_tolower (s : string) : string :=
  match s with EmptyString => EmptyString | String c s' => String (lower_char c) (zend_str_tolower s') end.

(** The calls the module makes.  [zend_register_ini_entries] answers the updates it
    makes of the settings: from the configuration, or to the defaults. *)
Class ModuleEngine (E : Type) : Type := {
  view : E → engine_view;
  zend_register_list_destructors_ex : E → rsrc_dtor → string → Z → Z * E;
  zend_register_internal_class_ex : E → zend_class_entry → option nat → nat * E;
  ce_update : E → nat → (zend_class_entry → zend_class_entry) → E;
  set_spl_ce_RuntimeException : E → nat → E;
  zend_declare_class_constant : E → nat → string * class_constant → E;
  zend_add_parameter_attribute : E → nat → string * Z * string → E;
  zend_register_ini_entries : E → list ini_entry → list (ini_entry * option string) * E;
  zend_unregister_ini_entries : E → E;
  php_session_register_module : E → string → bool * E;
  sasl_done : E → E
}.

(** What they do: a new class has an address of its own; a type of list entries is
    a new number; a constant is declared once; a full table of session modules
    takes no more of them; a setting is only ever given a value. *)
Class ModuleEngineLaws (E : Type) `{ModuleEngine E} : Prop := {
  register_dtor_law e d name n t e' :
    zend_register_list_destructors_ex e d name n = (t, e') →
    list_destructors (view e) !! t = None
    ∧ view e' = with_destructors (insert t (d, name, n)) (view e);
  register_class_law e c parent p e' :
    zend_register_internal_class_ex e c parent = (p, e') →
    classes (view e) !! p = None
    ∧ view e' = with_class_table (insert (zend_str_tolower (ce_name c)) p)
                  (with_classes (insert p (with_parent parent c)) (view e));
  ce_update_law e p f : view (ce_update e p f) = with_classes (alter f p) (view e);
  set_spl_law e p : view (set_spl_ce_RuntimeException e p) = with_runtime_exception (Some p) (view e);
  declare_law e p k c :
    classes (view e) !! p = Some c → k.1 ∉ (constants_table c).*1 →
    view (zend_declare_class_constant e p k) = with_classes (alter (with_constant k) p) (view e);
  attribute_law e p a :
    view (zend_add_parameter_attribute e p a) = with_classes (alter (with_attribute a) p) (view e);
  register_ini_law e l updates e' :
    zend_register_ini_entries e l = (updates, e') →
    Forall (λ u, u.1 ∈ l ∧ is_Some u.2) updates ∧ view e' = with_directives l (view e);
  session_module_law e name (ok : bool) e' :
    php_session_register_module e name = (ok, e') →
    view e' = if ok then with_session_modules (union {[name]}) (view e) else view e
}.

(** ** The version of PHP *)
Class PhpVersion : Type := { PHP_VERSION_ID : Z }.

(** ** The static variables *)
Record statics (E : Type) : Type := mkStatics {
  st_engine : E;
  st_settings : iworld;
  sasl_initialised : bool;
  le_memc : Z;
  le_memc_sess : Z;
  memcached_ce : option nat;
  memcached_server_ce : option nat;
  memcached_exception_ce : option nat;
  memcached_object_handlers : option zend_object_handlers;
  memcached_server_object_handlers : option zend_object_handlers
}.
Arguments mkStatics {E} _ _ _ _ _ _ _ _ _ _.
Arguments st_engine {E} _.
Arguments st_settings {E} _.
Arguments sasl_initialised {E} _.
Arguments le_memc {E} _.
Arguments le_memc_sess {E} _.
Arguments memcached_ce {E} _.
Arguments memcached_server_ce {E} _.
Arguments memcached_exception_ce {E} _.
Arguments memcached_object_handlers {E} _.
Arguments memcached_server_object_handlers {E} _.

Section Statics.
Context {E : Type}.
Implicit Types w : statics E.

Definition with_engine e w : statics E :=
  mkStatics e (st_settings w) (sasl_initialised w) (le_memc w) (le_memc_sess w) (memcached_ce w)
    (memcached_server_ce w) (memcached_exception_ce w) (memcached_object_handlers w)
    (memcached_server_object_handlers w).
Definition with_settings i w : statics E :=
  mkStatics (st_engine w) i (sasl_initialised w) (le_memc w) (le_memc_sess w) (memcached_ce w)
    (memcached_server_ce w) (memcached_exception_ce w) (memcached_object_handlers w)
    (memcached_server_object_handlers w).
Definition with_le_memc t w : statics E :=
  mkStatics (st_engine w) (st_settings w) (sasl_initialised w) t (le_memc_sess w) (memcached_ce w)
    (memcached_server_ce w) (memcached_exception_ce w) (memcached_object_handlers w)
    (memcached_server_object_handlers w).
Definition with_le_memc_sess t w : statics E :=
  mkStatics (st_engine w) (st_settings w) (sasl_initialised w) (le_memc w) t (memcached_ce w)
    (memcached_server_ce w) (memcached_exception_ce w) (memcached_object_handlers w)
    (memcached_server_object_handlers w).
Definition with_memcached_ce c w : statics E :=
  mkStatics (st_engine w) (st_settings w) (sasl_initialised w) (le_memc w) (le_memc_sess w) c
    (memcached_server_ce w) (memcached_exception_ce w) (memcached_object_handlers w)
    (memcached_server_object_handlers w).
Definition with_server_ce c w : statics E :=
  mkStatics (st_engine w) (st_settings w) (sasl_initialised w) (le_memc w) (le_memc_sess w)
    (memcached_ce w) c (memcached_exception_ce w) (memcached_object_handlers w)
    (memcached_server_object_handlers w).
Definition with_exception_ce c w : statics E :=
  mkStatics (st_engine w) (st_settings w) (sasl_initialised w) (le_memc w) (le_memc_sess w)
    (memcached_ce w) (memcached_server_ce w) c (memcached_object_handlers w)
    (memcached_server_object_handlers w).
Definition with_object_handlers h w : statics E :=
  mkStatics (st_engine w) (st_settings w) (sasl_initialised w) (le_memc w) (le_memc_sess w)
    (memcached_ce w) (memcached_server_ce w) (memcached_exception_ce w) (Some h)
    (memcached_server_object_handlers w).
Definition with_server_handlers h w : statics E :=
  mkStatics (st_engine w) (st_settings w) (sasl_initialised w) (le_memc w) (le_memc_sess w)
    (memcached_ce w) (memcached_server_ce w) (memcached_exception_ce w)
    (memcached_object_handlers w) (Some h).

Definition engine_call {A} (f : E → A * E) : M (statics E) A :=
  λ w, let '(a, e) := f (st_engine w) in Ret a (with_engine e w).
Definition engine_do (f : E → E) : M (statics E) unit :=
  modify (λ w, with_engine (f (st_engine w)) w).

(** The settings are updated. *)
Definition on_settings {A} (m : M iworld A) : M (statics E) A :=
  λ w, match m (st_settings w) with
       | Ret a i => Ret a (with_settings i w)
       | Bailout i => Bailout (with_settings i w)
       | Undef => Undef
       | NoFuel => NoFuel
       end.
End Statics.

(** ** The module *)

(** The settings, in the order of the table. *)
Definition ini_entries `{LibraryConstants} : list ini_entry :=
  (if HAVE_MEMCACHED_SESSION then
     [sess_locking; sess_lock_wait_min; sess_lock_wait_max; sess_lock_retries; sess_lock_expire;
      sess_binary_protocol; sess_consistent_hash; sess_consistent_hash_type;
      sess_number_of_replicas; sess_randomize_replica_read; sess_remove_failed_servers;
      sess_server_failure_limit; sess_connect_timeout; sess_sasl_username; sess_sasl_password;
      sess_persistent; sess_prefix; sess_lock_wait; sess_lock_max_wait]
   else [])
  ++ [ini_compression_type; ini_compression_factor; ini_compression_level;
      ini_compression_threshold; ini_serializer; ini_store_retry_count; ini_item_size_limit;
      default_consistent_hash; default_binary_protocol; default_connect_timeout].

Section Module.
Context {E : Type} `{ModuleEngine E} `{PhpVersion} `{BuildConfig} `{OptionalMethods}
  `{LibraryConstants} `{MemcachedNumbers} `{ProtocolNumbers} `{ZendIni}.
#[local] Abbreviation M := (M (statics E)).
Implicit Types w : statics E.

(** *** The classes *)
Definition legacy_register_class_Memcached : M nat :=
  engine_call (λ e, zend_register_internal_class_ex e
    (INIT_CLASS_ENTRY "Memcached" LegacyArgInfo.class_Memcached_methods) None).

Definition new_register_class_Memcached : M nat :=
  class_entry ← engine_call (λ e, zend_register_internal_class_ex e
    (INIT_CLASS_ENTRY "Memcached" ArgInfo.class_Memcached_methods) None);
  when ((PHP_VERSION_ID >=? 80200) && HAVE_MEMCACHED_SASL)
    (engine_do (λ e, zend_add_parameter_attribute e class_entry
                       ("setsaslauthdata"%string, 1, "SensitiveParameter"%string)));;
  mret class_entry.

(** The header that is included depends on the version of PHP. *)
Definition register_class_Memcached : M nat :=
  if PHP_VERSION_ID <? 80000 then legacy_register_class_Memcached
  else new_register_class_Memcached.

Definition legacy_register_class_MemcachedServer : M nat :=
  engine_call (λ e, zend_register_internal_class_ex e
    (INIT_CLASS_ENTRY "MemcachedServer" LegacyArgInfo.class_MemcachedServer_methods) None).

Definition new_register_class_MemcachedServer : M nat :=
  engine_call (λ e, zend_register_internal_class_ex e
    (INIT_CLASS_ENTRY "MemcachedServer" ArgInfo.class_MemcachedServer_methods) None).

Definition register_class_MemcachedServer : M nat :=
  if PHP_VERSION_ID <? 80000 then legacy_register_class_MemcachedServer
  else new_register_class_MemcachedServer.

Definition php_memc_get_ce : M (option nat) := gets memcached_ce.
Definition php_memc_get_exception : M (option nat) := gets memcached_exception_ce.

Definition php_memc_get_exception_base (root : Z) : M nat :=
  v ← gets (λ w, view (st_engine w));
  if root =? 0 then
    match spl_ce_RuntimeException v with
    | None =>
        match class_table v !! "runtimeexception"%string with
        | Some pce => engine_do (λ e, set_spl_ce_RuntimeException e pce);; mret pce
        | None => mret (zend_ce_exception v)
        end
    | Some pce => mret pce
    end
  else mret (zend_ce_exception v).

(** *** The start *)

(** The run of declarations in [php_memc_register_constants]. *)
Fixpoint declare_constants (l : constants) : M unit :=
  match l with
  | [] => mret tt
  | k :: l' =>
      ce ← php_memc_get_ce;
      match ce with
      | Some c => engine_do (λ e, zend_declare_class_constant e c k)
      | None => undef
      end;;
      declare_constants l'
  end.

Definition php_memc_session_minit (module_number : Z) : M unit :=
  t ← engine_call (λ e, zend_register_list_destructors_ex e php_memc_sess_dtor_fn
                          "Memcached Sessions persistent connection" module_number);
  modify (with_le_memc_sess t);;
  _ ← engine_call (λ e, php_session_register_module e "memcached");
  mret tt.

Definition minit_memcached_class (module_number : Z) : M unit :=
  modify (with_object_handlers (memcached_handlers offset_in_object php_memc_object_free_storage_fn));;
  t ← engine_call (λ e, zend_register_list_destructors_ex e php_memc_dtor_fn
                          "Memcached persistent connection" module_number);
  modify (with_le_memc t);;
  ce ← register_class_Memcached;
  modify (with_memcached_ce (Some ce));;
  engine_do (λ e, ce_update e ce (with_create_object php_memc_object_new_fn)).

Definition minit_server_class : M unit :=
  if HAVE_MEMCACHED_PROTOCOL then
    modify (with_server_handlers (memcached_handlers offset_in_server php_memc_server_free_storage_fn));;
    ce ← register_class_MemcachedServer;
    modify (with_server_ce (Some ce));;
    engine_do (λ e, ce_update e ce (with_create_object php_memc_server_new_fn))
  else mret tt.

Definition minit_exception_class : M unit :=
  base ← php_memc_get_exception_base 0;
  ce ← engine_call (λ e, zend_register_internal_class_ex e
         (INIT_CLASS_ENTRY "MemcachedException" []) (Some base));
  modify (with_exception_ce (Some ce)).

Definition minit_settings : M unit :=
  updates ← engine_call (λ e, zend_register_ini_entries e ini_entries);
  on_settings (ini_updates updates).

(** SUCCESS. *)
Definition MINIT (module_number : Z) : M bool :=
  minit_memcached_class module_number;;
  minit_server_class;;
  minit_exception_class;;
  declare_constants php_memc_register_constants;;
  minit_settings;;
  (if HAVE_MEMCACHED_SESSION then php_memc_session_minit module_number else mret tt);;
  mret true.

Definition MSHUTDOWN : M bool :=
  b ← gets sasl_initialised;
  when (HAVE_MEMCACHED_SASL && b) (engine_do sasl_done);;
  engine_do zend_unregister_ini_entries;;
  mret true.
End Module.

(** ** The module entry *)

Definition memcached_deps `{BuildConfig} `{LibraryConstants} : list string :=
  (if HAVE_MEMCACHED_SESSION then ["session"] else [])
  ++ (if HAVE_MEMCACHED_IGBINARY then ["igbinary"] else [])
  ++ (if HAVE_MEMCACHED_MSGPACK then ["msgpack"] else []) ++ ["spl"].

Definition PHP_MEMCACHED_VERSION : string := "3.4.1dev".

Record zend_module_entry : Type := mkEntry {
  module_deps : list string;
  module_name : string;
  module_version : string
}.

(** The functions of the entry are [MINIT], [MSHUTDOWN], [MINFO] and [Ini.GINIT]. *)
Definition memcached_module_entry `{BuildConfig} `{LibraryConstants} : zend_module_entry :=
  mkEntry memcached_deps "memcached" PHP_MEMCACHED_VERSION.

(** ** phpinfo *)

(** The versions of libmemcached that the extension was built with and runs with. *)
Class LibraryVersions : Type := {
  LIBMEMCACHED_AWESOME : bool;
  LIBMEMCACHED_VERSION_STRING : string;
  memcached_lib_version : string
}.

Section Info.
Context `{BuildConfig} `{LibraryConstants} `{LibraryVersions}.

Definition version_rows (library : string) : list (string * string) :=
  if negb (String.eqb (c_str LIBMEMCACHED_VERSION_STRING) (c_str memcached_lib_version)) then
    [((library ++ " headers version")%string, LIBMEMCACHED_VERSION_STRING);
     ((library ++ " library version")%string, memcached_lib_version)]
  else [((library ++ " version")%string, memcached_lib_version)].

Definition MINFO : list (string * string) :=
  [("memcached support", "enabled"); ("Version", PHP_MEMCACHED_VERSION)]
  ++ version_rows (if LIBMEMCACHED_AWESOME then "libmemcached-awesome" else "libmemcached")
  ++ [if HAVE_MEMCACHED_SASL then ("SASL support", "yes") else ("SASL support", "no");
      if HAVE_MEMCACHED_SESSION then ("Session support", "yes") else ("Session support ", "no");
      if HAVE_MEMCACHED_IGBINARY then ("igbinary support", "yes") else ("igbinary support", "no");
      if HAVE_JSON_API then ("json support", "yes") else ("json support", "no");
      if HAVE_MEMCACHED_MSGPACK then ("msgpack support", "yes") else ("msgpack support", "no");
      if HAVE_ZSTD_H then ("zstd support", "yes") else ("zstd support", "no")].
End Info.

(** ** The name of a callable, for messages *)

(** [fci->function_name] is the zval the caller passed: a string, a closure or
    another object with its class, or the array of a method. *)
Inductive function_name : Type :=
| NameString (s : string)
| NameObject (class_name : string)
| NameArray.

Record zend_fcall : Type := mkFcall {
  fci_object : option string;          (* the class of fci->object *)
  fci_function_name : function_name;
  function_handler_name : string       (* fci_cache->function_handler *)
}.

Definition php_memc_printable_func (f : zend_fcall) : outcome unit string :=
  match fci_object f with
  | Some class_name => Ret (c_str class_name ++ "::" ++ c_str (function_handler_name f))%string tt
  | None =>
      match fci_function_name f with
      | NameObject class_name => Ret (c_str class_name) tt
      | NameString s => Ret (c_str s) tt
      | NameArray => Undef              (* the bytes of an array, read as those of a string *)
      end
  end.
