(* ===== verification/RegistrationProofs.v ===== *)
(** * The module: what its start leaves in the engine *)

From S2P Require Import Prelude CLib Zend LibMemcached World Toy Payload Session Ini IniProofs.
From S2P Require Import ProtoServer ProtoServerProofs ArgInfo LegacyArgInfo Constants Registration.
#[local] Open Scope Z_scope.

(** ** No constant is declared twice *)

(** A build of everything. *)
#[local] Instance full_optional : OptionalMethods := {| HAVE_MEMCACHED_SET_ENCODING_KEY := true |}.
#[local] Instance full_constants : LibraryConstants := {|
  HAVE_MEMCACHED_SESSION := true; HAVE_MEMCACHED_PROTOCOL := true;
  MEMCACHED_HASH_MD5 := 1; MEMCACHED_HASH_CRC := 2; MEMCACHED_HASH_FNV1_64 := 3;
  MEMCACHED_HASH_FNV1A_64 := 4; MEMCACHED_HASH_FNV1_32 := 5; MEMCACHED_HASH_FNV1A_32 := 6;
  MEMCACHED_HASH_HSIEH := 7; MEMCACHED_HASH_MURMUR := 8;
  MEMCACHED_DISTRIBUTION_VIRTUAL_BUCKET := 6;
  PROTOCOL_BINARY_RESPONSE_KEY_EEXISTS := 2; PROTOCOL_BINARY_RESPONSE_E2BIG := 3;
  PROTOCOL_BINARY_RESPONSE_EINVAL := 4; PROTOCOL_BINARY_RESPONSE_NOT_STORED := 5;
  PROTOCOL_BINARY_RESPONSE_DELTA_BADVAL := 6; PROTOCOL_BINARY_RESPONSE_NOT_MY_VBUCKET := 7;
  PROTOCOL_BINARY_RESPONSE_AUTH_ERROR := 32; PROTOCOL_BINARY_RESPONSE_AUTH_CONTINUE := 33;
  PROTOCOL_BINARY_RESPONSE_ENOMEM := 130; PROTOCOL_BINARY_RESPONSE_NOT_SUPPORTED := 131;
  PROTOCOL_BINARY_RESPONSE_EINTERNAL := 132; PROTOCOL_BINARY_RESPONSE_EBUSY := 133;
  PROTOCOL_BINARY_RESPONSE_ETMPFAIL := 134
|}.

(** The names of its constants; another build leaves some of them out. *)
Definition all_constant_names : list string := Eval vm_compute in php_memc_register_constants.*1.

Fixpoint left_out_of (l full : list string) : bool :=
  match l, full with
  | [], _ => true
  | _, [] => false
  | x :: l', y :: full' => if String.eqb x y then left_out_of l' full' else left_out_of l full'
  end.

Lemma left_out_sublist full l : left_out_of l full = true → sublist l full.
Proof.
  revert l. induction full as [|y full IH]; intros [|x l]; cbn; try done;
    [intros _; apply sublist_nil_l|].
  destruct (String.eqb_spec x y) as [->|]; intros Hl; [by apply sublist_skip, IH|].
  by apply sublist_cons, IH.
Qed.

Lemma constants_distinct `{BuildConfig} `{OptionalMethods} `{MemcachedNumbers} `{ProtocolNumbers}
    `{LibraryConstants} : NoDup php_memc_register_constants.*1.
Proof.
  assert (NoDup all_constant_names) as Hfull
    by (refine (proj1 (bool_decide_eq_true _) _); vm_compute; reflexivity).
  apply (sublist_NoDup _ all_constant_names Hfull). apply left_out_sublist.
  unfold php_memc_register_constants, behavior_constants, result_constants, result_codes,
    server_constants.
  destruct (_ >=? 16777219), (_ >=? 16777240), (_ >=? 16777224), HAVE_MEMCACHED_SASL,
    HAVE_MEMCACHED_PROTOCOL; vm_compute; reflexivity.
Qed.

Section Start.
Context {E : Type} `{ModuleEngineLaws E} `{PhpVersion} `{BuildConfig} `{OptionalMethods}
  `{LibraryConstants} `{MemcachedNumbersLaws} `{ProtocolNumbers} `{ZendIniLaws}.
Implicit Types (w : statics E) (v : engine_view).

Definition view_of w : engine_view := view (st_engine w).

Lemma engine_call_run {A} (f : E → A * E) w :
  engine_call f w = Ret (f (st_engine w)).1 (with_engine (f (st_engine w)).2 w).
Proof. unfold engine_call. by destruct (f (st_engine w)). Qed.

Lemma with_classes_compose f g v : with_classes f (with_classes g v) = with_classes (f ∘ g) v.
Proof. done. Qed.

(** A class that was just registered, when its entry is changed. *)
Lemma alter_new_class f c ce v :
  with_classes (alter f c) (with_classes (insert c ce) v) = with_classes (insert c (f ce)) v.
Proof. unfold with_classes. cbn. by rewrite alter_insert_eq. Qed.

(** The methods of the class, and whether the password of [setSaslAuthData] is kept
    out of stack traces. *)
Definition class_methods : list (string * zend_arg_info) :=
  if PHP_VERSION_ID <? 80000 then LegacyArgInfo.class_Memcached_methods
  else ArgInfo.class_Memcached_methods.

Definition server_methods : list (string * zend_arg_info) :=
  if PHP_VERSION_ID <? 80000 then LegacyArgInfo.class_MemcachedServer_methods
  else ArgInfo.class_MemcachedServer_methods.

Definition sensitive_parameters : list (string * Z * string) :=
  if (PHP_VERSION_ID >=? 80200) && HAVE_MEMCACHED_SASL
  then [("setsaslauthdata"%string, 1, "SensitiveParameter"%string)] else [].

Definition memcached_class (l : constants) : zend_class_entry :=
  mkClass "Memcached" class_methods None (Some php_memc_object_new_fn) l sensitive_parameters.

Definition server_class : zend_class_entry :=
  mkClass "MemcachedServer" server_methods None (Some php_memc_server_new_fn) [] [].

Definition new_class (name : string) (c : nat) (ce : zend_class_entry) v : engine_view :=
  with_class_table (insert name c) (with_classes (insert c ce) v).

Lemma register_class_Memcached_run w :
  ∃ c e', register_class_Memcached w = Ret c (with_engine e' w)
    ∧ classes (view_of w) !! c = None
    ∧ view e' = new_class "memcached" c
        (mkClass "Memcached" class_methods None None [] sensitive_parameters) (view_of w).
Proof.
  unfold register_class_Memcached, legacy_register_class_Memcached, new_register_class_Memcached,
    class_methods, sensitive_parameters.
  destruct (Z.ltb_spec PHP_VERSION_ID 80000) as [Hold|Hnew].
  - rewrite engine_call_run.
    destruct (zend_register_internal_class_ex _ _ _) as [c e'] eqn:R.
    apply register_class_law in R as [Hf Hv]. exists c, e'. split; [done|]. split; [done|].
    rewrite Hv. replace (PHP_VERSION_ID >=? 80200) with false by lia. reflexivity.
  - rewrite (bind_Ret _ _ _ _ _ (engine_call_run _ _)).
    destruct (zend_register_internal_class_ex _ _ _) as [c e'] eqn:R.
    apply register_class_law in R as [Hf Hv]. cbn [fst snd].
    destruct ((PHP_VERSION_ID >=? 80200) && HAVE_MEMCACHED_SASL).
    + eexists c, _. split; [reflexivity|]. split; [done|]. cbn. rewrite attribute_law, Hv.
      unfold new_class, with_classes, with_class_table. cbn. by rewrite alter_insert_eq.
    + exists c, e'. split; [done|]. split; [done|]. by rewrite Hv.
Qed.

(** The class of the objects, and the type of their persistent handles. *)
Lemma minit_memcached_class_run n w :
  ∃ c t e', minit_memcached_class n w
      = Ret tt (with_engine e' (with_memcached_ce (Some c) (with_le_memc t (with_object_handlers
          (memcached_handlers offset_in_object php_memc_object_free_storage_fn) w))))
    ∧ classes (view_of w) !! c = None ∧ list_destructors (view_of w) !! t = None
    ∧ view e' = new_class "memcached" c (memcached_class [])
        (with_destructors (insert t (php_memc_dtor_fn, "Memcached persistent connection"%string, n))
           (view_of w)).
Proof.
  unfold minit_memcached_class. rewrite modify_bind, (bind_Ret _ _ _ _ _ (engine_call_run _ _)).
  destruct (zend_register_list_destructors_ex _ _ _ _) as [t e1] eqn:R1.
  apply register_dtor_law in R1 as [Ht Hv1]. cbn [fst snd]. rewrite modify_bind.
  match goal with |- context [(register_class_Memcached ≫= _) ?w1] =>
    destruct (register_class_Memcached_run w1) as (c & e2 & R2 & Hc & Hv2) end.
  rewrite (bind_Ret _ _ _ _ _ R2), modify_bind.
  unfold view_of in *. cbn in Hc, Hv2. rewrite Hv1 in Hc, Hv2.
  eexists c, t, _. split; [reflexivity|]. split; [done|]. split; [done|].
  cbn. rewrite ce_update_law, Hv2. unfold new_class, with_classes, with_class_table. cbn.
  by rewrite alter_insert_eq.
Qed.

Lemma minit_server_class_run w :
  HAVE_MEMCACHED_PROTOCOL = true →
  ∃ c e', minit_server_class w
      = Ret tt (with_engine e' (with_server_ce (Some c) (with_server_handlers
          (memcached_handlers offset_in_server php_memc_server_free_storage_fn) w)))
    ∧ classes (view_of w) !! c = None
    ∧ view e' = new_class "memcachedserver" c server_class (view_of w).
Proof.
  intros Hp. unfold minit_server_class. rewrite Hp, modify_bind.
  set (w1 := with_server_handlers _ w).
  assert (∃ c e', register_class_MemcachedServer w1 = Ret c (with_engine e' w1)
    ∧ classes (view_of w) !! c = None
    ∧ view e' = new_class "memcachedserver" c
                  (mkClass "MemcachedServer" server_methods None None [] []) (view_of w))
    as (c & e1 & R1 & Hc & Hv1).
  { unfold register_class_MemcachedServer, legacy_register_class_MemcachedServer,
      new_register_class_MemcachedServer, server_methods.
    destruct (PHP_VERSION_ID <? 80000); rewrite engine_call_run;
      destruct (zend_register_internal_class_ex _ _ _) as [c e'] eqn:R;
      apply register_class_law in R as [Hf Hv]; by exists c, e'. }
  rewrite (bind_Ret _ _ _ _ _ R1), modify_bind. eexists c, _. split; [reflexivity|].
  split; [done|]. cbn. rewrite ce_update_law, Hv1. unfold new_class, with_classes, with_class_table.
  cbn. by rewrite alter_insert_eq.
Qed.

(** The class exceptions are derived from. *)
Definition exception_base v : nat :=
  match spl_ce_RuntimeException v with
  | Some c => c
  | None => default (zend_ce_exception v) (class_table v !! "runtimeexception"%string)
  end.

Lemma get_exception_base_run w :
  ∃ e', php_memc_get_exception_base 0 w = Ret (exception_base (view_of w)) (with_engine e' w)
    ∧ ∃ c, view e' = with_runtime_exception c (view_of w).
Proof.
  unfold php_memc_get_exception_base, exception_base. rewrite gets_bind. cbn [Z.eqb].
  fold (view_of w). assert (∀ v, with_runtime_exception (spl_ce_RuntimeException v) v = v) as Hid
    by (by intros []).
  destruct (spl_ce_RuntimeException (view_of w)) as [c|] eqn:Hspl.
  { exists (st_engine w). split; [by destruct w|]. exists (Some c). by rewrite <- Hspl, Hid. }
  destruct (class_table (view_of w) !! "runtimeexception"%string) as [c|].
  - eexists. split; [reflexivity|]. exists (Some c). apply set_spl_law.
  - exists (st_engine w). split; [by destruct w|]. exists None. by rewrite <- Hspl, Hid.
Qed.

Lemma minit_exception_class_run w :
  ∃ c e', minit_exception_class w = Ret tt (with_engine e' (with_exception_ce (Some c) w))
    ∧ classes (view_of w) !! c = None
    ∧ ∃ spl, view e' = new_class "memcachedexception" c
        (mkClass "MemcachedException" [] (Some (exception_base (view_of w))) None [] [])
        (with_runtime_exception spl (view_of w)).
Proof.
  unfold minit_exception_class. destruct (get_exception_base_run w) as (e1 & R1 & spl & Hv1).
  rewrite (bind_Ret _ _ _ _ _ R1), (bind_Ret _ _ _ _ _ (engine_call_run _ _)).
  cbn [st_engine with_engine].
  destruct (zend_register_internal_class_ex _ _ _) as [c e'] eqn:R.
  apply register_class_law in R as [Hf Hv]. rewrite Hv1 in *. cbn [fst snd].
  exists c, e'. split; [reflexivity|]. split; [done|]. exists spl. exact Hv.
Qed.

(** All the constants of a list. *)
Definition with_constants (l : constants) (ce : zend_class_entry) : zend_class_entry :=
  mkClass (ce_name ce) (function_table ce) (ce_parent ce) (create_object ce)
    (constants_table ce ++ l) (parameter_attributes ce).

Lemma declare_constants_run l c ce w :
  memcached_ce w = Some c → classes (view_of w) !! c = Some ce →
  NoDup (constants_table ce ++ l).*1 →
  ∃ e', declare_constants l w = Ret tt (with_engine e' w)
    ∧ view e' = with_classes (insert c (with_constants l ce)) (view_of w).
Proof.
  intros Hce. revert ce w Hce. induction l as [|k l IH]; intros ce w Hce Hc Hnd; cbn [declare_constants].
  { exists (st_engine w). split; [by destruct w|]. unfold with_constants. rewrite app_nil_r.
    unfold view_of in *. destruct (view (st_engine w)) as [cl] eqn:Ev. cbn in *.
    unfold with_classes. cbn. by rewrite insert_id by (by destruct ce). }
  unfold php_memc_get_ce. rewrite gets_bind, Hce. unfold engine_do. rewrite modify_bind.
  assert (k.1 ∉ (constants_table ce).*1) as Hk.
  { rewrite fmap_app in Hnd. apply NoDup_app in Hnd as (_ & Hd & _).
    intros Hin. apply (Hd _ Hin). left. }
  pose proof (declare_law (st_engine w) c k ce Hc Hk) as Hv.
  destruct (IH (with_constant k ce) (with_engine (zend_declare_class_constant (st_engine w) c k) w))
    as (e' & R & Hv'); [done| | |].
  - unfold view_of in *. cbn. rewrite Hv. cbn. by rewrite lookup_alter_eq, Hc.
  - cbn. by rewrite <- app_assoc.
  - exists e'. rewrite R. split; [by destruct w|]. unfold view_of in *. rewrite Hv'. cbn.
    rewrite Hv. unfold with_classes, with_constants, with_constant. cbn.
    by rewrite insert_alter_eq, <- app_assoc.
Qed.

(** The settings. *)
Lemma minit_settings_run w :
  settings_ok (st_settings w) →
  ∃ e' i, minit_settings w = Ret tt (with_settings i (with_engine e' w))
    ∧ settings_ok i ∧ view e' = with_directives ini_entries (view_of w).
Proof.
  intros Hok. unfold minit_settings. rewrite (bind_Ret _ _ _ _ _ (engine_call_run _ _)).
  destruct (zend_register_ini_entries _ _) as [updates e'] eqn:R.
  apply register_ini_law in R as [Hu Hv]. cbn [fst snd].
  destruct (ini_updates_ok updates) with (i := st_settings w) as (i & Ri & Hi); [|done|].
  { intros e v Hin _ ->. rewrite Forall_forall in Hu. destruct (Hu _ Hin) as [_ [? ?]]. done. }
  exists e', i. unfold on_settings. cbn. by rewrite Ri.
Qed.

(** The session handler. *)
Lemma php_memc_session_minit_run n w :
  ∃ t e' ok, php_memc_session_minit n w = Ret tt (with_engine e' (with_le_memc_sess t w))
    ∧ list_destructors (view_of w) !! t = None
    ∧ view e' = let v := with_destructors (insert t (php_memc_sess_dtor_fn,
                           "Memcached Sessions persistent connection"%string, n)) (view_of w) in
                if (ok : bool) then with_session_modules (union {["memcached"%string]}) v else v.
Proof.
  unfold php_memc_session_minit. rewrite (bind_Ret _ _ _ _ _ (engine_call_run _ _)).
  destruct (zend_register_list_destructors_ex _ _ _ _) as [t e1] eqn:R1.
  apply register_dtor_law in R1 as [Ht Hv1]. cbn [fst snd].
  rewrite modify_bind, (bind_Ret _ _ _ _ _ (engine_call_run _ _)). cbn [st_engine with_engine].
  destruct (php_session_register_module _ _) as [ok e2] eqn:R2.
  apply session_module_law in R2. cbn in R2. rewrite Hv1 in R2. exists t, e2, ok.
  split; [reflexivity|]. split; [done|exact R2].
Qed.

(** *** The start as a whole *)
Definition module_loaded (e : E) : statics E :=
  mkStatics e (mkIni GINIT []) false 0 0 None None None None None.

(** From [v] to [v'] the engine keeps its classes, types of list entries and session
    modules; only [names] may name other classes than before. *)
Record extends (names : list string) v v' : Prop := {
  ext_classes p ce : classes v !! p = Some ce → classes v' !! p = Some ce;
  ext_table k : k ∉ names → class_table v' !! k = class_table v !! k;
  ext_destructors t d : list_destructors v !! t = Some d → list_destructors v' !! t = Some d;
  ext_modules : session_modules v ⊆ session_modules v'
}.

Lemma extends_trans l1 l2 v1 v2 v3 :
  extends l1 v1 v2 → extends l2 v2 v3 → extends (l1 ++ l2) v1 v3.
Proof.
  intros [C1 T1 D1 M1] [C2 T2 D2 M2]. split; [auto| |auto|by etrans].
  intros k Hk. rewrite not_elem_of_app in Hk. by rewrite T2, T1 by tauto.
Qed.

Lemma new_class_extends name c ce v :
  classes v !! c = None → extends [name] v (new_class name c ce v).
Proof.
  intros Hc. split; cbn; [|intros k Hk|done|done].
  - intros p x Hp. rewrite lookup_insert_ne; [done|congruence].
  - rewrite lookup_insert_ne; [done|]. intros ->. apply Hk. left.
Qed.

Lemma destructor_extends t d v :
  list_destructors v !! t = None → extends [] v (with_destructors (insert t d) v).
Proof.
  intros Ht. split; cbn; [done|done| |done]. intros t' d' Hd. rewrite lookup_insert_ne; congruence.
Qed.

Lemma runtime_exception_extends spl v : extends [] v (with_runtime_exception spl v).
Proof. by split. Qed.

Lemma session_module_extends name v : extends [] v (with_session_modules (union {[name]}) v).
Proof. split; cbn; set_solver. Qed.

Lemma directives_extends l v : extends [] v (with_directives l v).
Proof. by split. Qed.

Lemma new_class_base name c ce v :
  name ≠ "runtimeexception"%string → exception_base (new_class name c ce v) = exception_base v.
Proof. intros Hn. unfold exception_base. cbn. by rewrite lookup_insert_ne. Qed.

(** A class the module has registered under a name. *)
Definition named v (name : string) (c : option nat) (ce : zend_class_entry) : Prop :=
  ∃ p, c = Some p ∧ classes v !! p = Some ce ∧ class_table v !! name = Some p.

Lemma named_new name c ce v : named (new_class name c ce v) name (Some c) ce.
Proof. exists c. cbn. by rewrite !lookup_insert_eq. Qed.

Lemma named_extends l v v' name c ce : extends l v v' → name ∉ l → named v name c ce → named v' name c ce.
Proof.
  intros Hx Hn (p & -> & Hp & Ht). exists p. split; [done|].
  split; [by eapply ext_classes|]. by rewrite (ext_table _ _ _ Hx).
Qed.

Lemma named_other v name c p ce x :
  p ≠ c → named v name (Some p) ce → named (with_classes (insert c x) v) name (Some p) ce.
Proof.
  intros Hne (q & [= <-] & Hq & Ht). exists p. cbn. by rewrite lookup_insert_ne.
Qed.

(** What the start has registered, and where the static variables point to. *)
Record registered w v0 : Prop := {
  reg_class :
    named (view_of w) "memcached" (memcached_ce w) (memcached_class php_memc_register_constants);
  reg_server : HAVE_MEMCACHED_PROTOCOL = true →
    named (view_of w) "memcachedserver" (memcached_server_ce w) server_class;
  reg_exception : named (view_of w) "memcachedexception" (memcached_exception_ce w)
    (mkClass "MemcachedException" [] (Some (exception_base v0)) None [] []);
  reg_le_memc : ∃ name n,
    list_destructors (view_of w) !! le_memc w = Some (php_memc_dtor_fn, name, n);
  reg_le_memc_sess : HAVE_MEMCACHED_SESSION = true →
    le_memc_sess w ≠ le_memc w
    ∧ ∃ name n, list_destructors (view_of w) !! le_memc_sess w = Some (php_memc_sess_dtor_fn, name, n);
  reg_handlers : memcached_object_handlers w
    = Some (mkHandlers offset_in_object None php_memc_object_free_storage_fn);
  reg_server_handlers : HAVE_MEMCACHED_PROTOCOL = true →
    memcached_server_object_handlers w
    = Some (mkHandlers offset_in_server None php_memc_server_free_storage_fn);
  reg_ini : ini_directives (view_of w) = ini_entries;
  reg_settings : settings_ok (st_settings w);
  reg_others : extends ["memcached"%string; "memcachedserver"%string; "memcachedexception"%string]
                 v0 (view_of w)
}.

(** Half way: the class is there, with the constants [l]. *)
Record begun (l : constants) w v0 : Prop := {
  b_class : named (view_of w) "memcached" (memcached_ce w) (memcached_class l);
  b_fresh p x : classes v0 !! p = Some x → memcached_ce w ≠ Some p;
  b_le_memc : ∃ name n,
    list_destructors (view_of w) !! le_memc w = Some (php_memc_dtor_fn, name, n);
  b_handlers : memcached_object_handlers w
    = Some (mkHandlers offset_in_object None php_memc_object_free_storage_fn);
  b_settings : settings_ok (st_settings w)
}.

Definition server_ready w : Prop :=
  HAVE_MEMCACHED_PROTOCOL = true →
  named (view_of w) "memcachedserver" (memcached_server_ce w) server_class
  ∧ memcached_server_ce w ≠ memcached_ce w
  ∧ memcached_server_object_handlers w
    = Some (mkHandlers offset_in_server None php_memc_server_free_storage_fn).

Definition exception_ready w v0 : Prop :=
  named (view_of w) "memcachedexception" (memcached_exception_ce w)
    (mkClass "MemcachedException" [] (Some (exception_base v0)) None [] [])
  ∧ memcached_exception_ce w ≠ memcached_ce w.

Lemma begun_extends names l w w' v0 :
  begun l w v0 → extends names (view_of w) (view_of w') → "memcached"%string ∉ names →
  memcached_ce w' = memcached_ce w → le_memc w' = le_memc w →
  memcached_object_handlers w' = memcached_object_handlers w → st_settings w' = st_settings w →
  begun l w' v0.
Proof.
  intros [Hc Hf (name & n & Ht) Hh Hs] Hx Hn Ec Et Eh Es. split; rewrite ?Ec, ?Et, ?Eh, ?Es; try done.
  - by eapply named_extends.
  - exists name, n. by eapply ext_destructors.
Qed.

Lemma stage_class n e :
  ∃ w, minit_memcached_class n (module_loaded e) = Ret tt w ∧ begun [] w (view e)
       ∧ extends ["memcached"%string] (view e) (view_of w)
       ∧ exception_base (view_of w) = exception_base (view e).
Proof.
  destruct (minit_memcached_class_run n (module_loaded e)) as (c & t & e1 & R & Hc & Ht & Hv).
  change (view_of (module_loaded e)) with (view e) in *.
  eexists. split; [exact R|]. split; [split; cbn|].
  - unfold view_of. cbn. rewrite Hv. apply named_new.
  - intros p x Hp [= ->]. congruence.
  - unfold view_of. cbn. rewrite Hv. cbn. rewrite lookup_insert_eq. by eexists _, _.
  - reflexivity.
  - apply GINIT_ok.
  - unfold view_of. cbn. rewrite Hv. split.
    + eapply (extends_trans [] ["memcached"%string]); [by apply destructor_extends|].
      by apply new_class_extends.
    + by rewrite new_class_base.
Qed.

Lemma stage_server w v0 :
  begun [] w v0 →
  ∃ w', minit_server_class w = Ret tt w' ∧ begun [] w' v0 ∧ server_ready w'
        ∧ extends ["memcachedserver"%string] (view_of w) (view_of w')
        ∧ exception_base (view_of w') = exception_base (view_of w).
Proof.
  intros Hb. destruct HAVE_MEMCACHED_PROTOCOL eqn:Hp.
  - destruct (minit_server_class_run w Hp) as (c & e' & R & Hc & Hv). eexists. split; [exact R|].
    set (w' := with_engine _ _).
    assert (view_of w' = new_class "memcachedserver" c server_class (view_of w)) as Hw by exact Hv.
    assert (extends ["memcachedserver"%string] (view_of w) (view_of w')) as Hx
      by (rewrite Hw; by apply new_class_extends).
    split; [eapply begun_extends; try done; clear; set_solver|]. split.
    + intros _. rewrite Hw. split; [apply named_new|]. split; [|reflexivity].
      intros E'. change (Some c = memcached_ce w) in E'.
      destruct (b_class _ _ _ Hb) as (q & Eq & Hq & _). congruence.
    + split; [done|]. rewrite Hw. by apply new_class_base.
  - unfold minit_server_class. rewrite Hp. exists w. split; [reflexivity|]. split; [done|].
    split; [intros E'; congruence|]. by repeat split.
Qed.

Lemma stage_exception w v0 :
  begun [] w v0 → server_ready w → exception_base (view_of w) = exception_base v0 →
  ∃ w', minit_exception_class w = Ret tt w' ∧ begun [] w' v0 ∧ server_ready w'
        ∧ exception_ready w' v0
        ∧ extends ["memcachedexception"%string] (view_of w) (view_of w').
Proof.
  intros Hb Hs Hbase. destruct (minit_exception_class_run w) as (c & e' & R & Hc & spl & Hv).
  eexists. split; [exact R|]. set (w' := with_engine _ _). rewrite Hbase in Hv.
  change (view e') with (view_of w') in Hv.
  assert (extends ["memcachedexception"%string] (view_of w) (view_of w')) as Hx.
  { rewrite Hv. apply (extends_trans [] _ _ _ _ (runtime_exception_extends spl _)).
    by apply new_class_extends. }
  split; [eapply begun_extends; try done; clear; set_solver|]. split.
  - intros Hp. destruct (Hs Hp) as (Hn & Hne & Hh). split; [|done].
    eapply named_extends; [exact Hx|clear; set_solver|exact Hn].
  - split; [|done]. split; [rewrite Hv; apply named_new|].
    intros E'. change (Some c = memcached_ce w) in E'.
    destruct (b_class _ _ _ Hb) as (q & Eq & Hq & _). congruence.
Qed.

Lemma stage_constants w v0 :
  begun [] w v0 → server_ready w → exception_ready w v0 → extends ["memcached"%string; "memcachedserver"%string; "memcachedexception"%string] v0 (view_of w) →
  ∃ w', declare_constants php_memc_register_constants w = Ret tt w'
        ∧ begun php_memc_register_constants w' v0 ∧ server_ready w' ∧ exception_ready w' v0
        ∧ extends ["memcached"%string; "memcachedserver"%string; "memcachedexception"%string]
            v0 (view_of w').
Proof.
  intros Hb Hs [He Hne] Hx. pose proof Hb as [(c & Hc & Hcl & Ht) Hf (name & n & Hle) Hh Hset].
  destruct (declare_constants_run php_memc_register_constants c (memcached_class []) w Hc Hcl)
    as (e' & R & Hv); [apply constants_distinct|].
  eexists. split; [exact R|]. set (w' := with_engine _ _).
  assert (∀ nm p ce, p ≠ memcached_ce w → named (view_of w) nm p ce → named (view_of w') nm p ce) as Hoth.
  { intros nm p ce Hp (q & -> & Hq). unfold view_of, w'. cbn. rewrite Hv. apply named_other; [congruence|].
    by exists q. }
  split; [|split; [|split]].
  - split; try done.
    + exists c. split; [done|]. unfold view_of, w'. cbn. rewrite Hv. cbn.
      by rewrite lookup_insert_eq.
    + exists name, n. unfold view_of, w'. cbn. by rewrite Hv.
  - intros Hp. destruct (Hs Hp) as (Hn & Hn' & Hh'). split; [by apply Hoth|done].
  - split; [by apply Hoth|done].
  - destruct Hx as [X1 X2 X3 X4]. unfold view_of, w'. cbn. rewrite Hv. split; cbn; try done.
    intros p x Hp. rewrite lookup_insert_ne; [by apply X1|]. intros <-. by apply (Hf _ _ Hp).
Qed.

(** The last two steps touch no class. *)
Lemma stage_settings w v0 names :
  begun php_memc_register_constants w v0 → server_ready w → exception_ready w v0 →
  extends names v0 (view_of w) →
  ∃ w', minit_settings w = Ret tt w' ∧ begun php_memc_register_constants w' v0
        ∧ server_ready w' ∧ exception_ready w' v0 ∧ extends names v0 (view_of w')
        ∧ ini_directives (view_of w') = ini_entries.
Proof.
  intros [Hc Hf Hle Hh Hset] Hs He Hx. destruct (minit_settings_run w Hset) as (e' & i & R & Hi & Hv).
  eexists. split; [exact R|]. set (w' := with_settings i _).
  assert (view_of w' = with_directives ini_entries (view_of w)) as Hw by exact Hv.
  split; [|split; [|split; [|split]]].
  - by split; try rewrite Hw.
  - intros Hp. rewrite Hw. by apply Hs.
  - unfold exception_ready. rewrite Hw. exact He.
  - rewrite <- (app_nil_r names). eapply extends_trans; [exact Hx|]. rewrite Hw. apply directives_extends.
  - by rewrite Hw.
Qed.

Lemma stage_session n w v0 names :
  begun php_memc_register_constants w v0 → server_ready w → exception_ready w v0 →
  extends names v0 (view_of w) → "memcached"%string ∈ names →
  ∃ w', php_memc_session_minit n w = Ret tt w' ∧ begun php_memc_register_constants w' v0
        ∧ server_ready w' ∧ exception_ready w' v0 ∧ extends names v0 (view_of w')
        ∧ ini_directives (view_of w') = ini_directives (view_of w)
        ∧ le_memc_sess w' ≠ le_memc w'
        ∧ ∃ name n, list_destructors (view_of w') !! le_memc_sess w' = Some (php_memc_sess_dtor_fn, name, n).
Proof.
  intros Hb Hs [He Hne] Hx Hn. destruct (php_memc_session_minit_run n w) as (t & e' & ok & R & Ht & Hv).
  eexists. split; [exact R|]. set (w' := with_engine e' _).
  assert (extends [] (view_of w) (view_of w')) as Hx'.
  { unfold view_of at 2, w'. cbn. rewrite Hv. cbn zeta.
    assert (extends [] (view_of w) (with_destructors (insert t (php_memc_sess_dtor_fn,
      "Memcached Sessions persistent connection"%string, n)) (view_of w))) as Hd
      by (by apply destructor_extends).
    destruct ok; [|exact Hd]. eapply (extends_trans [] []); [exact Hd|apply session_module_extends]. }
  assert (list_destructors (view_of w') !! t = Some (php_memc_sess_dtor_fn,
    "Memcached Sessions persistent connection"%string, n)) as Hd.
  { unfold view_of, w'. cbn. rewrite Hv. by destruct ok; cbn; rewrite lookup_insert_eq. }
  split; [eapply begun_extends; try done; by intros ?%elem_of_nil|]. split; [|split; [|split; [|split; [|split]]]].
  - intros Hp. destruct (Hs Hp) as (H' & Hne' & Hh'). split; [|done].
    eapply named_extends; [exact Hx'|by intros ?%elem_of_nil|exact H'].
  - split; [|done]. eapply named_extends; [exact Hx'|by intros ?%elem_of_nil|exact He].
  - rewrite <- (app_nil_r names). by eapply extends_trans.
  - unfold view_of at 1, w'. cbn. rewrite Hv. by destruct ok.
  - change (t ≠ le_memc w). intros ->. destruct (b_le_memc _ _ _ Hb) as (name & n' & Hle). congruence.
  - by eexists _, _.
Qed.

Lemma MINIT_registers n e :
  ∃ w, MINIT n (module_loaded e) = Ret true w ∧ registered w (view e).
Proof.
  unfold MINIT. destruct (stage_class n e) as (w1 & R1 & B1 & X1 & Y1).
  rewrite (bind_Ret _ _ _ _ _ R1). destruct (stage_server w1 _ B1) as (w2 & R2 & B2 & S2 & X2 & Y2).
  rewrite (bind_Ret _ _ _ _ _ R2). rewrite Y1 in Y2.
  destruct (stage_exception w2 _ B2 S2 Y2) as (w3 & R3 & B3 & S3 & E3 & X3).
  rewrite (bind_Ret _ _ _ _ _ R3).
  pose proof (extends_trans _ _ _ _ _ (extends_trans _ _ _ _ _ X1 X2) X3) as X. cbn in X.
  destruct (stage_constants w3 _ B3 S3 E3 X) as (w4 & R4 & B4 & S4 & E4 & X4).
  rewrite (bind_Ret _ _ _ _ _ R4).
  destruct (stage_settings w4 _ _ B4 S4 E4 X4) as (w5 & R5 & B5 & S5 & E5 & X5 & I5).
  rewrite (bind_Ret _ _ _ _ _ R5). destruct HAVE_MEMCACHED_SESSION eqn:Hsess.
  - destruct (stage_session n w5 _ _ B5 S5 E5 X5) as (w6 & R6 & B6 & S6 & E6 & X6 & I6 & Hne & Hle);
      [left|]. rewrite (bind_Ret _ _ _ _ _ R6). exists w6. split; [reflexivity|].
    split; [apply B6|intros Hp; apply (S6 Hp)|apply E6|apply B6|by intros _|apply B6
           |intros Hp; apply (S6 Hp)|congruence|apply B6|exact X6].
  - rewrite ret_bind. exists w5. split; [reflexivity|].
    split; [apply B5|intros Hp; apply (S5 Hp)|apply E5|apply B5|congruence|apply B5
           |intros Hp; apply (S5 Hp)|congruence|apply B5|exact X5].
Qed.
End Start.

(** C40: the module starts up as a whole.  Whatever classes, types of list entries,
    session modules and settings an engine has, [MINIT] returns SUCCESS, and then
    the static variables point to classes the engine knows by name: the client,
    with all of its methods and each of its constants once, the server, if it is
    built, and the exception, which is derived from RuntimeException when there is
    one and from Exception otherwise; objects cannot be cloned and are freed by the
    module's own functions; the persistent handles of the client and those of the
    sessions are list entries of different types, each with its own destructor;
    the table of settings is registered, and the settings that the configuration
    and the defaults give are valid; and everything the engine had is still there. *)
Theorem module_starts {E} `{ModuleEngineLaws E} `{PhpVersion} `{BuildConfig} `{OptionalMethods}
    `{LibraryConstants} `{MemcachedNumbersLaws} `{ProtocolNumbers} `{ZendIniLaws} (n : Z) (e : E) :
  ∃ w, MINIT n (module_loaded e) = Ret true w ∧ registered w (view e).
Proof. apply MINIT_registers. Qed.

(** An engine that is what can be seen of it, and a PHP 8.3. *)
#[local] Instance ToyEngine : ModuleEngine engine_view := {|
  view v := v;
  zend_register_list_destructors_ex v d name n :=
    let t := fresh (dom (list_destructors v)) in (t, with_destructors (insert t (d, name, n)) v);
  zend_register_internal_class_ex v c parent :=
    let p := fresh (dom (classes v)) in
    (p, new_class (zend_str_tolower (ce_name c)) p (with_parent parent c) v);
  ce_update v p f := with_classes (alter f p) v;
  set_spl_ce_RuntimeException v p := with_runtime_exception (Some p) v;
  zend_declare_class_constant v p k := with_classes (alter (with_constant k) p) v;
  zend_add_parameter_attribute v p a := with_classes (alter (with_attribute a) p) v;
  zend_register_ini_entries v l := ((λ i, (i, Some (ini_default i))) <$> l, with_directives l v);
  zend_unregister_ini_entries v := with_directives [] v;
  php_session_register_module v name := (true, with_session_modules (union {[name]}) v);
  sasl_done v := v
|}.

#[local] Instance ToyEngineLaws : ModuleEngineLaws engine_view.
Proof.
  split; cbn; try done.
  - intros e d name n t e' [= <- <-]. split; [|done]. apply not_elem_of_dom, is_fresh.
  - intros e c parent p e' [= <- <-]. split; [|done]. apply not_elem_of_dom, is_fresh.
  - intros e l updates e' [= <- <-]. split; [|done]. apply Forall_fmap, Forall_forall.
    intros i Hi. split; [done|by eexists].
  - by intros e name ok e' [= <- <-].
Qed.

#[local] Instance toy_version : PhpVersion := {| PHP_VERSION_ID := 80300 |}.

(** An engine with the two base classes, whose SPL is found by name. *)
Definition toy_engine : engine_view :=
  mkView {[0%nat := INIT_CLASS_ENTRY "Exception" []; 1%nat := INIT_CLASS_ENTRY "RuntimeException" []]}
    {["exception"%string := 0%nat; "runtimeexception"%string := 1%nat]} ∅ {["files"%string]} [] None 0.

Lemma module_starts_witness :
  ∃ w, MINIT 42 (module_loaded toy_engine) = Ret true w ∧ registered w toy_engine
       ∧ exception_base toy_engine = 1%nat.
Proof.
  destruct (module_starts 42 toy_engine) as (w & R & Hw). exists w.
  split; [exact R|]. split; [exact Hw|reflexivity].
Defined.

(** ** phpinfo *)
Section Info.
Context `{BuildConfig} `{OptionalMethods} `{LibraryConstants} `{MemcachedNumbers}
  `{ProtocolNumbers} `{LibraryVersions}.

(** The value of a row. *)
Definition info (name : string) : option string :=
  snd <$> find (λ r, String.eqb r.1 name) MINFO.

Definition says_yes (name : string) : bool := bool_decide (info name = Some "yes"%string).

(** Each row tells what the build has. *)
Lemma info_rows :
  says_yes "SASL support" = HAVE_MEMCACHED_SASL
  ∧ says_yes "Session support" = HAVE_MEMCACHED_SESSION
  ∧ says_yes "igbinary support" = HAVE_MEMCACHED_IGBINARY
  ∧ says_yes "json support" = HAVE_JSON_API
  ∧ says_yes "msgpack support" = HAVE_MEMCACHED_MSGPACK
  ∧ says_yes "zstd support" = HAVE_ZSTD_H.
Proof.
  unfold says_yes, info, MINFO, version_rows.
  assert (∀ (b : bool) (n : string), (if b then (n, "yes"%string) else (n, "no"%string))
    = (n, if b then "yes" else "no")%string) as Hrow by (by intros []).
  rewrite !Hrow. destruct (negb _), LIBMEMCACHED_AWESOME, HAVE_MEMCACHED_SESSION; cbn;
    repeat split; match goal with |- context [if ?b then "yes"%string else _] => by destruct b | _ => done end.
Qed.

(** What phpinfo says, what the class constants say and what works are the same. *)
Theorem module_info_tells_what_works :
  (says_yes "igbinary support" = true ↔ is_Some (serializer_named (Some "igbinary"%string)))
  ∧ (says_yes "json support" = true ↔ is_Some (serializer_named (Some "json"%string)))
  ∧ (says_yes "msgpack support" = true ↔ is_Some (serializer_named (Some "msgpack"%string)))
  ∧ (says_yes "zstd support" = true ↔ is_Some (compression_named (Some "zstd"%string)))
  ∧ (says_yes "SASL support" = true ↔ has_method "setSaslAuthData" = true)
  ∧ (says_yes "Session support" = true ↔ sess_locking ∈ ini_entries)
  ∧ constant "HAVE_IGBINARY" = Some (ConstBool (says_yes "igbinary support"))
  ∧ constant "HAVE_JSON" = Some (ConstBool (says_yes "json support"))
  ∧ constant "HAVE_MSGPACK" = Some (ConstBool (says_yes "msgpack support"))
  ∧ constant "HAVE_ZSTD" = Some (ConstBool (says_yes "zstd support"))
  ∧ constant "HAVE_SASL" = Some (ConstBool (says_yes "SASL support"))
  ∧ constant "HAVE_SESSION" = Some (ConstBool (says_yes "Session support")).
Proof.
  destruct info_rows as (-> & -> & -> & -> & -> & ->).
  assert (∀ (A : Type) (b : bool) (x : A), b = true ↔ is_Some (if b then Some x else None)) as Hsome
    by (intros A [] x; split; [by eexists|done|done|by intros [? ?]]).
  assert (has_method "setSaslAuthData" = HAVE_MEMCACHED_SASL) as ->
    by (unfold has_method, ArgInfo.class_Memcached_methods;
        destruct HAVE_MEMCACHED_SASL, HAVE_MEMCACHED_SET_ENCODING_KEY; reflexivity).
  assert (HAVE_MEMCACHED_SESSION = true ↔ sess_locking ∈ ini_entries) as <-.
  { unfold ini_entries. destruct HAVE_MEMCACHED_SESSION; [|split; [done|]].
    - split; [intros _; left|done].
    - intros Hin. by apply (bool_decide_eq_true_2 _) in Hin. }
  unfold serializer_named, compression_named. cbn.
  rewrite !andb_true_r, !andb_false_r. repeat split; try apply Hsome; done.
Qed.
End Info.

(** ** The name of a callable *)

(** There is a name unless the callable is an array without an object, that is, a
    static method given as an array of strings. *)
Theorem printable_func_of_static_method f :
  php_memc_printable_func f = Undef ↔ fci_object f = None ∧ fci_function_name f = NameArray.
Proof. unfold php_memc_printable_func. destruct (fci_object f), (fci_function_name f); naive_solver. Qed.
